(* ===== verification/_CoqProject ===== *)
-Q . S2P
Prelude.v
Monad.v
Crc.v
Cobs.v
MsgCodec.v
FrameRx.v
Config.v
Decision.v
Health.v
BaudSweep.v
ArqCache.v
Arq.v
Log.v
Blink.v
OtaCore.v
OtaHandlers.v
Hal.v
EspHal.v
LinkState.v
Comm.v
MockComm.v
PingPong.v
Ping.v
PingInv.v
PingSends.v
Pong.v
Timing.v
Tx.v
Core.v
Sweep.v
Gbn.v
Rx.v
Timers.v
Frames.v
Api.v
Recv.v
Sender.v
Send.v
SweepInv.v
System.v
UartEvent.v
Receiver.v
Wire.v
Acks.v
Messages.v
Trace.v
Emits.v
Flow.v
EndToEnd.v
Recovery.v
Dispatch.v
Delivery.v
Handshake.v
PowerOn.v
Sync.v
WebCore.v
WebLog.v
WebHandlers.v
WebLife.v
AutoLink.v
AutoLinkLaws.v
PingPongMain.v
