(* ===== verification/Prelude.v ===== *)
(** * AutoLink: a verification library for the self-healing UART link

    AutoLink joins two ESP32 boards by a UART. The two ends find a common baud
    rate by a handshake (the baud sweep), lock, and then carry messages over a
    Go-Back-N protocol of COBS frames until a watchdog, an error burst or a BREAK
    sends them back to the sweep. Around the link are the ESP32 hardware layer,
    a logger, a web monitor with over-the-air update, and two demo applications.
    This library models that program and proves what it promises.

    ** Conventions

    A C++ object is a record with the member names of the class; a method is a
    computation of the state-and-failure monad [Monad.M], whose [None] is a run
    that does not return within its fuel or that does something C++ leaves
    undefined (a division by zero). Integers are [Z], wrapped by [u8], [u16],
    [u32], [u64], [i32] where the source stores into or casts to a type of that
    width. [None] is also FreeRTOS's assertion on a semaphore that could not be
    created. Whatever is not under [src/] (the ESP-IDF, FreeRTOS, Arduino, the C
    library's [snprintf] of numbers apart) is a parameter: a type class of
    operations over an abstract state with a class of laws ([Hal.IHal] and
    [IHalLaws], [EspHal.Idf] and [IdfLaws], [Comm]), or an argument that says what
    a call answered, a refused allocation included ([malloc] and [semCreate] of
    [IHal], [own] of [Idf]). Methods of the source that release the link's lock take
    [yield], what the other tasks do meanwhile; the theorems quantify over it.
    Log lines and their arguments are left out of the methods.

    ** The files, in order

    Foundations: [Prelude] (integers, arrays, tactics, lemmas on lists),
    [Monad] (the monad, its equations, [wpd]/[wp]/[wlp] and [keeps]).

    Wire formats ([util/codec], [link/io]): [Crc] ([UtilCrc.cpp]: the tables are
    the polynomials; what they detect), [Cobs] ([UtilCobs.cpp]: round trip, no
    zero, size), [MsgCodec] ([LinkMsgCodec]: the message header, the resync scan),
    [FrameRx] ([LinkFrameRx]: the receiver's automaton over any listener; chunking
    does not matter).

    Pure parts of the link: [Config] ([AutoLinkConfig.h]: clamps, chunk
    arithmetic, heap budget), [Decision] ([LinkDecision.h]), [Health]
    ([LinkHealth.h]), [BaudSweep] ([LinkBaudSweep]), [ArqCache] ([ArqCache.cpp]:
    refines a map from sequence numbers to payloads), [Arq] ([LinkArq]: the
    sender's tables and the window they describe), [Timing] ([LinkBreak.cpp] and
    the time computations of [Link.h]).

    The link ([class Link], module by module as its source files): [LinkState]
    (the members, grouped), [Tx] ([LinkTx.cpp]), [Core] ([LinkCore.cpp],
    [LinkSweep.cpp]: phases, reset, lock, errors), [Sweep] ([LinkSweepGlue.cpp],
    [LinkTimersSwp.cpp]), [Gbn] ([LinkTimersGbn.cpp]), [Rx] ([LinkRx.cpp]),
    [Timers] ([LinkTimersOk.cpp], [LinkTimerBreak.cpp]), [Api] and [Recv]
    ([LinkApi.cpp] and the waits of [LinkArq.cpp]).

    The hardware: [Hal] (the interface [IHal.h] and the desktop mock), [EspHal]
    ([EspHal.h], [EspHal.cpp]: it implements the interface's laws, its buffers are
    a byte queue; [begin] sets everything up or gives everything back, but for the
    one path on which the timer fails and the event task is left behind,
    [EspHal.orphan_runs]), [UartEvent] ([EspHalUartEvent.h]: the
    task that turns driver events into the link's callbacks).

    Theorems about the link: [Frames] (the rules and the automation by which a
    method is shown to leave a part of the object alone), [Sender] and [Send] (the
    window of chunks in flight stays contiguous and bounded), [SweepInv] (every
    baud index stays in range; every handler returns), [System] (the transition
    system of events and calls, and both invariants of every reachable state),
    [Receiver] (in-order delivery), [Wire] (each frame reaches its callback),
    [Acks] (what an ACK and a NAK close), [Messages] ([recvMsg] against the byte
    queue), [Trace] and [Emits] (what each method writes), [Flow] (the sender's
    stream of chunks), [EndToEnd] (two ends over a wire that loses frames),
    [Recovery] (no reachable state of the two is a dead end), [Dispatch] and
    [Delivery] ([sendMsg] at one end and [recvMsg] at the other: messages from end
    to end), [Handshake] (the sweep's receive path implements an automaton, and two
    ends that have met lock), [PowerOn] ([begin] on both ends leads there), [Sync]
    (a SYNC send succeeds only on an acknowledgement).

    The applications: [Comm] (the link as they use it: a class with laws),
    [MockComm] (a scripted instance), [PingPong], [Ping], [PingInv], [PingSends],
    [Pong], [PingPongMain] ([src/al/pingpong]), [AutoLink] ([include/AutoLink.h])
    and [AutoLinkLaws] (the modelled library has the laws of [Comm]: what is proved
    of [Ping] over the interface holds on the whole stack).

    The rest: [Log] ([util/log]), [Blink] ([util/blink]), [OtaCore] and
    [OtaHandlers] (the update: archive parser, HTTP handlers), [WebCore],
    [WebLog], [WebHandlers], [WebLife] (the web monitor: its documents, its log
    feed under concurrent logging, its requests, its life cycle).

    ** How the parts interact

    [UartEvent] and the timer call into [Rx] and [Timers]; [Rx] feeds [FrameRx],
    whose listener is the link itself ([Rx.link_listener]); the sweep locks through
    [Core.lockOk] and every failure goes through [Core.reset]. The sender is [Api]
    over [Tx], [Arq] and [ArqCache], the retransmissions are [Gbn]. Applications
    reach all of this through [AutoLink]. The proofs follow the same lines: the
    invariants are proved per handler in [Sender] and [SweepInv] and put together
    in [System]; [Flow] and [Receiver] are the two ends of [EndToEnd], on which
    [Dispatch], [Messages] and [Delivery] build the message service.

    ** What the theorems show

    Correctness of the service: [Delivery.messages_delivered],
    [EndToEnd.end_to_end], [Recovery.no_dead_end], [Receiver.in_order_delivery],
    [Messages.message_stream]. That a session comes about:
    [PowerOn.power_on_locks], [Handshake.handshake_locks]; of SYNC mode:
    [Sync.sync_needs_ack]. Invariants of every
    reachable state: [System.reachable_window] (of an ASYNC link as long as no
    raw [Link::write] and no change to SYNC comes in: [System.messages_only]),
    [System.reachable_sweep] (whatever is called), [UartEvent.uart_task_safe]; termination: [System.event_total]. Exact behaviour
    of the protocol steps: [Acks], [Wire]. Data structures and codecs: [ArqCache],
    [FrameRx], [Cobs], [Crc], [MsgCodec], [Decision], [Config]. The device:
    [EspHal], [UartEvent]. Update, log, web monitor, applications: the theorems of
    their files. Findings of the modelling (places where the code does not do what
    it means to) are theorems too: [ArqCache.insert_oversize_drift],
    [EspHal.peekAt_loses_past_16], [WebCore.logs_json_comma],
    [WebHandlers.level_range_message], [WebLife.begin_twice_leaks],
    [WebLife.destroy_keeps_task], [WebLife.refused_stop],
    [Log.host_warns_every_drop], [EspHal.orphan_runs],
    [Delivery.partial_send_swallows], [System.raw_write_leaves_window],
    [OtaHandlers.stalled_upload_held], [OtaHandlers.write_refused_held].

    ** Bounds and fuel

    Loops over a list or a table recurse on it; others take fuel. The ACK and NAK
    walks ([Rx.ack_walk], [Rx.nak_walk]) are given 33 and 34 rounds, one and two
    more than the largest window; [System.event_total] shows that this is enough in
    every reachable state, also for the byte loop [Rx.rx_loop], whose fuel is the
    length of its input. The waits of the application's calls ([Api.drain_loop],
    [Api.wait_loop], [Api.await_loop], [Api.async_chunks]) have no bound of their
    own in the source: a full TX ring may stay full while the lock is released. They
    take the argument [fuel], theorems about them hold for every value of it, and a
    run that needs more is [None]; [MockComm] and the witnesses run them. The
    upload loops of [OtaHandlers] take the number of bytes and answers the socket
    has left ([recv_size]) and end within it unless the client stalls; the source
    tries again without bound then, and the handler is held at every number of
    rounds ([OtaHandlers.drain_fuel], [fw_fuel], [stalled_upload_held]); [OtaCore.feed_loop] takes a bound
    on the parser's rounds, shown to be enough. The
    window is at most 32 chunks over a ring of 254 numbers, the cache has 256 slots
    and 64 buffers: constants of the source.

    ** What is not modelled, and why

    The ESP-IDF, FreeRTOS, lwIP, WiFi, LittleFS and Arduino services: not part of
    the source. The generated dashboard ([web/generated]): string data; the handler
    that sends it is modelled. Log texts, [StateToStr], [LogState] and the host
    build's test hooks ([test_*], [AutoLinkTestAccessor]): they read state and
    print. The tests, the example sketch and the build files. Real time is the
    clock the hardware layer reports: a theorem that needs a bound on it says so
    ([UartEvent.break_rate_bound]). Preemption is at the points where the source
    releases the link's lock ([yield]); data races on members read outside the lock
    are not modelled. [Delivery] covers sends that are accepted or refused before
    anything is sent, and reads before a partial message has gone stale. A message
    of several chunks whose send is broken off half-way leaves the session up, and
    its first half swallows the next message ([Delivery.partial_send_swallows]):
    such sends are covered by the chunk-level theorems ([EndToEnd]) only. A message
    of one chunk is never broken off ([Send.single_never_partial]). SYNC mode is modelled and covered by
    [System], [SweepInv] and [Sync]; the end-to-end theorems are about ASYNC
    sessions. In
    [Handshake] a frame is received at the baud it was sent at and is lost at
    another (what a mistuned UART reads is not modelled), and only [PowerOn] and the
    frames themselves drive the two ends: the later sweep timers are covered by
    [SweepInv] and [System], not by a liveness theorem. *)
From stdpp Require Export base tactics list numbers option.
From Stdlib Require Export ZArith Lia.

#[export] Set Default Goal Selector "!".
#[global] Open Scope Z_scope.

(** ** Machine integers

    A C++ integer is a [Z]; the unsigned types wrap modulo a power of two
    wherever the source stores into (or casts to) one. *)
Definition u8 (x : Z) : Z := x mod 256.
Definition u16 (x : Z) : Z := x mod 65536.
Definition u32 (x : Z) : Z := x mod 4294967296.
Definition u64 (x : Z) : Z := x mod 18446744073709551616.

(** [(int32_t)x] and [(int)x]: the two's-complement reading of the low 32 bits. *)
Definition i32 (x : Z) : Z := (x + 2147483648) mod 4294967296 - 2147483648.

Definition is_byte (x : Z) : Prop := 0 <= x < 256.
Definition is_u16 (x : Z) : Prop := 0 <= x < 65536.
Definition is_u32 (x : Z) : Prop := 0 <= x < 4294967296.

Definition bytes (l : list Z) : Prop := Forall is_byte l.

(** [Z.lt]/[Z.le] tests read better than [Z.ltb] on the source's lines. *)
Declare Scope autolink_scope.
Delimit Scope autolink_scope with AL.
#[global] Open Scope autolink_scope.
Notation "a >? b" := (Z.ltb b a) (at level 70) : autolink_scope.
Notation "a >=? b" := (Z.leb b a) (at level 70) : autolink_scope.
Notation "a <>? b" := (negb (Z.eqb a b)) (at level 70) : autolink_scope.

(** C arrays: a list read and written at a [Z] index. A read outside the array
    yields the default and a write outside it is dropped; the bounds theorems
    show that neither happens. *)
Definition rd {A} (d : A) (l : list A) (i : Z) : A := nth (Z.to_nat i) l d.
Definition wr {A} (l : list A) (i : Z) (v : A) : list A := <[Z.to_nat i := v]> l.

Definition lenZ {A} (l : list A) : Z := Z.of_nat (length l).

#[global] Arguments rd {A} d l i : simpl never.
#[global] Arguments wr {A} l i v : simpl never.
#[global] Arguments lenZ {A} l : simpl never.

(** ** Record update

    [r <| f := v |>] replaces one field; [r <| g ; f := v |>] one field of the
    sub-record [g]. A record becomes updatable by an [Eta] instance. *)
Class Eta (R : Type) := eta : R -> R.
Definition Setter {R T : Type} (p : R -> T) : Type := (T -> T) -> R -> R.
Existing Class Setter.
Definition rset {R T : Type} (p : R -> T) {s : Setter p} : (T -> T) -> R -> R := s.

Ltac solve_setter p :=
  let R := match type of p with ?R -> _ => R end in
  let i := constr:(_ : Eta R) in
  let e := eval hnf in i in
  let b := eval pattern p in e in
  match b with
  | ?g p => let s := eval cbv beta in (fun f => g (fun r => f (p r))) in exact s
  end.

#[export] Hint Extern 1 (@Setter _ _ ?p) => solve_setter p : typeclass_instances.

Notation "r <| p := v |>" := (rset p (fun _ => v) r)
  (at level 1, left associativity, p at level 1, v at level 99) : autolink_scope.
Notation "r <| p ::= f |>" := (rset p f r)
  (at level 1, left associativity, p at level 1, f at level 99) : autolink_scope.
Notation "r <| g ; p := v |>" := (rset g (rset p (fun _ => v)) r)
  (at level 1, left associativity, g at level 1, p at level 1, v at level 99) : autolink_scope.
Notation "r <| g ; p ::= f |>" := (rset g (rset p f) r)
  (at level 1, left associativity, g at level 1, p at level 1, f at level 99) : autolink_scope.

(** ** Tactics *)

(** [lia] over machine integers: unfold the wraps, turn [mod] and [/] into
    equations. *)
Ltac mlia :=
  unfold u8, u16, u32, u64, i32, is_byte, is_u16, is_u32, lenZ in *;
  Z.div_mod_to_equations; lia.

(** Case analysis on every boolean comparison that is stuck in the goal. *)
Ltac zbool_step :=
  match goal with
  | |- context [Z.eqb ?a ?b] => destruct (Z.eqb_spec a b)
  | |- context [Z.ltb ?a ?b] => destruct (Z.ltb_spec a b)
  | |- context [Z.leb ?a ?b] => destruct (Z.leb_spec a b)
  end.
Ltac zbool := repeat (zbool_step; simpl in *).

(** Turn boolean comparisons in hypotheses into propositions. *)
Ltac bool_prop :=
  repeat match goal with
  | H : (_ && _)%bool = true |- _ => apply andb_true_iff in H as [? ?]
  | H : (_ || _)%bool = false |- _ => apply orb_false_iff in H as [? ?]
  | H : negb _ = true |- _ => apply negb_true_iff in H
  | H : negb _ = false |- _ => apply negb_false_iff in H
  | H : (_ =? _) = true |- _ => apply Z.eqb_eq in H
  | H : (_ =? _) = false |- _ => apply Z.eqb_neq in H
  | H : (_ <? _) = true |- _ => apply Z.ltb_lt in H
  | H : (_ <? _) = false |- _ => apply Z.ltb_ge in H
  | H : (_ <=? _) = true |- _ => apply Z.leb_le in H
  | H : (_ <=? _) = false |- _ => apply Z.leb_gt in H
  end.

(** ** Machine integers: lemmas *)

Lemma u8_byte x : is_byte (u8 x).
Proof. unfold is_byte, u8. apply Z.mod_pos_bound. lia. Qed.

Lemma u16_range x : is_u16 (u16 x).
Proof. unfold is_u16, u16. apply Z.mod_pos_bound. lia. Qed.

Lemma u32_range x : is_u32 (u32 x).
Proof. unfold is_u32, u32. apply Z.mod_pos_bound. lia. Qed.

Lemma u8_small x : is_byte x -> u8 x = x.
Proof. intros. apply Z.mod_small. unfold is_byte in *. lia. Qed.

Lemma u16_small x : is_u16 x -> u16 x = x.
Proof. intros. apply Z.mod_small. unfold is_u16 in *. lia. Qed.

Lemma u32_small x : is_u32 x -> u32 x = x.
Proof. intros. apply Z.mod_small. unfold is_u32 in *. lia. Qed.

Lemma i32_small x : -2147483648 <= x < 2147483648 -> i32 x = x.
Proof. intros. unfold i32. rewrite Z.mod_small; lia. Qed.

(** The clamps the sources write as conditional assignments. *)
Lemma clamp_lo a b : (if a <? b then b else a) = Z.max a b.
Proof. destruct (Z.ltb_spec a b); lia. Qed.

Lemma clamp_hi a b : (if b <? a then b else a) = Z.min a b.
Proof. destruct (Z.ltb_spec b a); lia. Qed.

Create HintDb machine discriminated.
#[export] Hint Resolve u8_byte u16_range u32_range : machine.

(** ** Arrays: lemmas *)

Section Arrays.
Context {A : Type} (d : A).
Implicit Types (l : list A) (i j : Z).

Lemma lenZ_nonneg l : 0 <= lenZ l.
Proof. unfold lenZ. lia. Qed.

Lemma lenZ_app l k : lenZ (l ++ k) = lenZ l + lenZ k.
Proof. unfold lenZ. rewrite length_app. lia. Qed.

Lemma lenZ_nil : lenZ (@nil A) = 0.
Proof. done. Qed.

Lemma lenZ_cons x l : lenZ (x :: l) = lenZ l + 1.
Proof. unfold lenZ. simpl. lia. Qed.

Lemma lenZ_nonnil l : l <> [] -> 0 < lenZ l.
Proof. intros. unfold lenZ. destruct l; [done|]. cbn. lia. Qed.

Lemma length_wr l i v : length (wr l i v) = length l.
Proof. apply length_insert. Qed.

Lemma lenZ_wr l i v : lenZ (wr l i v) = lenZ l.
Proof. unfold lenZ. by rewrite length_wr. Qed.

Lemma rd_wr_eq l i v : 0 <= i < lenZ l -> rd d (wr l i v) i = v.
Proof.
  unfold rd, wr, lenZ. intros Hi.
  rewrite nth_lookup, list_lookup_insert_eq by lia. done.
Qed.

Lemma rd_wr_ne l i j v : 0 <= i -> 0 <= j -> i <> j -> rd d (wr l i v) j = rd d l j.
Proof.
  unfold rd, wr. intros Hi Hj Hn.
  rewrite !nth_lookup, list_lookup_insert_ne by lia. done.
Qed.

Lemma rd_wr l i j v :
  0 <= i -> 0 <= j < lenZ l -> rd d (wr l i v) j = if i =? j then v else rd d l j.
Proof.
  intros. destruct (Z.eqb_spec i j) as [->|].
  - by apply rd_wr_eq.
  - apply rd_wr_ne; lia.
Qed.

Lemma rd_replicate n x i : 0 <= i < Z.of_nat n -> rd d (replicate n x) i = x.
Proof.
  unfold rd. intros. rewrite nth_lookup, lookup_replicate_2 by lia. done.
Qed.

Lemma rd_in_range l i : 0 <= i < lenZ l -> l !! Z.to_nat i = Some (rd d l i).
Proof.
  unfold rd, lenZ. intros.
  destruct (lookup_lt_is_Some_2 l (Z.to_nat i)) as [x Hx]; [lia|].
  by rewrite nth_lookup, Hx.
Qed.

Lemma rd_ext l k :
  length l = length k -> (forall i, 0 <= i < lenZ l -> rd d l i = rd d k i) -> l = k.
Proof.
  intros Hl Hrd. apply list_eq. intros i.
  destruct (decide (i < length l)%nat) as [Hi|Hi].
  - assert (Hz : 0 <= Z.of_nat i < lenZ l) by (unfold lenZ; lia).
    pose proof (Hrd _ Hz) as He.
    assert (Hz' : 0 <= Z.of_nat i < lenZ k) by (unfold lenZ in *; lia).
    apply rd_in_range in Hz, Hz'. rewrite Nat2Z.id in *. by rewrite Hz, Hz', He.
  - rewrite !lookup_ge_None_2 by lia. done.
Qed.

(** [count p l]: the number of entries a scan [for (i...) if (p(l[i])) n++] finds. *)
Definition count (p : A -> bool) (l : list A) : Z :=
  foldr (fun x n => (if p x then 1 else 0) + n) 0 l.

Lemma count_app p l k : count p (l ++ k) = count p l + count p k.
Proof. induction l; simpl; lia. Qed.

Lemma count_nonneg p l : 0 <= count p l.
Proof. induction l; simpl; [lia|destruct (p a); lia]. Qed.

Lemma count_le p l : count p l <= lenZ l.
Proof. unfold lenZ. induction l; simpl; [lia|destruct (p a); lia]. Qed.

Lemma count_replicate p n x : count p (replicate n x) = if p x then Z.of_nat n else 0.
Proof. induction n as [|n IH]; simpl; [by destruct (p x)|]. rewrite IH. destruct (p x); lia. Qed.

Lemma count_wr p l i v :
  0 <= i < lenZ l ->
  count p (wr l i v) =
    count p l - (if p (rd d l i) then 1 else 0) + (if p v then 1 else 0).
Proof.
  unfold wr, rd, lenZ. intros Hi. remember (Z.to_nat i) as n eqn:En.
  assert (Hn : (n < length l)%nat) by lia. clear i Hi En.
  revert n Hn. induction l as [|x l IH]; intros [|n] Hn; simpl in *; try lia.
  rewrite IH by lia. lia.
Qed.

Lemma count_wr_in p l i v :
  0 <= i < lenZ l -> 0 <= count p (wr l i v) <= lenZ l.
Proof.
  intros. pose proof (count_nonneg p (wr l i v)). pose proof (count_le p (wr l i v)).
  unfold lenZ in *. rewrite length_wr in *. lia.
Qed.
End Arrays.

#[global] Arguments count {A} p l : simpl never.

Create Rewrite HintDb arrays.
#[export] Hint Rewrite @length_wr @length_app @length_replicate @length_insert
  @lenZ_app @lenZ_nil @lenZ_cons : arrays.

(** Lengths of literal lists, in hypotheses and goal. *)
Ltac len := autorewrite with arrays in *.

(** Right-nested appends. *)
Ltac apps := repeat first [ rewrite <- app_assoc | progress cbn [app] ].
Ltac apps_in H := repeat first [ rewrite <- app_assoc in H | progress cbn [app] in H ].

(** Writing at the position just after a prefix. *)
Lemma wr_middle {A} (p : list A) x y s i :
  i = lenZ p -> wr (p ++ x :: s) i y = p ++ y :: s.
Proof.
  intros ->. unfold wr, lenZ. rewrite Nat2Z.id.
  induction p as [|z p IH]; [done|]. simpl. f_equal. apply IH.
Qed.

Lemma lenZ_take {A} n (l : list A) : 0 <= n <= lenZ l -> lenZ (take (Z.to_nat n) l) = n.
Proof. unfold lenZ. intros. rewrite length_take. lia. Qed.

Lemma lenZ_pos_cons {A} (l : list A) : 0 < lenZ l -> exists x k, l = x :: k.
Proof. destruct l; [done|eauto]. Qed.

(** ** Byte lists *)

Lemma bytes_app l k : bytes (l ++ k) <-> bytes l /\ bytes k.
Proof. apply Forall_app. Qed.

Lemma bytes_cons x l : bytes (x :: l) <-> is_byte x /\ bytes l.
Proof. apply Forall_cons_iff. Qed.

Lemma bytes_take n l : bytes l -> bytes (take n l).
Proof. apply Forall_take. Qed.

Lemma bytes_drop n l : bytes l -> bytes (drop n l).
Proof. apply Forall_drop. Qed.

Lemma bytes_wr l i v : bytes l -> is_byte v -> bytes (wr l i v).
Proof. intros. by apply Forall_insert. Qed.

#[export] Hint Resolve bytes_take bytes_drop bytes_wr : machine.

(** ** Cutting a list at a [Z] *)

Lemma drop_at {A} (pre l : list A) d : lenZ pre = d -> drop (Z.to_nat d) (pre ++ l) = l.
Proof. intros <-. unfold lenZ. rewrite Nat2Z.id. apply drop_app_length. Qed.

Lemma take_at {A} (p l : list A) n : lenZ p = n -> take (Z.to_nat n) (p ++ l) = p.
Proof. intros <-. unfold lenZ. rewrite Nat2Z.id. apply take_app_length. Qed.

Lemma split_at {A} (l : list A) n :
  0 <= n <= lenZ l -> exists p q, l = p ++ q /\ lenZ p = n.
Proof.
  intros H. exists (take (Z.to_nat n) l), (drop (Z.to_nat n) l). rewrite take_drop.
  split; [done|]. unfold lenZ in *. rewrite length_take. lia.
Qed.

(** ** Little-endian words *)

Lemma lor_shiftl a b n :
  0 <= n -> 0 <= a < 2 ^ n -> Z.lor a (Z.shiftl b n) = a + b * 2 ^ n.
Proof.
  intros Hn Ha. rewrite <- Z.add_nocarry_lor.
  - by rewrite Z.shiftl_mul_pow2 by lia.
  - apply Z.bits_inj'. intros i Hi. rewrite Z.land_spec, Z.bits_0.
    destruct (Z.lt_ge_cases i n).
    + rewrite Z.shiftl_spec_low by lia. apply andb_false_r.
    + rewrite <- (Z.mod_small a (2 ^ n)), Z.mod_pow2_bits_high by lia. done.
Qed.

(** ** C strings

    The characters of an array before its terminator. *)
Fixpoint cstr (s : list Z) : list Z :=
  match s with
  | [] => []
  | c :: s => if c =? 0 then [] else c :: cstr s
  end.
