(* ===== verification/Monad.v ===== *)
(** * The effect monad of the link

    The C++ methods mutate one object (and the HAL behind it), return early and
    loop. [M S A] is a state monad over the object's state [S] with one failure
    outcome: [None] is a run that does not return within the fuel given to its
    blocking loops, or that executes an operation C++ leaves undefined. The
    file has the program logic of the development: weakest preconditions [wp]
    (the run returns and ...) and [wlp] (if the run returns then ...), both
    instances of [wpd], and [keeps], preservation of a state invariant. *)
From S2P Require Import Prelude.

Definition M (S A : Type) : Type := S -> option (A * S).

Definition ret {S A} (a : A) : M S A := fun s => Some (a, s).
Definition bind {S A B} (m : M S A) (f : A -> M S B) : M S B := fun s =>
  match m s with
  | Some (a, s') => f a s'
  | None => None
  end.

Notation "x <- m ;; k" := (bind m (fun x => k))
  (at level 100, m at next level, k at level 200, right associativity) : autolink_scope.
Notation "m ;; k" := (bind m (fun _ => k))
  (at level 100, k at level 200, right associativity) : autolink_scope.

Definition gets {S A} (f : S -> A) : M S A := fun s => Some (f s, s).
Definition modify {S} (f : S -> S) : M S unit := fun s => Some (tt, f s).
Definition stuck {S A} : M S A := fun _ => None.
Definition when {S} (b : bool) (m : M S unit) : M S unit := if b then m else ret tt.

(** ** Monad equations *)

Section Equations.
Context {S : Type}.

Lemma bind_eq {A B} (m : M S A) (f g : A -> M S B) s :
  (forall a s', m s = Some (a, s') -> f a s' = g a s') -> (bind m f) s = (bind m g) s.
Proof. unfold bind. intros Hfg. destruct (m s) as [[a s']|] eqn:E; auto. Qed.

Lemma bind_run {A B} (m : M S A) (f : A -> M S B) s a s' :
  m s = Some (a, s') -> (bind m f) s = f a s'.
Proof. unfold bind. by intros ->. Qed.

Lemma bind_eq_l {A B} (m m' : M S A) (f : A -> M S B) s :
  m s = m' s -> (bind m f) s = (bind m' f) s.
Proof. unfold bind. by intros ->. Qed.

Lemma bind_assoc {A B C} (m : M S A) (f : A -> M S B) (g : B -> M S C) s :
  bind (bind m f) g s = bind m (fun a => bind (f a) g) s.
Proof. unfold bind. by destruct (m s) as [[]|]. Qed.

Lemma bind_ret {A B} (a : A) (f : A -> M S B) s : bind (ret a) f s = f a s.
Proof. done. Qed.

Lemma bind_gets {A B} (g : S -> A) (f : A -> M S B) s : (bind (gets g) f) s = f (g s) s.
Proof. done. Qed.

Lemma bind_modify {B} (g : S -> S) (f : unit -> M S B) s : (bind (modify g) f) s = f tt (g s).
Proof. done. Qed.
End Equations.

(** Run the leading reads, writes and returns of a computation. *)
Ltac run_m :=
  repeat (rewrite bind_assoc || rewrite bind_gets || rewrite bind_modify || rewrite bind_ret).

(** ** Program logic *)

Section Logic.
Context {S : Type}.

(** [wpd d m Q s]: if [m] returns from [s] its result satisfies [Q]; if it
    does not, [d] holds. *)
Definition wpd {A} (d : Prop) (m : M S A) (Q : A -> S -> Prop) (s : S) : Prop :=
  match m s with Some (a, s') => Q a s' | None => d end.
Definition wp {A} (m : M S A) (Q : A -> S -> Prop) (s : S) : Prop := wpd False m Q s.
Definition wlp {A} (m : M S A) (Q : A -> S -> Prop) (s : S) : Prop := wpd True m Q s.

(** [m] preserves [I] (and, with [d := False], returns). *)
Definition keeps {A} (d : Prop) (I : S -> Prop) (m : M S A) : Prop :=
  forall s, I s -> wpd d m (fun _ => I) s.

Lemma wpd_ret {A} d (a : A) Q s : Q a s -> wpd d (ret a) Q s.
Proof. done. Qed.

Lemma wpd_bind {A B} d (m : M S A) (f : A -> M S B) Q s :
  wpd d m (fun a => wpd d (f a) Q) s -> wpd d (bind m f) Q s.
Proof. unfold wpd, bind. by destruct (m s) as [[]|]. Qed.

Lemma wpd_bind_inv {A B} d (m : M S A) (f : A -> M S B) Q s :
  wpd d (bind m f) Q s -> wpd d m (fun a => wpd d (f a) Q) s.
Proof. unfold wpd, bind. by destruct (m s) as [[]|]. Qed.

Lemma wpd_gets {A} d (f : S -> A) Q s : Q (f s) s -> wpd d (gets f) Q s.
Proof. done. Qed.

Lemma wpd_modify d f Q s : Q tt (f s) -> wpd d (modify f) Q s.
Proof. done. Qed.

Lemma wpd_mono {A} d (m : M S A) (Q Q' : A -> S -> Prop) s :
  wpd d m Q s -> (forall a s', Q a s' -> Q' a s') -> wpd d m Q' s.
Proof. unfold wpd. destruct (m s) as [[]|]; auto. Qed.

Lemma wp_wpd {A} d (m : M S A) Q s : wp m Q s -> wpd d m Q s.
Proof. unfold wp, wpd. by destruct (m s) as [[]|]. Qed.

Lemma wpd_weaken {A} (d d' : Prop) (m : M S A) Q s : wpd d m Q s -> (d -> d') -> wpd d' m Q s.
Proof. unfold wpd. destruct (m s) as [[]|]; auto. Qed.

Lemma wp_run {A} (m : M S A) Q s : wp m Q s -> exists a s', m s = Some (a, s') /\ Q a s'.
Proof. unfold wp, wpd. destruct (m s) as [[a s']|]; [eauto|done]. Qed.

Lemma wpd_run {A} d (m : M S A) Q s a s' : wpd d m Q s -> m s = Some (a, s') -> Q a s'.
Proof. unfold wpd. intros H Hm. by rewrite Hm in H. Qed.

Lemma wpd_conj {A} d (m : M S A) (Q Q' : A -> S -> Prop) s :
  wpd d m Q s -> wpd d m Q' s -> wpd d m (fun a s' => Q a s' /\ Q' a s') s.
Proof. unfold wpd. destruct (m s) as [[]|]; auto. Qed.

(** ** Preservation rules *)

Context (d : Prop) (I : S -> Prop).

Lemma keeps_ret {A} (a : A) : keeps d I (ret a).
Proof. by intros s. Qed.

Lemma keeps_bind {A B} (m : M S A) (f : A -> M S B) :
  keeps d I m -> (forall a, keeps d I (f a)) -> keeps d I (bind m f).
Proof.
  intros Hm Hf s Hs. apply wpd_bind. eapply wpd_mono; [by apply Hm|].
  intros a s' Hs'. by apply Hf.
Qed.

Lemma keeps_gets {A} (f : S -> A) : keeps d I (gets f).
Proof. by intros s. Qed.

Lemma keeps_modify f : (forall s, I s -> I (f s)) -> keeps d I (modify f).
Proof. intros H s Hs. by apply H. Qed.

Lemma keeps_when b m : keeps d I m -> keeps d I (when b m).
Proof. destruct b; [done|]. intros _. apply keeps_ret. Qed.

Lemma keeps_if {A} (b : bool) (m1 m2 : M S A) :
  keeps d I m1 -> keeps d I m2 -> keeps d I (if b then m1 else m2).
Proof. by destruct b. Qed.

Lemma keeps_stuck {A} : d -> keeps d I (stuck (A := A)).
Proof. by intros Hd s _. Qed.
End Logic.

Lemma keeps_wp_wlp {S A} (I : S -> Prop) (m : M S A) d : keeps False I m -> keeps d I m.
Proof. intros H s Hs. apply wp_wpd. by apply H. Qed.

Lemma keeps_weaken {S A} (I : S -> Prop) (m : M S A) (d d' : Prop) : keeps d I m -> (d -> d') -> keeps d' I m.
Proof. intros H Hd s Hs. eapply wpd_weaken; [by apply H|done]. Qed.

(** A gets-continuation may use the state it reads: the rule for guards that
    are needed to preserve the invariant. *)
Lemma keeps_gets_bind {S A B} d (I : S -> Prop) (g : S -> A) (f : A -> M S B) :
  (forall s, I s -> wpd d (f (g s)) (fun _ => I) s) -> keeps d I (bind (gets g) f).
Proof. intros H s Hs. apply wpd_bind, wpd_gets. by apply H. Qed.

Create HintDb keeps discriminated.
#[export] Hint Resolve keeps_ret keeps_gets : keeps.

(** One structural step of a preservation proof; what is left are the calls
    with a lemma in [keeps] and the assignments. *)
Ltac keeps_step :=
  lazymatch goal with
  | |- keeps _ _ (ret _) => apply keeps_ret
  | |- keeps _ _ (gets _) => apply keeps_gets
  | |- keeps _ _ (bind _ _) => apply keeps_bind; [|intros ?]
  | |- keeps _ _ (when _ _) => apply keeps_when
  | |- keeps _ _ (if ?x then _ else _) => first [apply keeps_if | destruct x]
  | |- keeps _ _ (match ?x with _ => _ end) => destruct x
  | |- keeps _ _ (let _ := _ in _) => intros ?; cbv zeta
  end.
Ltac keeps_tac := repeat (keeps_step || solve [auto with keeps nocore]).

Ltac wp_step :=
  lazymatch goal with
  | |- wp _ _ _ => unfold wp
  | |- wlp _ _ _ => unfold wlp
  | |- wpd _ (ret _) _ _ => apply wpd_ret
  | |- wpd _ (gets _) _ _ => apply wpd_gets
  | |- wpd _ (modify _) _ _ => apply wpd_modify
  | |- wpd _ (bind _ _) _ _ => apply wpd_bind
  | |- wpd _ (when ?b _) _ _ => unfold when
  end.
Ltac wp_tac := repeat wp_step.
