(* ===== verification/Crc.v ===== *)
(** * CRC-8 and CRC-16 ([src/al/util/codec/UtilCrc.cpp])

    The two table-driven checksums, their equivalence with the bit-serial
    polynomial division (poly 0x07, and poly 0x1021 with initial value 0xFFFF),
    and what they detect. *)
From S2P Require Import Prelude.

Module Crc.

Definition crc8_lut : list Z :=
  [
    0x00; 0x07; 0x0E; 0x09; 0x1C; 0x1B; 0x12; 0x15; 0x38; 0x3F; 0x36; 0x31;
    0x24; 0x23; 0x2A; 0x2D; 0x70; 0x77; 0x7E; 0x79; 0x6C; 0x6B; 0x62; 0x65;
    0x48; 0x4F; 0x46; 0x41; 0x54; 0x53; 0x5A; 0x5D; 0xE0; 0xE7; 0xEE; 0xE9;
    0xFC; 0xFB; 0xF2; 0xF5; 0xD8; 0xDF; 0xD6; 0xD1; 0xC4; 0xC3; 0xCA; 0xCD;
    0x90; 0x97; 0x9E; 0x99; 0x8C; 0x8B; 0x82; 0x85; 0xA8; 0xAF; 0xA6; 0xA1;
    0xB4; 0xB3; 0xBA; 0xBD; 0xC7; 0xC0; 0xC9; 0xCE; 0xDB; 0xDC; 0xD5; 0xD2;
    0xFF; 0xF8; 0xF1; 0xF6; 0xE3; 0xE4; 0xED; 0xEA; 0xB7; 0xB0; 0xB9; 0xBE;
    0xAB; 0xAC; 0xA5; 0xA2; 0x8F; 0x88; 0x81; 0x86; 0x93; 0x94; 0x9D; 0x9A;
    0x27; 0x20; 0x29; 0x2E; 0x3B; 0x3C; 0x35; 0x32; 0x1F; 0x18; 0x11; 0x16;
    0x03; 0x04; 0x0D; 0x0A; 0x57; 0x50; 0x59; 0x5E; 0x4B; 0x4C; 0x45; 0x42;
    0x6F; 0x68; 0x61; 0x66; 0x73; 0x74; 0x7D; 0x7A; 0x89; 0x8E; 0x87; 0x80;
    0x95; 0x92; 0x9B; 0x9C; 0xB1; 0xB6; 0xBF; 0xB8; 0xAD; 0xAA; 0xA3; 0xA4;
    0xF9; 0xFE; 0xF7; 0xF0; 0xE5; 0xE2; 0xEB; 0xEC; 0xC1; 0xC6; 0xCF; 0xC8;
    0xDD; 0xDA; 0xD3; 0xD4; 0x69; 0x6E; 0x67; 0x60; 0x75; 0x72; 0x7B; 0x7C;
    0x51; 0x56; 0x5F; 0x58; 0x4D; 0x4A; 0x43; 0x44; 0x19; 0x1E; 0x17; 0x10;
    0x05; 0x02; 0x0B; 0x0C; 0x21; 0x26; 0x2F; 0x28; 0x3D; 0x3A; 0x33; 0x34;
    0x4E; 0x49; 0x40; 0x47; 0x52; 0x55; 0x5C; 0x5B; 0x76; 0x71; 0x78; 0x7F;
    0x6A; 0x6D; 0x64; 0x63; 0x3E; 0x39; 0x30; 0x37; 0x22; 0x25; 0x2C; 0x2B;
    0x06; 0x01; 0x08; 0x0F; 0x1A; 0x1D; 0x14; 0x13; 0xAE; 0xA9; 0xA0; 0xA7;
    0xB2; 0xB5; 0xBC; 0xBB; 0x96; 0x91; 0x98; 0x9F; 0x8A; 0x8D; 0x84; 0x83;
    0xDE; 0xD9; 0xD0; 0xD7; 0xC2; 0xC5; 0xCC; 0xCB; 0xE6; 0xE1; 0xE8; 0xEF;
    0xFA; 0xFD; 0xF4; 0xF3 ].

Definition crc16_lut : list Z :=
  [
    0x0000; 0x1021; 0x2042; 0x3063; 0x4084; 0x50A5; 0x60C6; 0x70E7; 0x8108;
    0x9129; 0xA14A; 0xB16B; 0xC18C; 0xD1AD; 0xE1CE; 0xF1EF; 0x1231; 0x0210;
    0x3273; 0x2252; 0x52B5; 0x4294; 0x72F7; 0x62D6; 0x9339; 0x8318; 0xB37B;
    0xA35A; 0xD3BD; 0xC39C; 0xF3FF; 0xE3DE; 0x2462; 0x3443; 0x0420; 0x1401;
    0x64E6; 0x74C7; 0x44A4; 0x5485; 0xA56A; 0xB54B; 0x8528; 0x9509; 0xE5EE;
    0xF5CF; 0xC5AC; 0xD58D; 0x3653; 0x2672; 0x1611; 0x0630; 0x76D7; 0x66F6;
    0x5695; 0x46B4; 0xB75B; 0xA77A; 0x9719; 0x8738; 0xF7DF; 0xE7FE; 0xD79D;
    0xC7BC; 0x48C4; 0x58E5; 0x6886; 0x78A7; 0x0840; 0x1861; 0x2802; 0x3823;
    0xC9CC; 0xD9ED; 0xE98E; 0xF9AF; 0x8948; 0x9969; 0xA90A; 0xB92B; 0x5AF5;
    0x4AD4; 0x7AB7; 0x6A96; 0x1A71; 0x0A50; 0x3A33; 0x2A12; 0xDBFD; 0xCBDC;
    0xFBBF; 0xEB9E; 0x9B79; 0x8B58; 0xBB3B; 0xAB1A; 0x6CA6; 0x7C87; 0x4CE4;
    0x5CC5; 0x2C22; 0x3C03; 0x0C60; 0x1C41; 0xEDAE; 0xFD8F; 0xCDEC; 0xDDCD;
    0xAD2A; 0xBD0B; 0x8D68; 0x9D49; 0x7E97; 0x6EB6; 0x5ED5; 0x4EF4; 0x3E13;
    0x2E32; 0x1E51; 0x0E70; 0xFF9F; 0xEFBE; 0xDFDD; 0xCFFC; 0xBF1B; 0xAF3A;
    0x9F59; 0x8F78; 0x9188; 0x81A9; 0xB1CA; 0xA1EB; 0xD10C; 0xC12D; 0xF14E;
    0xE16F; 0x1080; 0x00A1; 0x30C2; 0x20E3; 0x5004; 0x4025; 0x7046; 0x6067;
    0x83B9; 0x9398; 0xA3FB; 0xB3DA; 0xC33D; 0xD31C; 0xE37F; 0xF35E; 0x02B1;
    0x1290; 0x22F3; 0x32D2; 0x4235; 0x5214; 0x6277; 0x7256; 0xB5EA; 0xA5CB;
    0x95A8; 0x8589; 0xF56E; 0xE54F; 0xD52C; 0xC50D; 0x34E2; 0x24C3; 0x14A0;
    0x0481; 0x7466; 0x6447; 0x5424; 0x4405; 0xA7DB; 0xB7FA; 0x8799; 0x97B8;
    0xE75F; 0xF77E; 0xC71D; 0xD73C; 0x26D3; 0x36F2; 0x0691; 0x16B0; 0x6657;
    0x7676; 0x4615; 0x5634; 0xD94C; 0xC96D; 0xF90E; 0xE92F; 0x99C8; 0x89E9;
    0xB98A; 0xA9AB; 0x5844; 0x4865; 0x7806; 0x6827; 0x18C0; 0x08E1; 0x3882;
    0x28A3; 0xCB7D; 0xDB5C; 0xEB3F; 0xFB1E; 0x8BF9; 0x9BD8; 0xABBB; 0xBB9A;
    0x4A75; 0x5A54; 0x6A37; 0x7A16; 0x0AF1; 0x1AD0; 0x2AB3; 0x3A92; 0xFD2E;
    0xED0F; 0xDD6C; 0xCD4D; 0xBDAA; 0xAD8B; 0x9DE8; 0x8DC9; 0x7C26; 0x6C07;
    0x5C64; 0x4C45; 0x3CA2; 0x2C83; 0x1CE0; 0x0CC1; 0xEF1F; 0xFF3E; 0xCF5D;
    0xDF7C; 0xAF9B; 0xBFBA; 0x8FD9; 0x9FF8; 0x6E17; 0x7E36; 0x4E55; 0x5E74;
    0x2E93; 0x3EB2; 0x0ED1; 0x1EF0 ].

(** [crc = crc8_lut[crc ^ data[i]]] *)
Definition crc8_step (crc b : Z) : Z := rd 0 crc8_lut (Z.lxor crc b).
Definition crc8_from (crc : Z) (data : list Z) : Z := foldl crc8_step crc data.
Definition crc8 (data : list Z) : Z := crc8_from 0 data.

(** [crc = (uint16_t)((crc << 8) ^ crc16_lut[(crc >> 8) ^ data[i]])] *)
Definition crc16_step (crc b : Z) : Z :=
  u16 (Z.lxor (Z.shiftl crc 8) (rd 0 crc16_lut (Z.lxor (Z.shiftr crc 8) b))).
Definition crc16_from (crc : Z) (data : list Z) : Z := foldl crc16_step crc data.
Definition crc16 (data : list Z) : Z := crc16_from 0xFFFF data.

(** ** Reference: bit-serial division by the generator polynomial *)

Definition poly_shift (w poly crc : Z) : Z :=
  let s := Z.shiftl crc 1 in
  (if Z.testbit crc (w - 1) then Z.lxor s poly else s) mod 2 ^ w.

Definition poly_byte (w poly crc b : Z) : Z :=
  Nat.iter 8 (poly_shift w poly) (Z.lxor crc (Z.shiftl b (w - 8))).

Definition crc8_ref (data : list Z) : Z := foldl (poly_byte 8 0x07) 0 data.
Definition crc16_ref (data : list Z) : Z := foldl (poly_byte 16 0x1021) 0xFFFF data.

(** ** Finite facts about the tables, checked entry by entry *)

Definition all_bytes : list Z := seqZ 0 256.

Lemma all_bytes_spec (P : Z -> bool) :
  forallb P all_bytes = true -> forall x, is_byte x -> P x = true.
Proof.
  intros H x Hx. rewrite forallb_forall in H. apply H.
  apply list_elem_of_In, elem_of_seqZ. unfold is_byte in Hx. lia.
Qed.

Lemma lut8_poly x : is_byte x -> rd 0 crc8_lut x = Nat.iter 8 (poly_shift 8 0x07) x.
Proof.
  intros Hx. apply Z.eqb_eq. revert x Hx. apply all_bytes_spec. vm_compute. done.
Qed.

Lemma lut16_poly x :
  is_byte x -> rd 0 crc16_lut x = Nat.iter 8 (poly_shift 16 0x1021) (Z.shiftl x 8).
Proof.
  intros Hx. apply Z.eqb_eq. revert x Hx. apply all_bytes_spec. vm_compute. done.
Qed.

Lemma low_poly x : is_byte x -> Nat.iter 8 (poly_shift 16 0x1021) x = Z.shiftl x 8.
Proof.
  intros Hx. apply Z.eqb_eq. revert x Hx. apply all_bytes_spec. vm_compute. done.
Qed.

(** The inverse of a byte-valued table, by search. *)
Definition invert (t : list Z) (v : Z) : Z :=
  match list_find (eq v) t with Some (i, _) => Z.of_nat i | None => 0 end.

Definition crc8_inv : list Z := Eval vm_compute in map (invert crc8_lut) all_bytes.
Definition crc16_inv : list Z :=
  Eval vm_compute in map (invert (map u8 crc16_lut)) all_bytes.

Lemma lut8_inv x : is_byte x -> rd 0 crc8_inv (rd 0 crc8_lut x) = x.
Proof. intros Hx. apply Z.eqb_eq. revert x Hx. apply all_bytes_spec. vm_compute. done. Qed.

Lemma lut16_inv x : is_byte x -> rd 0 crc16_inv (u8 (rd 0 crc16_lut x)) = x.
Proof. intros Hx. apply Z.eqb_eq. revert x Hx. apply all_bytes_spec. vm_compute. done. Qed.

Lemma lut8_byte x : is_byte x -> is_byte (rd 0 crc8_lut x).
Proof.
  intros Hx. assert (((0 <=? rd 0 crc8_lut x) && (rd 0 crc8_lut x <? 256))%bool = true) as H.
  { revert x Hx. apply all_bytes_spec. vm_compute. done. }
  bool_prop. done.
Qed.

Lemma lut16_range x : is_byte x -> is_u16 (rd 0 crc16_lut x).
Proof.
  intros Hx.
  assert (((0 <=? rd 0 crc16_lut x) && (rd 0 crc16_lut x <? 65536))%bool = true) as H.
  { revert x Hx. apply all_bytes_spec. vm_compute. done. }
  bool_prop. done.
Qed.

(** ** Exclusive or on machine words *)

Lemma mod_lxor a b n : 0 <= n -> Z.lxor a b mod 2 ^ n = Z.lxor (a mod 2 ^ n) (b mod 2 ^ n).
Proof.
  intros Hn. apply Z.bits_inj'. intros i Hi. rewrite Z.lxor_spec.
  destruct (Z.lt_ge_cases i n).
  - rewrite !Z.mod_pow2_bits_low, Z.lxor_spec by lia. done.
  - rewrite !Z.mod_pow2_bits_high by lia. done.
Qed.

Lemma lxor_range a b n :
  0 <= n -> 0 <= a < 2 ^ n -> 0 <= b < 2 ^ n -> 0 <= Z.lxor a b < 2 ^ n.
Proof.
  intros Hn Ha Hb.
  rewrite <- (Z.mod_small a (2 ^ n)), <- (Z.mod_small b (2 ^ n)), <- mod_lxor by lia.
  apply Z.mod_pos_bound. lia.
Qed.

Lemma lxor_byte a b : is_byte a -> is_byte b -> is_byte (Z.lxor a b).
Proof. apply (lxor_range a b 8). lia. Qed.

Lemma lxor_cancel_r a b c : Z.lxor a c = Z.lxor b c -> a = b.
Proof.
  intros H. apply (f_equal (fun x => Z.lxor x c)) in H.
  by rewrite !Z.lxor_assoc, Z.lxor_nilpotent, !Z.lxor_0_r in H.
Qed.

Lemma lxor_cancel_l a b c : Z.lxor c a = Z.lxor c b -> a = b.
Proof. rewrite !(Z.lxor_comm c). apply lxor_cancel_r. Qed.

(** A 16-bit word from its two bytes. *)
Lemma word_split x : is_u16 x -> x = Z.lxor (Z.shiftl (Z.shiftr x 8) 8) (u8 x).
Proof.
  intros Hx. unfold u8. apply Z.bits_inj'. intros i Hi.
  rewrite Z.lxor_spec. change 256 with (2 ^ 8).
  destruct (Z.lt_ge_cases i 8).
  - rewrite Z.shiftl_spec_low, Z.mod_pow2_bits_low by lia. by destruct (Z.testbit x i).
  - rewrite Z.shiftl_spec, Z.shiftr_spec, Z.mod_pow2_bits_high by lia.
    rewrite xorb_false_r. f_equal. lia.
Qed.

Lemma shiftr8_byte x : is_u16 x -> is_byte (Z.shiftr x 8).
Proof.
  unfold is_u16, is_byte. rewrite Z.shiftr_div_pow2 by lia. change (2 ^ 8) with 256.
  intros. Z.div_mod_to_equations. lia.
Qed.

Lemma shiftl8_u16 x : is_byte x -> is_u16 (Z.shiftl x 8).
Proof. unfold is_u16, is_byte. rewrite Z.shiftl_mul_pow2 by lia. lia. Qed.

(** ** The shift step is linear over exclusive or *)

Lemma poly_shift_lxor w poly a b :
  0 < w -> poly_shift w poly (Z.lxor a b) = Z.lxor (poly_shift w poly a) (poly_shift w poly b).
Proof.
  intros Hw. unfold poly_shift. rewrite Z.lxor_spec, Z.shiftl_lxor, <- mod_lxor by lia.
  f_equal. set (x := Z.shiftl a 1). set (y := Z.shiftl b 1).
  destruct (Z.testbit a (w - 1)), (Z.testbit b (w - 1)); simpl.
  - apply Z.bits_inj'. intros i Hi. rewrite !Z.lxor_spec.
    by destruct (Z.testbit x i), (Z.testbit y i), (Z.testbit poly i).
  - apply Z.bits_inj'. intros i Hi. rewrite !Z.lxor_spec.
    by destruct (Z.testbit x i), (Z.testbit y i), (Z.testbit poly i).
  - apply Z.lxor_assoc.
  - done.
Qed.

Lemma poly_iter_lxor n w poly a b :
  0 < w ->
  Nat.iter n (poly_shift w poly) (Z.lxor a b) =
    Z.lxor (Nat.iter n (poly_shift w poly) a) (Nat.iter n (poly_shift w poly) b).
Proof.
  intros Hw. induction n as [|n IH]; [done|].
  cbn [Nat.iter nat_rect]. unfold Nat.iter in *. by rewrite IH, poly_shift_lxor.
Qed.

(** ** One table step is one byte of polynomial division *)

Lemma crc8_step_poly crc b :
  is_byte crc -> is_byte b -> crc8_step crc b = poly_byte 8 0x07 crc b.
Proof.
  intros Hc Hb. unfold crc8_step, poly_byte.
  rewrite lut8_poly by by apply lxor_byte. by rewrite Z.shiftl_0_r.
Qed.

Lemma crc16_step_poly crc b :
  is_u16 crc -> is_byte b -> crc16_step crc b = poly_byte 16 0x1021 crc b.
Proof.
  intros Hc Hb. unfold crc16_step, poly_byte. change (16 - 8) with 8.
  pose proof (shiftr8_byte crc Hc) as Hh.
  rewrite (word_split crc Hc) at 3.
  rewrite (Z.lxor_comm _ (u8 crc)), Z.lxor_assoc, <- Z.shiftl_lxor, poly_iter_lxor by lia.
  rewrite low_poly by apply u8_byte. rewrite <- lut16_poly by by apply lxor_byte.
  unfold u16. change 65536 with (2 ^ 16). rewrite mod_lxor by lia. f_equal.
  - unfold u8. rewrite !Z.shiftl_mul_pow2 by lia. change (2 ^ 16) with (256 * 256).
    change (2 ^ 8) with 256. by rewrite Z.mul_mod_distr_r by lia.
  - apply Z.mod_small. by apply lut16_range, lxor_byte.
Qed.

Lemma crc8_step_byte crc b : is_byte crc -> is_byte b -> is_byte (crc8_step crc b).
Proof. intros. by apply lut8_byte, lxor_byte. Qed.

Lemma crc8_from_byte crc data : is_byte crc -> bytes data -> is_byte (crc8_from crc data).
Proof.
  intros Hc Hd. revert crc Hc. induction Hd as [|b l Hb _ IH]; intros crc Hc; [done|].
  by apply IH, crc8_step_byte.
Qed.

Lemma crc8_byte data : bytes data -> is_byte (crc8 data).
Proof. apply crc8_from_byte. unfold is_byte. lia. Qed.

Lemma crc16_from_u16 crc data : is_u16 crc -> is_u16 (crc16_from crc data).
Proof.
  revert crc. induction data as [|b l IH]; intros crc Hc; [done|]. apply IH, u16_range.
Qed.

Lemma crc16_u16 data : is_u16 (crc16 data).
Proof. apply crc16_from_u16. unfold is_u16. lia. Qed.

#[export] Hint Resolve crc8_byte crc16_u16 crc8_from_byte crc16_from_u16 : machine.

(** ** A step loses no information *)

Lemma crc8_step_inj_crc c c' b :
  is_byte c -> is_byte c' -> is_byte b -> crc8_step c b = crc8_step c' b -> c = c'.
Proof.
  unfold crc8_step. intros Hc Hc' Hb H. apply (f_equal (rd 0 crc8_inv)) in H.
  rewrite !lut8_inv in H by by apply lxor_byte. by apply lxor_cancel_r in H.
Qed.

Lemma crc8_step_inj_byte c b b' :
  is_byte c -> is_byte b -> is_byte b' -> crc8_step c b = crc8_step c b' -> b = b'.
Proof.
  unfold crc8_step. intros Hc Hb Hb' H. apply (f_equal (rd 0 crc8_inv)) in H.
  rewrite !lut8_inv in H by by apply lxor_byte. by apply lxor_cancel_l in H.
Qed.

Lemma crc8_from_inj c c' data :
  is_byte c -> is_byte c' -> bytes data -> crc8_from c data = crc8_from c' data -> c = c'.
Proof.
  intros Hc Hc' Hd. revert c c' Hc Hc'.
  induction Hd as [|b l Hb _ IH]; intros c c' Hc Hc' H; [done|].
  apply crc8_step_inj_crc with b; [done..|].
  apply IH; [by apply crc8_step_byte..|done].
Qed.

(** The low byte of a 16-bit step is the table's, the high byte mixes in the
    old low byte: both inputs can be read back. *)
Lemma crc16_step_low c b :
  is_u16 c -> is_byte b ->
  u8 (crc16_step c b) = u8 (rd 0 crc16_lut (Z.lxor (Z.shiftr c 8) b)).
Proof.
  intros Hc Hb. unfold crc16_step, u8, u16. change 65536 with (256 * 256).
  rewrite Z.mod_mod_divide by (exists 256; lia). change 256 with (2 ^ 8) at 1.
  rewrite mod_lxor by lia. rewrite Z.shiftl_mul_pow2 by lia.
  rewrite Z.mod_mul by lia. by rewrite Z.lxor_0_l.
Qed.

Lemma crc16_step_inj_high c c' b b' :
  is_u16 c -> is_u16 c' -> is_byte b -> is_byte b' ->
  crc16_step c b = crc16_step c' b' ->
  Z.lxor (Z.shiftr c 8) b = Z.lxor (Z.shiftr c' 8) b' /\ u8 c = u8 c'.
Proof.
  intros Hc Hc' Hb Hb' H.
  assert (Hx : Z.lxor (Z.shiftr c 8) b = Z.lxor (Z.shiftr c' 8) b').
  { apply (f_equal u8), (f_equal (rd 0 crc16_inv)) in H.
    rewrite !crc16_step_low, !lut16_inv in H
      by (done || (apply lxor_byte; [by apply shiftr8_byte|done])). done. }
  split; [done|]. unfold crc16_step in H. rewrite Hx in H.
  unfold u16 in H. change 65536 with (2 ^ 16) in H. rewrite !mod_lxor in H by lia.
  apply lxor_cancel_r in H. rewrite !Z.shiftl_mul_pow2 in H by lia.
  unfold u8. change (2 ^ 16) with (256 * 256) in H. change (2 ^ 8) with 256 in H.
  rewrite !Z.mul_mod_distr_r in H by lia. lia.
Qed.

Lemma crc16_step_inj_crc c c' b :
  is_u16 c -> is_u16 c' -> is_byte b -> crc16_step c b = crc16_step c' b -> c = c'.
Proof.
  intros Hc Hc' Hb H. apply crc16_step_inj_high in H as [Hh Hl]; [|done..].
  apply lxor_cancel_r in Hh. rewrite (word_split c), (word_split c') by done. by rewrite Hh, Hl.
Qed.

Lemma crc16_step_inj_byte c b b' :
  is_u16 c -> is_byte b -> is_byte b' -> crc16_step c b = crc16_step c b' -> b = b'.
Proof.
  intros Hc Hb Hb' H. apply crc16_step_inj_high in H as [Hh _]; [|done..].
  by apply lxor_cancel_l in Hh.
Qed.

Lemma crc16_from_inj c c' data :
  is_u16 c -> is_u16 c' -> bytes data -> crc16_from c data = crc16_from c' data -> c = c'.
Proof.
  intros Hc Hc' Hd. revert c c' Hc Hc'.
  induction Hd as [|b l Hb _ IH]; intros c c' Hc Hc' H; [done|].
  apply crc16_step_inj_crc with b; [done..|].
  apply IH; [apply u16_range..|done].
Qed.

(** From one state, two steps are injective in the two bytes they consume. *)
Lemma crc16_two_bytes c x1 x2 y1 y2 :
  is_u16 c -> bytes [x1; x2; y1; y2] ->
  crc16_from c [x1; x2] = crc16_from c [y1; y2] -> x1 = y1 /\ x2 = y2.
Proof.
  intros Hc Hb H. rewrite !bytes_cons in Hb. destruct Hb as (? & ? & ? & ? & _).
  cbn in H.
  apply crc16_step_inj_high in H as [Hh Hl]; [|apply u16_range || done..].
  assert (x1 = y1) as ->.
  { apply (f_equal (rd 0 crc16_inv)) in Hl.
    pose proof (shiftr8_byte c Hc).
    rewrite !crc16_step_low in Hl by done.
    rewrite !lut16_inv in Hl by by apply lxor_byte.
    by apply lxor_cancel_l in Hl. }
  split; [done|]. by apply lxor_cancel_l in Hh.
Qed.

(** ** Properties *)

(** C23: the two lookup tables implement the generator polynomials: on every
    byte string the table-driven checksums equal bit-serial division. *)
Theorem crc_tables_are_polynomials data :
  bytes data -> crc8 data = crc8_ref data /\ crc16 data = crc16_ref data.
Proof.
  intros Hd. split.
  - unfold crc8, crc8_from, crc8_ref. assert (H0 : is_byte 0) by (unfold is_byte; lia).
    revert H0. generalize 0. induction Hd as [|b l Hb _ IH]; intros c Hc; [done|].
    cbn [foldl]. rewrite <- crc8_step_poly by done. by apply IH, crc8_step_byte.
  - unfold crc16, crc16_from, crc16_ref. assert (H0 : is_u16 0xFFFF) by (unfold is_u16; lia).
    revert H0. generalize 0xFFFF. induction Hd as [|b l Hb _ IH]; intros c Hc; [done|].
    cbn [foldl]. rewrite <- crc16_step_poly by done. apply IH, u16_range.
Qed.

Lemma crc_tables_are_polynomials_witness :
  crc8 [1; 2; 3] = crc8_ref [1; 2; 3] /\ crc16 [1; 2; 3] = crc16_ref [1; 2; 3].
Proof.
  apply crc_tables_are_polynomials. repeat constructor; discriminate.
Defined.

(** ** Bursts

    The bits that changed, as one word over two (three) bytes, lie within [w]
    places of each other. *)
Definition burst (w e : Z) : Prop := exists v k, 0 < v < 2 ^ w /\ 0 <= k <= 8 /\ e = v * 2 ^ k.

(** [e] written as [v * 2 ^ k] for no [k] up to 8 and [v] below [2 ^ w]. *)
Definition spread (w e : Z) : bool := forallb (fun k => negb ((e mod 2 ^ k =? 0) && (e / 2 ^ k <? 2 ^ w))) (seqZ 0 9).

Lemma spread_not_burst w e : spread w e = true -> ~ burst w e.
Proof.
  intros Hs (v & k & Hv & Hk & ->). unfold spread in Hs. rewrite forallb_forall in Hs.
  specialize (Hs k). rewrite Z.mod_mul, Z.div_mul in Hs by lia. replace (v <? 2 ^ w) with true in Hs by lia.
  apply diff_false_true, Hs, list_elem_of_In, elem_of_seqZ. lia.
Qed.

(** The words the tables cancel are spread wider than the checksum. *)
Lemma lut8_spread x : is_byte x -> x = 0 \/ spread 8 (x * 256 + rd 0 crc8_lut x) = true.
Proof.
  intros Hx. enough (K : (x =? 0) || spread 8 (x * 256 + rd 0 crc8_lut x) = true)
    by (apply orb_true_iff in K as [K%Z.eqb_eq|K]; auto).
  revert x Hx. apply all_bytes_spec. vm_compute. done.
Qed.

Lemma lut16_spread x : is_byte x -> x = 0 \/ spread 16 (x * 65536 + rd 0 crc16_lut x) = true.
Proof.
  intros Hx. enough (K : (x =? 0) || spread 16 (x * 65536 + rd 0 crc16_lut x) = true)
    by (apply orb_true_iff in K as [K%Z.eqb_eq|K]; auto).
  revert x Hx. apply all_bytes_spec. vm_compute. done.
Qed.

Lemma lut8_lxor a b : is_byte a -> is_byte b ->
  Z.lxor (rd 0 crc8_lut a) (rd 0 crc8_lut b) = rd 0 crc8_lut (Z.lxor a b).
Proof. intros. rewrite !lut8_poly, poly_iter_lxor by (done || by apply lxor_byte). done. Qed.

Lemma crc16_step_lxor c c' b b' : is_u16 c -> is_u16 c' -> is_byte b -> is_byte b' ->
  Z.lxor (crc16_step c b) (crc16_step c' b') = crc16_step (Z.lxor c c') (Z.lxor b b').
Proof.
  intros. rewrite !crc16_step_poly by (done || by apply lxor_byte || by apply (lxor_range _ _ 16)).
  unfold poly_byte. rewrite <- poly_iter_lxor by lia. f_equal. rewrite Z.shiftl_lxor.
  rewrite !Z.lxor_assoc. f_equal. rewrite <- !Z.lxor_assoc. f_equal. apply Z.lxor_comm.
Qed.

Lemma crc16_from_lxor l : forall c c', is_u16 c -> is_u16 c' -> Forall (fun p => is_byte (fst p) /\ is_byte (snd p)) l ->
  Z.lxor (crc16_from c (map fst l)) (crc16_from c' (map snd l)) =
    crc16_from (Z.lxor c c') (map (fun p => Z.lxor (fst p) (snd p)) l).
Proof.
  induction l as [|[b b'] l IH]; intros c c' Hc Hc' Hl; [done|]. apply Forall_cons_1 in Hl as [[Hb Hb'] Hl].
  cbn [map fst snd crc16_from foldl] in *. unfold crc16_from in IH. rewrite IH by (done || apply u16_range).
  by rewrite crc16_step_lxor.
Qed.

(** Three bytes that leave the zero state at zero are a multiple of the generator. *)
Lemma crc16_three_zero e1 e2 e3 : is_byte e1 -> is_byte e2 -> is_byte e3 ->
  crc16_from 0 [e1; e2; e3] = 0 -> e1 * 65536 + e2 * 256 + e3 = e1 * 65536 + rd 0 crc16_lut e1.
Proof.
  intros He1 He2 He3. cbn [crc16_from foldl].
  assert (E1 : crc16_step 0 e1 = rd 0 crc16_lut e1).
  { unfold crc16_step. cbn [Z.shiftl Z.shiftr]. change (Z.shiftl 0 8) with 0. change (Z.shiftr 0 8) with 0.
    rewrite !Z.lxor_0_l. by apply Z.mod_small, lut16_range. }
  rewrite E1. pose proof (lut16_range e1 He1) as Hc. set (c := rd 0 crc16_lut e1) in *. clearbody c.
  assert (Hz : is_u16 0 /\ is_byte 0) by done. destruct Hz as [Hz Hz'].
  intros E. change (crc16_step (crc16_step c e2) e3 = crc16_step 0 0) in E.
  apply crc16_step_inj_high in E as [Eh El]; [|apply u16_range || done..].
  change (Z.lxor (Z.shiftr 0 8) 0) with 0 in Eh. apply Z.lxor_eq in Eh.
  rewrite crc16_step_low in El by done. change (u8 0) with (u8 (rd 0 crc16_lut 0)) in El.
  apply (f_equal (rd 0 crc16_inv)) in El. rewrite !lut16_inv in El by (done || apply lxor_byte; [by apply shiftr8_byte|done]).
  unfold crc16_step in Eh. rewrite El in Eh. apply Z.lxor_eq in El. change (rd 0 crc16_lut 0) with 0 in Eh.
  rewrite Z.lxor_0_r in Eh. unfold u16 in Eh. rewrite Z.shiftl_mul_pow2, Z.shiftr_div_pow2 in Eh by lia.
  rewrite Z.shiftr_div_pow2 in El by lia. change (2 ^ 8) with 256 in *. unfold is_u16 in Hc.
  Z.div_mod_to_equations. lia.
Qed.

Lemma crc8_burst p s x1 x2 y1 y2 : bytes p -> bytes s -> bytes [x1; x2; y1; y2] ->
  burst 8 (Z.lxor x1 y1 * 256 + Z.lxor x2 y2) -> crc8 (p ++ x1 :: x2 :: s) <> crc8 (p ++ y1 :: y2 :: s).
Proof.
  intros Hp Hs Hb Hbu E. rewrite !bytes_cons in Hb. destruct Hb as (Hx1 & Hx2 & Hy1 & Hy2 & _).
  unfold crc8, crc8_from in E. rewrite !foldl_app in E. cbn [foldl] in E.
  assert (Hc : is_byte (crc8_from 0 p)) by (apply crc8_byte; done). unfold crc8_from in Hc.
  set (c := foldl crc8_step 0 p) in *. clearbody c.
  apply crc8_from_inj in E; [|by repeat apply crc8_step_byte..|done].
  unfold crc8_step at 1 3 in E. apply (f_equal (rd 0 crc8_inv)) in E.
  rewrite !lut8_inv in E by (apply lxor_byte; [by apply crc8_step_byte|done]).
  assert (E2 : Z.lxor x2 y2 = rd 0 crc8_lut (Z.lxor x1 y1)).
  { replace (Z.lxor x1 y1) with (Z.lxor (Z.lxor c x1) (Z.lxor c y1))
      by (apply Z.bits_inj'; intros i _; rewrite !Z.lxor_spec; by destruct (Z.testbit c i), (Z.testbit x1 i), (Z.testbit y1 i)).
    rewrite <- lut8_lxor by by apply lxor_byte. unfold crc8_step in E. revert E.
    generalize (rd 0 crc8_lut (Z.lxor c x1)), (rd 0 crc8_lut (Z.lxor c y1)). intros a b E.
    apply (f_equal (fun z => Z.lxor (Z.lxor a y2) z)) in E. revert E. clear.
    intros E. apply Z.bits_inj'. intros i _. apply (f_equal (fun z => Z.testbit z i)) in E. revert E. rewrite !Z.lxor_spec.
    by destruct (Z.testbit a i), (Z.testbit b i), (Z.testbit x2 i), (Z.testbit y2 i). }
  rewrite E2 in Hbu. destruct (lut8_spread (Z.lxor x1 y1)) as [E0|Hsp]; [by apply lxor_byte| |by apply spread_not_burst in Hsp].
  rewrite E0 in Hbu. destruct Hbu as (v & k & Hv & Hk & Hz). change (rd 0 crc8_lut 0) with 0 in Hz. nia.
Qed.

Lemma crc16_burst p s x1 x2 x3 y1 y2 y3 : bytes s -> bytes [x1; x2; x3; y1; y2; y3] ->
  burst 16 (Z.lxor x1 y1 * 65536 + Z.lxor x2 y2 * 256 + Z.lxor x3 y3) ->
  crc16 (p ++ x1 :: x2 :: x3 :: s) <> crc16 (p ++ y1 :: y2 :: y3 :: s).
Proof.
  intros Hs Hb Hbu E. rewrite !bytes_cons in Hb. destruct Hb as (Hx1 & Hx2 & Hx3 & Hy1 & Hy2 & Hy3 & _).
  unfold crc16, crc16_from in E. rewrite !foldl_app in E. cbn [foldl] in E.
  apply crc16_from_inj in E; [|apply u16_range..|done].
  assert (Hc : is_u16 (foldl crc16_step 0xFFFF p)) by apply crc16_u16. set (c := foldl crc16_step 0xFFFF p) in *. clearbody c.
  assert (Hl : Forall (fun p => is_byte (fst p) /\ is_byte (snd p)) [(x1, y1); (x2, y2); (x3, y3)])
    by (repeat (apply Forall_cons_2; [by split|]); apply Forall_nil_2).
  pose proof (crc16_from_lxor _ c c Hc Hc Hl) as L.
  rewrite Z.lxor_nilpotent in L. cbn [map fst snd] in L. cbn [crc16_from foldl] in L. rewrite E, Z.lxor_nilpotent in L.
  symmetry in L. apply crc16_three_zero in L; [|by apply lxor_byte..]. rewrite L in Hbu.
  destruct (lut16_spread (Z.lxor x1 y1)) as [E0|Hsp]; [by apply lxor_byte| |by apply spread_not_burst in Hsp].
  rewrite E0 in Hbu. destruct Hbu as (v & k & Hv & Hk & Hz). change (rd 0 crc16_lut 0) with 0 in Hz. nia.
Qed.

(** C24: corruption is detected. A frame in which one byte was changed, or one
    burst of up to eight bits across two bytes, has a different CRC-8; a message in
    which one byte or two adjacent bytes were changed, or one burst of up to
    sixteen bits across three bytes, has a different CRC-16. *)
Theorem crc_detects_corruption p s x1 x2 y1 y2 :
  bytes p -> bytes s -> bytes [x1; x2; y1; y2] ->
  (x1 <> y1 -> crc8 (p ++ x1 :: s) <> crc8 (p ++ y1 :: s)) /\
  ((x1, x2) <> (y1, y2) -> crc16 (p ++ x1 :: x2 :: s) <> crc16 (p ++ y1 :: y2 :: s)) /\
  (burst 8 (Z.lxor x1 y1 * 256 + Z.lxor x2 y2) -> crc8 (p ++ x1 :: x2 :: s) <> crc8 (p ++ y1 :: y2 :: s)) /\
  (forall x3 y3, bytes [x3; y3] -> burst 16 (Z.lxor x1 y1 * 65536 + Z.lxor x2 y2 * 256 + Z.lxor x3 y3) ->
     crc16 (p ++ x1 :: x2 :: x3 :: s) <> crc16 (p ++ y1 :: y2 :: y3 :: s)).
Proof.
  intros Hp Hs Hb. pose proof Hb as Hb'. rewrite !bytes_cons in Hb'.
  destruct Hb' as (? & ? & ? & ? & _). split_and!.
  3: by apply crc8_burst.
  3: { intros x3 y3 Hb3. rewrite !bytes_cons in Hb3. destruct Hb3 as (? & ? & _). apply crc16_burst; [done|].
       rewrite !bytes_cons; split_and!; (done || constructor). }
  all: intros Hne E; apply Hne.
  - unfold crc8, crc8_from in E. rewrite !foldl_app in E. cbn [foldl] in E.
    assert (is_byte (crc8_from 0 p)) by (apply crc8_byte; done).
    apply crc8_from_inj in E; [|by apply crc8_step_byte..|done].
    by apply crc8_step_inj_byte in E.
  - unfold crc16, crc16_from in E. rewrite !foldl_app in E. cbn [foldl] in E.
    apply crc16_from_inj in E; [|apply u16_range..|done].
    assert (Hc : is_u16 (crc16_from 0xFFFF p)) by apply crc16_u16.
    by destruct (crc16_two_bytes _ x1 x2 y1 y2 Hc Hb E) as [-> ->].
Qed.

Lemma crc_detects_corruption_witness :
  crc8 [7; 1; 9] <> crc8 [7; 2; 9] /\ crc16 [7; 1; 1; 9] <> crc16 [7; 2; 1; 9] /\
  crc8 [7; 1; 1; 9] <> crc8 [7; 0; 65; 9] /\ crc16 [7; 1; 1; 1; 9] <> crc16 [7; 0; 65; 129; 9].
Proof.
  assert (Hb : bytes [7] /\ bytes [9] /\ bytes [1; 1; 2; 1] /\ bytes [1; 1; 0; 65] /\ bytes [1; 129]).
  { repeat split; repeat constructor; discriminate. }
  destruct Hb as (H1 & H2 & H3 & H4 & H5).
  destruct (crc_detects_corruption [7] [9] 1 1 2 1 H1 H2 H3) as (Ha & Hb & _).
  destruct (crc_detects_corruption [7] [9] 1 1 0 65 H1 H2 H4) as (_ & _ & Hc & Hd).
  split_and!; [apply Ha; lia|apply Hb; intros [=]|apply Hc; exists 5, 6; vm_compute; repeat split; discriminate|].
  apply (Hd 1 129 H5). exists 0x281, 7. vm_compute. repeat split; discriminate.
Defined.

End Crc.
