(* ===== verification/Cobs.v ===== *)
(** * COBS byte stuffing ([src/al/util/codec/UtilCobs.cpp])

    [encode] and [decode] over the caller's destination buffer, the block-wise
    specification [stuff], and the round trip. *)
From S2P Require Import Prelude.

Module Cobs.

(** [encodedMax] *)
Definition encodedMax (n : Z) : Z := n + n / 254 + 1.

(** The loop of [UtilCobs::encode]: [dst] is the destination buffer,
    [write_index]/[code_index] index it, [code] is the block's length byte.
    Returns the buffer and the final [write_index]. *)
Fixpoint encode_loop (src dst : list Z) (write_index code_index code : Z) : list Z * Z :=
  match src with
  | [] => (wr dst code_index code, write_index)
  | b :: src =>
      if b =? 0 then
        encode_loop src (wr dst code_index code) (write_index + 1) write_index 1
      else
        let dst := wr dst write_index b in
        let write_index := write_index + 1 in
        let code := u8 (code + 1) in
        if code =? 0xFF then
          encode_loop src (wr dst code_index code) (write_index + 1) write_index 1
        else encode_loop src dst write_index code_index code
  end.

Definition encode (src dst : list Z) : list Z * Z := encode_loop src dst 1 0 1.

(** The loop of [UtilCobs::decode]: [src] is what is left to read, [dst] what
    has been written. [0] bytes are reported on a zero code byte or a block
    that runs past the end. Each round consumes at least the code byte, so
    [length src] rounds are enough ([decode_loop_fuel]). *)
Fixpoint decode_loop (fuel : nat) (src dst : list Z) : list Z :=
  match fuel with
  | O => dst
  | S fuel =>
      match src with
      | [] => dst
      | code :: src =>
          if code =? 0 then []
          else
            let run := code - 1 in
            if lenZ src <? run then []
            else
              let dst := dst ++ take (Z.to_nat run) src in
              let src := drop (Z.to_nat run) src in
              if (code <? 0xFF) && (0 <? lenZ src) then decode_loop fuel src (dst ++ [0])
              else decode_loop fuel src dst
      end
  end.

Definition decode (src : list Z) : list Z := decode_loop (length src) src [].

(** ** Specification: a list of blocks

    [stuff acc src] emits the block whose data bytes so far are [acc], then the
    blocks of [src]. *)
Fixpoint stuff (acc src : list Z) : list Z :=
  match src with
  | [] => (lenZ acc + 1) :: acc
  | b :: src =>
      if b =? 0 then (lenZ acc + 1) :: acc ++ stuff [] src
      else if lenZ acc + 2 =? 0xFF then 0xFF :: acc ++ b :: stuff [] src
      else stuff (acc ++ [b]) src
  end.

Lemma stuff_length acc src :
  0 <= lenZ acc <= 253 ->
  lenZ acc + lenZ src + 1 <= lenZ (stuff acc src)
    <= lenZ acc + lenZ src + 1 + (lenZ acc + lenZ src) / 254.
Proof.
  revert acc. induction src as [|b src IH]; intros acc Hacc; simpl.
  { len. pose proof (Z.div_pos (lenZ acc + 0) 254). lia. }
  pose proof (IH []) as IHn. specialize (IH (acc ++ [b])). pose proof (lenZ_nonneg src). len.
  destruct (b =? 0); [|destruct (Z.eqb_spec (lenZ acc + 2) 255)]; len.
  - pose proof (Z.div_le_mono (0 + lenZ src) (lenZ acc + (lenZ src + 1)) 254). lia.
  - replace (lenZ acc + (lenZ src + 1)) with (0 + lenZ src + 1 * 254) by lia.
    rewrite Z.div_add by lia. lia.
  - replace (lenZ acc + (lenZ src + 1)) with (lenZ acc + (0 + 1) + lenZ src) by lia. lia.
Qed.

Lemma stuff_bound src : lenZ src + 1 <= lenZ (stuff [] src) <= encodedMax (lenZ src).
Proof. pose proof (stuff_length [] src) as H. unfold encodedMax. len. rewrite !Z.add_0_l in H. lia. Qed.

Lemma stuff_nonzero acc src :
  lenZ acc <= 253 -> Forall (fun b => 0 < b < 256) acc -> bytes src ->
  Forall (fun b => 0 < b < 256) (stuff acc src).
Proof.
  intros Hl Ha Hs. revert acc Hl Ha.
  induction Hs as [|b src Hb _ IH]; intros acc Hl Ha; simpl; pose proof (lenZ_nonneg acc).
  { constructor; [lia|done]. }
  unfold is_byte in Hb.
  assert (Hn : Forall (fun b => 0 < b < 256) (stuff [] src)).
  { apply IH; [len; lia|constructor]. }
  destruct (Z.eqb_spec b 0); [|destruct (Z.eqb_spec (lenZ acc + 2) 255)].
  - constructor; [lia|]. by apply Forall_app.
  - constructor; [lia|]. apply Forall_app. split; [done|]. constructor; [lia|done].
  - apply IH; len; [lia|]. apply Forall_app. split; [done|]. constructor; [lia|constructor].
Qed.

(** ** The buffer loop computes the blocks *)

(** The buffer is: finished blocks, the open block's length slot, its data
    bytes, free space. *)
Lemma encode_loop_spec src done slot acc free wi ci code :
  ci = lenZ done -> wi = lenZ done + 1 + lenZ acc -> code = lenZ acc + 1 ->
  lenZ acc <= 253 -> lenZ (stuff acc src) <= 1 + lenZ acc + lenZ free ->
  exists free',
    encode_loop src (done ++ slot :: acc ++ free) wi ci code =
      (done ++ stuff acc src ++ free', lenZ done + lenZ (stuff acc src)) /\
    lenZ (stuff acc src) + lenZ free' = 1 + lenZ acc + lenZ free.
Proof.
  revert done slot acc free wi ci code.
  induction src as [|b src IH]; intros done slot acc free wi ci code -> -> -> Ha Hf.
  { exists free. simpl in *. rewrite wr_middle by done. len. split; [f_equal; lia|lia]. }
  pose proof (lenZ_nonneg acc) as Hn. pose proof (lenZ_nonneg src) as Hn'.
  pose proof (stuff_length acc (b :: src)) as Hlow. pose proof (stuff_bound src) as Hlow'.
  len. destruct (lenZ_pos_cons free) as (f & free0 & ->); [lia|]. simpl in *. len.
  destruct (Z.eqb_spec b 0); [|destruct (Z.eqb_spec (lenZ acc + 2) 255)]; len.
  - rewrite wr_middle by done.
    destruct (IH (done ++ (lenZ acc + 1) :: acc) f [] free0 (lenZ done + 1 + lenZ acc + 1)
      (lenZ done + 1 + lenZ acc) 1) as (free' & He & Hl); len; [lia..|].
    exists free'. apps_in He. rewrite He. apps. split; [f_equal; lia|lia].
  - rewrite u8_small by (unfold is_byte; lia).
    replace (lenZ acc + 1 + 1 =? 255) with true by lia.
    destruct (lenZ_pos_cons free0) as (f2 & free1 & ->); [lia|]. len.
    rewrite (app_comm_cons _ _ slot), app_assoc, (wr_middle (done ++ slot :: acc)) by (len; lia).
    apps. rewrite wr_middle by done.
    destruct (IH (done ++ (lenZ acc + 1 + 1) :: acc ++ [b]) f2 [] free1 (lenZ done + 1 + lenZ acc + 1 + 1)
      (lenZ done + 1 + lenZ acc + 1) 1) as (free' & He & Hl); len; [lia..|].
    exists free'. apps_in He. rewrite He. apps.
    replace (lenZ acc + 1 + 1) with 255 by lia. split; [f_equal; lia|lia].
  - rewrite u8_small by (unfold is_byte; lia).
    replace (lenZ acc + 1 + 1 =? 255) with false by lia.
    rewrite (app_comm_cons _ _ slot), app_assoc, (wr_middle (done ++ slot :: acc)) by (len; lia).
    destruct (IH done slot (acc ++ [b]) free0 (lenZ done + 1 + lenZ acc + 1) (lenZ done)
      (lenZ acc + 1 + 1)) as (free' & He & Hl); len; [lia..|].
    exists free'. apps_in He. apps. rewrite He. split; [done|lia].
Qed.

Lemma encode_spec src dst :
  encodedMax (lenZ src) <= lenZ dst ->
  exists rest, encode src dst = (stuff [] src ++ rest, lenZ (stuff [] src)) /\
    lenZ (stuff [] src) + lenZ rest = lenZ dst.
Proof.
  intros Hd. pose proof (stuff_bound src). pose proof (lenZ_nonneg src).
  destruct (lenZ_pos_cons dst) as (d & free & ->); [lia|]. len.
  destruct (encode_loop_spec src [] d [] free 1 0 1) as (free' & He & Hl); len; [lia..|].
  exists free'. unfold encode. cbn [app] in He. rewrite He. split; [f_equal; lia|lia].
Qed.

(** ** Decoding *)

Lemma decode_loop_fuel f1 f2 src dst :
  (length src <= f1)%nat -> (length src <= f2)%nat ->
  decode_loop f1 src dst = decode_loop f2 src dst.
Proof.
  revert f2 src dst. induction f1 as [|f1 IH]; intros f2 src dst H1 H2.
  { destruct src; [|simpl in H1; lia]. by destruct f2. }
  destruct f2 as [|f2]; [destruct src; [done|simpl in H2; lia]|].
  destruct src as [|c src]; [done|]. simpl in *.
  destruct (c =? 0); [done|]. destruct (lenZ src <? c - 1); [done|].
  pose proof (length_drop src (Z.to_nat (c - 1))).
  case_match; apply IH; lia.
Qed.

(** One whole block is consumed. *)
Lemma decode_block f acc s dst :
  lenZ acc <= 254 -> (length acc + length s < f)%nat ->
  decode_loop f ((lenZ acc + 1) :: acc ++ s) dst =
    decode_loop (length s) s
      (dst ++ acc ++ (if (lenZ acc <? 254) && (0 <? lenZ s) then [0] else [])).
Proof.
  intros Ha Hf. destruct f as [|f]; [lia|]. pose proof (lenZ_nonneg acc). cbn [decode_loop].
  replace (lenZ acc + 1 =? 0) with false by lia.
  replace (lenZ (acc ++ s) <? lenZ acc + 1 - 1) with false
    by (rewrite lenZ_app; pose proof (lenZ_nonneg s); lia).
  replace (Z.to_nat (lenZ acc + 1 - 1)) with (length acc) by (unfold lenZ; lia).
  rewrite take_app_length, drop_app_length.
  replace (lenZ acc + 1 <? 255) with (lenZ acc <? 254) by lia.
  destruct (_ && _)%bool.
  - rewrite <- app_assoc. apply decode_loop_fuel; lia.
  - rewrite app_nil_r. apply decode_loop_fuel; lia.
Qed.

Lemma decode_stuff src : forall acc dst f,
  lenZ acc <= 253 -> (length (stuff acc src) <= f)%nat ->
  decode_loop f (stuff acc src) dst = dst ++ acc ++ src.
Proof.
  induction src as [|b src IH]; intros acc dst f Ha Hf; simpl in *.
  { pose proof (decode_block f acc [] dst) as H. rewrite app_nil_r in H. cbn in Hf.
    rewrite H by (cbn; lia). simpl. rewrite andb_false_r. by rewrite !app_nil_r. }
  pose proof (stuff_bound src). pose proof (lenZ_nonneg src).
  destruct (Z.eqb_spec b 0) as [->|]; [|destruct (Z.eqb_spec (lenZ acc + 2) 255)].
  - rewrite decode_block by (simpl in Hf; rewrite ?length_app in Hf; lia).
    replace (lenZ acc <? 254) with true by lia.
    replace (0 <? lenZ (stuff [] src)) with true by lia. cbn [andb].
    rewrite IH by (len; lia). by rewrite <- !app_assoc.
  - pose proof (decode_block f (acc ++ [b]) (stuff [] src) dst) as Hb. len.
    replace 255 with (lenZ acc + (0 + 1) + 1) by lia.
    rewrite <- app_assoc in Hb. cbn [app] in Hb. simpl in Hf. rewrite !length_app in *.
    simpl in *. rewrite Hb by lia.
    replace (lenZ acc + (0 + 1) <? 254) with false by lia. cbn [andb].
    rewrite IH by (len; lia). by rewrite app_nil_r, <- !app_assoc.
  - rewrite IH by (len; lia || done). by rewrite <- !app_assoc.
Qed.

(** ** Properties *)

(** C22: encoding never writes past [encodedMax(len)] bytes of the destination
    (whatever it held before), reports between [len + 1] and [encodedMax(len)]
    bytes, emits no zero byte (so the [0x00] frame delimiter stays unambiguous),
    and decoding what it wrote gives the input back. *)
Theorem cobs_roundtrip src dst :
  bytes src -> encodedMax (lenZ src) <= lenZ dst ->
  let '(out, n) := encode src dst in
  lenZ out = lenZ dst /\ lenZ src + 1 <= n <= encodedMax (lenZ src) /\
  Forall (fun b => 0 < b < 256) (take (Z.to_nat n) out) /\
  decode (take (Z.to_nat n) out) = src.
Proof.
  intros Hb Hd. destruct (encode_spec src dst Hd) as (rest & -> & Hl).
  pose proof (stuff_bound src).
  replace (Z.to_nat (lenZ (stuff [] src))) with (length (stuff [] src)) by (unfold lenZ; lia).
  rewrite take_app_length. repeat split; [len; lia..| |].
  - apply stuff_nonzero; [len; lia|constructor|done].
  - unfold decode. by rewrite decode_stuff by (len; lia || done).
Qed.

Lemma cobs_roundtrip_witness :
  let '(out, n) := encode [1; 0; 2] (replicate 5 9) in
  lenZ out = 5 /\ 4 <= n <= 4 /\
  Forall (fun b => 0 < b < 256) (take (Z.to_nat n) out) /\
  decode (take (Z.to_nat n) out) = [1; 0; 2].
Proof.
  apply (cobs_roundtrip [1; 0; 2] (replicate 5 9)).
  - repeat constructor; discriminate.
  - vm_compute. discriminate.
Defined.

(** The decoder never produces more bytes than it reads, whatever the input. *)
Lemma decode_loop_length f src dst : lenZ (decode_loop f src dst) <= lenZ dst + lenZ src.
Proof.
  revert src dst. induction f as [|f IH]; intros src dst; simpl.
  { pose proof (lenZ_nonneg src). lia. }
  destruct src as [|c src]; [len; lia|]. pose proof (lenZ_nonneg dst). pose proof (lenZ_nonneg src).
  destruct (c =? 0); [len; lia|]. destruct (Z.ltb_spec (lenZ src) (c - 1)); [len; lia|].
  set (d := drop (Z.to_nat (c - 1)) src). set (t := take (Z.to_nat (c - 1)) src).
  assert (lenZ t + lenZ d = lenZ src).
  { unfold d, t. rewrite <- lenZ_app, take_drop. done. }
  pose proof (IH d (dst ++ t)). pose proof (IH d ((dst ++ t) ++ [0])).
  case_match; len; lia.
Qed.

Lemma decode_length src : lenZ (decode src) <= lenZ src.
Proof. pose proof (decode_loop_length (length src) src []). len. done. Qed.

Lemma decode_loop_bytes f src dst : bytes src -> bytes dst -> bytes (decode_loop f src dst).
Proof.
  revert src dst. induction f as [|f IH]; intros src dst Hs Hd; simpl; [done|].
  destruct src as [|c src]; [done|]. apply bytes_cons in Hs as [_ Hs].
  destruct (c =? 0); [constructor|]. destruct (_ <? _); [constructor|].
  assert (Hdt : bytes (dst ++ take (Z.to_nat (c - 1)) src)).
  { apply bytes_app. split; [done|by apply bytes_take]. }
  case_match; apply IH; try (by apply bytes_drop); [|done].
  apply bytes_app. split; [done|]. constructor; [unfold is_byte; lia|constructor].
Qed.

Lemma decode_bytes src : bytes src -> bytes (decode src).
Proof. intros. apply decode_loop_bytes; [done|constructor]. Qed.

(** [decode] on a stuffed block, and on nothing else that matters here. *)
Lemma decode_stuffed src : decode (stuff [] src) = src.
Proof. unfold decode. by rewrite decode_stuff by (len; lia || done). Qed.

End Cobs.
