(* ===== verification/MsgCodec.v ===== *)
(** * Message header codec ([src/al/link/io/LinkMsgCodec.h], [.cpp])

    The 6-byte message header, the scan that re-synchronises a receiver on the
    next intact message, and the receiver's one-message parse state. *)
From S2P Require Import Prelude Crc.

Module MsgCodec.

(** [src/al/link/LinkFrameSizes.h] *)
Definition MAX_CHUNK : Z := 250.
Definition MSG_HDR : Z := 6.
Definition kWorstCaseCobsFrame : Z :=
  1 + (MAX_CHUNK + MSG_HDR) + ((MAX_CHUNK + MSG_HDR) + 254 - 1) / 254 + 1 + 1 + 1.

(** [msgHdrEncode] *)
Definition msgHdrEncode (len crc : Z) : list Z :=
  [ u8 len; u8 (Z.shiftr len 8); u8 (Z.shiftr len 16); u8 (Z.shiftr len 24);
    u8 crc; u8 (Z.shiftr crc 8) ].

Record MsgHdr := mkMsgHdr { hlen : Z; hcrc : Z }.

(** [msgHdrDecode] *)
Definition msgHdrDecode (h : list Z) : MsgHdr :=
  mkMsgHdr
    (Z.lor (Z.lor (Z.lor (rd 0 h 0) (Z.shiftl (rd 0 h 1) 8)) (Z.shiftl (rd 0 h 2) 16))
       (Z.shiftl (rd 0 h 3) 24))
    (Z.lor (rd 0 h 4) (Z.shiftl (rd 0 h 5) 8)).

(** The body of [msgResyncScan]'s loop: is offset [d] accepted? The sum is one of
    [int]s, whose overflow wraps here (it is undefined in C++). *)
Definition scanHit (b : list Z) (n d maxMsg : Z) : bool :=
  let m := msgHdrDecode (drop (Z.to_nat d) b) in
  if (hlen m <? 1) || (maxMsg <? hlen m) then false
  else if n <? i32 (i32 (d + i32 (hlen m)) + MSG_HDR) then false
  else
    Crc.crc16 (take (Z.to_nat (i32 (hlen m))) (drop (Z.to_nat (d + MSG_HDR)) b)) =? hcrc m.

Fixpoint scanLoop (fuel : nat) (b : list Z) (n d maxMsg : Z) : Z :=
  match fuel with
  | O => -1
  | S fuel =>
      if d + MSG_HDR <=? n then
        if scanHit b n d maxMsg then d else scanLoop fuel b n (d + 1) maxMsg
      else -1
  end.

(** [msgResyncScan(b, n, maxMsg)] with [n = length b]. *)
Definition msgResyncScan (b : list Z) (maxMsg : Z) : Z :=
  scanLoop (length b) b (lenZ b) 0 maxMsg.

(** [class LinkMsgCodec] *)
Record LinkMsgCodec := mkLinkMsgCodec { len_ : Z; crc_ : Z }.
#[export] Instance eta_LinkMsgCodec : Eta LinkMsgCodec :=
  fun r => mkLinkMsgCodec (len_ r) (crc_ r).

Definition codec_init : LinkMsgCodec := mkLinkMsgCodec (-1) 0.
Definition inMsg (c : LinkMsgCodec) : bool := 0 <=? len_ c.
Definition beginMsg (h : list Z) (maxMsg : Z) (c : LinkMsgCodec) : bool * LinkMsgCodec :=
  let m := msgHdrDecode h in
  if (hlen m =? 0) || (maxMsg <? hlen m) then (false, c)
  else (true, mkLinkMsgCodec (i32 (hlen m)) (hcrc m)).
Definition codec_reset (c : LinkMsgCodec) : LinkMsgCodec := c <| len_ := -1 |>.

(** ** Little-endian words *)

Lemma hdr_decode_bytes a b c d e f rest :
  bytes [a; b; c; d; e; f] ->
  msgHdrDecode ([a; b; c; d; e; f] ++ rest) =
    mkMsgHdr (a + 256 * b + 65536 * c + 16777216 * d) (e + 256 * f).
Proof.
  intros H. rewrite !bytes_cons in H. unfold is_byte in H.
  unfold msgHdrDecode, rd. simpl nth. f_equal.
  - rewrite (lor_shiftl a b 8), (lor_shiftl _ c 16), (lor_shiftl _ d 24) by lia. lia.
  - rewrite lor_shiftl by lia. lia.
Qed.

Lemma hdr_encode_parts len crc :
  is_u32 len -> is_u16 crc ->
  let h := msgHdrEncode len crc in
  bytes h /\ len = rd 0 h 0 + 256 * rd 0 h 1 + 65536 * rd 0 h 2 + 16777216 * rd 0 h 3 /\
  crc = rd 0 h 4 + 256 * rd 0 h 5.
Proof.
  intros Hl Hc. unfold msgHdrEncode, rd. simpl. split.
  { repeat constructor; apply u8_byte. }
  rewrite !Z.shiftr_div_pow2 by lia. simpl. mlia.
Qed.

Lemma hdr_decode_encode len crc rest :
  is_u32 len -> is_u16 crc -> msgHdrDecode (msgHdrEncode len crc ++ rest) = mkMsgHdr len crc.
Proof.
  intros Hl Hc. destruct (hdr_encode_parts len crc Hl Hc) as (Hb & He & He').
  unfold msgHdrEncode in *. rewrite hdr_decode_bytes by done.
  f_equal; symmetry; [etrans; [exact He|]|etrans; [exact He'|]]; reflexivity.
Qed.

Lemma lenZ_hdr len crc : lenZ (msgHdrEncode len crc) = 6.
Proof. done. Qed.
#[export] Hint Rewrite lenZ_hdr : arrays.

(** Six bytes are the encoding of what they decode to. *)
Lemma hdr_encode_decode h :
  bytes h -> 6 <= lenZ h ->
  exists rest, h = msgHdrEncode (hlen (msgHdrDecode h)) (hcrc (msgHdrDecode h)) ++ rest /\
    is_u32 (hlen (msgHdrDecode h)) /\ is_u16 (hcrc (msgHdrDecode h)).
Proof.
  intros Hb Hl. unfold lenZ in Hl.
  destruct h as [|a [|b [|c [|d [|e [|f rest]]]]]]; simpl in Hl; try lia.
  exists rest. change (a :: b :: c :: d :: e :: f :: rest) with ([a; b; c; d; e; f] ++ rest) in *.
  apply bytes_app in Hb as [Hb _]. rewrite hdr_decode_bytes by done. cbn [hlen hcrc].
  rewrite !bytes_cons in Hb. unfold is_byte in Hb. split; [|mlia].
  f_equal. unfold msgHdrEncode. rewrite !Z.shiftr_div_pow2 by lia. simpl Z.pow.
  repeat f_equal; symmetry; mlia.
Qed.

(** ** The resync scan *)

(** An intact message (header, payload, matching CRC) starts at offset [d]. *)
Definition msg_at (b : list Z) (d maxMsg : Z) : Prop :=
  exists pre payload post,
    b = pre ++ msgHdrEncode (lenZ payload) (Crc.crc16 payload) ++ payload ++ post /\
    lenZ pre = d /\ 1 <= lenZ payload <= maxMsg.

Lemma scanHit_spec b d maxMsg :
  bytes b -> lenZ b + maxMsg + MSG_HDR < 2147483648 -> 0 <= d -> d + MSG_HDR <= lenZ b ->
  scanHit b (lenZ b) d maxMsg = true <-> msg_at b d maxMsg.
Proof.
  intros Hb Hm Hd Hn. unfold MSG_HDR in *.
  destruct (split_at b d) as (pre & suf & -> & Hpre); [lia|].
  apply bytes_app in Hb as [Hbp Hbs]. rewrite lenZ_app in *.
  unfold scanHit. rewrite drop_at by done. split.
  - intros Hhit. destruct (hdr_encode_decode suf Hbs) as (rest & Hs & Hl & Hc); [lia|].
    set (m := msgHdrDecode suf) in *. clearbody m. subst suf.
    case_match; [done|]. bool_prop. unfold is_u32 in Hl.
    pose proof (lenZ_nonneg pre). pose proof (lenZ_nonneg (msgHdrEncode (hlen m) (hcrc m) ++ rest)).
    rewrite (i32_small (hlen m)), (i32_small (d + hlen m)), i32_small in Hhit by (unfold MSG_HDR; lia).
    case_match; [done|]. bool_prop.
    rewrite app_assoc in Hhit. rewrite drop_at in Hhit by (len; unfold MSG_HDR; lia).
    len.
    destruct (split_at rest (hlen m)) as (p & q & -> & Hp); [unfold MSG_HDR in *; lia|].
    rewrite take_at in Hhit by done.
    exists pre, p, q. rewrite Hp, Hhit. split; [done|]. lia.
  - intros (pre' & p & q & He & Hp & Hl).
    assert (pre' = pre /\ suf = msgHdrEncode (lenZ p) (Crc.crc16 p) ++ p ++ q) as [-> ->].
    { apply app_inj_1 in He as [-> ->]; [done|]. unfold lenZ in *. lia. }
    rewrite hdr_decode_encode by (apply Crc.crc16_u16 || unfold is_u32; lia). cbn [hlen hcrc].
    assert (Hr : lenZ pre + lenZ p + 12 + lenZ q + maxMsg < 2147483648) by (revert Hm; len; lia).
    pose proof (lenZ_nonneg q). pose proof (lenZ_nonneg p).
    rewrite (i32_small (lenZ p)), (i32_small (d + lenZ p)), i32_small by (unfold MSG_HDR; lia).
    replace (_ || _)%bool with false by (symmetry; apply orb_false_iff; lia).
    len. pose proof (lenZ_nonneg q). unfold MSG_HDR.
    replace (_ <? _) with false by lia.
    rewrite app_assoc, drop_at by (len; lia).
    rewrite take_at by done. apply Z.eqb_refl.
Qed.

Lemma msg_at_fits b d maxMsg : msg_at b d maxMsg -> 0 <= d /\ d + MSG_HDR <= lenZ b.
Proof.
  intros (pre & p & q & -> & Hd & Hl). pose proof (lenZ_nonneg pre). pose proof (lenZ_nonneg q).
  len. unfold MSG_HDR. lia.
Qed.

Lemma scanLoop_spec fuel b d maxMsg :
  bytes b -> lenZ b + maxMsg + MSG_HDR < 2147483648 -> 0 <= d -> lenZ b < d + MSG_HDR + Z.of_nat fuel ->
  (forall d', 0 <= d' < d -> ~ msg_at b d' maxMsg) ->
  let r := scanLoop fuel b (lenZ b) d maxMsg in
  (r = -1 /\ forall d', ~ msg_at b d' maxMsg) \/
  (0 <= r /\ msg_at b r maxMsg /\ forall d', d' < r -> ~ msg_at b d' maxMsg).
Proof.
  intros Hb Hm. revert d.
  assert (Hend : forall d, lenZ b < d + MSG_HDR ->
    (forall d', 0 <= d' < d -> ~ msg_at b d' maxMsg) -> forall d', ~ msg_at b d' maxMsg).
  { intros d Hd Hno d' H. pose proof (msg_at_fits _ _ _ H). apply (Hno d'); [lia|done]. }
  induction fuel as [|fuel IH]; intros d Hd Hf Hno; cbn [scanLoop].
  { left. split; [done|]. apply (Hend d); [lia|done]. }
  destruct (Z.leb_spec (d + MSG_HDR) (lenZ b)).
  2: { left. split; [done|]. apply (Hend d); [lia|done]. }
  destruct (scanHit b (lenZ b) d maxMsg) eqn:Hs.
  - apply scanHit_spec in Hs; [|done..]. right. split; [done|]. split; [done|].
    intros d' Hd' H'. apply (Hno d'); [|done]. pose proof (msg_at_fits _ _ _ H'). lia.
  - apply IH; [lia..|]. intros d' Hd' H'.
    destruct (Z.eq_dec d' d) as [->|]; [|by apply (Hno d'); [lia|]].
    apply scanHit_spec in H'; [|done..]. congruence.
Qed.

(** ** Properties *)

(** The message header round-trips both ways: decoding an encoded header
    gives its length and CRC back (even with payload bytes after it), and any
    six bytes are the encoding of the header they decode to. *)
Theorem msg_header_roundtrip len crc h rest :
  is_u32 len -> is_u16 crc -> bytes h -> lenZ h = MSG_HDR ->
  msgHdrDecode (msgHdrEncode len crc ++ rest) = mkMsgHdr len crc /\
  msgHdrEncode (hlen (msgHdrDecode h)) (hcrc (msgHdrDecode h)) = h.
Proof.
  intros Hl Hc Hb Hh. split; [by apply hdr_decode_encode|].
  destruct (hdr_encode_decode h Hb) as (r & He & _); [unfold MSG_HDR in Hh; lia|].
  rewrite He in Hh at 1. rewrite lenZ_app, lenZ_hdr in Hh. unfold MSG_HDR in Hh.
  destruct r; [|len; pose proof (lenZ_nonneg r); lia]. by rewrite app_nil_r in He.
Qed.

Lemma msg_header_roundtrip_witness :
  msgHdrDecode (msgHdrEncode 5000 0xBEEF ++ [1]) = mkMsgHdr 5000 0xBEEF /\
  msgHdrEncode (hlen (msgHdrDecode [1; 2; 3; 4; 5; 6])) (hcrc (msgHdrDecode [1; 2; 3; 4; 5; 6]))
    = [1; 2; 3; 4; 5; 6].
Proof.
  apply msg_header_roundtrip.
  - unfold is_u32. lia.
  - unfold is_u16. lia.
  - repeat constructor; discriminate.
  - reflexivity.
Defined.

(** C25: the resync scan is exact: it returns the first offset at which an intact
    message (header, payload within [maxMsg], matching CRC-16) lies in the
    buffer, and [-1] exactly when the buffer holds none. The buffer and [maxMsg]
    together are below 2^31, so that the [int] sums of the scan do not overflow
    (a configuration's [maxMsg] is at most 60000). *)
Theorem resync_scan_exact b maxMsg :
  bytes b -> lenZ b + maxMsg + MSG_HDR < 2147483648 ->
  let d := msgResyncScan b maxMsg in
  (d = -1 /\ forall d', ~ msg_at b d' maxMsg) \/
  (0 <= d /\ msg_at b d maxMsg /\ forall d', d' < d -> ~ msg_at b d' maxMsg).
Proof.
  intros Hb Hm. apply scanLoop_spec; [done..|lia| |intros; lia].
  unfold MSG_HDR, lenZ. lia.
Qed.

Lemma resync_scan_exact_witness :
  let d := msgResyncScan ([9; 9] ++ msgHdrEncode 1 (Crc.crc16 [7]) ++ [7]) 100 in
  (d = -1 /\ forall d', ~ msg_at ([9; 9] ++ msgHdrEncode 1 (Crc.crc16 [7]) ++ [7]) d' 100) \/
  (0 <= d /\ msg_at ([9; 9] ++ msgHdrEncode 1 (Crc.crc16 [7]) ++ [7]) d 100 /\
   forall d', d' < d -> ~ msg_at ([9; 9] ++ msgHdrEncode 1 (Crc.crc16 [7]) ++ [7]) d' 100).
Proof.
  apply resync_scan_exact; [|by vm_compute].
  vm_compute. repeat constructor; discriminate.
Defined.

Example resync_scan_run :
  msgResyncScan ([9; 9] ++ msgHdrEncode 1 (Crc.crc16 [7]) ++ [7]) 100 = 2.
Proof. reflexivity. Qed.

End MsgCodec.
