(* ===== verification/FrameRx.v ===== *)
(** * The frame receiver ([src/al/link/io/LinkFrameRx.h], [.cpp])

    [UtilFrameRx] splits the byte stream at [0x00] delimiters, un-stuffs each
    frame and hands it to its [Listener]. The listener is the class
    [FrameListener]; the link instantiates it, and the theorems here are proved
    for every listener. *)
From S2P Require Import Prelude Monad Crc Cobs MsgCodec.

Module FrameRx.

Definition ACK_TYPE : Z := 0xFF.
Definition NAK_TYPE : Z := 0xFE.
Definition COBS_SEQ_MAX : Z := 0xFD.

(** [buf]/[idx]: the bytes of the frame being collected, [buf[0..idx)]. *)
Record UtilFrameRx := mkFrameRx { rxbuf : list Z }.
Definition BUF_SIZE : Z := 256.
Definition idx (f : UtilFrameRx) : Z := lenZ (rxbuf f).
Definition frame_reset : UtilFrameRx := mkFrameRx [].

(** What a delimited frame is, in the order [feed] tests it. *)
Inductive Frame :=
  | Payload (seq : Z) (b : list Z)
  | Ack (seq bytesRecvd : Z)
  | Nak (seq : Z)
  | Bad.

Definition classify (decoded : list Z) : Frame :=
  let decLen := lenZ decoded in
  let d i := rd 0 decoded i in
  let crc n := Crc.crc8 (take (Z.to_nat n) decoded) in
  if (decLen >=? 5) && (d 0 =? ACK_TYPE) && (crc 4 =? d 4) then
    Ack (d 1) (Z.lor (d 2) (Z.shiftl (d 3) 8))
  else if (decLen >=? 3) && (d 0 =? ACK_TYPE) && (crc 2 =? d 2) then Ack (d 1) 0
  else if (decLen >=? 3) && (d 0 =? NAK_TYPE) && (crc 2 =? d 2) then Nak (d 1)
  else if (decLen >=? 2) && (crc (decLen - 1) =? d (decLen - 1)) then
    Payload (d 0) (take (Z.to_nat (decLen - 2)) (drop 1 decoded))
  else Bad.

(** [UtilFrameRx::Listener]: an object holding the receiver, and its callbacks;
    a callback returns [true] when the caller must stop feeding. *)
Class FrameListener (S : Type) := {
  getRx : S -> UtilFrameRx;
  setRx : UtilFrameRx -> S -> S;
  onPayload : Z -> list Z -> M S bool;
  onAck : Z -> Z -> M S bool;
  onNak : Z -> M S bool;
  onFrameError : M S bool;
}.

Class FrameListenerLaws (S : Type) `{FrameListener S} := {
  get_set : forall f s, getRx (setRx f s) = f;
  set_set : forall f g s, setRx f (setRx g s) = setRx f s;
  set_get : forall s, setRx (getRx s) s = s;
}.

Section Feed.
Context {S : Type} `{FrameListener S}.

Definition dispatch (f : Frame) : M S bool :=
  match f with
  | Payload seq b => onPayload seq b
  | Ack seq n => onAck seq n
  | Nak seq => onNak seq
  | Bad => onFrameError
  end.

(** [UtilFrameRx::feed]; [i] counts the bytes consumed so far. *)
Fixpoint feed_loop (data : list Z) (i : Z) : M S Z :=
  match data with
  | [] => ret i
  | b :: data =>
      f <- gets getRx;;
      if b =? 0 then
        if idx f =? 0 then
          match data with
          | b2 :: data2 => if b2 =? 0 then feed_loop data2 (i + 2) else feed_loop data (i + 1)
          | [] => feed_loop data (i + 1)
          end
        else
          modify (setRx frame_reset);;
          dropped <- dispatch (classify (Cobs.decode (rxbuf f)));;
          if dropped then ret (i + 1) else feed_loop data (i + 1)
      else if idx f <? BUF_SIZE then
        modify (setRx (mkFrameRx (rxbuf f ++ [b])));;
        feed_loop data (i + 1)
      else
        modify (setRx frame_reset);;
        dropped <- onFrameError;;
        if dropped then ret (i + 1) else feed_loop data (i + 1)
  end.

Definition feed (data : list Z) : M S Z := feed_loop data 0.

(** ** Reference: one byte at a time, no lookahead *)

Definition feed_byte (b : Z) : M S bool :=
  f <- gets getRx;;
  if b =? 0 then
    if idx f =? 0 then ret false
    else
      modify (setRx frame_reset);;
      dispatch (classify (Cobs.decode (rxbuf f)))
  else if idx f <? BUF_SIZE then
    modify (setRx (mkFrameRx (rxbuf f ++ [b])));; ret false
  else
    modify (setRx frame_reset);; onFrameError.

(** Consumed bytes, and whether the listener asked to stop. *)
Fixpoint feed_bytes (data : list Z) (i : Z) : M S (Z * bool) :=
  match data with
  | [] => ret (i, false)
  | b :: data =>
      dropped <- feed_byte b;;
      if dropped then ret (i + 1, true) else feed_bytes data (i + 1)
  end.

Lemma feed_loop_bytes data : forall i s,
  feed_loop data i s = (r <- feed_bytes data i;; ret (fst r)) s.
Proof.
  induction data as [data IH] using (induction_ltof1 _ (@length Z)). unfold ltof in IH.
  intros i s. destruct data as [|b data]; [done|].
  assert (IH1 : forall i s, feed_loop data i s = (r <- feed_bytes data i;; ret (fst r)) s).
  { apply IH. simpl. lia. }
  cbn [feed_loop feed_bytes]. unfold feed_byte. run_m.
  destruct (Z.eqb_spec b 0) as [->|]; [destruct (Z.eqb_spec (idx (getRx s)) 0) as [Hi|]|].
  - run_m. destruct data as [|b2 data2]; [apply IH1|].
    destruct (Z.eqb_spec b2 0) as [->|]; [|apply IH1].
    rewrite IH by (simpl; lia). cbn [feed_bytes]. unfold feed_byte. run_m.
    replace (0 =? 0) with true by done. replace (idx (getRx s) =? 0) with true by lia. run_m.
    by replace (i + 1 + 1) with (i + 2) by lia.
  - run_m. apply bind_eq. intros [] s2 _; [done|apply IH1].
  - destruct (idx (getRx s) <? BUF_SIZE).
    + run_m. apply IH1.
    + run_m. apply bind_eq. intros [] s2 _; [done|apply IH1].
Qed.

Lemma feed_bytes_app a b : forall i s,
  feed_bytes (a ++ b) i s =
    (r <- feed_bytes a i;; if snd r then ret r else feed_bytes b (fst r)) s.
Proof.
  induction a as [|x a IH]; intros i s; [done|]. cbn [app feed_bytes]. run_m.
  apply bind_eq. intros [] s1 _; [done|apply IH].
Qed.

Lemma feed_split a b s :
  feed (a ++ b) s =
    (r <- feed_bytes a 0;;
     if snd r then ret (fst r) else r' <- feed_bytes b (fst r);; ret (fst r')) s.
Proof.
  unfold feed. rewrite feed_loop_bytes.
  transitivity ((r <- (r <- feed_bytes a 0;; if snd r then ret r else feed_bytes b (fst r));;
                 ret (fst r)) s).
  { apply bind_eq_l, feed_bytes_app. }
  run_m. apply bind_eq. intros [c []] s' _; done.
Qed.

(** C20: chunking is invisible. Feeding a buffer in one call does exactly what
    feeding its bytes one at a time does (the double-delimiter lookahead is
    unobservable), and feeding [a ++ b] is feeding [a] and then, unless the
    listener stopped the receiver inside [a], feeding [b]. *)
Theorem feed_chunking a b s :
  feed (a ++ b) s =
    (r <- feed_bytes a 0;;
     if snd r then ret (fst r) else r' <- feed_bytes b (fst r);; ret (fst r')) s.
Proof. apply feed_split. Qed.

Context `{!FrameListenerLaws S}.

(** Collecting non-zero bytes into a receiver with room. *)
Lemma feed_collect data : forall i s,
  Forall (fun b => 0 < b < 256) data -> idx (getRx s) + lenZ data <= BUF_SIZE ->
  feed_bytes data i s =
    Some ((i + lenZ data, false), setRx (mkFrameRx (rxbuf (getRx s) ++ data)) s).
Proof.
  induction data as [|b data IH]; intros i s Hd Hi.
  { rewrite app_nil_r. cbn. unfold ret. len. repeat f_equal; [lia|].
    rewrite <- (set_get s) at 1. f_equal. by destruct (getRx s). }
  inversion Hd as [|? ? Hb Hd']; subst. len. unfold idx in *. pose proof (lenZ_nonneg data).
  cbn [feed_bytes]. unfold feed_byte. run_m.
  replace (b =? 0) with false by lia. unfold idx. unfold BUF_SIZE in *.
  replace (lenZ (rxbuf (getRx s)) <? 256) with true by lia. run_m.
  rewrite IH; [|done|rewrite get_set; cbn; len; lia].
  rewrite get_set, set_set. cbn [rxbuf]. apps. by replace (i + 1 + lenZ data) with (i + (lenZ data + 1)) by lia.
Qed.

(** Framing round trip: an idle receiver fed one wire frame
    ([0x00 COBS(raw) 0x00]) hands the listener exactly the frame [raw] is,
    with the receiver idle again, and consumes the whole frame. *)
Lemma feed_frame raw s :
  bytes raw -> raw <> [] -> lenZ (Cobs.stuff [] raw) <= BUF_SIZE -> idx (getRx s) = 0 ->
  feed ([0] ++ Cobs.stuff [] raw ++ [0]) s =
    (dispatch (classify raw);; ret (lenZ (Cobs.stuff [] raw) + 2)) s.
Proof.
  intros Hb Hne Hl Hi. set (w := Cobs.stuff [] raw) in *.
  assert (Hnil : rxbuf (getRx s) = []).
  { unfold idx, lenZ in Hi. destruct (rxbuf (getRx s)); [done|simpl in Hi; lia]. }
  assert (Hw : 1 <= lenZ w).
  { pose proof (Cobs.stuff_bound raw). pose proof (lenZ_nonneg raw). unfold w. lia. }
  rewrite app_assoc, feed_split.
  assert (H1 : feed_bytes ([0] ++ w) 0 s = Some ((1 + lenZ w, false), setRx (mkFrameRx w) s)).
  { cbn [app feed_bytes]. unfold feed_byte. run_m.
    replace (0 =? 0) with true by done. rewrite Hi. cbn. run_m. rewrite feed_collect.
    - by rewrite Hnil.
    - apply Cobs.stuff_nonzero; [len; lia|constructor|done].
    - rewrite Hi. lia. }
  rewrite (bind_run _ _ _ _ _ H1). cbn [fst snd feed_bytes]. unfold feed_byte. run_m.
  rewrite get_set. cbn [rxbuf]. unfold idx. cbn [rxbuf].
  replace (0 =? 0) with true by done. replace (lenZ w =? 0) with false by lia. run_m.
  rewrite set_set. unfold w at 1. rewrite Cobs.decode_stuffed.
  assert (setRx frame_reset s = s) as ->.
  { rewrite <- (set_get s) at 2. f_equal. destruct (getRx s). cbn in Hnil. by subst. }
  replace (0 + (lenZ w + 1)) with (1 + lenZ w) by lia.
  apply bind_eq. intros [] s' _; cbn; by replace (1 + lenZ w + 1) with (lenZ w + 2) by lia.
Qed.
End Feed.

(** ** What a received frame is *)

Lemma take_snoc {A} (l : list A) x : take (Z.to_nat (lenZ (l ++ [x]) - 1)) (l ++ [x]) = l.
Proof.
  replace (lenZ (l ++ [x]) - 1) with (lenZ l) by (len; lia).
  unfold lenZ. rewrite Nat2Z.id. apply take_app_length.
Qed.

Lemma rd_snoc {A} (d : A) l x : rd d (l ++ [x]) (lenZ (l ++ [x]) - 1) = x.
Proof.
  replace (lenZ (l ++ [x]) - 1) with (lenZ l) by (len; lia).
  unfold rd, lenZ. rewrite Nat2Z.id, app_nth2 by lia. by rewrite Nat.sub_diag.
Qed.

Lemma classify_payload seq b :
  0 <= seq <= COBS_SEQ_MAX ->
  classify ((seq :: b) ++ [Crc.crc8 (seq :: b)]) = Payload seq b.
Proof.
  intros Hs. unfold classify, COBS_SEQ_MAX, ACK_TYPE, NAK_TYPE in *.
  set (x := Crc.crc8 (seq :: b)). rewrite take_snoc, rd_snoc. fold x.
  change (rd 0 ((seq :: b) ++ [x]) 0) with seq.
  replace (seq =? 255) with false by lia. replace (seq =? 254) with false by lia.
  rewrite !andb_false_r. cbn [andb]. rewrite Z.eqb_refl, andb_true_r.
  pose proof (lenZ_nonneg b). replace (2 <=? lenZ ((seq :: b) ++ [x])) with true by (len; lia).
  f_equal. cbn [app drop]. replace (lenZ (seq :: b ++ [x]) - 2) with (lenZ b) by (len; lia).
  unfold lenZ. rewrite Nat2Z.id. apply take_app_length.
Qed.

Lemma low_high_bytes n :
  is_u16 n ->
  Z.lor (u8 (Z.land n 0xFF)) (Z.shiftl (u8 (Z.land (Z.shiftr n 8) 0xFF)) 8) = n.
Proof.
  intros Hn. unfold is_u16 in Hn.
  change 255 with (Z.ones 8). rewrite !Z.land_ones, Z.shiftr_div_pow2 by lia.
  unfold u8. change (2 ^ 8) with 256. rewrite !Z.mod_mod by lia.
  rewrite lor_shiftl by (change (2 ^ 8) with 256; mlia).
  change (2 ^ 8) with 256. Z.div_mod_to_equations. lia.
Qed.

Lemma classify_ack seq n :
  is_u16 n ->
  let u := [ACK_TYPE; seq; u8 (Z.land n 0xFF); u8 (Z.land (Z.shiftr n 8) 0xFF)] in
  classify (u ++ [Crc.crc8 u]) = Ack seq n.
Proof.
  intros Hn u. unfold classify. change (lenZ (u ++ [Crc.crc8 u])) with 5.
  change (take (Z.to_nat 4) (u ++ [Crc.crc8 u])) with u.
  change (rd 0 (u ++ [Crc.crc8 u]) 4) with (Crc.crc8 u). rewrite (Z.eqb_refl (Crc.crc8 u)).
  change (rd 0 (u ++ [Crc.crc8 u]) 0 =? ACK_TYPE) with true.
  change (5 <=? 5) with true. cbn [andb]. f_equal.
  exact (low_high_bytes n Hn).
Qed.

Lemma classify_nak seq :
  is_byte seq ->
  let u := [NAK_TYPE; seq] in classify (u ++ [Crc.crc8 u]) = Nak seq.
Proof.
  intros Hs u. unfold classify. change (lenZ (u ++ [Crc.crc8 u])) with 3.
  change (take (Z.to_nat 2) (u ++ [Crc.crc8 u])) with u.
  change (rd 0 (u ++ [Crc.crc8 u]) 2) with (Crc.crc8 u).
  change (rd 0 (u ++ [Crc.crc8 u]) 0 =? ACK_TYPE) with false.
  change (rd 0 (u ++ [Crc.crc8 u]) 0 =? NAK_TYPE) with true.
  rewrite (Z.eqb_refl (Crc.crc8 u)). done.
Qed.

(** ** Buffer bounds *)

(** Frames the receiver may have accumulated: never longer than [buf], so
    un-stuffing one never overruns [decoded[256]] either. *)
Definition rx_ok (f : UtilFrameRx) : Prop := bytes (rxbuf f) /\ idx f <= BUF_SIZE.

Lemma rx_ok_decode f : rx_ok f -> lenZ (Cobs.decode (rxbuf f)) <= BUF_SIZE.
Proof. intros [_ Hi]. pose proof (Cobs.decode_length (rxbuf f)). unfold idx in Hi. lia. Qed.

(** ** A listener that records what it is handed *)

Record Recorder := mkRecorder { rec_rx : UtilFrameRx; rec_log : list Frame }.

Definition record (f : Frame) : M Recorder bool :=
  modify (fun r => mkRecorder (rec_rx r) (rec_log r ++ [f]));; ret false.

#[export] Instance recorder_listener : FrameListener Recorder := {
  getRx := rec_rx;
  setRx := fun f r => mkRecorder f (rec_log r);
  onPayload := fun seq b => record (Payload seq b);
  onAck := fun seq n => record (Ack seq n);
  onNak := fun seq => record (Nak seq);
  onFrameError := record Bad;
}.

#[export] Instance recorder_laws : FrameListenerLaws Recorder.
Proof. split; [done|done|]. by intros []. Qed.

Lemma feed_chunking_witness :
  feed ([0; 3; 7] ++ [0; 0; 2]) (mkRecorder frame_reset []) =
    Some (6, mkRecorder (mkFrameRx [2]) [Bad]).
Proof. rewrite feed_chunking. vm_compute. reflexivity. Defined.

Example feed_frame_run :
  feed ([0] ++ Cobs.stuff [] [9; 0; 7; Crc.crc8 [9; 0; 7]] ++ [0]) (mkRecorder frame_reset []) =
    Some (lenZ (Cobs.stuff [] [9; 0; 7; Crc.crc8 [9; 0; 7]]) + 2,
          mkRecorder frame_reset [Payload 9 [0; 7]]).
Proof.
  rewrite feed_frame.
  - vm_compute. reflexivity.
  - vm_compute. repeat constructor; discriminate.
  - discriminate.
  - vm_compute. discriminate.
  - reflexivity.
Qed.

End FrameRx.
