(* ===== verification/Config.v ===== *)
(** * Configuration and buffer sizing ([src/al/AutoLinkConfig.h])

    The configuration record, the chunk arithmetic the senders admit messages
    with, and the heap-budgeted buffer floors. [size_t] is the ESP32's 32-bit
    one; an [int] that cannot overflow for any value of its operands' types is
    a plain [Z]. *)
From Stdlib Require Import SpecFloat.
From S2P Require Import Prelude MsgCodec.
Export MsgCodec(MAX_CHUNK, MSG_HDR, kWorstCaseCobsFrame).

Module Config.

Definition AUTOLINK_MAX_BAUDS : Z := 16.
Definition AUTOLINK_ARQ_PIPELINE_WINDOW : Z := 32.
Definition AUTOLINK_WIRE_SETTLE_MS : Z := 50.
Definition AUTOLINK_DEFAULT_MAX_MSG : Z := 5120.
Definition COBS_SEQ_SPACE : Z := 254.
Definition ARQ_CHUNK_BUDGET : Z := AUTOLINK_ARQ_PIPELINE_WINDOW * 2.

Definition chunksForMsgLen (len : Z) : Z :=
  if len <=? 0 then 0
  else if len + MSG_HDR <=? MAX_CHUNK then 1
  else 1 + (len + MAX_CHUNK - 1) / MAX_CHUNK.

Definition maxLenForChunkBudget (budget : Z) : Z :=
  if budget <=? 0 then 0
  else if budget =? 1 then MAX_CHUNK - MSG_HDR
  else (budget - 1) * MAX_CHUNK.

Definition maxLenForFreeWindow (window inflight : Z) : Z :=
  if window <=? 0 then MAX_CHUNK - MSG_HDR
  else if inflight <? 0 then MAX_CHUNK - MSG_HDR
  else
    let free_ := window - inflight in
    let free_ := if free_ <? 1 then 1 else free_ in
    maxLenForChunkBudget free_.

Inductive Mode := SYNC | ASYNC.
#[export] Instance Mode_eq_dec : EqDecision Mode.
Proof. solve_decision. Defined.
Definition is_sync (m : Mode) : bool := match m with SYNC => true | ASYNC => false end.

(** [binary32] values and products, for [minAcceptRate]. *)
Definition float32 (m e : Z) : spec_float := binary_normalize 24 128 m e false.

Record AutoLinkConfig := mkConfig {
  allowedBauds : list Z;
  allowedBaudsCount : Z;
  errThreshold : Z;
  delayMs : Z;
  rxBufferSize : Z;
  txBufferSize : Z;
  streamBufferSize : Z;
  heapReserveBytes : Z;
  maxMsg : Z;
  idleTimeoutMs : Z;
  pingSamplesPerBaud : Z;
  minAcceptRate : spec_float;
  errRateWindow : Z;
  mode : Mode;
  syncAckTimeoutMs : Z;
  postLockQuietMs : Z;
  maxRetx : Z;
  txDelayMs : Z;
  asyncChunkGapMs : Z;
  gbnResendBurstMax : Z;
}.

#[export] Instance eta_Config : Eta AutoLinkConfig := fun r =>
  mkConfig (allowedBauds r) (allowedBaudsCount r) (errThreshold r) (delayMs r)
    (rxBufferSize r) (txBufferSize r) (streamBufferSize r) (heapReserveBytes r) (maxMsg r)
    (idleTimeoutMs r) (pingSamplesPerBaud r) (minAcceptRate r) (errRateWindow r) (mode r)
    (syncAckTimeoutMs r) (postLockQuietMs r) (maxRetx r) (txDelayMs r) (asyncChunkGapMs r)
    (gbnResendBurstMax r).

(** The default member initialisers (device build: [mode = SYNC]). *)
Definition default_config : AutoLinkConfig :=
  mkConfig ([512000; 115200; 57600; 38400; 19200; 9600] ++ replicate 10 0) 6 100 50
    2048 256 2048 24576 AUTOLINK_DEFAULT_MAX_MSG 10000 3 (float32 1 (-1)) 30 SYNC
    500 600 5 0 1 8.

(** [clampToMaxBauds] clamps the field in place and returns it. *)
Definition clampToMaxBauds (cfg : AutoLinkConfig) : Z * AutoLinkConfig :=
  let n := allowedBaudsCount cfg in
  let n := if n <? 0 then 0 else n in
  let n := if AUTOLINK_MAX_BAUDS <? n then AUTOLINK_MAX_BAUDS else n in
  (n, cfg <| allowedBaudsCount := n |>).

Definition clampedCount (cfg : AutoLinkConfig) : Z :=
  if allowedBaudsCount cfg <? 0 then 0
  else if AUTOLINK_MAX_BAUDS <? allowedBaudsCount cfg then AUTOLINK_MAX_BAUDS
  else allowedBaudsCount cfg.

Definition allowedBaudSafe (cfg : AutoLinkConfig) (i : Z) : Z :=
  if (i <? 0) || (AUTOLINK_MAX_BAUDS <=? i) then 0 else rd 0 (allowedBauds cfg) i.

(** ** Buffer floors *)

Definition streamBufferFloor (cfg : AutoLinkConfig) : Z :=
  let floor := u32 (2 * u32 (maxMsg cfg + 6)) in
  if floor <? streamBufferSize cfg then streamBufferSize cfg else floor.

Definition uartRxBufferFloor (cfg : AutoLinkConfig) : Z :=
  if is_sync (mode cfg) then rxBufferSize cfg
  else
    let floor := ((MAX_CHUNK + 4) * AUTOLINK_ARQ_PIPELINE_WINDOW * 5) / 4 in
    if floor <? rxBufferSize cfg then rxBufferSize cfg else floor.

Definition msgChunksAtLeast1 (cfg : AutoLinkConfig) : Z :=
  let msgChunks := chunksForMsgLen (i32 (maxMsg cfg)) in
  if msgChunks <? 1 then 1 else msgChunks.

Definition uartTxBufferFloor (cfg : AutoLinkConfig) : Z :=
  if is_sync (mode cfg) then
    let syncFloor := u32 (kWorstCaseCobsFrame * (msgChunksAtLeast1 cfg + 2)) in
    if syncFloor <? txBufferSize cfg then txBufferSize cfg else syncFloor
  else
    let perChunk := MAX_CHUNK + 4 in
    let burst := if 0 <? gbnResendBurstMax cfg then gbnResendBurstMax cfg else 0 in
    let retxFloor := u32 (perChunk * (burst + 1)) in
    let msgFloor := u32 (perChunk * msgChunksAtLeast1 cfg) in
    let windowFloor := perChunk * AUTOLINK_ARQ_PIPELINE_WINDOW in
    let floor := if msgFloor <? retxFloor then retxFloor else msgFloor in
    let floor := if floor <? windowFloor then windowFloor else floor in
    if floor <? txBufferSize cfg then txBufferSize cfg else floor.

Definition capFloorByHeap (want minFloor freeHeap reserve : Z) : Z :=
  let minFloor := if want <? minFloor then want else minFloor in
  if (reserve =? 0) || (freeHeap =? 0) then want
  else if freeHeap >=? u32 (want + reserve) then want
  else
    let avail := if reserve <? freeHeap then freeHeap - reserve else 0 in
    if avail <? minFloor then 0 else avail.

Definition uartTxBufferFloorCapped (cfg : AutoLinkConfig) (freeHeap reserve : Z) : Z :=
  let userWant := txBufferSize cfg in
  let floor := uartTxBufferFloor cfg in
  let want := if floor <? userWant then userWant else floor in
  capFloorByHeap want kWorstCaseCobsFrame freeHeap reserve.

Record HeapDistribution := mkHeap { streamBuf : Z; rxBuf : Z; txBuf : Z; postFree : Z }.

(** The lambda [take], with the captured [budget] threaded through. *)
Definition take_budget (budget want minFloor : Z) : Z * Z :=
  let minFloor := if want <? minFloor then want else minFloor in
  if want <=? budget then (want, budget - want)
  else if minFloor <=? budget then (budget, 0)
  else (0, budget).

Definition distributeHeapBudget (cfg : AutoLinkConfig) (totalFreeHeap : Z) : HeapDistribution :=
  let budget :=
    if heapReserveBytes cfg <? totalFreeHeap then totalFreeHeap - heapReserveBytes cfg else 0 in
  let sbMin := u32 (maxMsg cfg + 6) in
  let '(sb, budget) := take_budget budget (streamBufferFloor cfg) sbMin in
  let '(rx, budget) := take_budget budget (uartRxBufferFloor cfg) (rxBufferSize cfg) in
  let txFloor := uartTxBufferFloor cfg in
  let txWant := if txFloor <? txBufferSize cfg then txBufferSize cfg else txFloor in
  let '(tx, _) := take_budget budget txWant kWorstCaseCobsFrame in
  let used := sb + rx + tx in
  mkHeap sb rx tx (if used <? totalFreeHeap then totalFreeHeap - used else 0).

(** ** Well-formed configurations

    What the link needs of a configuration: at least one baud rate, none of
    them zero, and timers within [int] range. The defaults satisfy it. *)
Record cfg_ok (cfg : AutoLinkConfig) : Prop := mkCfgOk {
  cfg_bauds_len : lenZ (allowedBauds cfg) = AUTOLINK_MAX_BAUDS;
  cfg_count : 1 <= allowedBaudsCount cfg <= AUTOLINK_MAX_BAUDS;
  cfg_bauds : forall i, 0 <= i < allowedBaudsCount cfg -> 0 < rd 0 (allowedBauds cfg) i < 2 ^ 32;
  cfg_maxMsg : 1 <= maxMsg cfg <= 60000;
  cfg_syncTmo : 1 <= syncAckTimeoutMs cfg <= 1000000;
  cfg_maxRetx : 0 <= maxRetx cfg < 256;
}.

Lemma default_config_ok : cfg_ok default_config.
Proof.
  split; cbn; try (unfold AUTOLINK_MAX_BAUDS, AUTOLINK_DEFAULT_MAX_MSG; lia); [done|].
  intros i Hi.
  assert (i = 0 \/ i = 1 \/ i = 2 \/ i = 3 \/ i = 4 \/ i = 5) as Hc by lia.
  destruct Hc as [->|[->|[->|[->|[->| ->]]]]]; split; reflexivity.
Qed.

Lemma clamp_count cfg : fst (clampToMaxBauds cfg) = clampedCount cfg.
Proof. unfold clampToMaxBauds, clampedCount, AUTOLINK_MAX_BAUDS. simpl.
  destruct (Z.ltb_spec (allowedBaudsCount cfg) 0), (Z.ltb_spec 16 (allowedBaudsCount cfg)); simpl; lia.
Qed.

Lemma clamp_id cfg : cfg_ok cfg -> clampToMaxBauds cfg = (allowedBaudsCount cfg, cfg).
Proof.
  intros [_ H _ _ _ _]. unfold clampToMaxBauds, AUTOLINK_MAX_BAUDS in *.
  replace (allowedBaudsCount cfg <? 0) with false by lia.
  replace (16 <? allowedBaudsCount cfg) with false by lia. f_equal. by destruct cfg.
Qed.

Lemma allowedBaudSafe_ok cfg i :
  cfg_ok cfg -> 0 <= i < allowedBaudsCount cfg -> 0 < allowedBaudSafe cfg i < 2 ^ 32.
Proof.
  intros [_ Hc Hb _ _ _] Hi. unfold allowedBaudSafe, AUTOLINK_MAX_BAUDS in *.
  replace ((i <? 0) || (16 <=? i))%bool with false by (symmetry; apply orb_false_iff; lia).
  by apply Hb.
Qed.

(** ** Properties *)

(** Admission arithmetic is exact: a message of [len] bytes is cut into at
    most [budget] chunks precisely when [len] is at most
    [maxLenForChunkBudget(budget)], so the size an application is told it may
    send is the largest one the window admits. *)
Theorem chunk_budget_exact len budget :
  0 <= len -> 1 <= budget ->
  chunksForMsgLen len <= budget <-> len <= maxLenForChunkBudget budget.
Proof.
  intros Hl Hb. unfold chunksForMsgLen, maxLenForChunkBudget, MAX_CHUNK, MSG_HDR.
  replace (budget <=? 0) with false by lia.
  destruct (Z.leb_spec len 0); [destruct (budget =? 1); lia|].
  destruct (Z.leb_spec (len + 6) 250), (Z.eqb_spec budget 1); Z.div_mod_to_equations; lia.
Qed.

Lemma chunk_budget_exact_witness :
  chunksForMsgLen 245 <= 2 <-> 245 <= maxLenForChunkBudget 2.
Proof. apply chunk_budget_exact; lia. Defined.

Lemma chunks_pos len : 0 < len -> 1 <= chunksForMsgLen len.
Proof.
  intros. unfold chunksForMsgLen, MAX_CHUNK, MSG_HDR. replace (len <=? 0) with false by lia.
  case_match; [lia|]. Z.div_mod_to_equations. lia.
Qed.

Lemma take_budget_spec budget want minFloor :
  0 <= budget -> 0 <= want -> 0 <= minFloor ->
  let '(got, rest) := take_budget budget want minFloor in
  0 <= got <= want /\ got + rest = budget /\ 0 <= rest /\
  (got = 0 \/ Z.min want minFloor <= got).
Proof. intros. unfold take_budget. repeat case_match; simplify_eq; lia. Qed.

(** C26: the heap is never overdrawn: the three buffers [distributeHeapBudget]
    hands out fit in what is free above the reserve, each is either refused
    ([0]) or at least its own minimum, and [postFree] is exactly what is left
    of the heap. *)
Theorem heap_budget_respected cfg total :
  is_u32 total -> 0 <= heapReserveBytes cfg -> 0 <= maxMsg cfg ->
  is_u32 (rxBufferSize cfg) -> is_u32 (txBufferSize cfg) -> is_u32 (streamBufferSize cfg) ->
  let d := distributeHeapBudget cfg total in
  0 <= streamBuf d /\ 0 <= rxBuf d /\ 0 <= txBuf d /\
  streamBuf d + rxBuf d + txBuf d <= Z.max 0 (total - heapReserveBytes cfg) /\
  postFree d = total - (streamBuf d + rxBuf d + txBuf d) /\
  (streamBuf d = 0 \/ Z.min (streamBufferFloor cfg) (u32 (maxMsg cfg + 6)) <= streamBuf d) /\
  (txBuf d = 0 \/ kWorstCaseCobsFrame <= txBuf d \/ uartTxBufferFloor cfg < kWorstCaseCobsFrame).
Proof.
  intros Ht Hr Hm Hrx Htx Hs d. unfold is_u32 in *.
  assert (Hsf : 0 <= streamBufferFloor cfg).
  { unfold streamBufferFloor. pose proof (u32_range (2 * u32 (maxMsg cfg + 6))) as H.
    unfold is_u32 in H. case_match; lia. }
  assert (Hrf : 0 <= uartRxBufferFloor cfg).
  { unfold uartRxBufferFloor, MAX_CHUNK, AUTOLINK_ARQ_PIPELINE_WINDOW. repeat case_match; lia. }
  assert (Htf : 0 <= uartTxBufferFloor cfg).
  { unfold uartTxBufferFloor, MAX_CHUNK, AUTOLINK_ARQ_PIPELINE_WINDOW. repeat case_match; lia. }
  pose proof (u32_range (maxMsg cfg + 6)) as Hsm. unfold is_u32 in Hsm.
  unfold d, distributeHeapBudget. clear d.
  set (b0 := if _ <? total then _ else _).
  assert (Hb0 : b0 = Z.max 0 (total - heapReserveBytes cfg)) by (unfold b0; case_match; lia).
  destruct (take_budget b0 _ _) as [sb b1] eqn:E1.
  pose proof (take_budget_spec b0 (streamBufferFloor cfg) (u32 (maxMsg cfg + 6))) as T1.
  rewrite E1 in T1. cbv beta iota in T1. destruct T1 as (T1a & T1b & T1c & T1d); try lia.
  destruct (take_budget b1 _ _) as [rx b2] eqn:E2.
  pose proof (take_budget_spec b1 (uartRxBufferFloor cfg) (rxBufferSize cfg)) as T2.
  rewrite E2 in T2. cbv beta iota in T2. destruct T2 as (T2a & T2b & T2c & T2d); [lia..|].
  set (want := if _ <? txBufferSize cfg then _ else _).
  assert (Hw : 0 <= want /\ uartTxBufferFloor cfg <= want) by (unfold want; case_match; lia).
  destruct (take_budget b2 _ _) as [tx b3] eqn:E3.
  pose proof (take_budget_spec b2 want kWorstCaseCobsFrame) as T3.
  rewrite E3 in T3. cbv beta iota in T3. assert (Hk : kWorstCaseCobsFrame = 262) by done. rewrite Hk in *.
  destruct T3 as (T3a & T3b & T3c & T3d); [lia..|]. cbn.
  repeat split; try lia. case_match; lia.
Qed.

Lemma heap_budget_respected_witness :
  let d := distributeHeapBudget default_config 40000 in
  0 <= streamBuf d /\ 0 <= rxBuf d /\ 0 <= txBuf d /\
  streamBuf d + rxBuf d + txBuf d <= Z.max 0 (40000 - heapReserveBytes default_config) /\
  postFree d = 40000 - (streamBuf d + rxBuf d + txBuf d) /\
  (streamBuf d = 0 \/ Z.min (streamBufferFloor default_config) (u32 (maxMsg default_config + 6)) <= streamBuf d) /\
  (txBuf d = 0 \/ kWorstCaseCobsFrame <= txBuf d \/ uartTxBufferFloor default_config < kWorstCaseCobsFrame).
Proof. apply heap_budget_respected; vm_compute; intuition discriminate. Defined.

End Config.
