(* ===== verification/Decision.v ===== *)
(** * The pure decision functions ([src/al/link/sweep/LinkDecision.h])

    Every verdict of the sweep and of the Go-Back-N sender that the link takes
    from its numeric state alone. Floating-point expressions are computed on
    Rocq's [SpecFloat] model of IEEE binary64/binary32. *)
From Stdlib Require Import SpecFloat.
From S2P Require Import Prelude Config.

Module Decision.

(** ** Floating point *)

(** C++'s conversion of a finite floating value to an integer: truncation. *)
Definition sf_trunc (x : spec_float) : Z :=
  match x with
  | S754_finite s m e =>
      let v := if e >=? 0 then Z.shiftl (Zpos m) e else Z.shiftr (Zpos m) (- e) in
      if s then - v else v
  | _ => 0
  end.

Definition dbl (m e : Z) : spec_float := binary_normalize 53 1024 m e false.
Definition dmul := SFmul 53 1024.
Definition dadd := SFadd 53 1024.
Definition ddiv := SFdiv 53 1024.

(** [(int)(2.0 * (5.0 * 10.0 / baud * 1000.0) + 0.5)]; [baud = 0] has no
    defined conversion in C++, and no caller under a well-formed
    configuration passes it. *)
Definition roundTripMs (baud : Z) : Z :=
  sf_trunc (dadd (dmul (dbl 2 0) (dmul (ddiv (dmul (dbl 5 0) (dbl 10 0)) (dbl baud 0)) (dbl 1000 0)))
    (dbl 1 (-1))).

(** ** Sweep verdicts *)

Inductive SwpPhaseAction :=
  | SendPongAck | PromoteToPhase2 | PromoteToPhase3 | Lock | FallbackLockSlowest
  | DropToPhase1 | Stay.
#[export] Instance SwpPhaseAction_eq_dec : EqDecision SwpPhaseAction.
Proof. solve_decision. Defined.

Definition decideMasterPhase1Ack : SwpPhaseAction := PromoteToPhase2.
Definition decideMasterPhase2Ack : SwpPhaseAction := PromoteToPhase3.
Definition decideMasterPhase3Ack (acks needed : Z) : SwpPhaseAction :=
  if acks >=? needed then Lock else Stay.
Definition decideMasterPhase2Timeout (spdI baudCount : Z) : SwpPhaseAction :=
  if spdI + 1 >=? baudCount then FallbackLockSlowest else Stay.
Definition decideMasterPhase3Timeout (nextBaud baudCount : Z) : SwpPhaseAction :=
  if nextBaud >=? baudCount then FallbackLockSlowest else Stay.
Definition decidePongPhase1Ping : SwpPhaseAction := PromoteToPhase2.
Definition decidePongPhase2Ping : SwpPhaseAction := PromoteToPhase3.
Definition decidePongPhase3Ping (acks needed : Z) : SwpPhaseAction :=
  if acks >=? needed then Lock else Stay.
(** [decidePongPhase3Ack] and [decideAppBuf] have no caller. *)
Definition decidePongPhase3Ack (acks needed : Z) : SwpPhaseAction :=
  if acks >=? needed then Lock else Stay.
Definition decidePongPhase2Timeout (spdI : Z) : SwpPhaseAction :=
  if spdI <? 0 then DropToPhase1 else Stay.

(** [isLockPayload]: the baud index a LOCK payload carries. *)
Definition isLockPayload (payload baudCount : Z) : option Z :=
  if payload <? 0x44 then None
  else
    let idx := payload - 0x44 in
    if baudCount <=? idx then None else Some idx.

(** ** Receive-order verdict *)

Definition LD_SEQ_WRAP : Z := 254.

Inductive GapClass := Forward | Stale | Gap.

(** The class and [*outDiff]. *)
Definition classifyGap (cobsSeq rxSeq : Z) (rxSeqSet : bool) : GapClass * Z :=
  if negb rxSeqSet then (Forward, 0)
  else
    let expected := if rxSeq =? LD_SEQ_WRAP - 1 then 0 else u8 (rxSeq + 1) in
    if cobsSeq =? expected then (Forward, 0)
    else
      let diff := cobsSeq - rxSeq in
      let diff := if diff <? 0 then diff + LD_SEQ_WRAP else diff in
      (if (diff =? 0) || (diff >? LD_SEQ_WRAP / 2) then Stale else Gap, diff).

Inductive AppBufAction := Accept | HoldAck.

Definition decideAppBuf (accepted incoming : Z) : AppBufAction :=
  if accepted <? incoming then HoldAck else Accept.

(** ** Retransmission verdicts *)

Inductive ArqAction := Hold | Retx | Drop.

Definition decideArqSlot (ageMs retxCount ackRtoMs maxRetx : Z) : ArqAction :=
  if ageMs <? ackRtoMs then Hold
  else if retxCount >=? maxRetx then Drop
  else Retx.

(** The doubling loop: [for (i = 1; i < noProgress && b < maxMs; i++) b <<= 1]. *)
Fixpoint backoff_loop (n : nat) (b maxMs : Z) : Z :=
  match n with
  | O => b
  | S n => if b <? maxMs then backoff_loop n (u64 (Z.shiftl b 1)) maxMs else b
  end.

Definition decideGbnBackoff (noProgress baseMs maxMs : Z) : Z :=
  if noProgress <=? 1 then baseMs
  else if baseMs =? 0 then 0
  else
    let maxMs := if maxMs <? baseMs then baseMs else maxMs in
    let b := backoff_loop (Z.to_nat (noProgress - 1)) baseMs maxMs in
    if b >? maxMs then maxMs else b.

Definition decideGbnResendCap (pending cap : Z) : Z :=
  if (pending <=? 0) || (cap <=? 0) then 0
  else if pending <? cap then pending else cap.

Inductive GbnDropDecision := DropLink | Keep.

Definition decideGbnDropOnMaxRetx (now lastRxMs rtoMs : Z) : GbnDropDecision :=
  if rtoMs <=? 0 then DropLink
  else if lastRxMs =? 0 then DropLink
  else if u32 (now - lastRxMs) <? rtoMs then Keep else DropLink.

Definition jitterPhase1Dwell (baseMs seed : Z) : Z :=
  if baseMs <=? 1 then (if baseMs <? 1 then 1 else baseMs)
  else
    let span := baseMs / 6 in
    let span := if span <? 1 then 1 else span in
    let r := u32 (u32 (seed * 2654435761) + 0x9E3779B9) in
    let off := r mod u32 (2 * span + 1) - span in
    let d := baseMs + off in
    if d <? 1 then 1 else d.

(** ** Properties *)

Lemma backoff_loop_spec n b maxMs :
  0 < b -> b <= 2 ^ 33 -> 0 < maxMs < 2 ^ 32 ->
  Z.min (backoff_loop n b maxMs) maxMs = Z.min (b * 2 ^ Z.of_nat n) maxMs.
Proof.
  revert b. induction n as [|n IH]; intros b Hb Hb' Hm; cbn [backoff_loop].
  { by rewrite Z.mul_1_r. }
  rewrite Nat2Z.inj_succ, Z.pow_succ_r by lia.
  pose proof (Z.pow_pos_nonneg 2 (Z.of_nat n)).
  destruct (Z.ltb_spec b maxMs).
  - rewrite Z.shiftl_mul_pow2 by lia. change (2 ^ 1) with 2.
    unfold u64. rewrite Z.mod_small by lia. rewrite IH by lia. f_equal. lia.
  - rewrite !Z.min_r by nia. done.
Qed.

(** The retransmit backoff is exponential with a ceiling, and total: with no
    progress for [n] rounds it is the base RTO doubled [n - 1] times, never
    above the cap, never below the base, and monotone in [n]; the 64-bit
    accumulator never wraps. *)
Theorem gbn_backoff_exponential n baseMs maxMs :
  0 < baseMs < 2 ^ 32 -> is_u32 maxMs ->
  let cap := Z.max maxMs baseMs in
  decideGbnBackoff n baseMs maxMs = Z.min (baseMs * 2 ^ Z.max 0 (n - 1)) cap /\
  baseMs <= decideGbnBackoff n baseMs maxMs <= cap /\
  decideGbnBackoff n baseMs maxMs <= decideGbnBackoff (n + 1) baseMs maxMs.
Proof.
  intros Hb Hm cap. unfold is_u32 in Hm.
  assert (Hform : forall k, decideGbnBackoff k baseMs maxMs = Z.min (baseMs * 2 ^ Z.max 0 (k - 1)) cap).
  { intros k. unfold decideGbnBackoff, cap. destruct (Z.leb_spec k 1).
    - rewrite Z.max_l by lia. lia.
    - replace (baseMs =? 0) with false by lia.
      set (mx := if maxMs <? baseMs then baseMs else maxMs).
      assert (mx = Z.max maxMs baseMs) as -> by (unfold mx; case_match; lia).
      pose proof (backoff_loop_spec (Z.to_nat (k - 1)) baseMs (Z.max maxMs baseMs)) as H0.
      rewrite Z2Nat.id in H0 by lia. rewrite (Z.max_r 0) by lia. case_match; lia. }
  rewrite !Hform. split; [done|].
  assert (1 <= 2 ^ Z.max 0 (n - 1)).
  { pose proof (Z.pow_pos_nonneg 2 (Z.max 0 (n - 1))). lia. }
  split; [unfold cap; nia|].
  pose proof (Z.pow_le_mono_r 2 (Z.max 0 (n - 1)) (Z.max 0 (n + 1 - 1))). nia.
Qed.

Lemma gbn_backoff_exponential_witness :
  let cap := Z.max 4000 500 in
  decideGbnBackoff 3 500 4000 = Z.min (500 * 2 ^ Z.max 0 (3 - 1)) cap /\
  500 <= decideGbnBackoff 3 500 4000 <= cap /\
  decideGbnBackoff 3 500 4000 <= decideGbnBackoff (3 + 1) 500 4000.
Proof. apply gbn_backoff_exponential; [lia|unfold is_u32; lia]. Defined.

(** The signed distance the verdict is about, on the 254-lap. *)
Definition seq_dist (a b : Z) : Z := (a - b) mod 254.

Lemma classify_arcs cobsSeq rxSeq :
  0 <= cobsSeq < 254 -> 0 <= rxSeq < 254 ->
  let d := seq_dist cobsSeq rxSeq in
  classifyGap cobsSeq rxSeq true =
    if d =? 1 then (Forward, 0) else if (2 <=? d) && (d <=? 127) then (Gap, d) else (Stale, d).
Proof.
  intros Hc Hr d. unfold classifyGap, LD_SEQ_WRAP. cbn [negb]. cbv zeta.
  assert (Hd : d = if cobsSeq <? rxSeq then cobsSeq - rxSeq + 254 else cobsSeq - rxSeq).
  { unfold d, seq_dist. destruct (Z.ltb_spec cobsSeq rxSeq).
    - rewrite <- (Z.mod_small (cobsSeq - rxSeq + 254) 254) by lia.
      replace (cobsSeq - rxSeq + 254) with (cobsSeq - rxSeq + 1 * 254) by lia.
      by rewrite Z.mod_add by lia.
    - apply Z.mod_small. lia. }
  clearbody d.
  assert (He : (if rxSeq =? 254 - 1 then 0 else u8 (rxSeq + 1)) =
               if rxSeq =? 253 then 0 else rxSeq + 1).
  { change (254 - 1) with 253. destruct (Z.eqb_spec rxSeq 253); [done|].
    apply u8_small. unfold is_byte. lia. }
  rewrite He. clear He. change (254 / 2) with 127.
  replace (cobsSeq - rxSeq <? 0) with (cobsSeq <? rxSeq) by lia.
  rewrite <- Hd.
  assert (Hf : (cobsSeq =? (if rxSeq =? 253 then 0 else rxSeq + 1)) = (d =? 1)).
  { destruct (Z.eqb_spec rxSeq 253), (Z.ltb_spec cobsSeq rxSeq); lia. }
  rewrite Hf. destruct (d =? 1) eqn:E; [done|].
  assert (0 <= d < 254) by (destruct (Z.ltb_spec cobsSeq rxSeq); lia).
  destruct ((d =? 0) || (127 <? d))%bool eqn:E1, ((2 <=? d) && (d <=? 127))%bool eqn:E2; lia || done.
Qed.

(** The receive-order verdict splits the sequence lap into exactly three
    arcs around the last delivered chunk: the next one is in order, the 126
    after it are ahead (a gap), and the rest (the last delivered chunk itself
    included) are behind (stale); [outDiff] is the forward distance. *)
Theorem classify_gap_arcs cobsSeq rxSeq :
  0 <= cobsSeq < 254 -> 0 <= rxSeq < 254 ->
  let d := seq_dist cobsSeq rxSeq in
  classifyGap cobsSeq rxSeq true =
    if d =? 1 then (Forward, 0) else if (2 <=? d) && (d <=? 127) then (Gap, d) else (Stale, d).
Proof. apply classify_arcs. Qed.

Lemma classify_gap_arcs_witness :
  let d := seq_dist 2 253 in
  classifyGap 2 253 true =
    if d =? 1 then (Forward, 0) else if (2 <=? d) && (d <=? 127) then (Gap, d) else (Stale, d).
Proof. apply classify_gap_arcs; lia. Defined.

Lemma jitter_bounds baseMs seed :
  2 <= baseMs < 2 ^ 31 ->
  let span := Z.max 1 (baseMs / 6) in
  Z.max 1 (baseMs - span) <= jitterPhase1Dwell baseMs seed <= baseMs + span.
Proof.
  intros Hb span. unfold jitterPhase1Dwell. replace (baseMs <=? 1) with false by lia.
  set (sp := if baseMs / 6 <? 1 then 1 else baseMs / 6).
  assert (Hs : sp = span) by (unfold sp, span; case_match; lia). rewrite Hs. clear Hs sp.
  assert (Hsp : 1 <= span <= baseMs) by (unfold span; Z.div_mod_to_equations; lia).
  set (r := u32 (u32 (seed * 2654435761) + 0x9E3779B9)).
  rewrite (u32_small (2 * span + 1)) by (unfold is_u32, span; Z.div_mod_to_equations; lia).
  pose proof (Z.mod_pos_bound r (2 * span + 1)). case_match; lia.
Qed.

Lemma isLockPayload_spec payload n i :
  isLockPayload payload n = Some i <-> payload = 0x44 + i /\ 0 <= i < n.
Proof.
  unfold isLockPayload. destruct (Z.ltb_spec payload 0x44); [split; [done|lia]|].
  destruct (Z.leb_spec n (payload - 0x44)); (split; [intros [=]|]); try lia.
  intros. f_equal. lia.
Qed.

Lemma decideGbnResendCap_spec pending cap :
  0 <= decideGbnResendCap pending cap /\
  (0 < pending -> decideGbnResendCap pending cap <= pending) /\
  decideGbnResendCap pending cap <= Z.max 0 cap.
Proof. unfold decideGbnResendCap. case_match; [lia|]. bool_prop. case_match; lia. Qed.

Example roundTrip_9600 : roundTripMs 9600 = 10.
Proof. reflexivity. Qed.
Example roundTrip_512000 : roundTripMs 512000 = 0.
Proof. reflexivity. Qed.

End Decision.
