(* ===== verification/Health.v ===== *)
(** * Health watchdogs ([src/al/link/timers/LinkHealth.h])

    The watchdog verdict evaluated on every OK tick, from a snapshot of the
    link's timers. *)
From S2P Require Import Prelude Config.

Module Health.

Record HealthState := mkHealth {
  rejFirstMs : Z;
  rejLastMs : Z;
  lastRxMs : Z;
  lastTxMs : Z;
  lastAnyRxMs : Z;
  rtoMs : Z;
  pending : Z;
  ackRxMs : Z;
  peerStalledMs : Z;
  frameErrs : Z;
  poolFull : bool;
  sync : bool;
  isMaster : bool;
  campBudgetMs : Z;
  gbnActive : bool;
  gbnAttempts : Z;
  gbnBudgetOpen : bool;
}.

Inductive HealthAction :=
  | Keep | DropTxStall | DropAsymIdle | DropIdle | DropPoolExhaust | DropDeadLink
  | DropSilentPeer | DropPeerBaudMismatch | DropPeerStalled | DropPeerReset.
#[export] Instance HealthAction_eq_dec : EqDecision HealthAction.
Proof. solve_decision. Defined.

Definition healthFastIdleRxMs : Z := 300.
Definition healthFastIdleTxMs : Z := 1000.

Definition healthFastIdleRxMsAtBaud (rtoMs : Z) : Z :=
  let fromRto := i32 (u32 (2 * rtoMs)) in
  if fromRto >? healthFastIdleRxMs then fromRto else healthFastIdleRxMs.

Definition healthDeadPeerMs (idleTimeoutMs : Z) : Z := 3 * idleTimeoutMs.

Definition healthPeerStalledMs (baud pending backoffFloorMs : Z) : Z :=
  let kFloor := 2000 in
  let windowMs :=
    if negb (baud =? 0) && (pending >? 0) then
      let bytes := pending * (250 + 6) in
      let drain := bytes * 10 * 1000 / baud in
      let w := i32 (drain * 2) in
      if w <? kFloor then kFloor else w
    else kFloor in
  if i32 backoffFloorMs >? windowMs then i32 backoffFloorMs else windowMs.

Definition decideHealth (h : HealthState) (now idleTimeoutMs deadPeerMs rtoMs : Z)
    : HealthAction :=
  let idle := u32 idleTimeoutMs in
  if negb (rejFirstMs h =? 0) && (u32 (now - rejFirstMs h) >? idle) &&
     (u32 (now - rejLastMs h) <=? idle)
  then DropTxStall
  else
  let rxAge := u32 (now - lastRxMs h) in
  let txAge := u32 (now - lastTxMs h) in
  if (pending h >? 0) && (rxAge >? idle) && (txAge >? idle) then DropDeadLink
  else if negb (lastRxMs h =? 0) && (rxAge >? u32 deadPeerMs) then DropSilentPeer
  else if negb (lastRxMs h =? 0) && negb (sync h) && negb (isMaster h) &&
          (campBudgetMs h >? 0) && (rxAge >? u32 (2 * campBudgetMs h))
  then DropPeerReset
  else if sync h then Keep
  else
  let rxIdleFloor := healthFastIdleRxMsAtBaud rtoMs in
  if negb (lastRxMs h =? 0) && (rxAge >? u32 rxIdleFloor) && (rxAge >? u32 (2 * rtoMs)) &&
     (txAge <? healthFastIdleTxMs) && (pending h >? 0)
  then if gbnActive h && gbnBudgetOpen h then Keep else DropAsymIdle
  else if negb (lastRxMs h =? 0) && (rxAge >? idle) && (txAge >? idle) &&
          ((pending h >? 0) || (frameErrs h >? 0))
  then DropIdle
  else if negb (lastRxMs h =? 0) && poolFull h && (pending h >? 0) &&
          (rxAge >? u32 rxIdleFloor) && (rxAge >? u32 (2 * rtoMs))
  then DropPoolExhaust
  else if (pending h >? 0) && negb (ackRxMs h =? 0) && (peerStalledMs h >? 0) &&
          (u32 (now - ackRxMs h) >? u32 (peerStalledMs h))
  then DropPeerStalled
  else Keep.

Definition shouldEscalatePeerBaudMismatch (locksWithoutRecv threshold : Z) : bool :=
  locksWithoutRecv >=? threshold.

(** ** Properties *)

(** the watchdog fires exactly when it should at the two ends. (1) Silence is
    always caught: once a peer heard before has been quiet for longer than
    three idle windows, the verdict is a drop, in either mode, whatever the
    other timers say. (2) No false drop: while the last valid frame is at most
    300 ms old and no send is being rejected, the verdict is [Keep]. (3) A SYNC
    link is dropped only by the stall, dead-link or silent-peer rules. *)
Theorem health_verdict h now idle rto :
  1 <= idle < 2 ^ 29 -> lastRxMs h <> 0 ->
  (let rxAge := u32 (now - lastRxMs h) in
   rxAge > healthDeadPeerMs idle ->
   decideHealth h now idle (healthDeadPeerMs idle) rto <> Keep) /\
  (let rxAge := u32 (now - lastRxMs h) in
   rxAge <= healthFastIdleRxMs -> 300 <= idle -> rejFirstMs h = 0 ->
   ackRxMs h = lastRxMs h -> 2000 <= peerStalledMs h < 2 ^ 31 ->
   campBudgetMs h = 0 \/ 3000 <= campBudgetMs h <= 5000 ->
   decideHealth h now idle (healthDeadPeerMs idle) rto = Keep) /\
  (sync h = true ->
   let a := decideHealth h now idle (healthDeadPeerMs idle) rto in
   a = Keep \/ a = DropTxStall \/ a = DropDeadLink \/ a = DropSilentPeer).
Proof.
  intros Hi Hrx. unfold decideHealth, healthDeadPeerMs, healthFastIdleRxMs.
  rewrite (u32_small idle), (u32_small (3 * idle)) by (unfold is_u32; lia).
  replace (lastRxMs h =? 0) with false by lia. cbn [negb andb].
  set (rxAge := u32 (now - lastRxMs h)). set (txAge := u32 (now - lastTxMs h)).
  repeat split.
  - intros Ha. case_match; [done|]. case_match; [done|].
    replace (3 * idle <? rxAge) with true by lia. done.
  - intros Ha H300 Hrej Hack Hps Hcb. rewrite Hrej, Hack. fold rxAge. cbn [Z.eqb negb andb].
    assert (Hfl : 300 <= u32 (healthFastIdleRxMsAtBaud rto)).
    { unfold healthFastIdleRxMsAtBaud, healthFastIdleRxMs. pose proof (u32_range (2 * rto)) as Hu.
      unfold is_u32 in Hu. destruct (Z.ltb_spec 300 (i32 (u32 (2 * rto)))); [|by change (u32 300) with 300].
      pose proof (Z.mod_pos_bound (u32 (2 * rto) + 2147483648) 4294967296).
      rewrite u32_small; unfold is_u32; unfold i32 in *; lia. }
    replace (idle <? rxAge) with false by lia. rewrite !andb_false_r. cbn [andb].
    replace (3 * idle <? rxAge) with false by lia.
    assert (Hcamp : ((0 <? campBudgetMs h) = false \/ (u32 (2 * campBudgetMs h) <? rxAge) = false)).
    { destruct Hcb as [->|Hcb]; [by left|right].
      rewrite u32_small by (unfold is_u32; lia). lia. }
    assert (forall b, (b && (0 <? campBudgetMs h) && (u32 (2 * campBudgetMs h) <? rxAge))%bool = false)
      as Hc by (intros b; destruct Hcamp as [-> | ->]; rewrite !andb_false_r; done).
    rewrite Hc.
    destruct (sync h); [done|].
    replace (u32 (healthFastIdleRxMsAtBaud rto) <? rxAge) with false by lia.
    rewrite !andb_false_r. cbn [andb]. rewrite ?andb_false_r.
    rewrite (u32_small (peerStalledMs h)) by (unfold is_u32; lia).
    replace (peerStalledMs h <? rxAge) with false by lia. by rewrite !andb_false_r.
  - intros ->. cbn [negb]. rewrite ?andb_false_r. cbn [andb]. repeat case_match; tauto.
Qed.

Definition demo_state : HealthState :=
  mkHealth 0 0 1000 1000 1000 500 0 1000 2000 0 false false true 0 false 0 false.

Lemma health_verdict_witness :
  decideHealth demo_state 31001 10000 (healthDeadPeerMs 10000) 500 <> Keep /\
  decideHealth demo_state 1200 10000 (healthDeadPeerMs 10000) 500 = Keep.
Proof.
  assert (Hr : lastRxMs demo_state <> 0) by (cbn; lia).
  assert (Hi : 1 <= 10000 < 2 ^ 29) by lia.
  destruct (health_verdict demo_state 31001 10000 500 Hi Hr) as (H1 & _ & _).
  destruct (health_verdict demo_state 1200 10000 500 Hi Hr) as (_ & H2 & _).
  split.
  - apply H1. vm_compute. done.
  - apply H2; [vm_compute; done|lia|done|done|cbn; lia|by left].
Defined.

End Health.
