(* ===== verification/BaudSweep.v ===== *)
(** * Baud scoring ([src/al/link/sweep/LinkBaudSweep.h], [.cpp])

    Per-baud hit counts, and the choice of the fastest baud that scored. *)
From Stdlib Require Import SpecFloat.
From S2P Require Import Prelude Config Decision.

Module BaudSweep.

Definition UTIL_BAUD_SWEEP_MAX_BAUDS : Z := 16.

(** [UtilBaudSweep]: [scores_], [numBauds_] and the two fields of [cfg_] the
    choice reads. *)
Record UtilBaudSweep := mkBaudSweep {
  scores_ : list Z;
  numBauds_ : Z;
  bsMinAcceptRate : spec_float;
  bsExpectedSamples : Z;
}.
#[export] Instance eta_BaudSweep : Eta UtilBaudSweep := fun r =>
  mkBaudSweep (scores_ r) (numBauds_ r) (bsMinAcceptRate r) (bsExpectedSamples r).

(** Constructor (default [Config]). *)
Definition sweep_init (numBauds : Z) : UtilBaudSweep :=
  let n := if numBauds <? 0 then 0 else numBauds in
  let n := if UTIL_BAUD_SWEEP_MAX_BAUDS <? n then UTIL_BAUD_SWEEP_MAX_BAUDS else n in
  mkBaudSweep (replicate 16 0) n (Config.float32 1 (-1)) (-1).

(** [configure] *)
Definition configure (pingSamplesPerBaud : Z) (minAcceptRate : spec_float) (expectedSamples : Z)
    (s : UtilBaudSweep) : UtilBaudSweep :=
  let e := if expectedSamples <? 0 then pingSamplesPerBaud else expectedSamples in
  let e := if e <? 1 then 1 else e in
  s <| bsMinAcceptRate := minAcceptRate |> <| bsExpectedSamples := e |>.

Definition score (idx : Z) (s : UtilBaudSweep) : UtilBaudSweep :=
  if (0 <=? idx) && (idx <? numBauds_ s)
  then s <| scores_ := wr (scores_ s) idx (rd 0 (scores_ s) idx + 1) |>
  else s.

Fixpoint zero_first (n : nat) (l : list Z) : list Z :=
  match n, l with
  | S n, _ :: l => 0 :: zero_first n l
  | _, _ => l
  end.

Definition resetAll (s : UtilBaudSweep) : UtilBaudSweep :=
  s <| scores_ := zero_first (Z.to_nat (numBauds_ s)) (scores_ s) |>.

Definition scoreAt (idx : Z) (s : UtilBaudSweep) : Z :=
  if (0 <=? idx) && (idx <? numBauds_ s) then rd 0 (scores_ s) idx else 0.

(** [for (j = 0; j < numBauds_; j++) if (scores_[j] >= t) return j;] *)
Fixpoint first_at_least (n : nat) (j : Z) (l : list Z) (t : Z) : option Z :=
  match n with
  | O => None
  | S n => if rd 0 l j >=? t then Some j else first_at_least n (j + 1) l t
  end.

Definition minHits (s : UtilBaudSweep) : Z :=
  let m := Decision.sf_trunc
    (SFmul 24 128 (bsMinAcceptRate s) (Config.float32 (bsExpectedSamples s) 0)) in
  if m <? 1 then 1 else m.

Definition pickBest (s : UtilBaudSweep) : Z :=
  let n := Z.to_nat (numBauds_ s) in
  match first_at_least n 0 (scores_ s) (minHits s) with
  | Some j => j
  | None =>
      match first_at_least n 0 (scores_ s) 1 with
      | Some j => j
      | None => -1
      end
  end.

(** ** Properties *)

Lemma first_at_least_spec n j l t :
  match first_at_least n j l t with
  | Some i => j <= i < j + Z.of_nat n /\ t <= rd 0 l i /\ forall k, j <= k < i -> rd 0 l k < t
  | None => forall k, j <= k < j + Z.of_nat n -> rd 0 l k < t
  end.
Proof.
  revert j. induction n as [|n IH]; intros j; cbn [first_at_least]; [lia|].
  destruct (Z.leb_spec t (rd 0 l j)); [split; [lia|split; [done|lia]]|].
  specialize (IH (j + 1)). destruct (first_at_least n (j + 1) l t) as [i|].
  - destruct IH as (Hi & Ht & Hk). split; [lia|]. split; [done|]. intros k Hk'.
    destruct (Z.eq_dec k j) as [->|]; [done|]. apply Hk. lia.
  - intros k Hk'. destruct (Z.eq_dec k j) as [->|]; [done|]. apply IH. lia.
Qed.

(** The baud [pickBest] settles on is the lowest index (the fastest rate) that
    reached the acceptance threshold, else the lowest index with any hit at
    all; [-1] only when no baud scored. *)
Lemma pickBest_fastest s :
  let b := pickBest s in
  0 <= numBauds_ s ->
  (b = -1 /\ forall k, 0 <= k < numBauds_ s -> rd 0 (scores_ s) k < 1) \/
  (0 <= b < numBauds_ s /\
   ((minHits s <= rd 0 (scores_ s) b /\ forall k, 0 <= k < b -> rd 0 (scores_ s) k < minHits s) \/
    (1 <= rd 0 (scores_ s) b /\
     (forall k, 0 <= k < numBauds_ s -> rd 0 (scores_ s) k < minHits s) /\
     forall k, 0 <= k < b -> rd 0 (scores_ s) k < 1))).
Proof.
  intros b Hn. unfold b, pickBest.
  pose proof (first_at_least_spec (Z.to_nat (numBauds_ s)) 0 (scores_ s) (minHits s)) as H1.
  pose proof (first_at_least_spec (Z.to_nat (numBauds_ s)) 0 (scores_ s) 1) as H2.
  destruct (first_at_least _ _ _ (minHits s)) as [i|].
  - right. split; [lia|]. left. tauto.
  - destruct (first_at_least _ _ _ 1) as [i|].
    + right. split; [lia|]. right. split; [lia|]. split; [intros; apply H1; lia|tauto].
    + left. split; [done|]. intros. apply H2. lia.
Qed.

Lemma pickBest_range s : 0 <= numBauds_ s -> -1 <= pickBest s < Z.max 1 (numBauds_ s).
Proof. intros H. destruct (pickBest_fastest s H) as [[-> _]|[? _]]; lia. Qed.

End BaudSweep.
