(* ===== verification/ArqCache.v ===== *)
(** * The retransmit cache ([src/al/link/arq/ArqCache.h], [.cpp])

    256 slots, one per sequence byte, over a pool of 64 payload buffers. The
    invariant is the one [assertInvariants] checks in the host build, made
    exact about buffer ownership; the abstract view is a map from sequence
    numbers to the payload a retransmit would send. *)
From S2P Require Import Prelude.

Module ArqCache.

Definition SLOTS : Z := 256.
Definition POOL_SIZE : Z := 64.
Definition POOL_BUF_MAX : Z := 256.

Record Pending := mkPending { plen : Z; poolIdx : Z; in_use : bool }.
#[export] Instance eta_Pending : Eta Pending := fun r =>
  mkPending (plen r) (poolIdx r) (in_use r).
Definition free_slot : Pending := mkPending 0 0xFF false.

Record ArqCache := mkArqCache {
  pending_ : list Pending;
  pendingCount_ : Z;
  pool_ : list (list Z);
  poolUsed_ : list bool;
  poolFree_ : Z;
  window_ : Z;
  windowMax_ : Z;
}.
#[export] Instance eta_ArqCache : Eta ArqCache := fun r =>
  mkArqCache (pending_ r) (pendingCount_ r) (pool_ r) (poolUsed_ r) (poolFree_ r)
    (window_ r) (windowMax_ r).

Definition cache_init (window : Z) : ArqCache :=
  mkArqCache (replicate 256 free_slot) 0 (replicate 64 (replicate 256 0))
    (replicate 64 false) POOL_SIZE window window.

Definition slot (c : ArqCache) (seq : Z) : Pending := rd free_slot (pending_ c) seq.
Definition used (c : ArqCache) (i : Z) : bool := rd false (poolUsed_ c) i.

Definition setWindow (w : Z) (c : ArqCache) : ArqCache :=
  let w := if w <? 1 then 1 else w in
  let w := if windowMax_ c <? w then windowMax_ c else w in
  c <| window_ := w |>.

Definition hasRoom (c : ArqCache) : bool := (pendingCount_ c <? SLOTS) && (poolFree_ c >? 0).

Definition freeRoom (c : ArqCache) : Z :=
  let slots := SLOTS - pendingCount_ c in
  if slots <? poolFree_ c then slots else poolFree_ c.

(** The pool buffer a slot holds goes back to the pool. *)
Definition releasePool (i : Z) (c : ArqCache) : ArqCache :=
  if i <? POOL_SIZE then
    let c := c <| poolUsed_ := wr (poolUsed_ c) i false |> in
    if poolFree_ c <? POOL_SIZE then c <| poolFree_ ::= (fun n => n + 1) |> else c
  else c.

Definition decCount (c : ArqCache) : ArqCache :=
  if pendingCount_ c >? 0 then c <| pendingCount_ ::= (fun n => n - 1) |> else c.

(** [for (i = 0; i < POOL_SIZE; i++) if (!poolUsed_[i]) { freeIdx = i; break; }] *)
Fixpoint find_free (l : list bool) (i : Z) : Z :=
  match l with
  | [] => -1
  | u :: l => if u then find_free l (i + 1) else i
  end.

(** [memcpy(pool_[freeIdx], payload, payloadLen)] *)
Definition copy_in (payload buf : list Z) : list Z := payload ++ drop (length payload) buf.

(** [insert(seq, payload, payloadLen)] with [payloadLen = length payload]; a
    null payload is the empty one. *)
Definition insert (seq : Z) (payload : list Z) (c : ArqCache) : ArqCache :=
  if SLOTS <=? seq then c
  else
  let c :=
    if in_use (slot c seq) then
      let c := releasePool (poolIdx (slot c seq)) c in
      let c := c <| pending_ := wr (pending_ c) seq
                 ((slot c seq) <| poolIdx := 0xFF |> <| plen := 0 |>) |> in
      decCount c
    else c in
  if lenZ payload <=? 0 then
    c <| pending_ := wr (pending_ c) seq (mkPending 0 0xFF true) |>
      <| pendingCount_ ::= (fun n => n + 1) |>
  else if lenZ payload >? POOL_BUF_MAX then c
  else if poolFree_ c <=? 0 then c
  else
    let freeIdx := find_free (poolUsed_ c) 0 in
    if freeIdx <? 0 then c
    else
      c <| pool_ := wr (pool_ c) freeIdx (copy_in payload (rd [] (pool_ c) freeIdx)) |>
        <| pending_ := wr (pending_ c) seq (mkPending (u16 (lenZ payload)) (u8 freeIdx) true) |>
        <| poolUsed_ := wr (poolUsed_ c) freeIdx true |>
        <| poolFree_ ::= (fun n => n - 1) |>
        <| pendingCount_ ::= (fun n => n + 1) |>.

Inductive FreeCause := SingleAck | CumulativeBackfill | NakCumulative | HonestDrop | CReset.

(** [freeBySeq(seq, cause)]: the cause only tags the (compiled-out) wire log. *)
Definition freeBySeq (seq : Z) (_ : FreeCause) (c : ArqCache) : ArqCache :=
  if (SLOTS <=? seq) || negb (in_use (slot c seq)) then c
  else
    let c := releasePool (poolIdx (slot c seq)) c in
    let c := c <| pending_ := wr (pending_ c) seq free_slot |> in
    decCount c.

(** [peekForRetx]: the buffered bytes, or [None] for [false]. *)
Definition peekForRetx (seq : Z) (c : ArqCache) : option (list Z) :=
  if (SLOTS <=? seq) || negb (in_use (slot c seq)) then None
  else
    let p := slot c seq in
    if (POOL_SIZE <=? poolIdx p) || (plen p =? 0) then None
    else Some (take (Z.to_nat (plen p)) (rd [] (pool_ c) (poolIdx p))).

Definition clearAll (c : ArqCache) : ArqCache :=
  c <| pending_ := replicate 256 free_slot |> <| poolUsed_ := replicate 64 false |>
    <| pendingCount_ := 0 |> <| poolFree_ := POOL_SIZE |>.

Definition size (c : ArqCache) : Z := pendingCount_ c.
Definition slotInUse (seq : Z) (c : ArqCache) : bool := (seq <? SLOTS) && in_use (slot c seq).

Definition has_pool (p : Pending) : bool := in_use p && negb (poolIdx p =? 0xFF).

(** [assertInvariants] of the host build: none of its assertions fires. *)
Definition slot_asserts (p : Pending) : bool :=
  if in_use p then plen p <=? POOL_BUF_MAX else (poolIdx p =? 0xFF) && (plen p =? 0).
Definition assertInvariants (c : ArqCache) : bool :=
  let inUse := count in_use (pending_ c) in
  let inUseWithPool := count has_pool (pending_ c) in
  let poolUsedCount := count (fun u => u) (poolUsed_ c) in
  forallb slot_asserts (pending_ c) && (inUse =? pendingCount_ c) && (inUseWithPool =? poolUsedCount) &&
  (pendingCount_ c >=? 0) && (pendingCount_ c <=? SLOTS) && (poolUsedCount >=? 0) && (poolUsedCount <=? POOL_SIZE) &&
  (poolFree_ c =? POOL_SIZE - poolUsedCount) && (poolFree_ c >=? 0) && (poolFree_ c <=? POOL_SIZE).

(** ** Invariant *)

(** Each slot's fields are consistent; a pool buffer has at most one owner,
    which marked it used; the counters are the scans [assertInvariants] does. *)
Record cache_inv (c : ArqCache) : Prop := mkCacheInv {
  inv_slots : lenZ (pending_ c) = SLOTS;
  inv_pool : lenZ (pool_ c) = POOL_SIZE;
  inv_bufs : forall i, 0 <= i < POOL_SIZE -> lenZ (rd [] (pool_ c) i) = POOL_BUF_MAX;
  inv_usedlen : lenZ (poolUsed_ c) = POOL_SIZE;
  inv_free : forall s, 0 <= s < SLOTS -> in_use (slot c s) = false -> slot c s = free_slot;
  inv_len : forall s, 0 <= s < SLOTS -> 0 <= plen (slot c s) <= POOL_BUF_MAX;
  inv_own : forall s, 0 <= s < SLOTS -> has_pool (slot c s) = true ->
    0 <= poolIdx (slot c s) < POOL_SIZE /\ used c (poolIdx (slot c s)) = true;
  inv_nopool : forall s, 0 <= s < SLOTS -> poolIdx (slot c s) = 0xFF -> plen (slot c s) = 0;
  inv_inj : forall s t, 0 <= s < SLOTS -> 0 <= t < SLOTS ->
    has_pool (slot c s) = true -> has_pool (slot c t) = true ->
    poolIdx (slot c s) = poolIdx (slot c t) -> s = t;
  inv_count : pendingCount_ c = count in_use (pending_ c);
  inv_withpool : count has_pool (pending_ c) = count (fun u => u) (poolUsed_ c);
  inv_poolfree : poolFree_ c = POOL_SIZE - count (fun u => u) (poolUsed_ c);
  inv_window : 1 <= window_ c <= windowMax_ c;
}.

Lemma asserts_hold c : cache_inv c -> assertInvariants c = true.
Proof.
  intros [Hl _ _ Hu Hf Hlen _ _ _ Hc Hw Hp _]. unfold assertInvariants. rewrite Hc, Hw, Hp.
  pose proof (count_le in_use (pending_ c)). pose proof (count_nonneg in_use (pending_ c)).
  pose proof (count_le (fun u => u) (poolUsed_ c)). pose proof (count_nonneg (fun u => u) (poolUsed_ c)).
  rewrite !andb_true_iff. split_and!; try lia. apply forallb_forall. intros p Hin.
  apply (In_nth _ _ free_slot) in Hin as (i & Hi & E).
  assert (Hs : slot c (Z.of_nat i) = p) by (unfold slot, rd; by rewrite Nat2Z.id).
  assert (Hr : 0 <= Z.of_nat i < SLOTS) by (unfold lenZ in Hl; lia).
  specialize (Hf _ Hr). specialize (Hlen _ Hr). rewrite Hs in *. unfold slot_asserts.
  destruct (in_use p); [lia|]. by rewrite Hf.
Qed.

Lemma slot_wr c seq p s :
  lenZ (pending_ c) = SLOTS -> 0 <= seq -> 0 <= s < SLOTS ->
  rd free_slot (wr (pending_ c) seq p) s = if seq =? s then p else slot c s.
Proof. intros Hl Hq Hs. rewrite rd_wr by lia. done. Qed.

Lemma init_inv w : 1 <= w -> cache_inv (cache_init w).
Proof.
  intros Hw.
  assert (Hs : forall s, 0 <= s < SLOTS -> slot (cache_init w) s = free_slot).
  { intros s Hs. apply rd_replicate. unfold SLOTS in Hs. lia. }
  constructor; [done|done| |done|..|done|done|done|cbn; lia].
  - intros i Hi. cbn [pool_ cache_init]. unfold POOL_SIZE in Hi. rewrite rd_replicate by lia. done.
  - intros s H _. by apply Hs.
  - intros s H. rewrite Hs by done. cbn. unfold POOL_BUF_MAX. lia.
  - intros s H. rewrite Hs by done. done.
  - intros s H. rewrite Hs by done. done.
  - intros s t H H'. rewrite Hs by done. done.
Qed.

Lemma setWindow_inv w c : cache_inv c -> cache_inv (setWindow w c).
Proof.
  intros [? ? ? ? ? ? ? ? ? ? ? ? ?]. split; try done. unfold setWindow. cbn.
  repeat case_match; lia.
Qed.

Lemma clearAll_inv c : cache_inv c -> cache_inv (clearAll c).
Proof.
  intros H. assert (1 <= 32) as H32 by lia.
  destruct (init_inv 32 H32). destruct H. split; done.
Qed.

(** ** The common half of [insert] and [freeBySeq]: empty a slot *)

(** What both do to a slot in use, up to the [in_use] bit they leave. *)
Definition evict (seq : Z) (c : ArqCache) : ArqCache :=
  if in_use (slot c seq) then
    let c1 := releasePool (poolIdx (slot c seq)) c in
    decCount (c1 <| pending_ := wr (pending_ c1) seq free_slot |>)
  else c.

Ltac consts := unfold SLOTS, POOL_SIZE, POOL_BUF_MAX in *.

Lemma freeBySeq_evict seq cause c : 0 <= seq < SLOTS -> freeBySeq seq cause c = evict seq c.
Proof.
  intros Hs. unfold freeBySeq, evict. replace (SLOTS <=? seq) with false by lia.
  cbn [orb]. by destruct (in_use (slot c seq)).
Qed.

Lemma releasePool_fields i c :
  pending_ (releasePool i c) = pending_ c /\ pool_ (releasePool i c) = pool_ c /\
  pendingCount_ (releasePool i c) = pendingCount_ c /\
  window_ (releasePool i c) = window_ c /\ windowMax_ (releasePool i c) = windowMax_ c.
Proof. unfold releasePool. repeat case_match; done. Qed.

(** A slot in use is counted. *)
Lemma in_use_count c s :
  cache_inv c -> 0 <= s < SLOTS -> in_use (slot c s) = true -> 0 < pendingCount_ c.
Proof.
  intros H Hs Hu. rewrite (inv_count c H).
  pose proof (count_wr free_slot in_use (pending_ c) s free_slot) as Hc.
  pose proof (inv_slots c H). fold (slot c s) in Hc. rewrite Hu in Hc. cbn in Hc.
  pose proof (count_nonneg in_use (wr (pending_ c) s free_slot)). lia.
Qed.

Lemma has_pool_used p : has_pool p = true -> in_use p = true /\ poolIdx p <> 0xFF.
Proof. unfold has_pool. intros H. bool_prop. split; [done|lia]. Qed.

Lemma has_pool_not p : has_pool p = false -> in_use p = true -> poolIdx p = 0xFF.
Proof. unfold has_pool. intros H Hu. rewrite Hu in H. cbn in H. bool_prop. lia. Qed.

(** The two shapes of [evict] on a slot in use. *)
Lemma evict_pool seq c :
  cache_inv c -> 0 <= seq < SLOTS -> has_pool (slot c seq) = true ->
  evict seq c = c <| pending_ := wr (pending_ c) seq free_slot |>
    <| poolUsed_ := wr (poolUsed_ c) (poolIdx (slot c seq)) false |>
    <| poolFree_ := poolFree_ c + 1 |> <| pendingCount_ := pendingCount_ c - 1 |>.
Proof.
  intros H Hs Hp. destruct (has_pool_used _ Hp) as [Hu _].
  destruct (inv_own c H _ Hs Hp) as [Hi Hus].
  pose proof (in_use_count c seq H Hs Hu) as Hc.
  pose proof (inv_poolfree c H) as Hf.
  assert (Hlt : poolFree_ c < POOL_SIZE).
  { pose proof (count_wr false (fun u => u) (poolUsed_ c) (poolIdx (slot c seq)) false) as Hw.
    fold (used c (poolIdx (slot c seq))) in Hw. rewrite Hus, (inv_usedlen c H) in Hw.
    pose proof (count_nonneg (fun u => u) (wr (poolUsed_ c) (poolIdx (slot c seq)) false)). lia. }
  unfold evict, releasePool, decCount. rewrite Hu.
  destruct (Z.ltb_spec (poolIdx (slot c seq)) POOL_SIZE); [|lia]. cbn.
  destruct (Z.ltb_spec (poolFree_ c) POOL_SIZE); [|lia]. cbn.
  destruct (Z.ltb_spec 0 (pendingCount_ c)); [|lia]. done.
Qed.

Lemma evict_nopool seq c :
  cache_inv c -> 0 <= seq < SLOTS -> in_use (slot c seq) = true -> has_pool (slot c seq) = false ->
  evict seq c = c <| pending_ := wr (pending_ c) seq free_slot |>
    <| pendingCount_ := pendingCount_ c - 1 |>.
Proof.
  intros H Hs Hu Hp. pose proof (has_pool_not _ Hp Hu) as Hi.
  pose proof (in_use_count c seq H Hs Hu) as Hc.
  unfold evict, releasePool, decCount. rewrite Hu, Hi. cbn.
  destruct (Z.ltb_spec 0 (pendingCount_ c)); [|lia]. done.
Qed.

(** Everything a client of [evict] needs to know. *)
Lemma evict_spec seq c :
  cache_inv c -> 0 <= seq < SLOTS ->
  cache_inv (evict seq c) /\
  (forall s, 0 <= s < SLOTS -> slot (evict seq c) s = if seq =? s then free_slot else slot c s) /\
  pool_ (evict seq c) = pool_ c.
Proof.
  intros H Hs. destruct (in_use (slot c seq)) eqn:Hu; cycle 1.
  { unfold evict. rewrite Hu. split; [done|split; [|done]]. intros s Hs'.
    destruct (Z.eqb_spec seq s) as [<-|]; [|done]. by apply inv_free. }
  assert (Hsl : forall c' s, pending_ c' = wr (pending_ c) seq free_slot -> 0 <= s < SLOTS ->
            slot c' s = if seq =? s then free_slot else slot c s).
  { intros c' s E Hs'. unfold slot at 1. rewrite E. apply slot_wr; [apply H|lia|done]. }
  pose proof (count_wr free_slot in_use (pending_ c) seq free_slot) as Hcu.
  pose proof (count_wr free_slot has_pool (pending_ c) seq free_slot) as Hcp.
  fold (slot c seq) in Hcu, Hcp. rewrite Hu in Hcu. rewrite (inv_slots c H) in Hcu, Hcp.
  specialize (Hcu Hs). specialize (Hcp Hs). replace (has_pool free_slot) with false in Hcp by done. cbn [in_use free_slot] in Hcu.
  destruct (has_pool (slot c seq)) eqn:Hp.
  - rewrite evict_pool by done. destruct (inv_own c H _ Hs Hp) as [Hi Hus].
    pose proof (count_wr false (fun u => u) (poolUsed_ c) (poolIdx (slot c seq)) false) as Hw.
    fold (used c (poolIdx (slot c seq))) in Hw. rewrite Hus, (inv_usedlen c H) in Hw.
    split; [|split; [by intros s; apply Hsl|done]].
    constructor; try solve [apply H | cbn; rewrite ?lenZ_wr; apply H].
    + intros s Hs'. rewrite (Hsl _ s) by done. destruct (seq =? s); [done|]. by apply H.
    + intros s Hs'. rewrite (Hsl _ s) by done.
      destruct (seq =? s); [cbn; consts; lia|]. by apply H.
    + intros s Hs'. rewrite (Hsl _ s) by done. destruct (Z.eqb_spec seq s); [done|].
      intros Hps. destruct (inv_own c H _ Hs' Hps) as [? ?]. split; [done|].
      unfold used. cbn. rewrite rd_wr_ne; [done|lia|lia|]. intros E.
      apply (inv_inj c H) in E; done.
    + intros s Hs'. rewrite (Hsl _ s) by done. destruct (seq =? s); [done|]. by apply H.
    + intros s t Hs' Ht. rewrite (Hsl _ s), (Hsl _ t) by done.
      destruct (seq =? s); [done|]. destruct (seq =? t); [done|]. by apply H.
    + cbn. rewrite (inv_count c H). lia.
    + cbn. pose proof (inv_withpool c H). lia.
    + cbn. pose proof (inv_poolfree c H). lia.
  - rewrite evict_nopool by done.
    split; [|split; [by intros s; apply Hsl|done]].
    constructor; try solve [apply H | cbn; rewrite ?lenZ_wr; apply H].
    + intros s Hs'. rewrite (Hsl _ s) by done. destruct (seq =? s); [done|]. by apply H.
    + intros s Hs'. rewrite (Hsl _ s) by done.
      destruct (seq =? s); [cbn; consts; lia|]. by apply H.
    + intros s Hs'. rewrite (Hsl _ s) by done. destruct (Z.eqb_spec seq s); [done|].
      by apply H.
    + intros s Hs'. rewrite (Hsl _ s) by done. destruct (seq =? s); [done|]. by apply H.
    + intros s t Hs' Ht. rewrite (Hsl _ s), (Hsl _ t) by done.
      destruct (seq =? s); [done|]. destruct (seq =? t); [done|]. by apply H.
    + cbn. rewrite (inv_count c H). lia.
    + cbn. pose proof (inv_withpool c H). lia.
    + cbn. pose proof (inv_poolfree c H). lia.
Qed.

(** ** [insert] *)

(** The buffer search finds an unused buffer whenever the pool has one. *)
Lemma find_free_spec l i :
  count (fun u => u) l < lenZ l ->
  i <= find_free l i < i + lenZ l /\ rd true l (find_free l i - i) = false.
Proof.
  revert i. induction l as [|u l IH]; intros i Hc; [by unfold count, lenZ in Hc|].
  change (count (fun u => u) (u :: l)) with ((if u then 1 else 0) + count (fun u => u) l) in Hc.
  rewrite lenZ_cons in *. cbn [find_free]. pose proof (lenZ_nonneg l). destruct u.
  - destruct (IH (i + 1)) as [Hr Hn]; [lia|]. split; [lia|].
    unfold rd in *. replace (Z.to_nat (find_free l (i + 1) - i))
      with (S (Z.to_nat (find_free l (i + 1) - (i + 1)))) by lia. done.
  - split; [lia|]. rewrite Z.sub_diag. done.
Qed.

(** [insert] on a slot [evict] has emptied. *)
Definition store (seq : Z) (payload : list Z) (c : ArqCache) : ArqCache :=
  if lenZ payload <=? 0 then
    c <| pending_ := wr (pending_ c) seq (mkPending 0 0xFF true) |>
      <| pendingCount_ := pendingCount_ c + 1 |>
  else
    let i := find_free (poolUsed_ c) 0 in
    c <| pool_ := wr (pool_ c) i (copy_in payload (rd [] (pool_ c) i)) |>
      <| pending_ := wr (pending_ c) seq (mkPending (lenZ payload) i true) |>
      <| poolUsed_ := wr (poolUsed_ c) i true |>
      <| poolFree_ := poolFree_ c - 1 |>
      <| pendingCount_ := pendingCount_ c + 1 |>.

(** The payload is storable: it fits a buffer and one is available. *)
Definition storable (seq : Z) (payload : list Z) (c : ArqCache) : Prop :=
  lenZ payload <= POOL_BUF_MAX /\
  (payload = [] \/ 0 < poolFree_ c \/ has_pool (slot c seq) = true).

Lemma wr_wr {A} (l : list A) i u v : wr (wr l i u) i v = wr l i v.
Proof. apply list_insert_insert_eq. Qed.

Lemma free_buffer c :
  cache_inv c -> 0 < poolFree_ c ->
  0 <= find_free (poolUsed_ c) 0 < POOL_SIZE /\ used c (find_free (poolUsed_ c) 0) = false.
Proof.
  intros H Hf. pose proof (inv_poolfree c H). pose proof (inv_usedlen c H) as Hl.
  destruct (find_free_spec (poolUsed_ c) 0) as [Hr Hn]; [lia|]. split; [lia|].
  rewrite Z.sub_0_r in Hn. unfold used, rd in *. rewrite nth_lookup in *.
  destruct (poolUsed_ c !! _); done.
Qed.

Lemma evict_free seq payload c :
  cache_inv c -> 0 <= seq < SLOTS -> storable seq payload c -> payload <> [] ->
  0 < poolFree_ (evict seq c).
Proof.
  intros H Hs [_ Hf] Hne. destruct (has_pool (slot c seq)) eqn:Hp.
  - rewrite evict_pool by done. cbn. pose proof (inv_poolfree c H).
    pose proof (count_le (fun u => u) (poolUsed_ c)). rewrite (inv_usedlen c H) in *. lia.
  - destruct (in_use (slot c seq)) eqn:Hu.
    + rewrite evict_nopool by done. cbn. destruct Hf as [?|[?|?]]; done.
    + unfold evict. rewrite Hu. destruct Hf as [?|[?|?]]; done.
Qed.

Lemma insert_store seq payload c :
  cache_inv c -> 0 <= seq < SLOTS -> storable seq payload c ->
  insert seq payload c = store seq payload (evict seq c).
Proof.
  intros H Hs Hst. pose proof (evict_free seq payload c H Hs Hst) as Hf.
  destruct (evict_spec seq c H Hs) as (He & _ & _).
  pose proof (lenZ_nonnil payload) as Hne.
  unfold insert, store. destruct (Z.leb_spec SLOTS seq); [lia|].
  destruct (Z.leb_spec (lenZ payload) 0) as [Hz|Hz].
  - unfold evict. destruct (in_use (slot c seq)); [|done].
    unfold decCount, releasePool. cbn.
    repeat first [progress cbn | progress rewrite ?wr_wr | case_match]; done.
  - assert (Hp : payload <> []) by (by intros ->). specialize (Hf Hp).
    destruct (free_buffer _ He Hf) as [Hi _]. destruct Hst as [Hl _].
    destruct (Z.ltb_spec POOL_BUF_MAX (lenZ payload)); [lia|].
    unfold evict in *. destruct (in_use (slot c seq)) eqn:Hu.
    + set (c1 := releasePool (poolIdx (slot c seq)) c) in *.
      unfold decCount in *. cbn in *.
      destruct (pendingCount_ c1 >? 0); cbn in *;
        (destruct (Z.leb_spec (poolFree_ c1) 0); [lia|]);
        (destruct (Z.ltb_spec (find_free (poolUsed_ c1) 0) 0); [lia|]);
        rewrite !wr_wr, u16_small, u8_small by (consts; mlia); done.
    + destruct (Z.leb_spec (poolFree_ c) 0); [lia|].
      destruct (Z.ltb_spec (find_free (poolUsed_ c) 0) 0); [lia|].
      rewrite u16_small, u8_small by (consts; mlia). done.
Qed.

Lemma store_empty_inv seq c :
  cache_inv c -> 0 <= seq < SLOTS -> slot c seq = free_slot -> cache_inv (store seq [] c).
Proof.
  intros H Hs Hf. unfold store. cbn [Z.leb lenZ length Z.of_nat Z.compare].
  pose proof (count_wr free_slot in_use (pending_ c) seq (mkPending 0 0xFF true)) as Hcu.
  pose proof (count_wr free_slot has_pool (pending_ c) seq (mkPending 0 0xFF true)) as Hcp.
  fold (slot c seq) in Hcu, Hcp. rewrite Hf, (inv_slots c H) in Hcu, Hcp.
  specialize (Hcu Hs). specialize (Hcp Hs).
  replace (has_pool free_slot) with false in Hcp by done.
  replace (has_pool (mkPending 0 0xFF true)) with false in Hcp by done.
  cbn [in_use free_slot] in Hcu.
  change (lenZ [] <=? 0) with true. cbn iota.
  constructor; try solve [apply H | cbn; rewrite ?lenZ_wr; apply H];
    unfold slot; cbn; rewrite ?lenZ_wr; try lia.
  all: try (intros s Hs'; rewrite (slot_wr c) by (apply H || lia);
            destruct (seq =? s); [try done; cbn; consts; lia|by apply H]).
  all: try (intros s t Hs' Ht; rewrite !(slot_wr c) by (apply H || lia);
       destruct (seq =? s); [done|]; destruct (seq =? t); [done|]; by apply H).
  - pose proof (inv_count c H). lia.
  - pose proof (inv_withpool c H). lia.
  - pose proof (inv_poolfree c H). lia.
Qed.

Lemma lenZ_copy_in payload buf :
  lenZ payload <= lenZ buf -> lenZ (copy_in payload buf) = lenZ buf.
Proof. unfold copy_in, lenZ. rewrite length_app, length_drop. lia. Qed.

Lemma store_full_inv seq payload c :
  cache_inv c -> 0 <= seq < SLOTS -> slot c seq = free_slot ->
  0 < lenZ payload <= POOL_BUF_MAX -> 0 < poolFree_ c -> cache_inv (store seq payload c).
Proof.
  intros H Hs Hf Hl Hp. destruct (free_buffer c H Hp) as [Hi Hiu].
  unfold store. set (i := find_free (poolUsed_ c) 0) in *. cbv zeta.
  destruct (Z.leb_spec (lenZ payload) 0); [lia|].
  set (p := mkPending (lenZ payload) i true).
  assert (Hpp : has_pool p = true) by (unfold has_pool, p; cbn; consts; lia).
  pose proof (count_wr free_slot in_use (pending_ c) seq p) as Hcu.
  pose proof (count_wr free_slot has_pool (pending_ c) seq p) as Hcp.
  fold (slot c seq) in Hcu, Hcp. rewrite Hf, (inv_slots c H) in Hcu, Hcp.
  specialize (Hcu Hs). specialize (Hcp Hs). rewrite Hpp in Hcp.
  replace (has_pool free_slot) with false in Hcp by done. cbn [in_use free_slot p] in Hcu.
  pose proof (count_wr false (fun u => u) (poolUsed_ c) i true) as Hw.
  fold (used c i) in Hw. rewrite Hiu, (inv_usedlen c H) in Hw.
  assert (Hne : forall s, 0 <= s < SLOTS -> has_pool (slot c s) = true -> poolIdx (slot c s) <> i).
  { intros s Hs' Hps E. destruct (inv_own c H s Hs' Hps) as [_ Hu]. rewrite E, Hiu in Hu. done. }
  constructor; try solve [apply H | cbn; rewrite ?lenZ_wr; apply H];
    unfold slot, used; cbn; rewrite ?lenZ_wr; try lia.
  - intros j Hj. rewrite rd_wr by (rewrite ?(inv_pool c H); lia).
    destruct (Z.eqb_spec i j); [|by apply H].
    rewrite lenZ_copy_in; [by apply H|]. rewrite (inv_bufs c H) by done. lia.
  - intros s Hs'. rewrite (slot_wr c) by (apply H || lia). destruct (seq =? s); [done|by apply H].
  - intros s Hs'. rewrite (slot_wr c) by (apply H || lia).
    destruct (seq =? s); [cbn; lia|by apply H].
  - intros s Hs'. rewrite (slot_wr c) by (apply H || lia). destruct (seq =? s); intros Hps.
    + cbn. rewrite rd_wr_eq by (rewrite (inv_usedlen c H); lia). done.
    + destruct (inv_own c H s Hs' Hps). rewrite rd_wr_ne by (try lia; apply not_eq_sym; by apply Hne).
      done.
  - intros s Hs'. rewrite (slot_wr c) by (apply H || lia).
    destruct (seq =? s); [cbn; consts; lia|by apply H].
  - intros s t Hs' Ht. rewrite !(slot_wr c) by (apply H || lia).
    destruct (Z.eqb_spec seq s), (Z.eqb_spec seq t); intros Hps Hpt E; subst; try done.
    + by destruct (Hne t Ht Hpt).
    + by destruct (Hne s Hs' Hps).
    + by apply H.
  - pose proof (inv_count c H). lia.
  - pose proof (inv_withpool c H). lia.
  - pose proof (inv_poolfree c H). lia.
Qed.

(** ** The abstract view *)

(** The payload slot [s] holds: [None] for a free slot. *)
Definition contents (c : ArqCache) (s : Z) : option (list Z) :=
  let p := slot c s in
  if in_use p then
    Some (if has_pool p then take (Z.to_nat (plen p)) (rd [] (pool_ c) (poolIdx p)) else [])
  else None.

Lemma evict_contents seq c s :
  cache_inv c -> 0 <= seq < SLOTS -> 0 <= s < SLOTS ->
  contents (evict seq c) s = if seq =? s then None else contents c s.
Proof.
  intros H Hs Hs'. destruct (evict_spec seq c H Hs) as (_ & He & Hp).
  unfold contents. rewrite He, Hp by done. by destruct (seq =? s).
Qed.

Lemma store_contents seq payload c s :
  cache_inv c -> 0 <= seq < SLOTS -> 0 <= s < SLOTS -> slot c seq = free_slot ->
  (payload = [] \/ 0 < poolFree_ c) ->
  contents (store seq payload c) s = if seq =? s then Some payload else contents c s.
Proof.
  intros H Hs Hs' Hf Hp. unfold store. destruct (Z.leb_spec (lenZ payload) 0) as [Hl|Hl].
  - destruct (decide (payload = [])) as [->|Hn%lenZ_nonnil]; [|lia].
    unfold contents, slot. cbn. rewrite (slot_wr c) by (apply H || lia).
    by destruct (seq =? s).
  - destruct Hp as [->|Hp]; [done|]. destruct (free_buffer c H Hp) as [Hi Hiu].
    set (i := find_free (poolUsed_ c) 0) in *. cbv zeta.
    unfold contents, slot. cbn. rewrite (slot_wr c) by (apply H || lia).
    destruct (Z.eqb_spec seq s) as [<-|Hne].
    + unfold has_pool. cbn. destruct (Z.eqb_spec i 255); [consts; lia|]. cbn.
      rewrite rd_wr_eq by (rewrite (inv_pool c H); lia). unfold copy_in.
      unfold lenZ. rewrite Nat2Z.id, take_app_length. done.
    + fold (slot c s). destruct (in_use (slot c s)) eqn:Hu; [|done].
      destruct (has_pool (slot c s)) eqn:Hps; [|done].
      destruct (inv_own c H s Hs' Hps) as [Hr Hsu].
      rewrite rd_wr_ne; [done|lia|lia|]. intros E. rewrite <- E, Hiu in Hsu. done.
Qed.

Lemma insert_spec seq payload c :
  cache_inv c -> 0 <= seq < SLOTS -> storable seq payload c ->
  cache_inv (insert seq payload c) /\
  forall s, 0 <= s < SLOTS ->
    contents (insert seq payload c) s = if seq =? s then Some payload else contents c s.
Proof.
  intros H Hs Hst. rewrite insert_store by done.
  destruct (evict_spec seq c H Hs) as (He & Hsl & _).
  assert (Hf : slot (evict seq c) seq = free_slot) by (rewrite Hsl, Z.eqb_refl by done; done).
  assert (Hp : payload = [] \/ 0 < poolFree_ (evict seq c)).
  { destruct (decide (payload = [])); [by left|right]. by eapply evict_free. }
  split.
  - destruct (decide (payload = [])) as [->|Hne]; [by apply store_empty_inv|].
    apply lenZ_nonnil in Hne as Hl. destruct Hst as [? _].
    destruct Hp; [done|]. by apply store_full_inv.
  - intros s Hs'. rewrite store_contents, evict_contents by done. by destruct (seq =? s).
Qed.

Lemma freeBySeq_spec seq cause c :
  cache_inv c -> 0 <= seq < SLOTS ->
  cache_inv (freeBySeq seq cause c) /\
  forall s, 0 <= s < SLOTS ->
    contents (freeBySeq seq cause c) s = if seq =? s then None else contents c s.
Proof.
  intros H Hs. rewrite freeBySeq_evict by done. split; [by apply evict_spec|].
  intros s Hs'. by apply evict_contents.
Qed.

Lemma clearAll_spec c s : 0 <= s < SLOTS -> contents (clearAll c) s = None.
Proof.
  intros Hs. unfold contents. assert (slot (clearAll c) s = free_slot) as ->; [|done].
  apply (rd_replicate free_slot 256). unfold SLOTS in Hs. lia.
Qed.

(** What a retransmit reads is what was inserted: an in-use slot with an empty
    payload is a miss. *)
Lemma peek_spec seq c :
  cache_inv c -> 0 <= seq < SLOTS ->
  peekForRetx seq c =
    match contents c seq with Some [] | None => None | Some p => Some p end.
Proof.
  intros H Hs. unfold peekForRetx, contents.
  destruct (Z.leb_spec SLOTS seq); [lia|]. cbn [orb].
  destruct (in_use (slot c seq)) eqn:Hu; [|done]. cbn [negb].
  destruct (has_pool (slot c seq)) eqn:Hp.
  - destruct (inv_own c H seq Hs Hp) as [Hi _].
    destruct (Z.leb_spec POOL_SIZE (poolIdx (slot c seq))); [lia|]. cbn [orb].
    pose proof (inv_bufs c H _ Hi) as Hb. pose proof (inv_len c H seq Hs) as Hl.
    set (b := rd [] (pool_ c) (poolIdx (slot c seq))) in *.
    destruct (Z.eqb_spec (plen (slot c seq)) 0) as [->|]; [done|].
    destruct (take _ b) eqn:E; [|done]. apply (f_equal length) in E.
    rewrite length_take in E. cbn in E. unfold lenZ in Hb. consts. lia.
  - rewrite (has_pool_not _ Hp Hu). done.
Qed.

Lemma slotInUse_spec seq c : 0 <= seq < SLOTS -> slotInUse seq c = match contents c seq with Some _ => true | None => false end.
Proof.
  intros Hs. unfold slotInUse, contents. destruct (Z.ltb_spec seq SLOTS); [|lia].
  by destruct (in_use _).
Qed.

(** ** Properties *)

(** What [hasRoom] and [freeRoom] report is real: with room, any chunk of a
    frame can be stored. *)
Lemma hasRoom_storable seq payload c :
  hasRoom c = true -> lenZ payload <= POOL_BUF_MAX -> storable seq payload c.
Proof. unfold hasRoom. intros Hr Hl. bool_prop. split; [done|right; left; done]. Qed.

(** C21: The retransmit cache refines a map from sequence numbers to payloads:
    storing a chunk (of at most a pool buffer, with a buffer available or to be
    recycled) updates exactly its entry, freeing removes exactly its entry,
    every read of an entry sees what was last stored, and the slot and pool
    bookkeeping (slot count, buffer ownership, free-buffer count) stays
    exact. *)
Theorem cache_refines_map seq payload cause c :
  cache_inv c -> 0 <= seq < SLOTS -> storable seq payload c ->
  (let c' := insert seq payload c in
   cache_inv c' /\ peekForRetx seq c' = (if decide (payload = []) then None else Some payload) /\
   slotInUse seq c' = true /\
   forall s, 0 <= s < SLOTS -> s <> seq ->
     peekForRetx s c' = peekForRetx s c /\ slotInUse s c' = slotInUse s c) /\
  (let c' := freeBySeq seq cause c in
   cache_inv c' /\ peekForRetx seq c' = None /\ slotInUse seq c' = false /\
   forall s, 0 <= s < SLOTS -> s <> seq ->
     peekForRetx s c' = peekForRetx s c /\ slotInUse s c' = slotInUse s c).
Proof.
  intros H Hs Hst. destruct (insert_spec seq payload c H Hs Hst) as [Hi Hic].
  destruct (freeBySeq_spec seq cause c H Hs) as [Hf Hfc]. cbv zeta.
  split; (split; [done|]); rewrite ?peek_spec, ?slotInUse_spec, ?Hic, ?Hfc, ?Z.eqb_refl by done.
  - split; [by destruct payload|]. split; [done|]. intros s Hs' Hne.
    rewrite !peek_spec, !slotInUse_spec, Hic by done.
    destruct (Z.eqb_spec seq s); [lia|]. done.
  - split; [done|]. split; [done|]. intros s Hs' Hne.
    rewrite !peek_spec, !slotInUse_spec, Hfc by done.
    destruct (Z.eqb_spec seq s); [lia|]. done.
Qed.

Lemma cache_refines_map_witness :
  let c := insert 7 [1; 2; 3] (cache_init 32) in
  let c' := insert 7 [9; 8] c in
  cache_inv c' /\ peekForRetx 7 c' = Some [9; 8].
Proof.
  cbv zeta.
  destruct (cache_refines_map 7 [1; 2; 3] SingleAck (cache_init 32)) as [[H _] _];
    [apply init_inv; lia|unfold SLOTS; lia|split; [done|right; left; done]|].
  destruct (cache_refines_map 7 [9; 8] SingleAck (insert 7 [1; 2; 3] (cache_init 32)))
    as [(H' & Hp & _) _]; [done|unfold SLOTS; lia|split; [done|right; left; by vm_compute]|].
  split; [exact H'|exact Hp].
Defined.

(** The early returns of [insert] on a slot in use do not preserve the
    bookkeeping: an oversize replacement drops the payload and the count but
    leaves the slot marked in use, so [size()] disagrees with the slots and
    the slot answers every retransmit with a miss. *)
Theorem insert_oversize_drift seq payload c :
  cache_inv c -> 0 <= seq < SLOTS -> in_use (slot c seq) = true ->
  POOL_BUF_MAX < lenZ payload ->
  let c' := insert seq payload c in
  slotInUse seq c' = true /\ peekForRetx seq c' = None /\
  size c' = count in_use (pending_ c') - 1 /\ assertInvariants c' = false.
Proof.
  intros H Hs Hu Hl. cbv zeta.
  pose proof (in_use_count c seq H Hs Hu) as Hc. pose proof (inv_count c H) as Hn.
  set (p := (slot c seq) <| poolIdx := 0xFF |> <| plen := 0 |>).
  assert (Hins : pending_ (insert seq payload c) = wr (pending_ c) seq p /\
                 pendingCount_ (insert seq payload c) = pendingCount_ c - 1).
  { unfold insert. rewrite Hu.
    destruct (Z.leb_spec SLOTS seq); [lia|].
    destruct (Z.leb_spec (lenZ payload) 0); [unfold POOL_BUF_MAX in *; lia|].
    destruct (Z.ltb_spec POOL_BUF_MAX (lenZ payload)); [|lia].
    destruct (releasePool_fields (poolIdx (slot c seq)) c) as (Hp & _ & Hcnt & _).
    set (c1 := releasePool (poolIdx (slot c seq)) c) in *. unfold decCount. cbn. rewrite Hcnt.
    destruct (Z.ltb_spec 0 (pendingCount_ c)); [|lia]. cbn.
    rewrite Hcnt. unfold p, slot. by rewrite Hp. }
  destruct Hins as [Hp Hcnt].
  assert (Hsl : slot (insert seq payload c) seq = p).
  { unfold slot at 1. rewrite Hp. apply rd_wr_eq. rewrite (inv_slots c H). lia. }
  unfold slotInUse, peekForRetx, size. rewrite Hsl, Hp, Hcnt.
  change (in_use p) with (in_use (slot c seq)). rewrite Hu.
  destruct (Z.ltb_spec seq SLOTS); [|lia]. destruct (Z.leb_spec SLOTS seq); [lia|].
  split; [done|]. split; [done|].
  enough (En : pendingCount_ c - 1 = count in_use (wr (pending_ c) seq p) - 1).
  { split; [exact En|]. unfold assertInvariants. rewrite Hp, Hcnt. apply not_true_is_false.
    rewrite !andb_true_iff. lia. }
  rewrite (count_wr free_slot) by (rewrite (inv_slots c H); lia).
  fold (slot c seq). change (in_use p) with (in_use (slot c seq)). rewrite Hu. lia.
Qed.

Lemma insert_oversize_drift_witness :
  let c := insert 5 [1] (cache_init 32) in
  size (insert 5 (replicate 300 0) c) = 0 /\ slotInUse 5 (insert 5 (replicate 300 0) c) = true.
Proof.
  cbv zeta.
  destruct (insert_oversize_drift 5 (replicate 300 0) (insert 5 [1] (cache_init 32)))
    as (Hu & _ & Hn & _).
  - apply insert_spec; [apply init_inv; lia|unfold SLOTS; lia|split; [done|right; left; done]].
  - unfold SLOTS. lia.
  - by vm_compute.
  - by vm_compute.
  - split; [rewrite Hn; by vm_compute|exact Hu].
Defined.

End ArqCache.
