(* ===== verification/Arq.v ===== *)
(** * The ARQ bookkeeping of the sender ([src/al/link/arq/LinkArq.h], [.cpp])

    One entry per in-flight chunk, in tables of 64 indexed by [seq mod 64]; the
    window is at most 32 sequence numbers of a ring of 254, so two in-flight
    chunks never share an entry. The last part of the file makes that precise:
    [pend_window base n a] says that exactly the [n] sequence numbers from
    [base] on are pending, and every operation that opens or closes a slot is
    shown to move one end of the window. *)
From S2P Require Import Prelude Config Decision.
Import Config Decision.

Module Arq.

Definition NO_BASE : Z := 0xFF.

(** [ackSem_] is the binary semaphore [ack_sem_]: [None] until it is created,
    then whether it has been given. *)
Record LinkArq := mkLinkArq {
  ackedPending_ : list bool;
  retxCount_ : list Z;
  nakCount_ : list Z;
  baseLap_ : list Z;
  nakWake_ : bool;
  nakWakeSeq_ : Z;
  sentAtMs_ : list Z;
  baseSeq_ : list Z;
  bytesRecvd_ : list Z;
  clearAllEpoch_ : Z;
  gbnBase_ : Z;
  gbnActive_ : bool;
  ackSem_ : option bool;
}.
#[export] Instance eta_LinkArq : Eta LinkArq := fun r =>
  mkLinkArq (ackedPending_ r) (retxCount_ r) (nakCount_ r) (baseLap_ r) (nakWake_ r)
    (nakWakeSeq_ r) (sentAtMs_ r) (baseSeq_ r) (bytesRecvd_ r) (clearAllEpoch_ r)
    (gbnBase_ r) (gbnActive_ r) (ackSem_ r).

Definition zeros : list Z := replicate 64 0.

(** [xSemaphoreGive] on a semaphore that may not exist yet. *)
Definition give (a : LinkArq) : LinkArq :=
  match ackSem_ a with None => a | Some _ => a <| ackSem_ := Some true |> end.

Definition arq_clearAll (a : LinkArq) : LinkArq :=
  give (a <| bytesRecvd_ := zeros |> <| ackedPending_ := replicate 64 false |>
          <| retxCount_ := zeros |> <| nakCount_ := zeros |> <| sentAtMs_ := zeros |>
          <| baseSeq_ := zeros |> <| baseLap_ := zeros |> <| gbnBase_ := 0 |>
          <| gbnActive_ := false |> <| clearAllEpoch_ ::= (fun e => u32 (e + 1)) |>).

(** The constructor: default member initialisers, then [clearAll()]. *)
Definition arq_init : LinkArq :=
  arq_clearAll (mkLinkArq (replicate 64 false) zeros zeros zeros false 0xFF zeros zeros zeros
                  0 0 false None).

Definition idxOf (seq : Z) (a : LinkArq) : Z :=
  let d := seq - gbnBase_ a in
  let d := if d <? 0 then d + COBS_SEQ_SPACE else d in
  if d <? AUTOLINK_ARQ_PIPELINE_WINDOW then d else -1.

Definition budgetIdx (seq : Z) : Z := seq mod ARQ_CHUNK_BUDGET.

Definition onSent (seq baseSeq nowMs baseLap : Z) (a : LinkArq) : LinkArq :=
  let bi := budgetIdx seq in
  a <| ackedPending_ ::= (fun l => wr l bi true) |>
    <| retxCount_ ::= (fun l => wr l bi 0) |>
    <| nakCount_ ::= (fun l => wr l bi 0) |>
    <| sentAtMs_ ::= (fun l => wr l bi nowMs) |>
    <| baseSeq_ ::= (fun l => wr l bi (if baseSeq =? NO_BASE then seq else baseSeq)) |>
    <| baseLap_ ::= (fun l => wr l bi baseLap) |>.

Definition rearmSlot (seq nowMs : Z) (a : LinkArq) : LinkArq :=
  let bi := budgetIdx seq in
  a <| retxCount_ ::= (fun l => wr l bi 0) |>
    <| sentAtMs_ ::= (fun l => wr l bi nowMs) |>.

Definition onAcked (seq bytesRecvd : Z) (a : LinkArq) : LinkArq :=
  let bi := budgetIdx seq in
  give (a <| bytesRecvd_ ::= (fun l => wr l bi bytesRecvd) |>
          <| ackedPending_ ::= (fun l => wr l bi false) |>
          <| retxCount_ ::= (fun l => wr l bi 0) |>
          <| nakCount_ ::= (fun l => wr l bi 0) |>).

Definition bytesFor (seq : Z) (a : LinkArq) : Z := rd 0 (bytesRecvd_ a) (budgetIdx seq).

(** [total += bytesRecvd_[i]] for [i = 0 .. ARQ_CHUNK_BUDGET - 1], in a [uint16_t]. *)
Fixpoint bytes_loop (baseSeq baseLap : Z) (bs ls rs : list Z) (total : Z) : Z :=
  match bs, ls, rs with
  | b :: bs, l :: ls, r :: rs =>
      bytes_loop baseSeq baseLap bs ls rs
        (if (b =? baseSeq) && (l =? baseLap) then u16 (total + r) else total)
  | _, _, _ => total
  end.
Definition bytesForMessage (baseSeq baseLap : Z) (a : LinkArq) : Z :=
  bytes_loop baseSeq baseLap (baseSeq_ a) (baseLap_ a) (bytesRecvd_ a) 0.

Definition isPending (seq : Z) (a : LinkArq) : bool :=
  rd false (ackedPending_ a) (budgetIdx seq).

(** [if (nakCount_[bi] < 0xFF) nakCount_[bi]++] *)
Definition bumpNak (bi : Z) (l : list Z) : list Z :=
  if rd 0 l bi <? 0xFF then wr l bi (rd 0 l bi + 1) else l.

Definition noteSuppressedNak (missing : Z) (a : LinkArq) : LinkArq :=
  if negb (isPending missing a) then a
  else a <| nakCount_ ::= bumpNak (budgetIdx missing) |>.

Definition onNaked (missing nowMs : Z) (a : LinkArq) : LinkArq :=
  if negb (isPending missing a) then a
  else
    let bi := budgetIdx missing in
    a <| sentAtMs_ ::= (fun l => wr l bi nowMs) |> <| nakCount_ ::= bumpNak bi |>.

Definition setPending (seq : Z) (v : bool) (a : LinkArq) : LinkArq :=
  a <| ackedPending_ ::= (fun l => wr l (budgetIdx seq) v) |>.

Definition pendingCount (a : LinkArq) : Z := count (fun p => p) (ackedPending_ a).
Definition retxCountTotal (a : LinkArq) : Z := foldr Z.add 0 (retxCount_ a).
Definition retxCountFor (seq : Z) (a : LinkArq) : Z := rd 0 (retxCount_ a) (budgetIdx seq).
Definition nakCountFor (seq : Z) (a : LinkArq) : Z := rd 0 (nakCount_ a) (budgetIdx seq).
Definition isAcked (seq : Z) (a : LinkArq) : bool := negb (isPending seq a).

Definition noteNakWake (seq : Z) (a : LinkArq) : LinkArq :=
  give (a <| nakWakeSeq_ := seq |> <| nakWake_ := true |>).

(** [created]: what [xSemaphoreCreateBinary] answers, when it is called. *)
Definition ensureAckSem (created : bool) (a : LinkArq) : LinkArq :=
  match ackSem_ a with
  | Some _ => a
  | None => if created then a <| ackSem_ := Some false |> else a
  end.

Definition decideSlot (seq nowMs ackRtoMs maxRetx : Z) (a : LinkArq) : ArqAction :=
  if idxOf seq a <? 0 then Hold
  else
    let bi := budgetIdx seq in
    let age := u32 (nowMs - rd 0 (sentAtMs_ a) bi) in
    decideArqSlot age (rd 0 (retxCount_ a) bi) ackRtoMs maxRetx.

Definition applyRetx (seq nowMs : Z) (rtoDriven : bool) (a : LinkArq) : LinkArq :=
  let bi := budgetIdx seq in
  if rtoDriven then
    a <| retxCount_ ::= (fun l => if rd 0 l bi <? 0xFF then wr l bi (rd 0 l bi + 1) else l) |>
      <| sentAtMs_ ::= (fun l => wr l bi nowMs) |>
  else a.

(** ** The sequence ring *)

(** The sequence number [i] places after [base]. *)
Definition seq_at (base i : Z) : Z := (base + i) mod 254.
Definition is_seq (s : Z) : Prop := 0 <= s < 254.

Lemma seq_at_range base i : is_seq (seq_at base i).
Proof. unfold is_seq, seq_at. apply Z.mod_pos_bound. lia. Qed.

Lemma seq_at_0 base : is_seq base -> seq_at base 0 = base.
Proof. unfold is_seq, seq_at. intros. rewrite Z.add_0_r. by apply Z.mod_small. Qed.

Lemma seq_at_add base i j : seq_at (seq_at base i) j = seq_at base (i + j).
Proof. unfold seq_at. rewrite Zplus_mod_idemp_l. f_equal. lia. Qed.

Lemma seq_at_succ base i :
  seq_at base (i + 1) = if seq_at base i =? 253 then 0 else seq_at base i + 1.
Proof. unfold seq_at. destruct (Z.eqb_spec ((base + i) mod 254) 253); mlia. Qed.

Lemma budgetIdx_range s : 0 <= budgetIdx s < 64.
Proof. unfold budgetIdx. apply Z.mod_pos_bound. done. Qed.

(** Up to 62 consecutive sequence numbers occupy distinct entries. *)
Lemma budgetIdx_inj base i j :
  0 <= i < 62 -> 0 <= j < 62 -> budgetIdx (seq_at base i) = budgetIdx (seq_at base j) -> i = j.
Proof.
  unfold budgetIdx, seq_at, ARQ_CHUNK_BUDGET, AUTOLINK_ARQ_PIPELINE_WINDOW. intros. mlia.
Qed.

#[export] Hint Resolve budgetIdx_range seq_at_range : machine.

(** ** The pending window *)

Record arq_wf (a : LinkArq) : Prop := mkArqWf {
  wf_pend : lenZ (ackedPending_ a) = 64;
  wf_retx : lenZ (retxCount_ a) = 64;
  wf_nak : lenZ (nakCount_ a) = 64;
  wf_lap : lenZ (baseLap_ a) = 64;
  wf_sent : lenZ (sentAtMs_ a) = 64;
  wf_base : lenZ (baseSeq_ a) = 64;
  wf_bytes : lenZ (bytesRecvd_ a) = 64;
}.

(** Exactly the [n] sequence numbers from [base] on are pending. *)
Definition win_bits (base n : Z) (l : list bool) : Prop :=
  lenZ l = 64 /\
  forall k, 0 <= k < 64 -> rd false l k = true <-> exists i, 0 <= i < n /\ budgetIdx (seq_at base i) = k.

Definition pend_window (base n : Z) (a : LinkArq) : Prop := win_bits base n (ackedPending_ a).

Lemma win_bits_nil base l : win_bits base 0 l <-> l = replicate 64 false.
Proof.
  split.
  - intros [Hl Hw]. apply (rd_ext false); [unfold lenZ in Hl; rewrite length_replicate; lia|].
    intros k Hk. rewrite Hl in Hk. rewrite (rd_replicate false 64) by lia.
    destruct (rd false l k) eqn:E; [|done]. apply Hw in E; [|done]. destruct E as [i [? _]]. lia.
  - intros ->. split; [done|]. intros k Hk. rewrite (rd_replicate false 64) by lia.
    split; [done|]. intros [i [? _]]. lia.
Qed.

Lemma win_bits_snoc base n l :
  0 <= n < 62 -> win_bits base n l -> win_bits base (n + 1) (wr l (budgetIdx (seq_at base n)) true).
Proof.
  intros Hn [Hl Hw]. split; [by rewrite lenZ_wr|]. intros k Hk.
  pose proof (budgetIdx_range (seq_at base n)). rewrite rd_wr by lia.
  destruct (Z.eqb_spec (budgetIdx (seq_at base n)) k) as [<-|Hne].
  - split; [|done]. intros _. exists n. split; [lia|done].
  - rewrite Hw by done. split; intros [i [Hi E]]; exists i; (split; [|done]); [lia|].
    destruct (Z.eq_dec i n) as [->|]; [done|lia].
Qed.

Lemma win_bits_tail base n l :
  0 < n <= 62 -> win_bits base n l -> win_bits (seq_at base 1) (n - 1) (wr l (budgetIdx (seq_at base 0)) false).
Proof.
  intros Hn [Hl Hw]. split; [by rewrite lenZ_wr|]. intros k Hk.
  pose proof (budgetIdx_range (seq_at base 0)). rewrite rd_wr by lia.
  assert (Hs : forall i, seq_at (seq_at base 1) i = seq_at base (i + 1)).
  { intros i. rewrite seq_at_add. f_equal. lia. }
  destruct (Z.eqb_spec (budgetIdx (seq_at base 0)) k) as [<-|Hne].
  - split; [done|]. intros [i [Hi E]]. rewrite Hs in E. apply budgetIdx_inj in E; lia.
  - rewrite Hw by done. split; intros [i [Hi E]].
    + destruct (Z.eq_dec i 0) as [->|]; [done|]. exists (i - 1). split; [lia|].
      rewrite Hs. by replace (i - 1 + 1) with i by lia.
    + exists (i + 1). split; [lia|]. by rewrite <- Hs.
Qed.

Lemma win_bits_init base n l :
  0 < n <= 62 -> win_bits base n l -> win_bits base (n - 1) (wr l (budgetIdx (seq_at base (n - 1))) false).
Proof.
  intros Hn [Hl Hw]. split; [by rewrite lenZ_wr|]. intros k Hk.
  pose proof (budgetIdx_range (seq_at base (n - 1))). rewrite rd_wr by lia.
  destruct (Z.eqb_spec (budgetIdx (seq_at base (n - 1))) k) as [<-|Hne].
  - split; [done|]. intros [i [Hi E]]. apply budgetIdx_inj in E; lia.
  - rewrite Hw by done. split; intros [i [Hi E]]; exists i; (split; [|done]); [|lia].
    destruct (Z.eq_dec i (n - 1)) as [->|]; [done|lia].
Qed.

Lemma win_bits_count base n l :
  0 <= n <= 62 -> win_bits base n l -> count (fun p => p) l = n.
Proof.
  intros Hn. remember (Z.to_nat n) as m eqn:Em. revert n l Hn Em.
  induction m as [|m IH]; intros n l Hn Em Hw.
  - replace n with 0 in * by lia. apply win_bits_nil in Hw as ->. done.
  - pose proof (budgetIdx_range (seq_at base (n - 1))) as Hr.
    assert (Hp : rd false l (budgetIdx (seq_at base (n - 1))) = true).
    { apply Hw; [done|]. exists (n - 1). split; [lia|done]. }
    apply win_bits_init in Hw as Hw'; [|lia]. apply IH in Hw'; [|lia|lia].
    destruct Hw as [Hl _]. rewrite (count_wr false) in Hw' by lia. rewrite Hp in Hw'. lia.
Qed.

Lemma win_bits_at base n l i :
  win_bits base n l -> 0 <= n <= 62 -> 0 <= i < 62 ->
  rd false l (budgetIdx (seq_at base i)) = (i <? n).
Proof.
  intros [Hl Hw] Hn Hi. specialize (Hw (budgetIdx (seq_at base i)) (budgetIdx_range _)).
  destruct (Z.ltb_spec i n).
  - apply Hw. exists i. split; [lia|done].
  - apply not_true_is_false. intros [j [Hj Hb]]%Hw.
    apply budgetIdx_inj in Hb; lia.
Qed.

End Arq.
