(* ===== verification/Log.v ===== *)
(** * The log ([src/al/util/log/LogRingBuffer.h], [Log.h], [Log.cpp])

    The drop-oldest ring that carries log lines from any task to the drain
    task, and the logger around it (the [ESP_PLATFORM] build). The ring is a
    bounded queue of [N - 1] entries; no line disappears unaccounted: every one
    emitted is drained, still queued or counted as dropped. *)
From S2P Require Import Prelude.

Module Log.

(** ** C strings *)

(** [strncpy(dst, s, size - 1); dst[size - 1] = 0;], as the string it leaves. *)
Definition copy_str (size : Z) (s : list Z) : list Z := take (Z.to_nat (size - 1)) (cstr s).

Definition TAG_BYTES : Z := 16.
Definition MSG_BYTES : Z := 160.

(** ** The ring *)

Record Entry := mkEntry { sev : Z; tag : list Z; msg : list Z; tsMs : Z }.
Definition no_entry : Entry := mkEntry 73 [] [] 0.

Record LogRingBuffer := mkRing { ring_ : list Entry; head_ : Z; tail_ : Z }.
#[export] Instance eta_Ring : Eta LogRingBuffer := fun r => mkRing (ring_ r) (head_ r) (tail_ r).

Section Ring.
Context (N : Z).

Definition ring_init : LogRingBuffer := mkRing (replicate (Z.to_nat N) no_entry) 0 0.

Definition tryPush (sev : Z) (tag msg : list Z) (tsMs : Z) (r : LogRingBuffer) : bool * LogRingBuffer :=
  let next := (tail_ r + 1) mod N in
  let dropped := next =? head_ r in
  let r := if dropped then r <| head_ := (head_ r + 1) mod N |> else r in
  let e := mkEntry sev (copy_str TAG_BYTES tag) (copy_str MSG_BYTES msg) tsMs in
  (dropped, r <| ring_ := wr (ring_ r) (tail_ r) e |> <| tail_ := next |>).

Definition tryPop (r : LogRingBuffer) : option Entry * LogRingBuffer :=
  if head_ r =? tail_ r then (None, r)
  else (Some (rd no_entry (ring_ r) (head_ r)), r <| head_ := (head_ r + 1) mod N |>).

Definition ring_empty (r : LogRingBuffer) : bool := head_ r =? tail_ r.
Definition ring_size (r : LogRingBuffer) : Z := (tail_ r + N - head_ r) mod N.

(** *** It is a bounded queue *)

Definition ring_ok (r : LogRingBuffer) : Prop :=
  0 <= head_ r < N /\ 0 <= tail_ r < N /\ lenZ (ring_ r) = N.

(** The entries from the oldest. *)
Definition queue (r : LogRingBuffer) : list Entry :=
  map (fun i => rd no_entry (ring_ r) ((head_ r + Z.of_nat i) mod N)) (seq 0 (Z.to_nat (ring_size r))).

Context (HN : 1 < N).

Lemma ring_size_range r : 0 <= ring_size r < N.
Proof. unfold ring_size. apply Z.mod_pos_bound. lia. Qed.

Lemma queue_len r : lenZ (queue r) = ring_size r.
Proof. pose proof (ring_size_range r). unfold queue, lenZ. rewrite length_map, length_seq. lia. Qed.

Lemma tail_head r : ring_ok r -> tail_ r = (head_ r + ring_size r) mod N.
Proof.
  intros (Hh & Ht & _). unfold ring_size. rewrite Zplus_mod_idemp_r.
  replace (head_ r + (tail_ r + N - head_ r)) with (tail_ r + 1 * N) by lia.
  by rewrite Z.mod_add, Z.mod_small by lia.
Qed.

Lemma size_succ r : ring_ok r ->
  ((tail_ r + 1) mod N =? head_ r) = (ring_size r =? N - 1).
Proof.
  intros (Hh & Ht & _). unfold ring_size.
  destruct (Z.eqb_spec ((tail_ r + 1) mod N) (head_ r)) as [E|E],
    (Z.eqb_spec ((tail_ r + N - head_ r) mod N) (N - 1)) as [E'|E']; try done; exfalso.
  - apply E'. rewrite <- E.
    destruct (Z.eqb_spec (tail_ r) (N - 1)) as [Et|Et].
    + rewrite Et. replace (N - 1 + 1) with N by lia. rewrite Z_mod_same_full.
      replace (N - 1 + N - 0) with (N - 1 + 1 * N) by lia. rewrite Z.mod_add, Z.mod_small; lia.
    + rewrite (Z.mod_small (tail_ r + 1)) by lia. rewrite Z.mod_small; lia.
  - apply E. destruct (Z.leb_spec (head_ r) (tail_ r)) as [Hle|Hlt].
    + replace (tail_ r + N - head_ r) with (tail_ r - head_ r + 1 * N) in E' by lia.
      rewrite Z.mod_add, Z.mod_small in E' by lia. assert (tail_ r = N - 1 /\ head_ r = 0) as [-> ->] by lia.
      replace (N - 1 + 1) with N by lia. apply Z_mod_same_full.
    + rewrite Z.mod_small in E' by lia. rewrite Z.mod_small; lia.
Qed.

(** Advancing the head drops the oldest entry. *)
Lemma queue_advance r : ring_ok r -> 0 < ring_size r ->
  let r' := r <| head_ := (head_ r + 1) mod N |> in
  ring_ok r' /\ queue r = rd no_entry (ring_ r) (head_ r) :: queue r' /\ ring_size r' = ring_size r - 1.
Proof.
  intros Hok Hs r'. pose proof Hok as (Hh & Ht & Hl).
  assert (Hok' : ring_ok r') by (split; [cbn; apply Z.mod_pos_bound; lia|done]).
  assert (Hsz : ring_size r' = ring_size r - 1).
  { pose proof (tail_head r Hok) as Et. pose proof (ring_size_range r) as Hr. unfold ring_size at 1. cbn.
    rewrite Et. set (s := ring_size r) in *.
    destruct (Z.eqb_spec (head_ r) (N - 1)) as [Eh|Eh].
    - rewrite Eh. replace (N - 1 + 1) with N by lia. rewrite Z_mod_same_full.
      replace (N - 1 + s) with (s - 1 + 1 * N) by lia. rewrite Z.mod_add by lia.
      rewrite (Z.mod_small (s - 1)) by lia. replace (s - 1 + N - 0) with (s - 1 + 1 * N) by lia.
      rewrite Z.mod_add, Z.mod_small; lia.
    - rewrite (Z.mod_small (head_ r + 1)) by lia.
      destruct (Z.ltb_spec (head_ r + s) N).
      + rewrite (Z.mod_small (head_ r + s)) by lia.
        replace (head_ r + s + N - (head_ r + 1)) with (s - 1 + 1 * N) by lia. rewrite Z.mod_add, Z.mod_small; lia.
      + replace (head_ r + s) with (head_ r + s - N + 1 * N) by lia. rewrite Z.mod_add by lia.
        rewrite (Z.mod_small (head_ r + s - N)) by lia. rewrite Z.mod_small; lia. }
  split_and!; try done. unfold queue. rewrite Hsz.
  replace (Z.to_nat (ring_size r)) with (S (Z.to_nat (ring_size r - 1))) by lia.
  cbn [seq map]. rewrite Z.add_0_r, Z.mod_small by lia. f_equal.
  rewrite <- seq_shift, map_map. apply map_ext. intros i. cbn. f_equal.
  rewrite Zplus_mod_idemp_l. f_equal. lia.
Qed.

(** Writing at the tail, with room. *)
Lemma queue_append r e : ring_ok r -> ring_size r < N - 1 ->
  let r' := r <| ring_ := wr (ring_ r) (tail_ r) e |> <| tail_ := (tail_ r + 1) mod N |> in
  ring_ok r' /\ queue r' = queue r ++ [e].
Proof.
  intros Hok Hs r'. pose proof Hok as (Hh & Ht & Hl). pose proof (ring_size_range r) as Hr.
  pose proof (tail_head r Hok) as Et.
  assert (Hok' : ring_ok r').
  { split; [done|]. split; [cbn; apply Z.mod_pos_bound; lia|by cbn; rewrite lenZ_wr]. }
  split; [done|].
  assert (Hsz : ring_size r' = ring_size r + 1).
  { unfold ring_size at 1. cbn. rewrite Et. set (s := ring_size r) in *. rewrite Zplus_mod_idemp_l.
    rewrite <- Z.add_sub_assoc, Zplus_mod_idemp_l.
    replace (head_ r + s + 1 + (N - head_ r)) with (s + 1 + 1 * N) by lia. rewrite Z.mod_add, Z.mod_small; lia. }
  unfold queue. rewrite Hsz. replace (Z.to_nat (ring_size r + 1)) with (S (Z.to_nat (ring_size r))) by lia.
  rewrite seq_S, map_app. cbn [map]. f_equal.
  - apply map_ext_in. intros i Hi%in_seq. cbn. apply rd_wr_ne; [lia|apply Z.mod_pos_bound; lia|].
    rewrite Et. intros E.
    assert (Hd : (ring_size r - Z.of_nat i) mod N = 0).
    { replace (ring_size r - Z.of_nat i) with (head_ r + ring_size r - (head_ r + Z.of_nat i)) by lia.
      rewrite Zminus_mod, E, Z.sub_diag. apply Z.mod_0_l. lia. }
    rewrite Z.mod_small in Hd; lia.
  - cbn. rewrite Z2Nat.id by lia. rewrite <- Et. f_equal. apply rd_wr_eq. lia.
Qed.

Lemma tryPush_ok s t m ts r : ring_ok r ->
  let '(dropped, r') := tryPush s t m ts r in
  let e := mkEntry s (copy_str TAG_BYTES t) (copy_str MSG_BYTES m) ts in
  ring_ok r' /\ dropped = (lenZ (queue r) =? N - 1) /\
  queue r' = (if dropped then drop 1 (queue r) else queue r) ++ [e].
Proof.
  intros Hok. unfold tryPush. rewrite size_succ, queue_len by done. pose proof (ring_size_range r) as Hr.
  destruct (Z.eqb_spec (ring_size r) (N - 1)) as [E|E].
  - destruct (queue_advance r Hok) as (Hok' & Eq & Es); [lia|].
    set (r1 := r <| head_ := _ |>) in *.
    destruct (queue_append r1 (mkEntry s (copy_str TAG_BYTES t) (copy_str MSG_BYTES m) ts) Hok') as [Hok2 Eq2];
      [lia|]. split_and!; try done. rewrite Eq. exact Eq2.
  - destruct (queue_append r (mkEntry s (copy_str TAG_BYTES t) (copy_str MSG_BYTES m) ts) Hok) as [Hok2 Eq2]; [lia|].
    by split_and!.
Qed.

Lemma tryPop_ok r : ring_ok r ->
  let '(e, r') := tryPop r in
  ring_ok r' /\ e = head (queue r) /\ queue r' = drop 1 (queue r).
Proof.
  intros Hok. unfold tryPop. pose proof (ring_size_range r) as Hr. pose proof Hok as (Hh & Ht & _).
  destruct (Z.eqb_spec (head_ r) (tail_ r)) as [E|E].
  - assert (Hs : ring_size r = 0).
    { unfold ring_size. rewrite E. replace (tail_ r + N - tail_ r) with (0 + 1 * N) by lia. by rewrite Z.mod_add by lia. }
    unfold queue. by rewrite Hs.
  - assert (Hs : 0 < ring_size r).
    { destruct (Z.eqb_spec (ring_size r) 0) as [E0|]; [|lia]. pose proof (tail_head r Hok) as Et.
      rewrite E0, Z.add_0_r, Z.mod_small in Et by lia. congruence. }
    destruct (queue_advance r Hok Hs) as (Hok' & -> & _). by split_and!.
Qed.

Lemma ring_init_ok : ring_ok ring_init /\ queue ring_init = [].
Proof.
  split; [split_and!; cbn; try lia; unfold lenZ; rewrite length_replicate; lia|].
  unfold queue, ring_size. change (tail_ ring_init + N - head_ ring_init) with (0 + N - 0).
  replace (0 + N - 0) with N by lia. by rewrite Z_mod_same_full.
Qed.
End Ring.

(** ** The logger *)

Definition NONE : Z := 0.
Definition ERROR : Z := 1.
Definition WARNING : Z := 2.
Definition INFO : Z := 3.
Definition DEBUG : Z := 4.
Definition VERBOSE : Z := 5.

Definition QUEUE_CAP : Z := 128.
Definition RING_N : Z := QUEUE_CAP + 1.

(** [truncWarned_] is the function's static flag. *)
Record Logger := mkLogger {
  lvl : Z;
  sink_fn_ : bool;
  espRing_ : LogRingBuffer;
  espDropWarned_ : bool;
  droppedLines_ : Z;
  truncWarned_ : bool;
}.
#[export] Instance eta_Logger : Eta Logger := fun r =>
  mkLogger (lvl r) (sink_fn_ r) (espRing_ r) (espDropWarned_ r) (droppedLines_ r) (truncWarned_ r).

Definition logger_init : Logger := mkLogger ERROR false (ring_init RING_N) false 0 false.

(** What the sink is called with; the two warnings are fixed texts. *)
Inductive SinkCall :=
  | LineOut (sev : Z) (tag msg : list Z)
  | TruncWarn (tag : list Z) (needed : Z)
  | OverflowWarn.

Definition setLevel (lv : Z) (g : Logger) : Logger := g <| lvl := lv |>.
Definition wouldEmit (lv : Z) (g : Logger) : bool := lv <=? lvl g.
Definition setSink (g : Logger) : Logger := g <| sink_fn_ := true |>.
Definition clearSink (g : Logger) : Logger := g <| sink_fn_ := false |>.

(** [line]: what [vsnprintf] formats, before its buffer cuts it. *)
Definition emit (sev : Z) (tag line : list Z) (ts : Z) (g : Logger) : list SinkCall * Logger :=
  if lvl g =? NONE then ([], g)
  else
    let msg := take (Z.to_nat (MSG_BYTES - 1)) line in
    let cut := (lenZ line >? MSG_BYTES - 1) && negb (truncWarned_ g) in
    let g := if cut then g <| truncWarned_ := true |> else g in
    let out := if cut && sink_fn_ g then [TruncWarn tag (lenZ line)] else [] in
    let out := out ++ if sink_fn_ g then [LineOut sev tag msg] else [] in
    let '(dropped, r) := tryPush RING_N sev tag msg ts (espRing_ g) in
    let g := g <| espRing_ := r |> in
    if dropped then
      let warnNow := negb (espDropWarned_ g) in
      (out ++ (if warnNow && sink_fn_ g then [OverflowWarn] else []),
       g <| droppedLines_ ::= (fun n => u64 (n + 1)) |> <| espDropWarned_ := true |>)
    else (out, g <| espDropWarned_ := false |>).

(** [error], [warning], [info], [debug], [verbose]. *)
Definition log_at (lv sev : Z) (tag line : list Z) (ts : Z) (g : Logger) : list SinkCall * Logger :=
  if lvl g <? lv then ([], g) else emit sev tag line ts g.
Definition error := log_at ERROR 69.
Definition warning := log_at WARNING 87.
Definition info := log_at INFO 73.
Definition debug := log_at DEBUG 68.
Definition verbose := log_at VERBOSE 86.

(** One round of the drain loop. *)
Definition drain_one (g : Logger) : option Entry * Logger :=
  let '(e, r) := tryPop RING_N (espRing_ g) in (e, g <| espRing_ := r |>).

(** [for (;;)] until the ring is empty; [k] rounds at most. *)
Fixpoint drain_loop (k : nat) (g : Logger) : option (list Entry * Logger) :=
  match k with
  | O => None
  | S k =>
      match drain_one g with
      | (None, g) => Some ([], g)
      | (Some e, g) =>
          match drain_loop k g with
          | Some (es, g) => Some (e :: es, g)
          | None => None
          end
      end
  end.
Definition drainPending (g : Logger) : option (list Entry * Logger) :=
  drain_loop (Z.to_nat RING_N) g.

Definition pendingCount (g : Logger) : Z := ring_size RING_N (espRing_ g).
Definition clearDroppedLines (g : Logger) : Logger := g <| droppedLines_ := 0 |>.
Definition clearPending (g : Logger) : option Logger := option_map snd (drainPending g).

(** ** Nothing is lost unaccounted *)

Lemma RING_N_big : 1 < RING_N.
Proof. done. Qed.

Definition log_ok (g : Logger) : Prop := ring_ok RING_N (espRing_ g).
Definition pending (g : Logger) : list Entry := queue RING_N (espRing_ g).

(** The entry a line becomes. *)
Definition entry_of (sev : Z) (tag line : list Z) (ts : Z) : Entry :=
  mkEntry sev (copy_str TAG_BYTES tag)
    (copy_str MSG_BYTES (take (Z.to_nat (MSG_BYTES - 1)) line)) ts.

Lemma emit_ok s t line ts g : log_ok g -> lvl g <> NONE ->
  let g' := snd (emit s t line ts g) in
  let full := lenZ (pending g) =? QUEUE_CAP in
  log_ok g' /\ lvl g' = lvl g /\
  pending g' = (if full then drop 1 (pending g) else pending g) ++ [entry_of s t line ts] /\
  droppedLines_ g' = if full then u64 (droppedLines_ g + 1) else droppedLines_ g.
Proof.
  intros Hok Hl. unfold emit. destruct (Z.eqb_spec (lvl g) NONE); [done|]. cbv zeta.
  set (cut := (_ >? _) && _).
  assert (Hr : forall b : bool, espRing_ (if b then g <| truncWarned_ := true |> else g) = espRing_ g) by (by intros []).
  assert (Hd : forall b : bool, droppedLines_ (if b then g <| truncWarned_ := true |> else g) = droppedLines_ g) by (by intros []).
  assert (Hv : forall b : bool, lvl (if b then g <| truncWarned_ := true |> else g) = lvl g) by (by intros []).
  rewrite Hr.
  pose proof (tryPush_ok RING_N RING_N_big s t (take (Z.to_nat (MSG_BYTES - 1)) line) ts (espRing_ g) Hok) as Hp.
  destruct (tryPush _ _ _ _ _ _) as [dropped r]. cbv beta iota zeta in Hp.
  destruct Hp as (Hok' & Hdr & Hq). change (RING_N - 1) with QUEUE_CAP in Hdr.
  fold (pending g) in Hdr, Hq. rewrite <- Hdr.
  destruct dropped; cbn [snd]; split_and!; try exact Hok'; try exact Hq; cbn; by rewrite ?Hd, ?Hv.
Qed.

Lemma drain_one_ok g : log_ok g ->
  let '(e, g') := drain_one g in
  log_ok g' /\ e = head (pending g) /\ pending g' = drop 1 (pending g) /\
  droppedLines_ g' = droppedLines_ g /\ lvl g' = lvl g.
Proof.
  intros Hok. unfold drain_one. pose proof (tryPop_ok RING_N RING_N_big (espRing_ g) Hok) as Hp.
  destruct (tryPop _ _) as [e r]. cbv beta iota in Hp. destruct Hp as (? & ? & ?). by split_and!.
Qed.

Lemma drain_loop_ok k : forall g, log_ok g -> (length (pending g) < k)%nat ->
  exists g', drain_loop k g = Some (pending g, g') /\ log_ok g' /\ pending g' = [] /\
             droppedLines_ g' = droppedLines_ g.
Proof.
  induction k as [|k IH]; intros g Hok Hk; [lia|]. cbn [drain_loop].
  pose proof (drain_one_ok g Hok) as Hd. destruct (drain_one g) as [e g1]. cbv beta iota in Hd.
  destruct Hd as (Hok1 & -> & Hp & Hdr & _). destruct (pending g) as [|x q] eqn:Eq; cbn [head].
  - exists g1. by split_and!.
  - cbn in Hp. rewrite drop_0 in Hp. destruct (IH g1 Hok1) as (g' & E & ? & ? & ?); [rewrite Hp; cbn in Hk; lia|].
    exists g'. rewrite E, Hp. split_and!; try done. congruence.
Qed.

(** The drain empties the ring within its bound. *)
Lemma drainPending_ok g : log_ok g ->
  exists g', drainPending g = Some (pending g, g') /\ log_ok g' /\ pending g' = [] /\
             droppedLines_ g' = droppedLines_ g.
Proof.
  intros Hok. apply drain_loop_ok; [done|]. pose proof (queue_len RING_N RING_N_big (espRing_ g)) as Hq.
  pose proof (ring_size_range RING_N RING_N_big (espRing_ g)). unfold pending, lenZ in *. lia.
Qed.

(** *** A run of the logger *)

Inductive LogOp := LEmit (lv sev : Z) (tag line : list Z) (ts : Z) | LDrain.

(** The lines that pass the level, and the entries drained. *)
Fixpoint log_run (ops : list LogOp) (g : Logger) : option (list Entry * list Entry * Logger) :=
  match ops with
  | [] => Some ([], [], g)
  | LEmit lv s t line ts :: ops =>
      match log_run ops (snd (log_at lv s t line ts g)) with
      | Some (es, ds, g') => Some ((if wouldEmit lv g then [entry_of s t line ts] else []) ++ es, ds, g')
      | None => None
      end
  | LDrain :: ops =>
      match drainPending g with
      | Some (d, g1) =>
          match log_run ops g1 with
          | Some (es, ds, g') => Some (es, d ++ ds, g')
          | None => None
          end
      | None => None
      end
  end.

Definition lv_ok (o : LogOp) : Prop := match o with LEmit lv _ _ _ _ => 0 < lv | LDrain => True end.

Lemma log_at_ok lv s t line ts g : 0 < lv -> log_ok g -> 0 <= droppedLines_ g < 2 ^ 64 - 1 ->
  let g' := snd (log_at lv s t line ts g) in
  exists lost, log_ok g' /\
    pending g ++ (if wouldEmit lv g then [entry_of s t line ts] else []) = lost ++ pending g' /\
    lenZ lost <= 1 /\ droppedLines_ g' = droppedLines_ g + lenZ lost.
Proof.
  intros Hlv Hok Hd g'. unfold g', log_at, wouldEmit. destruct (Z.ltb_spec (lvl g) lv).
  - exists []. replace (lv <=? lvl g) with false by lia. rewrite app_nil_r, lenZ_nil. cbn [snd].
    split_and!; done || lia.
  - replace (lv <=? lvl g) with true by lia.
    destruct (emit_ok s t line ts g Hok) as (Hok' & _ & Hp & Hdr); [unfold NONE; lia|].
    rewrite Hp, Hdr. destruct (Z.eqb_spec (lenZ (pending g)) QUEUE_CAP) as [E|E].
    + destruct (pending g) as [|x q] eqn:Eq; [done|]. exists [x]. cbn [drop]. rewrite drop_0.
      change (lenZ [x]) with 1. split_and!; try done.
      unfold u64. rewrite Z.mod_small; lia.
    + exists []. rewrite lenZ_nil. split_and!; done || lia.
Qed.

(** C31: No line is lost unaccounted: over any run of emitted lines and drains,
    what was drained followed by what is still queued is the sequence of lines
    that passed the level with exactly [droppedLines_] of them missing, none
    repeated or reordered; the drain always ends. *)
Theorem log_conservation ops g : log_ok g -> Forall lv_ok ops -> 0 <= droppedLines_ g ->
  droppedLines_ g + lenZ ops < 2 ^ 64 ->
  exists es ds g', log_run ops g = Some (es, ds, g') /\ log_ok g' /\
    sublist (ds ++ pending g') (pending g ++ es) /\
    lenZ (pending g) + lenZ es =
      lenZ ds + lenZ (pending g') + (droppedLines_ g' - droppedLines_ g).
Proof.
  intros Hok Ho. revert g Hok. induction Ho as [|o ops Ho _ IH]; intros g Hok Hd Hb.
  { exists [], [], g. rewrite app_nil_r, lenZ_nil. split_and!; try done. lia. }
  rewrite lenZ_cons in Hb. pose proof (lenZ_nonneg ops).
  destruct o as [lv s t line ts|]; cbn [log_run].
  - destruct (log_at_ok lv s t line ts g Ho Hok) as (lost & Hok1 & Hq & Hl & Hd1); [lia|].
    pose proof (lenZ_nonneg lost).
    destruct (IH (snd (log_at lv s t line ts g)) Hok1) as (es & ds & g' & -> & Hok' & Hs & Hn); [lia|lia|].
    eexists _, _, _. split; [reflexivity|]. split; [done|].
    rewrite app_assoc, Hq, <- app_assoc. split; [by apply sublist_inserts_l|].
    apply (f_equal lenZ) in Hq. rewrite !lenZ_app in *. lia.
  - destruct (drainPending_ok g Hok) as (g1 & -> & Hok1 & Hp1 & Hd1).
    destruct (IH g1 Hok1) as (es & ds & g' & -> & Hok' & Hs & Hn); [lia|lia|].
    eexists _, _, _. split; [reflexivity|]. split; [done|]. rewrite Hp1 in *. cbn [app] in Hs.
    rewrite <- app_assoc. split; [by apply (sublist_app (pending g) (pending g))|]. rewrite lenZ_app. rewrite lenZ_nil in Hn. lia.
Qed.

Definition demo_line (k : nat) : LogOp := LEmit INFO 73 [65] [Z.of_nat k + 1] 0.

Lemma logger_init_ok : log_ok logger_init.
Proof. apply (ring_init_ok RING_N RING_N_big). Qed.

(** 130 lines, a drain, one more line: two are lost and counted. *)
Definition demo_lines : list LogOp := map demo_line (seq 0 130) ++ [LDrain; demo_line 200].

Lemma log_conservation_witness :
  droppedLines_ (setLevel INFO logger_init) = 0 /\
  exists es ds g', log_run demo_lines (setLevel INFO logger_init) = Some (es, ds, g') /\ log_ok g' /\
    sublist (ds ++ pending g') (pending (setLevel INFO logger_init) ++ es) /\
    lenZ (pending (setLevel INFO logger_init)) + lenZ es =
      lenZ ds + lenZ (pending g') + (droppedLines_ g' - droppedLines_ (setLevel INFO logger_init)).
Proof.
  split; [reflexivity|]. apply log_conservation; [apply logger_init_ok| |done|vm_compute; reflexivity].
  unfold demo_lines. apply Forall_app. split; [|by repeat constructor].
  apply Forall_map, Forall_forall. by intros k _.
Defined.

Example demo_lines_run :
  match log_run demo_lines (setLevel INFO logger_init) with
  | Some (es, ds, g) => (lenZ es, lenZ ds, lenZ (pending g), droppedLines_ g) = (131, 128, 1, 2)
  | None => False
  end.
Proof. vm_compute. reflexivity. Qed.

(** ** The host build

    Off the device the lines wait in a deque for [drainPending] to write them. *)

Record HostLogger := mkHost {
  hlvl : Z;
  pending_ : list (list Z);
  dropWarned_ : bool;
  hdroppedLines_ : Z;
  atexitRegistered : bool;
}.
#[export] Instance eta_HostLogger : Eta HostLogger := fun r =>
  mkHost (hlvl r) (pending_ r) (dropWarned_ r) (hdroppedLines_ r) (atexitRegistered r).

(** ["%c [%s] %s"]. *)
Definition host_line (sev : Z) (tag msg : list Z) : list Z := [sev; 32; 91] ++ cstr tag ++ [93; 32] ++ cstr msg.

(** The second part of [emit]; the boolean tells whether the overflow warning
    goes to [stderr]. *)
Definition host_emit (sev : Z) (tag msg : list Z) (g : HostLogger) : bool * HostLogger :=
  let line := host_line sev tag msg in
  let '(warn, g) :=
    if (lenZ line >? 0) && (lenZ line <? 448) then
      let '(warn, g) :=
        if lenZ (pending_ g) >=? QUEUE_CAP then
          let g := g <| pending_ := drop 1 (pending_ g) |> <| hdroppedLines_ ::= (fun n => u64 (n + 1)) |> in
          if negb (dropWarned_ g) then (true, g <| dropWarned_ := true |>) else (false, g)
        else (false, g) in
      (warn, g <| pending_ := pending_ g ++ [line] |> <| dropWarned_ := false |>)
    else (false, g) in
  (warn, if negb (atexitRegistered g) then g <| atexitRegistered := true |> else g).

Definition host_drain (g : HostLogger) : list (list Z) * HostLogger := (pending_ g, g <| pending_ := [] |>).

(** The latch is cleared by the very line that set it: every line dropped by the
    host queue prints its own warning. *)
Lemma host_warns_every_drop sev tag msg g :
  dropWarned_ g = false -> lenZ (host_line sev tag msg) < 448 ->
  let '(warn, g') := host_emit sev tag msg g in
  warn = (QUEUE_CAP <=? lenZ (pending_ g)) /\ dropWarned_ g' = false.
Proof.
  intros Hw Hl. unfold host_emit. cbv zeta.
  replace ((lenZ (host_line sev tag msg) >? 0) && (lenZ (host_line sev tag msg) <? 448)) with true.
  2: { replace (lenZ (host_line sev tag msg) >? 0) with true; [lia|]. symmetry. apply Z.ltb_lt.
       unfold host_line. cbn [app]. rewrite lenZ_cons. pose proof (lenZ_nonneg (32 :: 91 :: cstr tag ++ 93 :: 32 :: cstr msg)). lia. }
  destruct (QUEUE_CAP <=? lenZ (pending_ g)); cbn; rewrite ?Hw; cbn; by destruct (atexitRegistered g).
Qed.
End Log.
