(* ===== verification/Blink.v ===== *)
(** * The LED blinker ([src/al/util/blink/UtilBlink.h])

    [UtilBlink] drives a pin from a one-shot timer: each [tick] toggles it and
    arms the next one while blinks are left. Its calls on [IBlinkHal] are the
    commands a method emits. *)
From S2P Require Import Prelude.

Module Blink.

Inductive BlinkCmd := WritePin (on : bool) | StartOnce (ms : Z) | Cancel | DelayMs (ms : Z) | Yield.

Record UtilBlink := mkBlink { left : Z; on : bool; onMs : Z; offMs : Z }.
#[export] Instance eta_UtilBlink : Eta UtilBlink := fun r => mkBlink (left r) (on r) (onMs r) (offMs r).

Definition blink_init : UtilBlink := mkBlink 0 false 60 60.

Definition cancel (b : UtilBlink) : list BlinkCmd * UtilBlink :=
  ([Cancel; WritePin false], b <| left := 0 |> <| on := false |>).

Definition tick (b : UtilBlink) : list BlinkCmd * UtilBlink :=
  if on b then
    (WritePin false :: (if left b >? 0 then [StartOnce (u32 (offMs b))] else []), b <| on := false |>)
  else if left b >? 0 then
    ([WritePin true; StartOnce (u32 (onMs b))], b <| left ::= (fun n => n - 1) |> <| on := true |>)
  else ([], b).

Definition start (n onTimeMs offTimeMs : Z) (b : UtilBlink) : list BlinkCmd * UtilBlink :=
  if n <=? 0 then ([], b)
  else
    let '(c1, b) := cancel b in
    let '(c2, b) := tick (b <| onMs := onTimeMs |> <| offMs := offTimeMs |> <| left := n |>) in
    (c1 ++ c2, b).

(** [for (i = 0; i < n; i++)] with [k] rounds left. *)
Fixpoint flash_loop (k : nat) (onTimeMs offTimeMs : Z) : list BlinkCmd :=
  match k with
  | O => []
  | S k =>
      [WritePin true; DelayMs (u32 onTimeMs); WritePin false] ++
      (match k with O => [] | _ => [DelayMs (u32 offTimeMs)] end) ++ flash_loop k onTimeMs offTimeMs
  end.

Definition flashBlocking (n onTimeMs offTimeMs delayMs : Z) (b : UtilBlink) : list BlinkCmd * UtilBlink :=
  let '(c, b) := cancel b in
  (c ++ [Yield] ++ flash_loop (Z.to_nat n) onTimeMs offTimeMs ++
     (if delayMs >? 0 then [DelayMs (u32 delayMs)] else []), b).

Definition active (b : UtilBlink) : bool := (left b >? 0) || on b.

(** ** The timer calls back *)

(** What the commands leave: the pin and whether the one-shot timer is armed. *)
Definition apply_cmd (s : bool * option Z) (c : BlinkCmd) : bool * option Z :=
  match c with
  | WritePin p => (p, snd s)
  | StartOnce ms => (fst s, Some ms)
  | Cancel => (fst s, None)
  | DelayMs _ | Yield => s
  end.
Definition apply_cmds (s : bool * option Z) (l : list BlinkCmd) : bool * option Z := fold_left apply_cmd l s.

(** The milliseconds the pin was high, for each pulse, while the timer runs out
    [k] times: it fires only when armed. *)
Fixpoint run_timer (k : nat) (b : UtilBlink) (s : bool * option Z) : list Z * UtilBlink * (bool * option Z) :=
  match k, snd s with
  | S k, Some ms =>
      let '(c, b') := tick b in
      let '(r, b'', s') := run_timer k b' (apply_cmds (fst s, None) c) in
      ((if fst s then [ms] else []) ++ r, b'', s')
  | _, _ => ([], b, s)
  end.

Lemma tick_on n onT offT :
  tick (mkBlink n true onT offT) =
    (WritePin false :: (if n >? 0 then [StartOnce (u32 offT)] else []), mkBlink n false onT offT).
Proof. reflexivity. Qed.

Lemma tick_off n onT offT : 0 < n ->
  tick (mkBlink n false onT offT) =
    ([WritePin true; StartOnce (u32 onT)], mkBlink (n - 1) true onT offT).
Proof. intros ?. unfold tick. cbn [on left]. by replace (n >? 0) with true by lia. Qed.

Lemma run_timer_idle k b p : run_timer k b (p, None) = ([], b, (p, None)).
Proof. by destruct k. Qed.

(** With [m] blinks left after the one that is on. *)
Lemma run_timer_on m : forall k onT offT,
  (2 * m + 1 <= k)%nat ->
  run_timer k (mkBlink (Z.of_nat m) true onT offT) (true, Some (u32 onT)) =
    (replicate (S m) (u32 onT), mkBlink 0 false onT offT, (false, None)).
Proof.
  induction m as [|m IH]; intros k onT offT Hk; (destruct k as [|k]; [lia|]);
    cbn [run_timer snd fst]; rewrite tick_on.
  - change (Z.of_nat 0 >? 0) with false. cbn [apply_cmds fold_left apply_cmd fst snd]. by rewrite run_timer_idle.
  - assert ((Z.of_nat (S m) >? 0) = true) as -> by (apply Z.ltb_lt; lia). destruct k as [|k]; [lia|].
    cbn [apply_cmds fold_left apply_cmd fst snd run_timer]. rewrite tick_off by lia.
    cbn [apply_cmds fold_left apply_cmd fst snd].
    replace (Z.of_nat (S m) - 1) with (Z.of_nat m) by lia. by rewrite IH by lia.
Qed.

(** C32: the blinker runs to its end: after [start n on off] with [n > 0], whatever
    was blinking and whatever was armed before, the timer's callbacks (2n - 1 of
    them suffice) switch the pin on exactly [n] times for [on] ms each, and leave
    it off, no blink left and no timer armed. *)
Theorem blinks_complete n onT offT b s k :
  0 < n -> (Z.to_nat (2 * n - 1) <= k)%nat ->
  let '(c, b1) := start n onT offT b in
  let '(pulses, b2, s2) := run_timer k b1 (apply_cmds s c) in
  active b1 = true /\
  pulses = replicate (Z.to_nat n) (u32 onT) /\ active b2 = false /\ s2 = (false, None).
Proof.
  intros Hn Hk. unfold start. replace (n <=? 0) with false by lia.
  destruct b as [l o onM offM]. unfold cancel.
  change (_ <| onMs := onT |> <| offMs := offT |> <| left := n |>) with (mkBlink n false onT offT).
  rewrite tick_off by done. cbn [app apply_cmds fold_left apply_cmd fst snd].
  replace (n - 1) with (Z.of_nat (Z.to_nat (n - 1))) by lia.
  rewrite run_timer_on by lia. split_and!; try done.
  - unfold active. cbn [left on]. apply orb_true_r.
  - f_equal. lia.
Qed.

Lemma blinks_complete_witness :
  let '(c, b1) := start 3 60 40 (mkBlink 2 true 10 10) in
  let '(pulses, b2, s2) := run_timer 5 b1 (apply_cmds (true, Some 10) c) in
  active b1 = true /\
  pulses = replicate (Z.to_nat 3) (u32 60) /\ active b2 = false /\ s2 = (false, None).
Proof. apply (blinks_complete 3 60 40 (mkBlink 2 true 10 10) (true, Some 10) 5); [lia | vm_compute; lia]. Defined.

(** [flashBlocking] holds the pin [n] times for [on] ms and delays in between. *)
Example flash_two : fst (flashBlocking 2 60 40 100 blink_init) =
  [Cancel; WritePin false; Yield; WritePin true; DelayMs 60; WritePin false; DelayMs 40;
   WritePin true; DelayMs 60; WritePin false; DelayMs 100].
Proof. reflexivity. Qed.
End Blink.
