(* ===== verification/OtaCore.v ===== *)
(** * Over-the-air update: names and archive ([src/al/web/OtaCore.h], [OtaCore.cpp])

    The dashboard is updated from a zip of stored entries fed in whatever pieces
    the socket gives. [OtaZipStream] parses it with no buffer but the header's.
    The main results: how the bytes are cut into pieces never matters
    ([feeds_app]), an archive is delivered file by file ([zip_roundtrip]), and an
    entry's path cannot leave the dashboard's directory ([entry_name_safe]). *)
From S2P Require Import Prelude.

Module OtaCore.

Definition OTA_HEAP_RESERVE : Z := 16384.

Definition otaInactiveSlot (running count : Z) : Z :=
  if (count <? 2) || (running <? 0) || (running >=? count) then -1
  else (running + 1) mod count.

Definition otaRecvChunkBytes (freeHeap reserve : Z) : Z :=
  if freeHeap =? 0 then 4096
  else
    let avail := if freeHeap >? reserve then freeHeap - reserve else 0 in
    let n := avail / 4 in
    let n := if n <? 1024 then 1024 else n in
    if n >? 8192 then 8192 else n.

Definition kNameMax : Z := 96.

(** ** Entry names *)

Definition slash : Z := 47.
Definition dot : Z := 46.
Definition backslash : Z := 92.
Definition kPrefix : list Z := [47; 119; 101; 98; 47].

(** [strstr(name, "..")] *)
Fixpoint has_dotdot (s : list Z) : bool :=
  match s with
  | [] => false
  | c :: r => ((c =? dot) && match r with d :: _ => d =? dot | [] => false end) || has_dotdot r
  end.
(** [strchr(name, c)] *)
Definition has_char (c : Z) (s : list Z) : bool := existsb (Z.eqb c) s.

(** [name]: [None] for a null pointer; [out]: whether it points to a buffer.
    The path written there, when accepted. *)
Definition otaSafeEntryName (name : option (list Z)) (out : bool) (outLen : Z) : option (list Z) :=
  match name with
  | Some name =>
      if negb out then None
      else
        let name := cstr name in
        let n := lenZ name in
        if (n =? 0) || (n >? kNameMax) then None
        else if (rd 0 name 0 =? slash) || (rd 0 name (n - 1) =? slash) then None
        else if has_dotdot name || has_char backslash name then None
        else if outLen <? lenZ kPrefix + n + 1 then None
        else Some (kPrefix ++ name)
  | None => None
  end.

(** ** The archive *)

Definition rd16 (p : list Z) : Z := u16 (Z.lor (rd 0 p 0) (Z.shiftl (rd 0 p 1) 8)).
Definition rd32 (p : list Z) : Z :=
  u32 (Z.lor (Z.lor (Z.lor (rd 0 p 0) (Z.shiftl (rd 0 p 1) 8)) (Z.shiftl (rd 0 p 2) 16))
         (Z.shiftl (rd 0 p 3) 24)).
(** [hdr_ + i] *)
Definition at_ (hdr : list Z) (i : Z) : list Z := drop (Z.to_nat i) hdr.

Inductive St := SIG | HDR | NAME | EXTRA | DATA | SKIP | DONE | ERR.
#[export] Instance St_dec : EqDecision St.
Proof. solve_decision. Defined.

Inductive ZipErr :=
  BadSignature | Compressed | DataDescriptor | NameTooLong | EntryEndAbort | DataAbort.

Record OtaZipStream := mkZip {
  st_ : St; err_ : option ZipErr;
  hdr_ : list Z; name_ : list Z;
  need_ : Z; got_ : Z; dataLeft_ : Z; nameLen_ : Z; extraLen_ : Z;
  deliver_ : bool;
}.
#[export] Instance eta_Zip : Eta OtaZipStream := fun r =>
  mkZip (st_ r) (err_ r) (hdr_ r) (name_ r) (need_ r) (got_ r) (dataLeft_ r) (nameLen_ r)
    (extraLen_ r) (deliver_ r).

Definition zip_init : OtaZipStream :=
  mkZip SIG None (replicate 26 0) (replicate 97 0) 0 0 0 0 0 false.

Definition done (z : OtaZipStream) : bool := bool_decide (st_ z = DONE).

(** The callbacks, over what they share: each may be null. *)
Record OtaZipCbs (S : Type) := mkCbs {
  entry : option (list Z -> Z -> S -> bool * S);
  data : option (list Z -> S -> bool * S);
  entryEnd : option (S -> bool * S);
}.
#[global] Arguments mkCbs {S}. #[global] Arguments entry {S}.
#[global] Arguments data {S}. #[global] Arguments entryEnd {S}.

(** [while (got_ < lim && n > 0) buf[got_++] = *b++, n--;] *)
Fixpoint fill (lim : Z) (b buf : list Z) (got : Z) : list Z * Z * list Z :=
  match b with
  | [] => (buf, got, [])
  | x :: r => if got <? lim then fill lim r (wr buf got x) (got + 1) else (buf, got, b)
  end.

(** A round of the loop goes on, with what is left of the piece, or returns. *)
Inductive Round (S : Type) :=
  | Go (z : OtaZipStream) (b : list Z) (s : S)
  | Stop (r : bool) (z : OtaZipStream) (s : S).
#[global] Arguments Go {S}. #[global] Arguments Stop {S}.

Ltac zip_cbn :=
  cbn [rset st_ err_ hdr_ name_ need_ got_ dataLeft_ nameLen_ extraLen_ deliver_] in *.

Section Stream.
Context {S : Type} (cb_ : OtaZipCbs S).
Implicit Types (z : OtaZipStream) (b : list Z) (s : S).

Definition fail (e : ZipErr) z s : Round S := Stop false (z <| st_ := ERR |> <| err_ := Some e |>) s.

Definition sig_round z b s : Round S :=
  let '(h, g, b) := fill 4 b (hdr_ z) (got_ z) in
  let z := z <| hdr_ := h |> <| got_ := g |> in
  if g <? 4 then Stop true z s
  else
    let sig := rd32 h in
    if (sig =? 0x02014b50) || (sig =? 0x06054b50) then Stop true (z <| st_ := DONE |>) s
    else if sig <>? 0x04034b50 then fail BadSignature z s
    else Go (z <| st_ := HDR |> <| got_ := 0 |> <| need_ := 26 |>) b s.

Definition hdr_round z b s : Round S :=
  let '(h, g, b) := fill (need_ z) b (hdr_ z) (got_ z) in
  let z := z <| hdr_ := h |> <| got_ := g |> in
  if g <? need_ z then Stop true z s
  else
    let flags := rd16 (at_ h 2) in
    let method := rd16 (at_ h 4) in
    let z := z <| dataLeft_ := rd32 (at_ h 14) |> <| nameLen_ := rd16 (at_ h 22) |>
               <| extraLen_ := rd16 (at_ h 24) |> in
    if method <>? 0 then fail Compressed z s
    else if Z.land flags 8 <>? 0 then fail DataDescriptor z s
    else if (nameLen_ z =? 0) || (nameLen_ z >? kNameMax) then fail NameTooLong z s
    else Go (z <| st_ := NAME |> <| got_ := 0 |>) b s.

Definition name_round z b s : Round S :=
  let '(m, g, b) := fill (nameLen_ z) b (name_ z) (got_ z) in
  let z := z <| name_ := m |> <| got_ := g |> in
  if g <? nameLen_ z then Stop true z s
  else Go (z <| name_ := wr m (nameLen_ z) 0 |> <| st_ := EXTRA |> <| got_ := 0 |>) b s.

Definition extra_round z b s : Round S :=
  let skip := extraLen_ z - got_ z in
  let skip := if skip >? lenZ b then lenZ b else skip in
  let z := z <| got_ := got_ z + skip |> in
  let b := drop (Z.to_nat skip) b in
  if got_ z <? extraLen_ z then Stop true z s
  else
    let sz := rd32 (at_ (hdr_ z) 18) in
    let '(ok, s) := match entry cb_ with Some f => f (cstr (name_ z)) sz s | None => (false, s) end in
    Go (z <| deliver_ := ok |> <| st_ := if ok then DATA else SKIP |> <| got_ := 0 |>) b s.

(** [case DATA: case SKIP:] *)
Definition data_round z b s : Round S :=
  let is_data := bool_decide (st_ z = DATA) in
  if dataLeft_ z =? 0 then
    let '(ok, s) :=
      match entryEnd cb_ with Some f => if is_data then f s else (true, s) | None => (true, s) end in
    if negb ok then fail EntryEndAbort z s
    else Go (z <| st_ := SIG |> <| got_ := 0 |>) b s
  else
    let n := if dataLeft_ z >? lenZ b then lenZ b else dataLeft_ z in
    if n =? 0 then Stop true z s
    else
      let '(ok, s) :=
        match data cb_ with
        | Some f => if is_data then f (take (Z.to_nat n) b) s else (true, s)
        | None => (true, s)
        end in
      if negb ok then fail DataAbort z s
      else Go (z <| dataLeft_ := u32 (dataLeft_ z - n) |>) (drop (Z.to_nat n) b) s.

Definition zip_round z b s : Round S :=
  match st_ z with
  | SIG => sig_round z b s
  | HDR => hdr_round z b s
  | NAME => name_round z b s
  | EXTRA => extra_round z b s
  | DATA | SKIP => data_round z b s
  | DONE => Stop true z s
  | ERR => Stop false z s
  end.

(** [n > 0 || (st_ == DATA && dataLeft_ == 0)] *)
Definition more z b : bool := (lenZ b >? 0) || (bool_decide (st_ z = DATA) && (dataLeft_ z =? 0)).

Fixpoint feed_loop (k : nat) z b s : option (bool * OtaZipStream * S) :=
  if more z b then
    match k with
    | O => None
    | Datatypes.S k =>
        match zip_round z b s with
        | Go z b s => feed_loop k z b s
        | Stop r z s => Some (r, z, s)
        end
    end
  else Some (true, z, s).

(** Every third round at least takes a byte. *)
Definition feed z b s : option (bool * OtaZipStream * S) :=
  if bool_decide (st_ z = ERR) then Some (false, z, s)
  else feed_loop (3 * length b + 3) z b s.

(** The pieces of an upload, until one is refused. *)
Fixpoint feed_all (ps : list (list Z)) z s : option (bool * OtaZipStream * S) :=
  match ps with
  | [] => Some (true, z, s)
  | p :: ps =>
      match feed z p s with
      | Some (true, z, s) => feed_all ps z s
      | r => r
      end
  end.

(** ** The parser's state *)

Definition zip_ok z : Prop :=
  lenZ (hdr_ z) = 26 /\ lenZ (name_ z) = 97 /\ 0 <= got_ z /\ is_u32 (dataLeft_ z) /\
  match st_ z with
  | SIG => got_ z < 4
  | HDR => need_ z = 26 /\ got_ z < 26
  | NAME => 1 <= nameLen_ z <= kNameMax /\ got_ z < nameLen_ z /\ 0 <= extraLen_ z
  | EXTRA => got_ z <= extraLen_ z
  | _ => True
  end.

(** What bounds the rounds left. *)
Definition rank z : Z := match st_ z with EXTRA => 2 | DATA | SKIP => 1 | _ => 0 end.
Definition mu z b : Z := 3 * lenZ b + rank z.

Lemma fill_len lim b : forall buf got,
  let '(buf', got', b') := fill lim b buf got in
  lenZ buf' = lenZ buf /\ got' - got = lenZ b - lenZ b' /\ 0 <= got' - got /\
  (got' < lim -> b' = []) /\ (got <= lim -> got' <= lim) /\ (0 < lenZ b -> got < lim -> got < got').
Proof.
  induction b as [|x b IH]; intros buf got; cbn [fill]; [rewrite (lenZ_nil (A:=Z)); split_and!; done || lia|].
  destruct (Z.ltb_spec got lim) as [Hl|Hl].
  - specialize (IH (wr buf got x) (got + 1)). destruct (fill _ _ _ _) as [[buf' got'] b'].
    destruct IH as (H1 & H2 & H3 & H4 & H5 & _). rewrite lenZ_wr in H1. rewrite lenZ_cons.
    split_and!; done || lia.
  - split_and!; done || lia.
Qed.

Lemma rd16_range p : is_u16 (rd16 p).
Proof. apply u16_range. Qed.
Lemma rd32_range p : is_u32 (rd32 p).
Proof. apply u32_range. Qed.

(** A round takes bytes or steps towards a state that does. *)
Definition round_good z b (r : Round S) : Prop :=
  match r with
  | Go z' b' _ => zip_ok z' /\ mu z' b' < mu z b
  | Stop r z' _ => zip_ok z' /\ (r = true -> more z' [] = false)
  end.

Lemma sig_round_good z b s : zip_ok z -> st_ z = SIG -> more z b = true -> round_good z b (sig_round z b s).
Proof.
  intros (Hh & Hn & Hg & Hw & Hs) E Hm. rewrite E in Hs.
  assert (Hb : 0 < lenZ b).
  { unfold more in Hm. rewrite E in Hm. cbn in Hm. rewrite orb_false_r in Hm. lia. }
  unfold sig_round. pose proof (fill_len 4 b (hdr_ z) (got_ z)) as F.
  destruct (fill _ _ _ _) as [[h g] b']. destruct F as (F1 & F2 & F3 & F4 & F5 & F6).
  cbv zeta. zip_cbn. destruct (Z.ltb_spec g 4).
  - split; [unfold zip_ok; zip_cbn; rewrite E; split_and!; done || lia|unfold more; zip_cbn; by rewrite E].
  - repeat case_match; cbn [round_good fail]; unfold zip_ok, mu, rank; zip_cbn; rewrite ?E;
      (split; [split_and!; try done; lia | try done; try lia]).
Qed.

Lemma more_bytes z b : st_ z <> DATA -> more z b = true -> 0 < lenZ b.
Proof. unfold more. intros Hd. rewrite bool_decide_eq_false_2 by done. cbn. rewrite orb_false_r. lia. Qed.

Lemma hdr_round_good z b s : zip_ok z -> st_ z = HDR -> more z b = true -> round_good z b (hdr_round z b s).
Proof.
  intros (Hh & Hn & Hg & Hw & Hs) E Hm. rewrite E in Hs. destruct Hs as [Hd Hs].
  apply more_bytes in Hm; [|congruence].
  unfold hdr_round. pose proof (fill_len (need_ z) b (hdr_ z) (got_ z)) as F.
  destruct (fill _ _ _ _) as [[h g] b']. destruct F as (F1 & F2 & F3 & F4 & F5 & F6).
  cbv zeta. zip_cbn. destruct (Z.ltb_spec g (need_ z)).
  - split; [unfold zip_ok; zip_cbn; rewrite E; split_and!; done || lia|unfold more; zip_cbn; by rewrite E].
  - pose proof (rd32_range (at_ h 14)). pose proof (rd16_range (at_ h 22)) as Hnl. pose proof (rd16_range (at_ h 24)) as Hel. unfold is_u16 in *.
    repeat case_match; cbn [round_good fail]; unfold zip_ok, mu, rank; zip_cbn; rewrite ?E;
      (split; [split_and!; try done; lia | try done; try lia]).
Qed.

Lemma name_round_good z b s : zip_ok z -> st_ z = NAME -> more z b = true -> round_good z b (name_round z b s).
Proof.
  intros (Hh & Hn & Hg & Hw & Hs) E Hm. rewrite E in Hs. destruct Hs as (Hd & Hs & He).
  apply more_bytes in Hm; [|congruence].
  unfold name_round. pose proof (fill_len (nameLen_ z) b (name_ z) (got_ z)) as F.
  destruct (fill _ _ _ _) as [[h g] b']. destruct F as (F1 & F2 & F3 & F4 & F5 & F6).
  cbv zeta. zip_cbn. destruct (Z.ltb_spec g (nameLen_ z)).
  - split; [unfold zip_ok; zip_cbn; rewrite E; split_and!; done || lia|unfold more; zip_cbn; by rewrite E].
  - cbn [round_good]. unfold zip_ok, mu, rank; zip_cbn; rewrite ?E, ?lenZ_wr.
    split; [split_and!; try done; lia | lia].
Qed.

Lemma lenZ_drop {A} n (l : list A) : 0 <= n <= lenZ l -> lenZ (drop (Z.to_nat n) l) = lenZ l - n.
Proof. unfold lenZ. intros. rewrite length_drop. lia. Qed.

Lemma extra_round_good z b s : zip_ok z -> st_ z = EXTRA -> more z b = true -> round_good z b (extra_round z b s).
Proof.
  intros (Hh & Hn & Hg & Hw & Hs) E Hm. rewrite E in Hs. pose proof (lenZ_nonneg b).
  unfold extra_round. rewrite clamp_hi. cbv zeta. zip_cbn.
  set (k := Z.min _ _). assert (Hk : 0 <= k <= lenZ b /\ k <= extraLen_ z - got_ z) by lia.
  destruct (Z.ltb_spec (got_ z + k) (extraLen_ z)).
  - split; [unfold zip_ok; zip_cbn; rewrite E; split_and!; done || lia|unfold more; zip_cbn; by rewrite E].
  - destruct (match entry cb_ with Some _ => _ | None => _ end) as [ok s']. cbn [round_good].
    pose proof (lenZ_drop k b). unfold zip_ok, mu, rank; zip_cbn; rewrite E.
    destruct ok; (split; [by split_and!|lia]).
Qed.

Lemma data_round_good z b s :
  zip_ok z -> st_ z = DATA \/ st_ z = SKIP -> more z b = true -> round_good z b (data_round z b s).
Proof.
  intros (Hh & Hn & Hg & Hw & _) E Hm. pose proof (lenZ_nonneg b).
  assert (Hr : rank z = 1) by (unfold rank; by destruct E as [-> | ->]).
  assert (He : match st_ z with DATA | SKIP => True | _ => False end) by (by destruct E as [-> | ->]).
  unfold data_round. destruct (Z.eqb_spec (dataLeft_ z) 0) as [E0|E0].
  - destruct (match entryEnd cb_ with Some _ => _ | None => _ end) as [ok s'].
    destruct ok; cbn [negb round_good fail]; unfold zip_ok, mu; rewrite ?Hr; unfold rank; zip_cbn;
      split; try done; try lia; by split_and!.
  - rewrite clamp_hi. cbv zeta.
    assert (Hb : 0 < lenZ b).
    { unfold more in Hm. replace (dataLeft_ z =? 0) with false in Hm by lia. rewrite andb_false_r in Hm. lia. }
    unfold is_u32 in Hw. set (n := Z.min _ _). assert (Hn' : 0 < n <= lenZ b /\ n <= dataLeft_ z) by lia.
    replace (n =? 0) with false by lia.
    destruct (match data cb_ with Some _ => _ | None => _ end) as [ok s'].
    pose proof (lenZ_drop n b). pose proof (u32_range (dataLeft_ z - n)).
    destruct ok; cbn [negb round_good fail]; unfold zip_ok, mu; rewrite ?Hr; unfold rank; zip_cbn.
    + split; [split_and!; try done; by destruct (st_ z)|]. destruct (st_ z); try done; lia.
    + by split_and!.
Qed.

Lemma zip_round_good z b s : zip_ok z -> st_ z <> ERR -> more z b = true -> round_good z b (zip_round z b s).
Proof.
  intros Hok He Hm. unfold zip_round. destruct (st_ z) eqn:E; try done.
  - by apply sig_round_good.
  - by apply hdr_round_good.
  - by apply name_round_good.
  - by apply extra_round_good.
  - apply data_round_good; auto.
  - apply data_round_good; auto.
  - split; [done|]. intros _. unfold more. by rewrite E.
Qed.

(** ** The loop as a relation

    [feeds z b s R]: the loop, started on [z] with the piece [b], ends with [R]. *)
Inductive feeds : OtaZipStream -> list Z -> S -> bool * OtaZipStream * S -> Prop :=
  | feeds_end z b s : more z b = false -> feeds z b s (true, z, s)
  | feeds_go z b s z' b' s' R :
      more z b = true -> zip_round z b s = Go z' b' s' -> feeds z' b' s' R -> feeds z b s R
  | feeds_stop z b s r z' s' :
      more z b = true -> zip_round z b s = Stop r z' s' -> feeds z b s (r, z', s').

Lemma feed_loop_feeds k : forall z b s R, feed_loop k z b s = Some R -> feeds z b s R.
Proof.
  induction k as [|k IH]; intros z b s R; cbn [feed_loop]; destruct (more z b) eqn:E; intros H; try done.
  - injection H as <-. by constructor.
  - destruct (zip_round z b s) as [z' b' s'|r z' s'] eqn:Er.
    + econstructor; eauto.
    + injection H as <-. by eapply feeds_stop.
  - injection H as <-. by constructor.
Qed.

Lemma feeds_det z b s R : feeds z b s R -> forall R', feeds z b s R' -> R = R'.
Proof.
  induction 1 as [z b s E|z b s z' b' s' R E Er _ IH|z b s r z' s' E Er];
    intros R' H; inversion H; subst; try congruence.
  apply IH. congruence.
Qed.

(** Go takes a state that can still run to one that can. *)
Lemma round_go_live z b s z' b' s' : zip_round z b s = Go z' b' s' -> st_ z' <> ERR /\ st_ z' <> DONE.
Proof.
  unfold zip_round, sig_round, hdr_round, name_round, extra_round, data_round, fail.
  intros H. repeat case_match; simplify_eq; zip_cbn; try done;
    repeat match goal with H : context [st_ ?x] |- _ => destruct (st_ x) end; done.
Qed.

Lemma feed_loop_total k : forall z b s, zip_ok z -> st_ z <> ERR -> mu z b < Z.of_nat k ->
  exists R, feed_loop k z b s = Some R /\ zip_ok (snd (fst R)).
Proof.
  induction k as [|k IH]; intros z b s Hok He Hk.
  - pose proof (lenZ_nonneg b). unfold mu, rank in Hk. destruct (st_ z); lia.
  - cbn [feed_loop]. destruct (more z b) eqn:Em; [|by eexists].
    pose proof (zip_round_good z b s Hok He Em) as Hg.
    destruct (zip_round z b s) as [z' b' s'|r z' s'] eqn:Er; [|by destruct Hg; eexists].
    destruct Hg as [Hok' Hmu]. apply round_go_live in Er as [? _]. apply IH; [done|done|lia].
Qed.

(** [feed] always returns, and the parser stays well formed. *)
Lemma feed_total z b s : zip_ok z -> exists R, feed z b s = Some R /\ zip_ok (snd (fst R)).
Proof.
  intros Hok. unfold feed. case_bool_decide as E; [by eexists|].
  apply feed_loop_total; [done|done|]. unfold mu, rank, lenZ. destruct (st_ z); lia.
Qed.

Lemma feed_spec z b s R : zip_ok z -> st_ z <> ERR -> (feed z b s = Some R <-> feeds z b s R).
Proof.
  intros Hok He. unfold feed. rewrite bool_decide_eq_false_2 by done. split; [apply feed_loop_feeds|].
  intros H. destruct (feed_loop_total (3 * length b + 3) z b s Hok He) as (R' & E & _).
  { unfold mu, rank, lenZ. destruct (st_ z); lia. }
  rewrite E. f_equal. eapply feeds_det; [by eapply feed_loop_feeds|done].
Qed.

(** [ends z b s P]: it ends, with a result in [P]. *)
Definition ends z b s (P : bool * OtaZipStream * S -> Prop) : Prop := exists R, feeds z b s R /\ P R.

Lemma ends_go z b s z' b' s' P :
  more z b = true -> zip_round z b s = Go z' b' s' -> ends z' b' s' P -> ends z b s P.
Proof. intros Hm Er (R & H & ?). exists R. split; [by eapply feeds_go|done]. Qed.

Lemma ends_stop z b s r z' s' (P : _ -> Prop) :
  more z b = true -> zip_round z b s = Stop r z' s' -> P (r, z', s') -> ends z b s P.
Proof. intros Hm Er ?. eexists. split; [by eapply feeds_stop|done]. Qed.

(** ** Pieces

    A sink for which a block may be handed over in two parts. *)
Definition cb_splits : Prop :=
  match data cb_ with
  | Some f => forall x y s, f (x ++ y) s = let '(ok, s1) := f x s in if ok then f y s1 else (false, s1)
  | None => True
  end.

Lemma fill_app lim b1 b2 : forall buf got,
  fill lim (b1 ++ b2) buf got =
    let '(buf1, g1, r1) := fill lim b1 buf got in
    if g1 <? lim then fill lim b2 buf1 g1 else (buf1, g1, r1 ++ b2).
Proof.
  induction b1 as [|x b1 IH]; intros buf got; cbn [fill app].
  - destruct b2 as [|y b2]; cbn [fill]; by destruct (got <? lim).
  - destruct (got <? lim) eqn:E; [apply IH|]. by rewrite E.
Qed.

(** A refused upload leaves the parser in [ERR] with the reason; its other
    members are not read again. *)
Definition same_err z z' : Prop := st_ z = ERR /\ st_ z' = ERR /\ err_ z = err_ z'.
Inductive same_round : Round S -> Round S -> Prop :=
  | same_refl r : same_round r r
  | same_stop z z' s : same_err z z' -> same_round (Stop false z s) (Stop false z' s).
Inductive same_end : bool * OtaZipStream * S -> bool * OtaZipStream * S -> Prop :=
  | end_refl R : same_end R R
  | end_err z z' s : same_err z z' -> same_end (false, z, s) (false, z', s).

(** What a round on [b] says about the round on [b ++ c]. *)
Definition splits z b c s (r : Round S) : Prop :=
  match r with
  | Go z' b' s' =>
      zip_round z (b ++ c) s = Go z' (b' ++ c) s' \/
      (more z' b' = false /\ same_round (zip_round z (b ++ c) s) (zip_round z' c s'))
  | Stop true z' s' => zip_round z (b ++ c) s = zip_round z' c s'
  | Stop false z' s' => zip_round z (b ++ c) s = Stop false z' s'
  end.

Lemma sig_split z b c s : st_ z = SIG -> splits z b c s (sig_round z b s).
Proof.
  intros E. pose proof (fill_app 4 b c (hdr_ z) (got_ z)) as F. unfold sig_round at 1.
  destruct (fill 4 b _ _) as [[h g] b'] eqn:Ef. cbv zeta. zip_cbn. destruct (g <? 4) eqn:Hl.
  - cbn [splits]. unfold zip_round. zip_cbn. rewrite E. unfold sig_round. rewrite F. zip_cbn.
    by destruct (fill 4 c h g) as [[? ?] ?].
  - assert (Er : zip_round z (b ++ c) s = sig_round z (b ++ c) s) by (unfold zip_round; by rewrite E).
    unfold sig_round in Er. rewrite F in Er. zip_cbn. rewrite Hl in Er.
    destruct ((rd32 h =? 0x02014b50) || (rd32 h =? 0x06054b50)).
    + cbn [splits]. by rewrite Er.
    + destruct (rd32 h <>? 0x04034b50); cbn [splits fail]; [done|by left].
Qed.

Lemma hdr_split z b c s : st_ z = HDR -> splits z b c s (hdr_round z b s).
Proof.
  intros E. pose proof (fill_app (need_ z) b c (hdr_ z) (got_ z)) as F. unfold hdr_round at 1.
  destruct (fill _ b _ _) as [[h g] b'] eqn:Ef. cbv zeta. zip_cbn. destruct (g <? need_ z) eqn:Hl.
  - cbn [splits]. unfold zip_round. zip_cbn. rewrite E. unfold hdr_round. rewrite F. zip_cbn.
    by destruct (fill (need_ z) c h g) as [[? ?] ?].
  - assert (Er : zip_round z (b ++ c) s = hdr_round z (b ++ c) s) by (unfold zip_round; by rewrite E).
    unfold hdr_round in Er. rewrite F in Er. zip_cbn. rewrite Hl in Er.
    repeat case_match; cbn [splits]; first [done | by left].
Qed.

Lemma name_split z b c s : st_ z = NAME -> splits z b c s (name_round z b s).
Proof.
  intros E. pose proof (fill_app (nameLen_ z) b c (name_ z) (got_ z)) as F. unfold name_round at 1.
  destruct (fill _ b _ _) as [[h g] b'] eqn:Ef. cbv zeta. zip_cbn. destruct (g <? nameLen_ z) eqn:Hl.
  - cbn [splits]. unfold zip_round. zip_cbn. rewrite E. unfold name_round. rewrite F. zip_cbn.
    by destruct (fill (nameLen_ z) c h g) as [[? ?] ?].
  - assert (Er : zip_round z (b ++ c) s = name_round z (b ++ c) s) by (unfold zip_round; by rewrite E).
    unfold name_round in Er. rewrite F in Er. zip_cbn. rewrite Hl in Er. by left.
Qed.

Lemma extra_split z b c s : zip_ok z -> st_ z = EXTRA -> splits z b c s (extra_round z b s).
Proof.
  intros (_ & _ & Hg & _ & Hs) E. rewrite E in Hs. pose proof (lenZ_nonneg b). pose proof (lenZ_nonneg c).
  assert (Er : zip_round z (b ++ c) s = extra_round z (b ++ c) s) by (unfold zip_round; by rewrite E).
  unfold extra_round in *. rewrite !clamp_hi, lenZ_app in *. cbv zeta in *. zip_cbn.
  destruct (Z.ltb_spec (got_ z + Z.min (extraLen_ z - got_ z) (lenZ b)) (extraLen_ z)) as [Hl|Hl].
  - cbn [splits]. rewrite Er. unfold zip_round. zip_cbn. rewrite E. unfold extra_round. rewrite clamp_hi.
    cbv zeta. zip_cbn. rewrite (Z.min_r _ (lenZ b)) by lia.
    replace (extraLen_ z - (got_ z + lenZ b)) with (extraLen_ z - got_ z - lenZ b) by lia.
    replace (Z.min (extraLen_ z - got_ z) (lenZ b + lenZ c)) with
      (lenZ b + Z.min (extraLen_ z - got_ z - lenZ b) (lenZ c)) by lia.
    rewrite Z.add_assoc. rewrite drop_app_ge by (unfold lenZ in *; lia).
    replace (Z.to_nat (lenZ b + Z.min (extraLen_ z - got_ z - lenZ b) (lenZ c)) - length b)%nat
      with (Z.to_nat (Z.min (extraLen_ z - got_ z - lenZ b) (lenZ c))) by (unfold lenZ in *; lia).
    reflexivity.
  - assert (Hle : extraLen_ z - got_ z <= lenZ b) by lia. clear Hl. rewrite Z.min_l by lia. rewrite Z.min_l in Er by lia.
    rewrite drop_app_le in Er by (unfold lenZ in *; lia).
    replace (got_ z + (extraLen_ z - got_ z) <? extraLen_ z) with false in Er by lia.
    destruct (match entry cb_ with Some _ => _ | None => _ end) as [ok s']. by left.
Qed.

(** What [case DATA: case SKIP:] does with a block. *)
Definition put (is_data : bool) (x : list Z) s : bool * S :=
  match data cb_ with Some f => if is_data then f x s else (true, s) | None => (true, s) end.

Lemma put_app d x y s : cb_splits ->
  put d (x ++ y) s = let '(ok, s1) := put d x s in if ok then put d y s1 else (false, s1).
Proof. unfold cb_splits, put. destruct (data cb_); [|done]. destruct d; [|done]. intros ->. done. Qed.

Lemma data_round_put z b s : st_ z = DATA \/ st_ z = SKIP -> dataLeft_ z <> 0 -> 0 < lenZ b -> 0 <= dataLeft_ z ->
  zip_round z b s =
    let n := Z.min (dataLeft_ z) (lenZ b) in
    let '(ok, s') := put (bool_decide (st_ z = DATA)) (take (Z.to_nat n) b) s in
    if negb ok then fail DataAbort z s'
    else Go (z <| dataLeft_ := u32 (dataLeft_ z - n) |>) (drop (Z.to_nat n) b) s'.
Proof.
  intros Hst H0 Hb Hd. unfold zip_round.
  transitivity (data_round z b s); [by destruct Hst as [-> | ->]|].
  unfold data_round. replace (dataLeft_ z =? 0) with false by lia. rewrite clamp_hi. cbv zeta.
  by replace (Z.min (dataLeft_ z) (lenZ b) =? 0) with false by lia.
Qed.

Lemma data_split z b c s : cb_splits -> zip_ok z -> 0 < lenZ c -> more z b = true ->
  st_ z = DATA \/ st_ z = SKIP -> splits z b c s (data_round z b s).
Proof.
  intros Hc (_ & _ & _ & Hw & _) Hlc Hm Hst. pose proof (lenZ_nonneg b).
  assert (Er0 : forall b, zip_round z b s = data_round z b s) by (intros ?; unfold zip_round; by destruct Hst as [-> | ->]).
  destruct (Z.eqb_spec (dataLeft_ z) 0) as [E0|E0].
  - pose proof (Er0 (b ++ c)) as Er. unfold data_round in Er |- *.
    replace (dataLeft_ z =? 0) with true in * by lia.
    destruct (match entryEnd cb_ with Some _ => _ | None => _ end) as [ok s'].
    destruct ok; cbn [negb splits fail] in *; first [done | by left].
  - unfold is_u32 in Hw.
    assert (Hb : 0 < lenZ b).
    { unfold more in Hm. replace (dataLeft_ z =? 0) with false in Hm by lia. rewrite andb_false_r in Hm. lia. }
    rewrite <- Er0.
    pose proof (data_round_put z (b ++ c) s Hst E0) as Er. rewrite lenZ_app in Er.
    specialize (Er ltac:(lia) ltac:(lia)). rewrite data_round_put by (done || lia). cbv zeta in *.
    destruct (Z.leb_spec (dataLeft_ z) (lenZ b)) as [Hd|Hd].
    + rewrite Z.min_l in Er |- * by lia. rewrite take_app_le, drop_app_le in Er by (unfold lenZ in *; lia).
      destruct (put _ _ _) as [ok s'].
      destruct ok; cbn [negb splits fail] in *; first [done | by left].
    + set (n := Z.min (dataLeft_ z - lenZ b) (lenZ c)). assert (Hn : 0 < n) by lia.
      replace (Z.min (dataLeft_ z) (lenZ b + lenZ c)) with (lenZ b + n) in Er by lia.
      rewrite Z.min_r by lia. rewrite take_ge, drop_ge by (unfold lenZ; lia).
      rewrite take_app_ge, drop_app_ge in Er by (unfold lenZ in *; lia).
      replace (Z.to_nat (lenZ b + n) - length b)%nat with (Z.to_nat n) in Er by (unfold lenZ in *; lia).
      rewrite put_app in Er by done. destruct (put _ b s) as [ok s']. destruct ok; cbn [negb splits fail] in *; [right|done].
      assert (Hu : u32 (dataLeft_ z - lenZ b) = dataLeft_ z - lenZ b) by (apply u32_small; unfold is_u32; lia).
      rewrite Hu. split.
      * unfold more. zip_cbn. replace (dataLeft_ z - lenZ b =? 0) with false by lia. by rewrite andb_false_r.
      * rewrite Er, data_round_put; zip_cbn; [|done|lia|lia|lia]. cbv zeta. fold n.
        replace (dataLeft_ z - (lenZ b + n)) with (dataLeft_ z - lenZ b - n) by lia.
        destruct (put _ _ _) as [[] ?]; by constructor.
Qed.

Lemma zip_round_split z b c s : cb_splits -> zip_ok z -> 0 < lenZ c -> st_ z <> ERR -> more z b = true ->
  splits z b c s (zip_round z b s).
Proof.
  intros Hc Hok Hl He Hm. unfold zip_round. destruct (st_ z) eqn:E; try done.
  - by apply sig_split.
  - by apply hdr_split.
  - by apply name_split.
  - by apply extra_split.
  - apply data_split; auto.
  - apply data_split; auto.
  - cbn [splits]. unfold zip_round. by rewrite E.
Qed.

Lemma more_app z b c : more z b = true -> more z (b ++ c) = true.
Proof. unfold more. rewrite lenZ_app. pose proof (lenZ_nonneg c). intros [?|E]%orb_true_iff; [|by rewrite E, orb_true_r]. apply orb_true_iff. left. lia. Qed.

Lemma more_pos z b : 0 < lenZ b -> more z b = true.
Proof. intros. unfold more. apply orb_true_iff. left. lia. Qed.

(** A round that is the same apart from its error does the same to the rest. *)
Lemma feeds_same z b s z' b' s' R :
  more z b = true -> more z' b' = true -> same_round (zip_round z b s) (zip_round z' b' s') ->
  feeds z' b' s' R -> exists R', feeds z b s R' /\ same_end R' R.
Proof.
  intros Hm Hm' Hs H. inversion H as [? ? ? E|? ? ? z1 b1 s1 ? E Er H1|? ? ? r z1 s1 E Er]; subst; [congruence|..];
    rewrite Er in Hs; inversion Hs as [r0 E1|z0 ? s0 ? E1 E2]; subst.
  - exists R. split; [|constructor]. by eapply feeds_go.
  - exists (r, z1, s1). split; [|constructor]. by eapply feeds_stop.
  - exists (false, z0, s1). split; [by eapply feeds_stop|by constructor].
Qed.

Lemma feeds_more z b s z1 s1 : zip_ok z -> st_ z <> ERR -> feeds z b s (true, z1, s1) -> more z1 [] = false.
Proof.
  intros Hok He H. remember (true, z1, s1) as R eqn:ER. revert Hok He z1 s1 ER.
  induction H as [z b s E|z b s z' b' s' R E Er _ IH|z b s r z' s' E Er]; intros Hok He z1 s1 ER; simplify_eq.
  - unfold more in *. apply orb_false_iff in E as [_ ->]. done.
  - pose proof (zip_round_good z b s Hok He E) as Hg. rewrite Er in Hg.
    apply round_go_live in Er as [? _]. by eapply IH; [apply Hg|..].
  - pose proof (zip_round_good z b s Hok He E) as Hg. rewrite Er in Hg. by apply Hg.
Qed.

(** A piece and what follows it are parsed as their concatenation is. *)
Lemma feeds_app z b s r z1 s1 c R : cb_splits -> zip_ok z -> st_ z <> ERR ->
  feeds z b s (r, z1, s1) ->
  (if r then feeds z1 c s1 R else R = (false, z1, s1)) ->
  exists R', feeds z (b ++ c) s R' /\ same_end R' R.
Proof.
  intros Hc Hok He H. destruct (Z.eqb_spec (lenZ c) 0) as [Ec|Ec].
  { destruct c; [|rewrite lenZ_cons in Ec; pose proof (lenZ_nonneg c); lia]. rewrite app_nil_r.
    intros HR. exists R. split; [|constructor]. destruct r; [|by subst].
    pose proof (feeds_more _ _ _ _ _ Hok He H) as Hm.
    inversion HR; subst; [done|congruence|congruence]. }
  assert (Hl : 0 < lenZ c) by (pose proof (lenZ_nonneg c); lia). clear Ec.
  remember (r, z1, s1) as R1 eqn:ER. revert Hok He r z1 s1 ER.
  induction H as [z b s E|z b s z' b' s' R1 E Er H1 IH|z b s r0 z' s' E Er];
    intros Hok He r z1 s1 ER HR; simplify_eq.
  - unfold more in E. apply orb_false_iff in E as [Eb _].
    assert (b = []) as -> by (destruct b; [done|rewrite lenZ_cons in Eb; pose proof (lenZ_nonneg b); lia]).
    exists R. split; [done|constructor].
  - pose proof (zip_round_split z b c s Hc Hok Hl He E) as Hs.
    pose proof (zip_round_good z b s Hok He E) as Hg. rewrite Er in Hs, Hg. destruct Hg as [Hok' _].
    pose proof (round_go_live _ _ _ _ _ _ Er) as [He' _].
    destruct Hs as [Hs|[Hm Hs]].
    + destruct (IH Hok' He' _ _ _ eq_refl HR) as (R' & Hf & ?). exists R'. split; [|done].
      eapply feeds_go; [by apply more_app|done|done].
    + inversion H1; subst; try congruence.
      eapply feeds_same; [by apply more_app|by apply more_pos|exact Hs|exact HR].
  - pose proof (zip_round_split z b c s Hc Hok Hl He E) as Hs. rewrite Er in Hs. destruct r.
    + eapply feeds_same; [by apply more_app|by apply (more_pos z1 c)|rewrite Hs; constructor|exact HR].
    + subst R. eexists. split; [eapply feeds_stop; [by apply more_app|exact Hs]|constructor].
Qed.
Lemma feeds_live z b s z1 s1 : st_ z <> ERR -> feeds z b s (true, z1, s1) -> st_ z1 <> ERR.
Proof.
  intros He H. remember (true, z1, s1) as R eqn:ER. revert He z1 s1 ER.
  induction H as [z b s E|z b s z' b' s' R E Er _ IH|z b s r z' s' E Er]; intros He z1 s1 ER; simplify_eq; [done|..].
  - apply round_go_live in Er as [? _]. by eapply IH.
  - unfold zip_round, sig_round, hdr_round, name_round, extra_round, data_round, fail in Er.
    destruct (st_ z) eqn:Ez; try done; repeat case_match; simplify_eq; zip_cbn; congruence.
Qed.

Lemma same_end_trans R R' R'' : same_end R R' -> same_end R' R'' -> same_end R R''.
Proof.
  intros H H'. inversion H as [|? ? ? (? & ? & ?)]; subst; [done|].
  inversion H' as [|? ? ? (? & ? & ?)]; subst; [done|]. constructor. unfold same_err. by split_and!; congruence || etrans.
Qed.

Lemma same_end_sym R R' : same_end R R' -> same_end R' R.
Proof. intros [|? ? ? (? & ? & ?)]; constructor. by split_and!. Qed.

(** Between two pieces. *)
Definition zip_idle z : Prop := zip_ok z /\ st_ z <> ERR /\ more z [] = false.

Lemma feed_all_feeds ps : forall z s, cb_splits -> zip_idle z ->
  exists R R', feed_all ps z s = Some R /\ feeds z (concat ps) s R' /\ same_end R' R.
Proof.
  induction ps as [|p ps IH]; intros z s Hc (Hok & He & Hm).
  { eexists _, _. split; [done|]. split; [by constructor|constructor]. }
  cbn [feed_all concat]. destruct (feed_total z p s Hok) as ([[r z1] s1] & Ef & Hok1). rewrite Ef.
  apply feed_spec in Ef; [|done|done]. destruct r.
  - pose proof (feeds_more _ _ _ _ _ Hok He Ef) as Hm1. pose proof (feeds_live _ _ _ _ _ He Ef) as He1.
    destruct (IH z1 s1 Hc) as (R & R' & -> & Hf & Hs); [done|].
    destruct (feeds_app z p s true z1 s1 (concat ps) R' Hc Hok He Ef Hf) as (R2 & Hf2 & Hs2).
    exists R, R2. split; [done|]. split; [done|by eapply same_end_trans].
  - destruct (feeds_app z p s false z1 s1 (concat ps) _ Hc Hok He Ef eq_refl) as (R2 & Hf2 & Hs2).
    eexists _, _. by split_and!.
Qed.
(** What the callbacks keep of the sink, a feed keeps. *)
Definition cb_keeps (P : S -> Prop) : Prop :=
  (forall e name sz s, entry cb_ = Some e -> P s -> P (snd (e name sz s))) /\
  (forall d x s, data cb_ = Some d -> P s -> P (snd (d x s))) /\
  (forall e s, entryEnd cb_ = Some e -> P s -> P (snd (e s))).

Lemma round_keeps P z b s : cb_keeps P -> P s ->
  match zip_round z b s with Go _ _ s' => P s' | Stop _ _ s' => P s' end.
Proof.
  intros (He & Hd & Hf) HP.
  unfold zip_round, sig_round, hdr_round, name_round, extra_round, data_round, fail.
  repeat case_match; simplify_eq; try done;
    match goal with
    | H : ?e ?n ?z ?s = _ |- _ => pose proof (He e n z s eq_refl HP) as X; rewrite H in X; exact X
    | H : ?e ?x ?s = _ |- _ => pose proof (Hd e x s eq_refl HP) as X; rewrite H in X; exact X
    | H : ?e ?s = _ |- _ => pose proof (Hf e s eq_refl HP) as X; rewrite H in X; exact X
    end.
Qed.

Lemma feeds_keeps P z b s R : cb_keeps P -> feeds z b s R -> P s -> P (snd R).
Proof.
  intros Hk H. induction H as [z b s E|z b s z' b' s' R E Er _ IH|z b s r z' s' E Er]; intros HP; [done|..];
    pose proof (round_keeps P z b s Hk HP) as Hr; rewrite Er in Hr; auto.
Qed.

Lemma zip_feed_keeps P z b s R : cb_keeps P -> feed z b s = Some R -> P s -> P (snd R).
Proof.
  unfold feed. case_bool_decide; [by intros _ [= <-]|]. intros Hk Hf%feed_loop_feeds. by eapply feeds_keeps.
Qed.
End Stream.

(** ** Archives of stored entries *)

Definition le16 (x : Z) : list Z := [u8 x; u8 (Z.shiftr x 8)].
Definition le32 (x : Z) : list Z := [u8 x; u8 (Z.shiftr x 8); u8 (Z.shiftr x 16); u8 (Z.shiftr x 24)].

Lemma rd16_le16 x r : is_u16 x -> rd16 (le16 x ++ r) = x.
Proof.
  unfold is_u16, rd16, le16, rd. intros H. simpl nth.
  rewrite lor_shiftl by (change (2 ^ 8) with 256; mlia). rewrite Z.shiftr_div_pow2 by lia.
  change (2 ^ 8) with 256. mlia.
Qed.

Lemma rd32_le32 x r : is_u32 x -> rd32 (le32 x ++ r) = x.
Proof.
  unfold is_u32, rd32, le32, rd. intros H. simpl nth.
  pose proof (u8_byte x). pose proof (u8_byte (Z.shiftr x 8)). pose proof (u8_byte (Z.shiftr x 16)).
  unfold is_byte in *.
  rewrite (lor_shiftl (u8 x) _ 8), (lor_shiftl _ _ 16), (lor_shiftl _ _ 24) by lia.
  rewrite !Z.shiftr_div_pow2 by lia. change (2 ^ 8) with 256. change (2 ^ 16) with 65536. change (2 ^ 24) with 16777216.
  mlia.
Qed.

Record ZFile := mkZFile {
  fversion : list Z; fflags : Z; fmeta : list Z; fusize : Z;
  fname : list Z; fextra : list Z; fdata : list Z;
}.

(** The 26 bytes after the signature: [fmeta] holds time, date and CRC. *)
Definition local_header (f : ZFile) : list Z :=
  fversion f ++ le16 (fflags f) ++ le16 0 ++ fmeta f ++ le32 (lenZ (fdata f)) ++ le32 (fusize f) ++
  le16 (lenZ (fname f)) ++ le16 (lenZ (fextra f)).
Definition zip_entry (f : ZFile) : list Z :=
  [80; 75; 3; 4] ++ local_header f ++ fname f ++ fextra f ++ fdata f.
(** The central directory: only its signature is read. *)
Definition zip_image (fs : list ZFile) (directory : list Z) : list Z :=
  concat (map zip_entry fs) ++ [80; 75; 1; 2] ++ directory.

Definition file_ok (f : ZFile) : Prop :=
  lenZ (fversion f) = 2 /\ is_u16 (fflags f) /\ Z.land (fflags f) 8 = 0 /\ lenZ (fmeta f) = 8 /\
  is_u32 (fusize f) /\ 1 <= lenZ (fname f) <= kNameMax /\ ~ In 0 (fname f) /\
  is_u16 (lenZ (fextra f)) /\ is_u32 (lenZ (fdata f)).

(** *** One entry, round by round *)

Lemma fill_exact lim p : forall x pre old post, lenZ old = lenZ p -> lenZ pre + lenZ p = lim ->
  fill lim (p ++ x) (pre ++ old ++ post) (lenZ pre) = (pre ++ p ++ post, lim, x).
Proof.
  induction p as [|y p IH]; intros x pre old post Ho Hl.
  - destruct old; [|rewrite lenZ_cons, lenZ_nil in Ho; pose proof (lenZ_nonneg old); lia].
    rewrite lenZ_nil in Hl. cbn [app]. assert (lenZ pre = lim) as -> by lia.
    destruct x as [|x0 x]; cbn [fill]; [done|]. by rewrite Z.ltb_irrefl.
  - destruct old as [|o old]; [rewrite lenZ_cons, lenZ_nil in Ho; pose proof (lenZ_nonneg p); lia|].
    rewrite !lenZ_cons in *. pose proof (lenZ_nonneg p). cbn [fill app].
    replace (lenZ pre <? lim) with true by lia. rewrite wr_middle by done.
    change (pre ++ y :: old ++ post) with (pre ++ [y] ++ old ++ post). rewrite app_assoc.
    replace (lenZ pre + 1) with (lenZ (pre ++ [y])) by (by rewrite lenZ_app).
    rewrite IH by (rewrite ?lenZ_app, ?lenZ_cons, ?lenZ_nil; lia). by rewrite <- app_assoc.
Qed.

Lemma fill_from_0 p x buf : lenZ p <= lenZ buf ->
  exists post, lenZ post = lenZ buf - lenZ p /\ fill (lenZ p) (p ++ x) buf 0 = (p ++ post, lenZ p, x).
Proof.
  intros Hl. pose proof (lenZ_nonneg p). destruct (split_at buf (lenZ p)) as (old & post & -> & Ho); [lia|].
  exists post. rewrite lenZ_app. split; [lia|]. by apply (fill_exact (lenZ p) p x [] old post).
Qed.

Lemma at_skip p x i : lenZ p <= i -> at_ (p ++ x) i = at_ x (i - lenZ p).
Proof.
  intros. pose proof (lenZ_nonneg p). unfold at_. rewrite drop_app_ge by (unfold lenZ in *; lia).
  f_equal. unfold lenZ in *. lia.
Qed.

Section Entry.
Context {S : Type} (cb_ : OtaZipCbs S).
Implicit Types (z : OtaZipStream) (s : S) (f : ZFile).

(** Ready for a signature. *)
Definition at_sig z : Prop := st_ z = SIG /\ got_ z = 0 /\ zip_ok z.

Lemma sig_feeds z x s P : at_sig z -> 
  (forall z', st_ z' = HDR -> got_ z' = 0 -> zip_ok z' -> ends cb_ z' x s P) ->
  ends cb_ z ([80; 75; 3; 4] ++ x) s P.
Proof.
  intros (Es & Eg & Hok) HR. pose proof Hok as (Hh & Hn & _ & Hw & _).
  destruct (fill_from_0 [80; 75; 3; 4] x (hdr_ z)) as (post & Hp & Ef); [rewrite Hh; done|].
  change (lenZ [80; 75; 3; 4]) with 4 in *.
  eapply ends_go; [by apply more_pos|unfold zip_round; rewrite Es; unfold sig_round; rewrite Eg, Ef; reflexivity|].
  apply HR; [done|done|]. unfold zip_ok. zip_cbn. rewrite lenZ_app, Hp, Hh. by split_and!.
Qed.

Lemma local_header_fields f : file_ok f ->
  let h := local_header f in
  lenZ h = 26 /\ rd16 (at_ h 2) = fflags f /\ rd16 (at_ h 4) = 0 /\ rd32 (at_ h 14) = lenZ (fdata f) /\
  rd32 (at_ h 18) = fusize f /\ rd16 (at_ h 22) = lenZ (fname f) /\ rd16 (at_ h 24) = lenZ (fextra f).
Proof.
  intros (Hv & Hf & _ & Hm & Hu & Hn & _ & He & Hd) h. unfold h, local_header.
  assert (H16 : forall x, lenZ (le16 x) = 2) by done. assert (H32 : forall x, lenZ (le32 x) = 4) by done.
  split; [rewrite !lenZ_app, !H16, !H32, Hv, Hm; done|].
  assert (Hn' : is_u16 (lenZ (fname f))) by (unfold is_u16, kNameMax in *; lia).
  split_and!; rewrite ?at_skip by (rewrite ?H16, ?H32, ?Hv, ?Hm; lia); rewrite ?H16, ?H32, ?Hv, ?Hm;
    cbn [Z.sub Z.add Z.opp Z.pos_sub Pos.pred_double]; unfold at_; cbn [Z.to_nat]; rewrite ?drop_0.
  - by apply rd16_le16.
  - by apply rd16_le16.
  - by apply rd32_le32.
  - by apply rd32_le32.
  - by apply rd16_le16.
  - rewrite <- (app_nil_r (le16 (lenZ (fextra f)))). by apply rd16_le16.
Qed.

Lemma hdr_feeds z f x s P : st_ z = HDR -> got_ z = 0 -> zip_ok z -> file_ok f ->
  (forall z', st_ z' = NAME -> got_ z' = 0 -> zip_ok z' -> dataLeft_ z' = lenZ (fdata f) ->
     nameLen_ z' = lenZ (fname f) -> extraLen_ z' = lenZ (fextra f) -> rd32 (at_ (hdr_ z') 18) = fusize f ->
     ends cb_ z' x s P) ->
  ends cb_ z (local_header f ++ x) s P.
Proof.
  intros Es Eg (Hh & Hn & _ & Hw & Hs) Hf HR. rewrite Es in Hs. destruct Hs as [Hneed _].
  destruct (local_header_fields f Hf) as (Hl & F2 & F4 & F14 & F18 & F22 & F24).
  destruct (fill_from_0 (local_header f) x (hdr_ z)) as (post & Hp & Ef); [lia|].
  assert (post = []) as -> by (destruct post; [done|rewrite lenZ_cons in Hp; pose proof (lenZ_nonneg post); lia]).
  rewrite app_nil_r, Hl in Ef. destruct Hf as (_ & _ & Hfl & _ & _ & Hfn & _ & Hfe & Hfd).
  assert (Er : exists z', zip_round cb_ z (local_header f ++ x) s = Go z' x s /\ st_ z' = NAME /\ got_ z' = 0 /\
    hdr_ z' = local_header f /\ name_ z' = name_ z /\
    dataLeft_ z' = lenZ (fdata f) /\ nameLen_ z' = lenZ (fname f) /\ extraLen_ z' = lenZ (fextra f)).
  { unfold zip_round. rewrite Es. unfold hdr_round. rewrite Eg, Hneed, Ef. cbv zeta. zip_cbn.
    rewrite Hneed, F2, F4, F14, F22, F24, Hfl. cbn [Z.ltb Z.compare Pos.compare Pos.compare_cont Z.eqb negb].
    unfold kNameMax in *. replace ((lenZ (fname f) =? 0) || (lenZ (fname f) >? 96)) with false by lia.
    eexists. split; [reflexivity|]. by zip_cbn. }
  destruct Er as (z' & Er & E1 & E2 & E3 & E4 & E5 & E6 & E7).
  eapply ends_go; [apply more_pos; rewrite lenZ_app; pose proof (lenZ_nonneg x); lia|exact Er|].
  apply HR; try done; [|by rewrite E3].
  unfold zip_ok. rewrite E1, E2, E3, E4, E5, E6, E7. unfold is_u16, is_u32 in *. split_and!; lia.
Qed.

Lemma name_feeds z f x s P : st_ z = NAME -> got_ z = 0 -> zip_ok z -> file_ok f ->
  nameLen_ z = lenZ (fname f) ->
  (forall z', st_ z' = EXTRA -> got_ z' = 0 -> zip_ok z' -> dataLeft_ z' = dataLeft_ z ->
     extraLen_ z' = extraLen_ z -> hdr_ z' = hdr_ z -> cstr (name_ z') = fname f -> ends cb_ z' x s P) ->
  ends cb_ z (fname f ++ x) s P.
Proof.
  intros Es Eg (Hh & Hn & _ & Hw & Hs) Hf En HR. rewrite Es in Hs. destruct Hs as (Hl & _ & He).
  unfold kNameMax in Hl. destruct (fill_from_0 (fname f) x (name_ z)) as (post & Hp & Ef); [lia|].
  destruct post as [|c post]; [rewrite lenZ_nil in Hp; lia|].
  eapply ends_go; [apply more_pos; rewrite lenZ_app; pose proof (lenZ_nonneg x); lia| |].
  { unfold zip_round. rewrite Es. unfold name_round. rewrite Eg, En, Ef. cbv zeta. zip_cbn.
    rewrite En, Z.ltb_irrefl, wr_middle by done. reflexivity. }
  apply HR; try done; unfold zip_ok; zip_cbn.
  - rewrite lenZ_app, lenZ_cons in *. split_and!; try done; lia.
  - destruct Hf as (_ & _ & _ & _ & _ & _ & H0 & _). clear -H0. induction (fname f) as [|y l IH]; [done|].
    cbn [app cstr]. destruct (Z.eqb_spec y 0) as [->|]; [by destruct H0; left|]. f_equal. apply IH. intros ?. apply H0. by right.
Qed.

(** What an entry is to the sink. *)
Definition finish s : bool * S := match entryEnd cb_ with Some e => e s | None => (true, s) end.
Definition deliver f s : bool * S :=
  let '(k, s) := match entry cb_ with Some e => e (fname f) (fusize f) s | None => (false, s) end in
  if k then
    let '(ok, s) := if lenZ (fdata f) =? 0 then (true, s) else put cb_ true (fdata f) s in
    if ok then finish s else (false, s)
  else (true, s).

Lemma data_end_feeds z x s s' P : st_ z = DATA -> dataLeft_ z = 0 -> zip_ok z -> finish s = (true, s') ->
  (forall z', at_sig z' -> ends cb_ z' x s' P) -> ends cb_ z x s P.
Proof.
  intros Es Ed (Hh & Hn & _ & Hw & _) Hfin HR.
  eapply ends_go; [unfold more; rewrite Es, Ed; apply orb_true_r| |].
  { unfold zip_round. rewrite Es. unfold data_round. rewrite Ed, Es. cbn [Z.eqb].
    rewrite bool_decide_eq_true_2 by done. fold (finish s). rewrite Hfin. reflexivity. }
  apply HR. unfold at_sig, zip_ok. zip_cbn. by split_and!.
Qed.

Lemma skip_end_feeds z x s P : st_ z = SKIP -> dataLeft_ z = 0 -> zip_ok z -> 0 < lenZ x ->
  (forall z', at_sig z' -> ends cb_ z' x s P) -> ends cb_ z x s P.
Proof.
  intros Es Ed (Hh & Hn & _ & Hw & _) Hx HR.
  eapply ends_go; [by apply more_pos| |].
  { unfold zip_round. rewrite Es. unfold data_round. rewrite Ed, Es. cbn [Z.eqb].
    rewrite bool_decide_eq_false_2 by done.
    transitivity (Go (z <| st_ := SIG |> <| got_ := 0 |>) x s); [by destruct (entryEnd cb_)|reflexivity]. }
  apply HR. unfold at_sig, zip_ok. zip_cbn. by split_and!.
Qed.

(** The whole block, when there is one. *)
Lemma block_feeds z p x s s' P : st_ z = DATA \/ st_ z = SKIP -> zip_ok z -> dataLeft_ z = lenZ p -> 0 < lenZ p ->
  put cb_ (bool_decide (st_ z = DATA)) p s = (true, s') ->
  (forall z', st_ z' = st_ z -> dataLeft_ z' = 0 -> zip_ok z' -> ends cb_ z' x s' P) ->
  ends cb_ z (p ++ x) s P.
Proof.
  intros Es Hok Ed Hp Hput HR. pose proof (lenZ_nonneg x). 
  assert (Hb : 0 < lenZ (p ++ x)) by (rewrite lenZ_app; lia).
  eapply ends_go; [by apply more_pos| |].
  { rewrite data_round_put by (done || lia). cbv zeta. rewrite lenZ_app, Ed, Z.min_l by lia.
    rewrite take_at, drop_at by done. rewrite Hput, Z.sub_diag. reflexivity. }
  apply HR; [done|done|]. destruct Hok as (? & ? & ? & ? & Hs). unfold zip_ok. zip_cbn. by split_and!.
Qed.

Lemma extra_feeds z f x s P : st_ z = EXTRA -> got_ z = 0 -> zip_ok z -> 0 < lenZ x ->
  extraLen_ z = lenZ (fextra f) -> cstr (name_ z) = fname f -> rd32 (at_ (hdr_ z) 18) = fusize f ->
  (let '(k, s') := match entry cb_ with Some e => e (fname f) (fusize f) s | None => (false, s) end in
   forall z', st_ z' = (if k then DATA else SKIP) -> zip_ok z' -> dataLeft_ z' = dataLeft_ z -> ends cb_ z' x s' P) ->
  ends cb_ z (fextra f ++ x) s P.
Proof.
  intros Es Eg (Hh & Hn & _ & Hw & _) Hx Ee En Eu HR. pose proof (lenZ_nonneg (fextra f)).
  destruct (match entry cb_ with Some _ => _ | None => _ end) as [k s'] eqn:Ec.
  assert (Er : exists z', zip_round cb_ z (fextra f ++ x) s = Go z' x s' /\ st_ z' = (if k then DATA else SKIP) /\
    got_ z' = 0 /\ hdr_ z' = hdr_ z /\ name_ z' = name_ z /\ dataLeft_ z' = dataLeft_ z).
  { unfold zip_round. rewrite Es. unfold extra_round. rewrite clamp_hi, Eg, Z.sub_0_r, Ee, lenZ_app, Z.min_l by lia.
    cbv zeta. zip_cbn. rewrite Ee, Z.add_0_l, Z.ltb_irrefl, drop_at, En, Eu, Ec by done.
    eexists. split; [reflexivity|]. by zip_cbn. }
  destruct Er as (z' & Er & E1 & E2 & E3 & E4 & E5).
  eapply ends_go; [apply more_pos; rewrite lenZ_app; lia|exact Er|]. apply HR; [done| |done].
  unfold zip_ok. rewrite E1, E2, E3, E4, E5. split_and!; try done. by destruct k.
Qed.

(** An entry, whatever bytes follow it. *)
Lemma entry_feeds z f rest s s' P : at_sig z -> file_ok f -> 0 < lenZ rest -> deliver f s = (true, s') ->
  (forall z', at_sig z' -> ends cb_ z' rest s' P) -> ends cb_ z (zip_entry f ++ rest) s P.
Proof.
  intros Hz Hf Hr Hd HR. unfold zip_entry. rewrite <- app_assoc.
  apply sig_feeds; [done|]. intros z1 E1 G1 O1. rewrite <- app_assoc.
  apply hdr_feeds; [done..|]. intros z2 E2 G2 O2 D2 N2 X2 U2. rewrite <- app_assoc.
  apply name_feeds; [done..|]. intros z3 E3 G3 O3 D3 X3 H3 N3. rewrite <- app_assoc.
  pose proof (lenZ_nonneg (fdata f)) as Hlf.
  apply extra_feeds; [done|done|done|rewrite lenZ_app; lia|congruence|done|congruence|].
  unfold deliver in Hd. destruct (match entry cb_ with Some _ => _ | None => _ end) as [k s1].
  intros z4 E4 O4 D4. assert (D : dataLeft_ z4 = lenZ (fdata f)) by congruence.
  destruct (Z.eqb_spec (lenZ (fdata f)) 0) as [E0|E0].
  - assert (fdata f = []) as -> by (destruct (fdata f); [done|rewrite lenZ_cons in *; pose proof (lenZ_nonneg l); lia]).
    cbn [app]. rewrite E0 in D. destruct k.
    + by eapply data_end_feeds.
    + injection Hd as <-. by eapply skip_end_feeds.
  - destruct k.
    + destruct (put cb_ true (fdata f) s1) as [ok s2] eqn:Ep. destruct ok; [|done].
      eapply block_feeds; [by left|done|done|lia|by rewrite E4|].
      intros z5 E5 D5 O5. rewrite E4 in E5. by eapply data_end_feeds.
    + injection Hd as <-. eapply block_feeds; [by right|done|done|lia|rewrite E4; unfold put; by destruct (data cb_)|].
      intros z5 E5 D5 O5. rewrite E4 in E5. by eapply skip_end_feeds.
Qed.

Fixpoint deliver_all (fs : list ZFile) s : bool * S :=
  match fs with
  | [] => (true, s)
  | f :: fs => let '(ok, s) := deliver f s in if ok then deliver_all fs s else (false, s)
  end.

Lemma image_ends dir fs : forall z s s', at_sig z -> Forall file_ok fs -> deliver_all fs s = (true, s') ->
  ends cb_ z (zip_image fs dir) s (fun '(r, z', s1) => r = true /\ st_ z' = DONE /\ s1 = s').
Proof.
  unfold zip_image. induction fs as [|f fs IH]; intros z s s' Hz Hf Hd; cbn [map concat app].
  - injection Hd as <-. destruct Hz as (Es & Eg & Hok). pose proof Hok as (Hh & _).
    destruct (fill_from_0 [80; 75; 1; 2] dir (hdr_ z)) as (post & Hp & Ef); [rewrite Hh; done|].
    change (lenZ [80; 75; 1; 2]) with 4 in *.
    eapply ends_stop; [by apply more_pos; pose proof (lenZ_nonneg dir); rewrite !lenZ_cons; lia| |].
    + unfold zip_round. rewrite Es. unfold sig_round. rewrite Eg. cbn [app] in Ef. rewrite Ef. reflexivity.
    + done.
  - inversion_clear Hf as [|? ? Hf1 Hfs]. cbn [deliver_all] in Hd.
    destruct (deliver f s) as [[] s1] eqn:Ed; [|done].
    rewrite <- app_assoc. eapply entry_feeds; [done|done| |exact Ed|].
    + rewrite lenZ_app. pose proof (lenZ_nonneg (concat (map zip_entry fs))). pose proof (lenZ_nonneg dir).
      rewrite !lenZ_cons. lia.
    + intros z' Hz'. by apply IH.
Qed.
End Entry.

(** ** A sink that keeps files *)

Record Collected := mkCollected { closed : list (list Z * list Z); opened : option (list Z * list Z) }.
Definition collected_none : Collected := mkCollected [] None.

(** It opens the entries [keep] accepts, as [guiEntry] does. *)
Definition collect (keep : list Z -> bool) : OtaZipCbs Collected :=
  mkCbs
    (Some (fun name _ s => if keep name then (true, mkCollected (closed s) (Some (name, []))) else (false, s)))
    (Some (fun b s =>
       match opened s with
       | Some (name, d) => (true, mkCollected (closed s) (Some (name, d ++ b)))
       | None => (false, s)
       end))
    (Some (fun s =>
       match opened s with
       | Some f => (true, mkCollected (closed s ++ [f]) None)
       | None => (false, s)
       end)).

Lemma collect_splits keep : cb_splits (collect keep).
Proof. intros x y s. cbn. destruct (opened s) as [[name d]|]; [|done]. by rewrite app_assoc. Qed.

Definition kept (keep : list Z -> bool) (fs : list ZFile) : list (list Z * list Z) :=
  map (fun f => (fname f, fdata f)) (filter (fun f => keep (fname f) = true) fs).

Lemma collect_deliver keep fs : forall l,
  deliver_all (collect keep) fs (mkCollected l None) = (true, mkCollected (l ++ kept keep fs) None).
Proof.
  unfold kept. induction fs as [|f fs IH]; intros l; cbn [deliver_all]; [cbn; by rewrite app_nil_r|].
  unfold deliver. cbn [collect entry]. rewrite filter_cons. destruct (keep (fname f)) eqn:Ek.
  - rewrite decide_True by done. cbn [map].
    assert (Hp : (if lenZ (fdata f) =? 0 then (true, mkCollected l (Some (fname f, [])))
      else put (collect keep) true (fdata f) (mkCollected l (Some (fname f, [])))) =
      (true, mkCollected l (Some (fname f, fdata f)))).
    { destruct (Z.eqb_spec (lenZ (fdata f)) 0) as [E|E]; [|done].
      destruct (fdata f); [done|]. rewrite lenZ_cons in E. pose proof (lenZ_nonneg l0). lia. }
    cbn [closed]. rewrite Hp. cbn. rewrite IH. by rewrite <- app_assoc.
  - by rewrite decide_False by done.
Qed.

(** ** Results *)

Lemma zip_init_ok : zip_ok zip_init.
Proof. by split_and!. Qed.
Lemma zip_init_idle : zip_idle zip_init.
Proof. by split_and!. Qed.

(** C28: the pieces an upload arrives in never matter to a sink that may be given the
    data of an entry in pieces ([cb_splits]: two pieces one after the other are the
    same to it as both at once, which is what writing to a file is): fed in any cut,
    the parser ends as it does on the whole archive at once, with the same verdict,
    the sink in the same state and, when refused, the same reason. The data calls
    themselves follow the cut. *)
Theorem feed_pieces {S} (cb : OtaZipCbs S) ps z s : cb_splits cb -> zip_idle z ->
  exists R R', feed_all cb ps z s = Some R /\ feed cb z (concat ps) s = Some R' /\ same_end R' R.
Proof.
  intros Hc Hi. destruct (feed_all_feeds cb ps z s Hc Hi) as (R & R' & HR & Hf & Hs).
  destruct Hi as (Hok & He & _). exists R, R'. split; [done|]. split; [by apply feed_spec|done].
Qed.

(** C27: an archive of stored entries is delivered file by file: uploaded in any
    pieces, it ends accepted, with each entry the sink wanted closed under its
    name with exactly its bytes, in order, and nothing else. *)
Theorem zip_roundtrip keep fs dir ps : Forall file_ok fs -> concat ps = zip_image fs dir ->
  exists z, feed_all (collect keep) ps zip_init collected_none =
              Some (true, z, mkCollected (kept keep fs) None) /\ done z = true.
Proof.
  intros Hf Hps. destruct (feed_all_feeds (collect keep) ps zip_init collected_none) as (R & R' & -> & Hr & Hs);
    [apply collect_splits|apply zip_init_idle|].
  destruct (image_ends (collect keep) dir fs zip_init collected_none (mkCollected (kept keep fs) None))
    as ([[r z] s] & Hi & -> & Hz & ->); [by split_and!|done|apply (collect_deliver keep fs [])|].
  rewrite Hps in Hr. rewrite (feeds_det _ _ _ _ _ Hr _ Hi) in Hs. inversion Hs; subst.
  exists z. split; [done|]. unfold done. by rewrite bool_decide_eq_true_2.
Qed.

(** *** Entry names *)

(** A name that stays under the directory it is appended to, and fits. *)
Definition safe_name (n : list Z) (outLen : Z) : Prop :=
  1 <= lenZ n <= kNameMax /\ head n <> Some slash /\ list.last n <> Some slash /\
  (forall a b, n <> a ++ [dot; dot] ++ b) /\ ~ In backslash n /\ lenZ kPrefix + lenZ n < outLen.

Lemma has_dotdot_spec s : has_dotdot s = false <-> forall a b, s <> a ++ [dot; dot] ++ b.
Proof.
  induction s as [|c s IH]; cbn [has_dotdot].
  { split; [|done]. intros _ [|? ?] b; done. }
  rewrite orb_false_iff, IH. split.
  - intros [H1 H2] [|a0 a] b E; cbn [app] in E; [|injection E as _ E; by apply (H2 a b)].
    injection E as -> ->. cbn in H1. done.
  - intros H. split; [|intros a b ->; by apply (H (c :: a) b)].
    destruct (Z.eqb_spec c dot) as [->|]; [|done]. destruct s as [|d s]; [done|].
    destruct (Z.eqb_spec d dot) as [->|]; [|done]. by destruct (H [] s).
Qed.

Lemma has_char_spec c s : has_char c s = false <-> ~ In c s.
Proof.
  unfold has_char. rewrite <- not_true_iff_false, existsb_exists. split; intros H; contradict H.
  - exists c. by rewrite Z.eqb_refl.
  - destruct H as (x & ? & ->%Z.eqb_eq). done.
Qed.

Lemma rd_last n : 0 < lenZ n -> (rd 0 n (lenZ n - 1) =? slash) = false <-> list.last n <> Some slash.
Proof.
  intros Hn. destruct n as [|x n _] using rev_ind; [done|]. rewrite last_snoc, lenZ_app.
  change (lenZ [x]) with 1. replace (lenZ n + 1 - 1) with (lenZ n) by lia.
  unfold rd. rewrite app_nth2 by (unfold lenZ; lia). unfold lenZ. rewrite Nat2Z.id, Nat.sub_diag. cbn.
  rewrite Z.eqb_neq. split; congruence.
Qed.

(** The name check accepts exactly the names that stay inside the dashboard's
    directory and fit the buffer, and then the path is "/web/" and the name. *)
Lemma entry_name_safe name outLen path :
  otaSafeEntryName (Some name) true outLen = Some path <->
  path = kPrefix ++ cstr name /\ safe_name (cstr name) outLen.
Proof.
  unfold otaSafeEntryName, safe_name. cbv zeta. cbn [negb]. set (n := cstr name). pose proof (lenZ_nonneg n).
  destruct (Z.ltb_spec kNameMax (lenZ n)) as [Hk|Hk]; [rewrite orb_true_r; split; [done|lia]|].
  destruct (Z.eqb_spec (lenZ n) 0) as [H0|H0]; cbn [orb]; [split; [done|lia]|].
  assert (Hh : (rd 0 n 0 =? slash) = false <-> head n <> Some slash).
  { clearbody n. destruct n as [|c m]; [done|]. change (rd 0 (c :: m) 0) with c. cbn [hd_error].
    rewrite Z.eqb_neq. split; congruence. }
  pose proof (rd_last n ltac:(lia)) as Hl. pose proof (has_dotdot_spec n) as Hd. pose proof (has_char_spec backslash n) as Hc.
  destruct (rd 0 n 0 =? slash); cbn [orb]; [split; [done|intros (_ & _ & Hx & _); by apply Hh in Hx]|].
  destruct (rd 0 n (lenZ n - 1) =? slash); [split; [done|intros (_ & _ & _ & Hx & _); by apply Hl in Hx]|].
  destruct (has_dotdot n); cbn [orb]; [split; [done|intros (_ & _ & _ & _ & Hx & _); by apply Hd in Hx]|].
  destruct (has_char backslash n); [split; [done|intros (_ & _ & _ & _ & _ & Hx & _); by apply Hc in Hx]|].
  destruct (Z.ltb_spec outLen (lenZ kPrefix + lenZ n + 1)) as [Ho|Ho]; [split; [done|lia]|].
  split.
  - intros [= <-]. split; [done|]. split_and!; try (by apply Hh || by apply Hl || by apply Hd || by apply Hc); lia.
  - by intros [-> _].
Qed.

(** *** Concrete runs *)

Definition demo_index : ZFile := mkZFile [10; 0] 0 (replicate 8 0) 3 [105] [7; 7] [1; 2; 3].
Definition demo_empty : ZFile := mkZFile [10; 0] 2 (replicate 8 9) 0 [97; 47; 98] [] [].
Definition demo_skip : ZFile := mkZFile [10; 0] 0 (replicate 8 0) 2 [120] [] [5; 6].
Definition demo_files : list ZFile := [demo_index; demo_skip; demo_empty].
Definition demo_keep (name : list Z) : bool := negb (rd 0 name 0 =? 120).

(** One byte at a time. *)
Definition demo_pieces : list (list Z) := map (fun b => [b]) (zip_image demo_files [9; 9]).

Lemma demo_files_ok : Forall file_ok demo_files.
Proof. repeat constructor; try done; cbn; intros H; repeat destruct H as [H|H]; done. Qed.

Lemma zip_roundtrip_witness :
  exists z, feed_all (collect demo_keep) demo_pieces zip_init collected_none =
    Some (true, z, mkCollected [([105], [1; 2; 3]); ([97; 47; 98], [])] None) /\ done z = true.
Proof. apply (zip_roundtrip demo_keep demo_files [9; 9] demo_pieces); [apply demo_files_ok|vm_compute; reflexivity]. Defined.

Lemma feed_pieces_witness :
  exists R R', feed_all (collect demo_keep) demo_pieces zip_init collected_none = Some R /\
    feed (collect demo_keep) zip_init (concat demo_pieces) collected_none = Some R' /\ same_end R' R.
Proof. apply feed_pieces; [apply collect_splits|apply zip_init_idle]. Defined.

Example compressed_refused :
  match feed (collect demo_keep) zip_init ([80; 75; 3; 4; 10; 0; 0; 0; 8; 0] ++ replicate 20 1) collected_none with
  | Some (r, z, s) => (r, err_ z, opened s) = (false, Some Compressed, None)
  | None => False
  end.
Proof. vm_compute. reflexivity. Qed.
End OtaCore.
