(* ===== verification/OtaHandlers.v ===== *)
(** * Over-the-air update: the HTTP handlers ([src/al/web/handlers/AutoLinkWebHandlersOta.cpp])

    [handleOtaFw] streams an image into the spare application slot,
    [handleOtaGui] an archive into the file system. What the server, the flash and
    the file system answer are oracles of the model, and the calls made to them
    its trace: the theorems hold whatever they answer. A client may also stall for good: the
    handler then never returns, and the theorems say so. *)
From S2P Require Import Prelude OtaCore.
Import OtaCore.

Module OtaHandlers.

(** ** The request body

    What the calls to [httpd_req_recv] meet: a timeout, bytes (a call takes at
    most what it asked for), a client that keeps the connection and sends nothing
    more, so that this call and every later one times out, or, at the end, a closed
    connection. *)
Inductive Recv := RTimeout | RData (b : list Z) | RStall.
Inductive RecvRes := Timeout | Closed | Bytes (b : list Z).

Definition httpd_req_recv (ask : Z) (q : list Recv) : RecvRes * list Recv :=
  match q with
  | [] => (Closed, [])
  | RTimeout :: q => (Timeout, q)
  | RStall :: _ => (Timeout, q)
  | RData b :: q =>
      match take (Z.to_nat ask) b with
      | [] => (Closed, q)
      | x => (Bytes x, match drop (Z.to_nat ask) b with [] => q | y => RData y :: q end)
      end
  end.

(** What bounds the calls up to the end, or to the stall. *)
Fixpoint recv_size (q : list Recv) : nat :=
  match q with
  | [] | RStall :: _ => 0
  | RTimeout :: q => S (recv_size q)
  | RData b :: q => S (length b + recv_size q)
  end.
(** The bytes to come. *)
Fixpoint body (q : list Recv) : list Z :=
  match q with [] | RStall :: _ => [] | RTimeout :: q => body q | RData b :: q => b ++ body q end.

(** The client does not stall. *)
Definition closes (q : list Recv) : Prop := Forall (fun r => r <> RStall) q.

(** [drainBody_]; [None]: it never returns. The [continue] on a timeout has no bound:
    the calls run out only on a stalled client ([drain_fuel]). *)
Fixpoint drain_loop (k : nat) (remaining : Z) (q : list Recv) : option (list Recv) :=
  if remaining >? 0 then
    match k with
    | O => None
    | S k =>
        let ask := if remaining >? 256 then 256 else remaining in
        match httpd_req_recv ask q with
        | (Timeout, q) => drain_loop k remaining q
        | (Closed, q) => Some q
        | (Bytes b, q) => drain_loop k (remaining - lenZ b) q
        end
    end
  else Some q.
Definition drainBody_ (remaining : Z) (q : list Recv) : option (list Recv) :=
  drain_loop (S (recv_size q)) remaining q.

(** ** The firmware image *)

Inductive FwCall :=
  | OtaBegin (total : Z) | OtaWrite (b : list Z) | OtaEnd | OtaAbort | SetBoot
  | Respond (status : Z) | Restart.

(** [next_size]: the spare slot's size, if there is one. *)
Record FwEnv := mkFwEnv {
  next_size : option Z;
  freeHeap : Z;
  malloc_ok : bool;
  begin_ok : bool;
  write_ok : list FwCall -> bool;
  end_ok : bool;
  boot_ok : bool;
}.

(** How a receive loop ends: with its status, or held by a stalled client for good. *)
Inductive Ended := Finished (ok : bool) | Held.

(** [while (left > 0)]: whether [e] is [ESP_OK] at the end, what is left of the
    image and of the request, and the calls. *)
Fixpoint fw_loop (env : FwEnv) (k : nat) (chunkSz left_ : Z) (q : list Recv) (tr : list FwCall)
    : Ended * Z * list Recv * list FwCall :=
  if left_ >? 0 then
    match k with
    | O => (Held, left_, q, tr)
    | S k =>
        let ask := if left_ >? chunkSz then chunkSz else left_ in
        match httpd_req_recv ask q with
        | (Timeout, q) => fw_loop env k chunkSz left_ q tr
        | (Closed, q) => (Finished false, left_, q, tr)
        | (Bytes b, q) =>
            let ok := write_ok env tr in
            let tr := tr ++ [OtaWrite b] in
            if negb ok then (Finished false, left_, q, tr)
            else fw_loop env k chunkSz (left_ - lenZ b) q tr
        end
    end
  else (Finished true, left_, q, tr).

(** Whether the handler returns, and the calls it makes. *)
Definition handleOtaFw (env : FwEnv) (total : Z) (q : list Recv) : bool * list FwCall :=
  let left_ := total in
  if (total =? 0) || match next_size env with None => true | Some n => total >? n end then
    match drainBody_ left_ q with
    | Some _ => (true, [Respond (match next_size env with None => 500 | Some _ => 400 end)])
    | None => (false, [])
    end
  else
    let chunkSz := otaRecvChunkBytes (freeHeap env) OTA_HEAP_RESERVE in
    let tr := if malloc_ok env then [OtaBegin total] else [] in
    let '(e, left_, q, tr) :=
      if malloc_ok env && begin_ok env then
        match fw_loop env (S (recv_size q)) chunkSz left_ q tr with
        | (Finished true, left_, q, tr) => (Finished (end_ok env), left_, q, tr ++ [OtaEnd])
        | (Finished false, left_, q, tr) => (Finished false, left_, q, tr ++ [OtaAbort])
        | r => r
        end
      else (Finished false, left_, q, tr) in
    match e with
    | Held => (false, tr)
    | Finished e =>
        let '(e, tr) := if e then (boot_ok env, tr ++ [SetBoot]) else (false, tr) in
        if negb e then
          match drainBody_ left_ q with
          | Some _ => (true, tr ++ [Respond 400])
          | None => (false, tr)
          end
        else (true, tr ++ [Respond 200; Restart])
    end.

(** ** The dashboard archive *)

Inductive FsCall :=
  | Mkdir (path : list Z) | Open (path : list Z) | Write (b : list Z) | Close.

(** [f]: the open file, if it is open. *)
Record GuiSink := mkGuiSink { f : bool; wrote : bool; fs : list FsCall }.
#[export] Instance eta_GuiSink : Eta GuiSink := fun r => mkGuiSink (f r) (wrote r) (fs r).

Record GuiEnv := mkGuiEnv {
  mount_ok : bool;
  gui_heap : Z;
  gui_malloc_ok : bool;
  open_ok : list FsCall -> bool;
  fwrite_ok : list FsCall -> bool;
}.

(** [for (p = path + 1; *p; p++)]: [done_] is what precedes [p]. *)
Fixpoint mkdirs (done_ p : list Z) : list FsCall :=
  match p with
  | [] => []
  | c :: p => (if c =? slash then [Mkdir done_] else []) ++ mkdirs (done_ ++ [c]) p
  end.

Definition guiEntry (env : GuiEnv) (name : list Z) (_ : Z) (s : GuiSink) : bool * GuiSink :=
  match otaSafeEntryName (Some name) true 128 with
  | None => (false, s)
  | Some path =>
      let s := s <| fs := fs s ++ mkdirs (take 1 path) (drop 1 path) |> in
      let ok := open_ok env (fs s) in
      (ok, s <| fs := fs s ++ [Open path] |> <| f := ok |>)
  end.
Definition guiData (env : GuiEnv) (b : list Z) (s : GuiSink) : bool * GuiSink :=
  (f s && fwrite_ok env (fs s), s <| fs := fs s ++ [Write b] |>).
Definition guiEnd (s : GuiSink) : bool * GuiSink :=
  (true, s <| fs := fs s ++ [Close] |> <| f := false |> <| wrote := true |>).

Definition gui_cbs (env : GuiEnv) : OtaZipCbs GuiSink :=
  mkCbs (Some (guiEntry env)) (Some (guiData env)) (Some guiEnd).

(** [while (ok && left > 0)] *)
Fixpoint gui_loop (env : GuiEnv) (k : nat) (chunkSz left_ : Z) (q : list Recv) (z : OtaZipStream) (s : GuiSink)
    : option (Ended * Z * list Recv * OtaZipStream * GuiSink) :=
  if left_ >? 0 then
    match k with
    | O => Some (Held, left_, q, z, s)
    | S k =>
        let ask := if left_ >? chunkSz then chunkSz else left_ in
        match httpd_req_recv ask q with
        | (Timeout, q) => gui_loop env k chunkSz left_ q z s
        | (Closed, q) => Some (Finished false, left_, q, z, s)
        | (Bytes b, q) =>
            match feed (gui_cbs env) z b s with
            | Some (true, z, s) => gui_loop env k chunkSz (left_ - lenZ b) q z s
            | Some (false, z, s) => Some (Finished false, left_ - lenZ b, q, z, s)
            | None => None
            end
        end
    end
  else Some (Finished true, left_, q, z, s).

(** The status of the answer, if the handler returns, and the calls made to the file
    system. *)
Definition handleOtaGui (env : GuiEnv) (content_len : Z) (q : list Recv) : option (option Z * GuiSink) :=
  let sink := mkGuiSink false false [] in
  let left_ := content_len in
  if (left_ =? 0) || negb (mount_ok env) then
    match drainBody_ left_ q with
    | Some _ => Some (Some (if left_ =? 0 then 400 else 507), sink)
    | None => Some (None, sink)
    end
  else
    let chunkSz := otaRecvChunkBytes (gui_heap env) OTA_HEAP_RESERVE in
    let r :=
      if gui_malloc_ok env then gui_loop env (S (recv_size q)) chunkSz left_ q zip_init sink
      else Some (Finished false, left_, q, zip_init, sink) in
    match r with
    | Some (Held, _, _, _, sink) => Some (None, sink)
    | Some (Finished ok, left_, q, zip, sink) =>
        let sink := if f sink then sink <| fs := fs sink ++ [Close] |> <| f := false |> else sink in
        if negb ok || negb (done zip) || negb (wrote sink) then
          match drainBody_ left_ q with
          | Some _ => Some (Some 400, sink)
          | None => Some (None, sink)
          end
        else Some (Some 200, sink)
    | None => None
    end.

(** ** Receiving *)

Lemma recv_spec ask q : 0 < ask ->
  match httpd_req_recv ask q with
  | (Timeout, q') => body q' = body q /\ ((recv_size q' < recv_size q)%nat /\ (closes q -> closes q') \/
                       q' = q /\ exists l, q = RStall :: l)
  | (Closed, q') => (recv_size q' <= recv_size q)%nat /\ (closes q -> closes q')
  | (Bytes b, q') => 0 < lenZ b <= ask /\ (recv_size q' < recv_size q)%nat /\ body q = b ++ body q' /\ (closes q -> closes q')
  end.
Proof.
  intros Ha. unfold httpd_req_recv. destruct q as [|[|b|] q]; cbn [recv_size body].
  - auto.
  - split; [done|left]. split; [lia|]. intros Hc. by apply Forall_cons_1 in Hc as [_ Hc].
  - assert (Hq : closes (RData b :: q) -> closes q) by (intros Hc; by apply Forall_cons_1 in Hc as [_ Hc]).
    destruct (take (Z.to_nat ask) b) as [|x b1] eqn:Et; [split; [lia|exact Hq]|].
    assert (Hb : b = x :: b1 ++ drop (Z.to_nat ask) b)
      by (change (x :: b1 ++ drop (Z.to_nat ask) b) with ((x :: b1) ++ drop (Z.to_nat ask) b); by rewrite <- Et, take_drop).
    assert (Hl : 0 < lenZ (x :: b1) <= ask).
    { split; [rewrite lenZ_cons; pose proof (lenZ_nonneg b1); lia|]. rewrite <- Et. unfold lenZ. rewrite length_take. lia. }
    destruct (drop (Z.to_nat ask) b) as [|y d] eqn:Ed; (split; [done|]).
    + split; [cbn; lia|]. split; [by rewrite Hb, app_nil_r|exact Hq].
    + split; [rewrite Hb; cbn; rewrite length_app; cbn; lia|]. split; [rewrite Hb at 1; cbn; by rewrite <- app_assoc|].
      intros Hc. constructor; [done|by apply Hq].
  - split; [done|right]. split; [done|]. by eexists.
Qed.

Lemma not_closes l : ~ closes (RStall :: l).
Proof. intros Hc. by apply Forall_cons_1 in Hc as [Hc _]. Qed.

Lemma drain_loop_total k : forall remaining q, closes q -> (recv_size q < k)%nat ->
  exists q', drain_loop k remaining q = Some q'.
Proof.
  induction k as [|k IH]; intros r q Hc Hk; [lia|]. cbn [drain_loop]. destruct (r >? 0) eqn:Er; [|by eexists].
  rewrite clamp_hi. pose proof (recv_spec (Z.min r 256) q ltac:(lia)) as Hr.
  destruct (httpd_req_recv _ q) as [[| |b] q']; [|by eexists|].
  - destruct Hr as (_ & [[Hs Hq]|(_ & l & ->)]); [apply IH; [by apply Hq|lia]|by apply not_closes in Hc].
  - destruct Hr as (_ & Hs & _ & Hq). apply IH; [by apply Hq|lia].
Qed.

Lemma drainBody_total r q : closes q -> exists q', drainBody_ r q = Some q'.
Proof. intros Hc. apply drain_loop_total; [done|lia]. Qed.

Lemma drain_stalled k r l : 0 < r -> drain_loop k r (RStall :: l) = None.
Proof. intros Hr. induction k as [|k IH]; cbn [drain_loop]; (destruct (Z.ltb_spec 0 r); [|lia]); [done|]. cbn. exact IH. Qed.

(** The calls allowed for are enough: what drains with any number drains with them. *)
Lemma drain_fuel n r q q' : drain_loop n r q = Some q' -> drainBody_ r q = Some q'.
Proof.
  unfold drainBody_. assert (K : forall m, (recv_size q < m)%nat -> drain_loop n r q = Some q' -> drain_loop m r q = Some q').
  { revert r q. induction n as [|n IH]; intros r q m Hm; destruct m as [|m]; try lia; cbn [drain_loop].
    { by destruct (r >? 0). }
    destruct (Z.ltb_spec 0 r) as [H0|H0]; [|done]. rewrite clamp_hi. pose proof (recv_spec (Z.min r 256) q ltac:(lia)) as Hr.
    destruct (httpd_req_recv _ q) as [[| |b] q1]; [|done|].
    - destruct Hr as (_ & [[Hs _]|(-> & l & ->)]); [apply IH; lia|]. by rewrite drain_stalled.
    - destruct Hr as (_ & Hs & _). apply IH. lia. }
  apply K. lia.
Qed.

Lemma chunk_range freeHeap reserve : 1024 <= otaRecvChunkBytes freeHeap reserve <= 8192.
Proof.
  unfold otaRecvChunkBytes. destruct (freeHeap =? 0); [lia|]. cbv zeta. rewrite clamp_lo, clamp_hi. lia.
Qed.

(** ** The firmware is booted only when it arrived whole *)

Lemma fw_loop_ok env k chunkSz : 0 < chunkSz -> forall left_ q tr, 0 <= left_ ->
  exists r left' q' ws, fw_loop env k chunkSz left_ q tr = (r, left', q', tr ++ map OtaWrite ws) /\
    (r = Finished true -> left' <= 0 /\ lenZ (concat ws) = left_ /\ exists rest, body q = concat ws ++ rest) /\
    (closes q -> closes q' /\ ((recv_size q < k)%nat -> r <> Held)).
Proof.
  intros Hc. induction k as [|k IH]; intros l q tr Hl; cbn [fw_loop]; (destruct (Z.ltb_spec 0 l) as [H0|H0];
    [|exists (Finished true), l, q, []; rewrite app_nil_r; split; [done|]; split;
      [intros _; split; [done|]; split; [cbn [concat]; rewrite (lenZ_nil (A:=Z)); lia|by eexists]|done] ]).
  { exists Held, l, q, []. rewrite app_nil_r. split; [done|]. split; [done|]. intros. split; [done|lia]. }
  rewrite clamp_hi. pose proof (recv_spec (Z.min l chunkSz) q ltac:(lia)) as Hr.
  destruct (httpd_req_recv _ q) as [[| |b] q'].
  - destruct Hr as [Hb Hs]. destruct (IH l q' tr Hl) as (r & l' & q2 & ws & -> & Ht & Hh).
    exists r, l', q2, ws. split; [done|]. split; [by rewrite <- Hb|]. intros Hq.
    destruct Hs as [[Hs Hq']|(_ & l0 & ->)]; [|by apply not_closes in Hq].
    destruct (Hh (Hq' Hq)) as [Hq2 Hr]. split; [done|]. intros. apply Hr. lia.
  - exists (Finished false), l, q', []. rewrite app_nil_r. split; [done|]. split; [done|]. intros Hq. by split; [apply Hr|].
  - destruct Hr as (Hb & Hs & Hbody & Hq'). destruct (write_ok env tr); cbn [negb].
    + destruct (IH (l - lenZ b) q' (tr ++ [OtaWrite b]) ltac:(lia)) as (r & l' & q2 & ws & -> & Ht & Hh).
      exists r, l', q2, (b :: ws). cbn [map]. rewrite <- app_assoc. split; [done|]. split.
      * intros Hr. destruct (Ht Hr) as (H1 & Hlen & rest & Hrest). split; [done|]. cbn [concat]. rewrite lenZ_app.
        split; [lia|]. exists rest. by rewrite Hbody, Hrest, app_assoc.
      * intros Hq. destruct (Hh (Hq' Hq)) as [Hq2 Hr]. split; [done|]. intros. apply Hr. lia.
    + exists (Finished false), l, q', [b]. split; [done|]. split; [done|]. intros Hq. by split; [apply Hq'|].
Qed.

Lemma fw_stalled env k c l l0 tr : 0 < l -> fst (fst (fst (fw_loop env k c l (RStall :: l0) tr))) = Held.
Proof. intros Hl. induction k as [|k IH]; cbn [fw_loop]; (destruct (Z.ltb_spec 0 l); [|lia]); [done|]. cbn. exact IH. Qed.

(** The calls allowed for are enough here, too: a loop held with them is held with any
    number. *)
Lemma fw_fuel env n c l q tr : 0 < c -> fst (fst (fst (fw_loop env n c l q tr))) <> Held ->
  fw_loop env (S (recv_size q)) c l q tr = fw_loop env n c l q tr.
Proof.
  intros Hc. assert (K : forall m, (recv_size q < m)%nat -> fst (fst (fst (fw_loop env n c l q tr))) <> Held ->
    fw_loop env m c l q tr = fw_loop env n c l q tr).
  { revert l q tr. induction n as [|n IH]; intros l q tr m Hm; destruct m as [|m]; try lia; cbn [fw_loop].
    { by destruct (l >? 0). }
    destruct (Z.ltb_spec 0 l) as [H0|H0]; [|done]. rewrite clamp_hi. pose proof (recv_spec (Z.min l c) q ltac:(lia)) as Hr.
    destruct (httpd_req_recv _ q) as [[| |b] q1]; [|done|].
    - destruct Hr as (_ & [[Hs _]|(-> & l0 & ->)]); [apply IH; lia|]. by rewrite fw_stalled.
    - destruct Hr as (_ & Hs & _). destruct (negb _); [done|]. apply IH. lia. }
  apply K. lia.
Qed.

Lemma writes_no_boot ws c : In c (map OtaWrite ws) -> c <> SetBoot /\ c <> Restart.
Proof. intros (b & <- & _)%in_map_iff. done. Qed.

(** C29: A firmware upload switches the device to the new slot, or restarts it, only
    when the whole image arrived: it fits the slot, exactly the announced number of
    bytes of the request body was written, in order, and the flash accepted the
    image as complete; whatever the socket, the flash and the heap answered on the
    way, whether the handler returns or not. It returns when the client does not
    stall: the calls to a client that keeps the connection open and sends no more
    time out for ever, and the code waits as long ([stalled_upload_held]). *)
Theorem firmware_boot env total q : 0 <= total ->
  let '(returned, calls) := handleOtaFw env total q in
  (closes q -> returned = true) /\
  (In SetBoot calls \/ In Restart calls ->
     exists ws, calls = [OtaBegin total] ++ map OtaWrite ws ++ [OtaEnd; SetBoot] ++
         (if boot_ok env then [Respond 200; Restart] else [Respond 400]) /\
       lenZ (concat ws) = total /\ (exists rest, body q = concat ws ++ rest) /\
       (exists n, next_size env = Some n /\ 0 < total <= n) /\ end_ok env = true).
Proof.
  intros Ht. unfold handleOtaFw. cbv zeta.
  assert (Hd : forall r q', closes q' -> drainBody_ r q' <> None) by (intros r q' Hq; by destruct (drainBody_total r q' Hq) as [? ->]).
  destruct ((total =? 0) || _) eqn:Eg.
  { destruct (drainBody_ total q) eqn:Ed; (split; [intros Hq; first [done|by destruct (Hd total q Hq)]|intros [Hi|Hi]; cbn in Hi; intuition discriminate]). }
  apply orb_false_iff in Eg as [E0 En]. destruct (next_size env) as [n|]; [|done].
  pose proof (chunk_range (freeHeap env) OTA_HEAP_RESERVE) as Hch.
  set (chunk := otaRecvChunkBytes _ _) in *.
  destruct (malloc_ok env && begin_ok env) eqn:Em.
  2: { cbn [negb]. destruct (drainBody_ total q) eqn:Ed; (split; [intros Hq; first [done|by destruct (Hd total q Hq)]|]);
       destruct (malloc_ok env); intros [Hi|Hi]; cbn in Hi; intuition discriminate. }
  apply andb_true_iff in Em as [-> _].
  destruct (fw_loop_ok env (S (recv_size q)) chunk ltac:(lia) total q [OtaBegin total] Ht)
    as (r & l' & q' & ws & -> & H1 & H2). destruct r as [[]|].
  - destruct (H1 eq_refl) as (Hl' & Hl & Hb).
    assert (Hz : drainBody_ l' q' = Some q') by (unfold drainBody_; cbn [drain_loop]; by destruct (Z.ltb_spec 0 l'); [lia|]).
    destruct (end_ok env); [destruct (boot_ok env)|]; cbn [negb]; rewrite ?Hz; (split; [done|]).
    1, 2: intros _; exists ws; apps; split; [done|]; split_and!; [done|done|exists n; split; [done|lia]|done].
    intros Hi. exfalso. revert Hi.
    rewrite !in_app_iff. cbn. pose proof (writes_no_boot ws SetBoot). pose proof (writes_no_boot ws Restart). intuition discriminate.
  - cbn [negb]. destruct (drainBody_ l' q') eqn:Ed; (split; [intros Hq; first [done|by destruct (Hd l' q' (proj1 (H2 Hq)))]|]);
      intros Hi; exfalso; revert Hi; rewrite !in_app_iff; cbn;
      pose proof (writes_no_boot ws SetBoot); pose proof (writes_no_boot ws Restart); intuition discriminate.
  - split; [intros Hq; destruct (H2 Hq) as [_ Hh]; by destruct (Hh ltac:(lia))|].
    intros Hi. exfalso. revert Hi. rewrite !in_app_iff. cbn.
    pose proof (writes_no_boot ws SetBoot). pose proof (writes_no_boot ws Restart). intuition discriminate.
Qed.

Definition demo_env : FwEnv := mkFwEnv (Some 4096) 20000 true true (fun _ => true) true true.

Lemma firmware_boot_witness :
  handleOtaFw demo_env 5 [RData [1; 2]; RTimeout; RData [3; 4; 5; 6]] =
    (true, [OtaBegin 5; OtaWrite [1; 2]; OtaWrite [3; 4; 5]; OtaEnd; SetBoot; Respond 200; Restart]) /\
  let '(returned, calls) := handleOtaFw demo_env 5 [RData [1; 2]; RTimeout; RData [3; 4; 5; 6]] in
  (closes [RData [1; 2]; RTimeout; RData [3; 4; 5; 6]] -> returned = true) /\
  (In SetBoot calls \/ In Restart calls ->
     exists ws, calls = [OtaBegin 5] ++ map OtaWrite ws ++ [OtaEnd; SetBoot] ++
         (if boot_ok demo_env then [Respond 200; Restart] else [Respond 400]) /\
       lenZ (concat ws) = 5 /\ (exists rest, body [RData [1; 2]; RTimeout; RData [3; 4; 5; 6]] = concat ws ++ rest) /\
       (exists n, next_size demo_env = Some n /\ 0 < 5 <= n) /\ end_ok demo_env = true).
Proof. split; [vm_compute; reflexivity|]. apply firmware_boot. lia. Defined.

(** A flash that refuses the second block: the image is abandoned. *)
Definition refusing_env : FwEnv := mkFwEnv (Some 4096) 20000 true true (fun tr => Nat.ltb (length tr) 2) true true.
Example write_refused :
  handleOtaFw refusing_env 5 [RData [1; 2]; RData [3; 4; 5]] =
    (true, [OtaBegin 5; OtaWrite [1; 2]; OtaWrite [3; 4; 5]; OtaAbort; Respond 400]).
Proof. vm_compute. reflexivity. Qed.

(** But only because the client closed: the block refused is not counted as received,
    and a client that has sent everything and waits for the answer never gets it. *)
Example write_refused_held :
  handleOtaFw refusing_env 5 [RData [1; 2]; RData [3; 4; 5]; RStall] =
    (false, [OtaBegin 5; OtaWrite [1; 2]; OtaWrite [3; 4; 5]; OtaAbort]).
Proof. vm_compute. reflexivity. Qed.

(** ** A stalled client holds the handler *)

(** An answer other than an error. *)
Definition arrives (r : Recv) : Prop := match r with RTimeout => True | RData b => b <> [] | RStall => False end.

Lemma recv_arrives ask q : 0 < ask -> Forall arrives q ->
  match httpd_req_recv ask (q ++ [RStall]) with
  | (Timeout, q') => exists q1, q' = q1 ++ [RStall] /\ Forall arrives q1 /\ body q1 = body q
  | (Closed, _) => False
  | (Bytes b, q') => exists q1, q' = q1 ++ [RStall] /\ Forall arrives q1 /\ body q = b ++ body q1
  end.
Proof.
  intros Ha Hq. unfold httpd_req_recv. destruct q as [|[|b|] q]; cbn [app].
  - by exists [].
  - apply Forall_cons_1 in Hq as [_ Hq]. by exists q.
  - apply Forall_cons_1 in Hq as [Hb Hq]. cbn [arrives] in Hb.
    destruct (take (Z.to_nat ask) b) as [|x b1] eqn:Et.
    { destruct b; [done|]. destruct (Z.to_nat ask) eqn:E; [lia|done]. }
    pose proof (take_drop (Z.to_nat ask) b) as Hd. rewrite Et in Hd.
    destruct (drop (Z.to_nat ask) b) as [|y d]; [exists q|exists (RData (y :: d) :: q)]; (split; [done|]).
    + split; [done|]. cbn [body]. by rewrite <- Hd, app_nil_r.
    + split; [by constructor|]. cbn [body]. by rewrite <- Hd, <- app_assoc.
  - apply Forall_cons_1 in Hq as [[] _].
Qed.

Lemma drain_held k : forall r q, Forall arrives q -> lenZ (body q) < r -> drain_loop k r (q ++ [RStall]) = None.
Proof.
  induction k as [|k IH]; intros r q Hq Hr; pose proof (lenZ_nonneg (body q)); cbn [drain_loop];
    (destruct (Z.ltb_spec 0 r); [|lia]); [done|]. rewrite clamp_hi.
  pose proof (recv_arrives (Z.min r 256) q ltac:(lia) Hq) as Ha. destruct (httpd_req_recv _ _) as [[| |b] q'].
  - destruct Ha as (q1 & -> & H1 & E). apply IH; [done|]. by rewrite E.
  - done.
  - destruct Ha as (q1 & -> & H1 & E). apply IH; [done|]. rewrite E, lenZ_app in Hr. lia.
Qed.

Lemma fw_held env k c : 0 < c -> forall l q tr, Forall arrives q -> lenZ (body q) < l ->
  match fw_loop env k c l (q ++ [RStall]) tr with
  | (Held, _, _, _) => True
  | (Finished ok, l', q', _) => ok = false /\ exists q1, q' = q1 ++ [RStall] /\ Forall arrives q1 /\ lenZ (body q1) < l'
  end.
Proof.
  intros Hc. induction k as [|k IH]; intros l q tr Hq Hl; pose proof (lenZ_nonneg (body q)); cbn [fw_loop];
    (destruct (Z.ltb_spec 0 l); [|lia]); [done|]. rewrite clamp_hi.
  pose proof (recv_arrives (Z.min l c) q ltac:(lia) Hq) as Ha. destruct (httpd_req_recv _ _) as [[| |b] q'].
  - destruct Ha as (q1 & -> & H1 & E). apply IH; [done|]. by rewrite E.
  - done.
  - destruct Ha as (q1 & -> & H1 & E). rewrite E, lenZ_app in Hl. pose proof (lenZ_nonneg b).
    destruct (negb _); [|apply IH; [done|lia]]. split; [done|]. exists q1. split_and!; [done|done|lia].
Qed.

(** A client that sends less than it announced and keeps the connection open is
    waited for without end, whatever the flash and the heap answer. *)
Lemma stalled_upload_held env total q : Forall arrives q -> lenZ (body q) < total ->
  fst (handleOtaFw env total (q ++ [RStall])) = false.
Proof.
  intros Hq Hl. unfold handleOtaFw. cbv zeta. destruct ((total =? 0) || _).
  { unfold drainBody_. by rewrite drain_held. }
  pose proof (chunk_range (freeHeap env) OTA_HEAP_RESERVE) as Hch. set (chunk := otaRecvChunkBytes _ _) in *.
  destruct (malloc_ok env && begin_ok env).
  2: { cbn [negb]. unfold drainBody_. by rewrite drain_held. }
  pose proof (fw_held env (S (recv_size (q ++ [RStall]))) chunk ltac:(lia) total q
    (if malloc_ok env then [OtaBegin total] else []) Hq Hl) as Hf.
  destruct (fw_loop _ _ _ _ _ _) as [[[[ok|] l'] q'] tr]; [|done]. destruct Hf as (-> & q1 & -> & Hq1 & Hl1).
  cbn [negb]. unfold drainBody_. by rewrite drain_held.
Qed.

Lemma stalled_upload_held_witness : fst (handleOtaFw demo_env 5 ([RData [1; 2]; RTimeout] ++ [RStall])) = false.
Proof. apply stalled_upload_held; [by repeat constructor|done]. Qed.

(** ** No archive writes outside the dashboard's directory *)

(** A file opened is "/web/" and a safe name; a directory made is on the way to one. *)
Definition fs_safe (c : FsCall) : Prop :=
  match c with
  | Open p => exists n, p = kPrefix ++ n /\ safe_name n 128
  | Mkdir p => exists n r, kPrefix ++ n = p ++ slash :: r /\ p <> [] /\ safe_name n 128
  | Write _ | Close => True
  end.
Definition sink_safe (s : GuiSink) : Prop := Forall fs_safe (fs s).

Lemma mkdirs_in p : forall d c, In c (mkdirs d p) -> exists a b, c = Mkdir (d ++ a) /\ p = a ++ slash :: b.
Proof.
  induction p as [|x p IH]; intros d c; cbn [mkdirs]; [done|]. rewrite in_app_iff. intros [H|H].
  - destruct (Z.eqb_spec x slash) as [->|]; [|done]. destruct H as [<-|[]].
    exists [], p. by rewrite app_nil_r.
  - destruct (IH _ _ H) as (a & b & -> & ->). exists (x :: a), b. by rewrite <- app_assoc.
Qed.

Lemma gui_cbs_safe env : cb_keeps (gui_cbs env) sink_safe.
Proof.
  unfold sink_safe. split_and!; cbn [gui_cbs entry data entryEnd]; [intros e name sz s [= <-] Hs|intros d x s [= <-] Hs|intros e s [= <-] Hs].
  - unfold guiEntry. destruct (otaSafeEntryName (Some name) true 128) as [path|] eqn:Ep; [|done].
    apply entry_name_safe in Ep as [-> Hn].
    change (Forall fs_safe ((fs s ++ mkdirs (take 1 (kPrefix ++ cstr name)) (drop 1 (kPrefix ++ cstr name))) ++
      [Open (kPrefix ++ cstr name)])). rewrite !Forall_app. split; [split; [done|]|].
    + apply List.Forall_forall. intros c Hc.
      destruct (mkdirs_in _ _ _ Hc) as (a & b & -> & E). cbn [fs_safe].
      exists (cstr name), b. split; [|done].
      rewrite <- (take_drop 1 (kPrefix ++ cstr name)), E. by rewrite <- app_assoc.
    + repeat constructor. by exists (cstr name).
  - cbn. apply Forall_app. by split; [|repeat constructor].
  - cbn. apply Forall_app. by split; [|repeat constructor].
Qed.

Lemma gui_loop_ok env k chunkSz : 0 < chunkSz -> forall left_ q z s, zip_ok z -> sink_safe s ->
  exists e left' q' z' s', gui_loop env k chunkSz left_ q z s = Some (e, left', q', z', s') /\ sink_safe s' /\
    (closes q -> closes q' /\ ((recv_size q < k)%nat -> e <> Held)).
Proof.
  intros Hc. induction k as [|k IH]; intros l q z s Hz Hs; cbn [gui_loop]; (destruct (Z.ltb_spec 0 l) as [H0|H0];
    [|do 5 eexists; split; [done|]; by split]).
  { do 5 eexists. split; [done|]. split; [done|]. intros. split; [done|lia]. }
  rewrite clamp_hi. pose proof (recv_spec (Z.min l chunkSz) q ltac:(lia)) as Hr.
  destruct (httpd_req_recv _ q) as [[| |b] q'].
  - destruct Hr as [_ Hr]. destruct (IH l q' z s Hz Hs) as (e & l' & q2 & z2 & s2 & -> & Hs2 & Hh).
    do 5 eexists. split; [done|]. split; [done|]. intros Hq. destruct Hr as [[Hsz Hq']|(_ & l0 & ->)]; [|by apply not_closes in Hq].
    destruct (Hh (Hq' Hq)) as [Hq2 Hn]. split; [done|]. intros. apply Hn. lia.
  - do 5 eexists. split; [done|]. split; [done|]. intros Hq. by split; [apply Hr|].
  - destruct Hr as (_ & Hsz & _ & Hq').
    destruct (feed_total (gui_cbs env) z b s Hz) as ([[r z1] s1] & Ef & Hz1). rewrite Ef.
    pose proof (zip_feed_keeps _ _ _ _ _ _ (gui_cbs_safe env) Ef Hs) as Hs1. cbn [snd fst] in *.
    destruct r.
    + destruct (IH (l - lenZ b) q' z1 s1 Hz1 Hs1) as (e & l' & q2 & z2 & s2 & -> & Hs2 & Hh).
      do 5 eexists. split; [done|]. split; [done|]. intros Hq. destruct (Hh (Hq' Hq)) as [Hq2 Hn]. split; [done|]. intros. apply Hn. lia.
    + do 5 eexists. split; [done|]. split; [done|]. intros Hq. by split; [apply Hq'|].
Qed.

(** C30: Whatever is uploaded as a dashboard archive, every file the handler opened is
    "/web/" followed by a name of at most 96 characters without ".." or backslash,
    every directory it made an ancestor of such a file; success is answered only
    when a file was closed, and the handler ends with one of its four answers unless
    the client stalls. *)
Theorem archive_stays_inside env content_len q :
  exists st s, handleOtaGui env content_len q = Some (st, s) /\
    Forall fs_safe (fs s) /\ (st = Some 200 -> wrote s = true) /\
    (closes q -> exists n, st = Some n /\ In n [200; 400; 507]).
Proof.
  unfold handleOtaGui. cbv zeta.
  assert (Hd : forall r q', closes q' -> drainBody_ r q' <> None) by (intros r q' Hq; by destruct (drainBody_total r q' Hq) as [? ->]).
  destruct ((content_len =? 0) || negb (mount_ok env)).
  { destruct (drainBody_ content_len q) eqn:Ed; (eexists _, _; split; [reflexivity|]; split; [constructor|]).
    - split; [by destruct (content_len =? 0)|]. intros _. eexists. split; [reflexivity|]. destruct (content_len =? 0); cbn; tauto.
    - split; [done|]. intros Hq. by destruct (Hd content_len q Hq). }
  pose proof (chunk_range (gui_heap env) OTA_HEAP_RESERVE) as Hch. set (chunk := otaRecvChunkBytes _ _) in *.
  assert (Hl : exists e l' q' z' s', (if gui_malloc_ok env
      then gui_loop env (S (recv_size q)) chunk content_len q zip_init (mkGuiSink false false [])
      else Some (Finished false, content_len, q, zip_init, mkGuiSink false false [])) = Some (e, l', q', z', s') /\ sink_safe s' /\
      (closes q -> closes q' /\ e <> Held)).
  { destruct (gui_malloc_ok env); [|do 5 eexists; split; [reflexivity|]; by split; [constructor|]].
    destruct (gui_loop_ok env (S (recv_size q)) chunk ltac:(lia) content_len q zip_init (mkGuiSink false false []) zip_init_ok
      ltac:(constructor)) as (e & l' & q' & z' & s' & -> & Hs & Hh).
    do 5 eexists. split; [done|]. split; [done|]. intros Hq. destruct (Hh Hq) as [Hq' Hn]. split; [done|]. apply Hn. lia. }
  destruct Hl as (e & l' & q' & z' & s' & -> & Hs & Hh). destruct e as [ok|].
  2: { eexists _, _. split; [reflexivity|]. split; [exact Hs|]. split; [done|]. intros Hq. by destruct (Hh Hq). }
  set (s2 := if f s' then _ else s').
  assert (Hs2 : sink_safe s2).
  { unfold s2, sink_safe. destruct (f s'); [|done]. cbn. apply Forall_app. by split; [|repeat constructor]. }
  destruct (negb ok || negb (done z') || negb (wrote s2)) eqn:Ew.
  - destruct (drainBody_ l' q') eqn:Ed; (eexists _, _; split; [reflexivity|]; split; [exact Hs2|]; split; [done|]).
    + intros _. eexists. split; [reflexivity|]. cbn; tauto.
    + intros Hq. by destruct (Hd l' q' (proj1 (Hh Hq))).
  - apply orb_false_iff in Ew as [_ Hw%negb_false_iff]. eexists _, _. split; [reflexivity|]. split; [exact Hs2|]. split; [done|].
    intros _. eexists. split; [reflexivity|]. cbn; tauto.
Qed.

Definition demo_gui : GuiEnv := mkGuiEnv true 20000 true (fun _ => true) (fun _ => true).

(** An archive with a hostile name: only the good entry is written. *)
Definition demo_hostile : list Z :=
  zip_image [mkZFile [10; 0] 0 (replicate 8 0) 1 [46; 46; 47; 120] [] [7];
             mkZFile [10; 0] 0 (replicate 8 0) 1 [97; 47; 98] [] [8]] [].

Example hostile_upload :
  match handleOtaGui demo_gui (lenZ demo_hostile) [RData (take 40 demo_hostile); RTimeout; RData (drop 40 demo_hostile)] with
  | Some (st, s) => (st, fs s) =
      (Some 200, [Mkdir [47; 119; 101; 98]; Mkdir [47; 119; 101; 98; 47; 97];
             Open [47; 119; 101; 98; 47; 97; 47; 98]; Write [8]; Close])
  | None => False
  end.
Proof. vm_compute. reflexivity. Qed.
End OtaHandlers.
