(* ===== verification/Hal.v ===== *)
(** * The hardware abstraction ([src/al/hal/IHal.h], mock from [test/common/MockHal.h])

    The link is written against the interface [IHal]; the same holds here. The
    class [IHal] has one operation per virtual method the link calls, over an
    abstract hardware state; a clock read, a ring query or a delay may change
    that state (time passes, the UART drains). [IHalLaws] states what the link
    relies on. The instance is the desktop mock's behaviour; it shows the laws
    can hold and runs the examples of the other files. *)
From S2P Require Import Prelude Config.
Import Config.

Module Hal.

Class IHal (H : Type) := {
  hal_begin : AutoLinkConfig -> H -> H;
  setSpd : Z -> H -> H;
  sendBreak : H -> H;
  (** bytes accepted, and the milliseconds reported through [onTxBlockedNote] *)
  tx : list Z -> H -> (Z * Z) * H;
  txAvail : H -> Z * H;
  txRingSize : H -> Z;
  rxRingSize : H -> Z;
  flushTx : H -> H;
  discardTx : H -> H;
  startTimer : Z -> H -> H;
  delayMs : Z -> H -> H;
  delayUs : Z -> H -> H;
  nowMs : H -> Z * H;
  tryLock : Z -> H -> bool * H;
  pushAppBuf : list Z -> H -> Z * H;
  popAppBuf : Z -> H -> list Z * H;
  peekAppBuf : H -> Z * H;
  appBufAvailable : H -> Z * H;
  appBufFree : H -> Z * H;
  clearAppBuf : H -> H;
  flushRxHw : H -> H;
  setOkState : bool -> H -> H;
  (** FreeRTOS's [xSemaphoreTake] on the ACK semaphore for a slice of ticks,
      when it has not been given: what happens while the task sleeps *)
  semWait : Z -> H -> H;
  (** the heap: whether [malloc] of so many bytes succeeds, and
      [xSemaphoreCreateBinary] for that semaphore *)
  malloc : Z -> H -> bool * H;
  semCreate : H -> bool * H;
}.

(** What the link relies on: the clock is a [uint32_t], the application buffer
    accepts a prefix and returns at most what it is asked for. *)
Class IHalLaws (H : Type) `{IHal H} := {
  nowMs_u32 : forall h, is_u32 (fst (nowMs h));
  pushAppBuf_prefix : forall b h, 0 <= fst (pushAppBuf b h) <= lenZ b;
  popAppBuf_len : forall n h, 0 <= n -> lenZ (fst (popAppBuf n h)) <= n;
  popAppBuf_bytes : forall n h, bytes (fst (popAppBuf n h));
}.

(** The application stream buffer as a bounded queue of bytes: [appv] is its
    contents and its capacity, negative when there is no buffer. A push that
    fits is taken whole; a reader may free more than what it takes (a byte that
    was peeked at no longer occupies the buffer). Only the operations on it
    touch it. *)
Class HalApp (H : Type) `{IHal H} := {
  appv : H -> list Z * Z;
  app_push : forall b h, bytes b ->
    appv (snd (pushAppBuf b h)) =
      (fst (appv h) ++ take (Z.to_nat (fst (pushAppBuf b h))) b, snd (appv h));
  app_push_fit : forall b h, 0 <= snd (appv h) -> lenZ b <= snd (appv h) - lenZ (fst (appv h)) ->
    fst (pushAppBuf b h) = lenZ b;
  app_free : forall n h, 0 <= snd (appv h) -> 0 < n ->
    (fst (appBufFree h) <? n) = (snd (appv h) - lenZ (fst (appv h)) <? n);
  app_pop : forall n h,
    fst (popAppBuf n h) = take (Z.to_nat n) (fst (appv h)) /\
    fst (appv (snd (popAppBuf n h))) = drop (Z.to_nat n) (fst (appv h));
  app_pop_cap : forall n h, 0 <= snd (appv h) -> 0 <= snd (appv (snd (popAppBuf n h)));
  app_avail : forall h, fst (appBufAvailable h) = lenZ (fst (appv h));
  app_clear : forall h, fst (appv (clearAppBuf h)) = [];
  app_of_avail : forall h, appv (snd (appBufAvailable h)) = appv h;
  app_of_free : forall h, appv (snd (appBufFree h)) = appv h;
  app_of_tx : forall b h, appv (snd (tx b h)) = appv h;
  app_of_txAvail : forall h, appv (snd (txAvail h)) = appv h;
  app_of_now : forall h, appv (snd (nowMs h)) = appv h;
  app_of_timer : forall ms h, appv (startTimer ms h) = appv h;
  app_of_break : forall h, appv (sendBreak h) = appv h;
  app_of_setSpd : forall s h, appv (setSpd s h) = appv h;
  app_of_discard : forall h, appv (discardTx h) = appv h;
  app_of_flush : forall h, appv (flushTx h) = appv h;
  app_of_flushRx : forall h, appv (flushRxHw h) = appv h;
  app_of_okState : forall b h, appv (setOkState b h) = appv h;
  app_of_delay : forall ms h, appv (delayMs ms h) = appv h;
  app_of_delayUs : forall us h, appv (delayUs us h) = appv h;
  app_of_malloc : forall n h, appv (snd (malloc n h)) = appv h;
  app_of_semCreate : forall h, appv (snd (semCreate h)) = appv h;
}.
Definition appq {H : Type} `{HalApp H} (h : H) : list Z := fst (appv h).
Lemma appq_avail {H} `{HalApp H} h : fst (appBufAvailable h) = lenZ (appq h).
Proof. apply app_avail. Qed.
Lemma appq_of_avail {H} `{HalApp H} h : appq (snd (appBufAvailable h)) = appq h.
Proof. unfold appq. by rewrite app_of_avail. Qed.
Lemma appq_of_now {H} `{HalApp H} h : appq (snd (nowMs h)) = appq h.
Proof. unfold appq. by rewrite app_of_now. Qed.
Lemma appq_pop {H} `{HalApp H} n h :
  fst (popAppBuf n h) = take (Z.to_nat n) (appq h) /\
  appq (snd (popAppBuf n h)) = drop (Z.to_nat n) (appq h).
Proof. apply app_pop. Qed.

(** ** The desktop mock *)

Record MockHal := mkMockHal {
  m_now : Z;
  m_spd : Z;
  m_txBuf : list Z;
  m_txCap : Z;
  m_appBuf : list Z;
  m_appBufCap : Z;
  m_breaks : Z;
  m_timer : Z;
  m_ok : bool;
  m_tryLock : bool;
}.
#[export] Instance eta_MockHal : Eta MockHal := fun r =>
  mkMockHal (m_now r) (m_spd r) (m_txBuf r) (m_txCap r) (m_appBuf r) (m_appBufCap r)
    (m_breaks r) (m_timer r) (m_ok r) (m_tryLock r).

Definition mock_init (cap : Z) : MockHal := mkMockHal 0 9600 [] cap [] 65536 0 0 false true.

Definition mock_room (h : MockHal) : Z :=
  let room := m_txCap h - lenZ (m_txBuf h) in if room <? 0 then 0 else room.

Definition mock_tx (b : list Z) (h : MockHal) : (Z * Z) * MockHal :=
  let n := if lenZ b >? mock_room h then mock_room h else lenZ b in
  ((n, 0), h <| m_txBuf ::= (fun l => l ++ take (Z.to_nat n) b) |>).

Definition mock_advance (ms : Z) (h : MockHal) : MockHal :=
  if ms >? 0 then h <| m_now ::= (fun t => u32 (t + ms)) |> else h.

Definition mock_push (b : list Z) (h : MockHal) : Z * MockHal :=
  let room := m_appBufCap h - lenZ (m_appBuf h) in
  let acc := Z.max 0 (Z.min (lenZ b) room) in
  (acc, h <| m_appBuf ::= (fun l => l ++ take (Z.to_nat acc) b) |>).

(** The queue holds [uint8_t]s. *)
Definition mock_pop (n : Z) (h : MockHal) : list Z * MockHal :=
  (map u8 (take (Z.to_nat n) (m_appBuf h)), h <| m_appBuf ::= drop (Z.to_nat n) |>).

#[export] Instance mock_hal : IHal MockHal := {
  hal_begin := fun _ h => h;
  setSpd := fun s h => h <| m_spd := s |>;
  sendBreak := fun h => h <| m_breaks ::= (fun n => n + 1) |>;
  tx := mock_tx;
  txAvail := fun h => (mock_room h, h);
  txRingSize := m_txCap;
  rxRingSize := fun _ => 0;
  flushTx := fun h => h;
  discardTx := fun h => h;
  startTimer := fun ms h => h <| m_timer := ms |>;
  delayMs := mock_advance;
  delayUs := fun us h => mock_advance ((us + 999) / 1000) h;
  nowMs := fun h => (u32 (m_now h), h);
  tryLock := fun _ h => (m_tryLock h, h);
  pushAppBuf := mock_push;
  popAppBuf := mock_pop;
  peekAppBuf := fun h => (match m_appBuf h with [] => -1 | b :: _ => u8 b end, h);
  appBufAvailable := fun h => (lenZ (m_appBuf h), h);
  appBufFree := fun h => (m_appBufCap h - lenZ (m_appBuf h), h);
  clearAppBuf := fun h => h <| m_appBuf := [] |>;
  flushRxHw := fun h => h;
  setOkState := fun ok h => h <| m_ok := ok |>;
  semWait := mock_advance;
  malloc := fun _ h => (true, h);
  semCreate := fun h => (true, h);
}.

#[export] Instance mock_laws : IHalLaws MockHal.
Proof.
  split.
  - intros h. apply u32_range.
  - intros b h. pose proof (lenZ_nonneg b). cbn. lia.
  - intros n h Hn. cbn. unfold lenZ. rewrite length_map, length_take. lia.
  - intros n h. cbn. apply Forall_map, Forall_forall. intros x _. apply u8_byte.
Qed.

Lemma map_u8_bytes l : bytes l -> map u8 l = l.
Proof. induction 1 as [|x l Hx _ IH]; [done|]. cbn. by rewrite u8_small, IH. Qed.

(** The mock's queue of [uint8_t]s. *)
#[export] Instance mock_app : HalApp MockHal.
Proof.
  refine {| appv := fun h => (map u8 (m_appBuf h), m_appBufCap h) |}; try done.
  - intros b h Hb. cbn. rewrite map_app. f_equal. f_equal. by apply map_u8_bytes, bytes_take.
  - intros b h. cbn. unfold lenZ. rewrite length_map. lia.
  - intros n h _ _. cbn. unfold lenZ. by rewrite length_map.
  - intros n h. cbn. by rewrite skipn_map, firstn_map.
  - intros h. cbn. unfold lenZ. by rewrite length_map.
  - intros ms h. cbn. unfold mock_advance. by case_match.
  - intros us h. cbn. unfold mock_advance. by case_match.
Defined.

End Hal.
