(* ===== verification/EspHal.v ===== *)
(** * The ESP32 hardware layer ([src/al/hal/EspHal.h], [EspHal.cpp])

    [EspHal] over the ESP-IDF driver and FreeRTOS, which are not part of the
    program: [Idf] has one operation per call the class makes, over an abstract
    device state, and [IdfLaws] what their manuals say: how the stream buffer
    answers, the one service whose results the link depends on, and which objects
    ([Owned]) a call creates and gives back. The file shows that
    [EspHal] keeps its bookkeeping well formed and implements the two contracts
    of [Hal] the link's theorems assume, so these hold on the device. *)
From S2P Require Import Prelude Monad Config Hal.
Import Config Hal.

Module EspHal.

(** ** The driver and the operating system *)

(** Calls that report a status, a number or nothing. *)
Inductive IdfCall :=
  | uart_wait_tx_done (ms : Z) | uart_flush_input | uart_set_baudrate (spd : Z)
  | uart_write_bytes (b : list Z) | uart_write_bytes_with_break (b : list Z) (brk : Z)
  | uart_is_driver_installed | uart_driver_delete | uart_driver_install (rx tx queue : Z)
  | uart_param_config | uart_set_pin | gpio_set_pull_mode
  | esp_timer_get_time | millis | esp_get_free_heap_size
  | xTimerCreate (ms : Z) | xTimerChangePeriod (ms blk : Z) | xTimerStart (blk : Z)
  | xTimerStop (blk : Z) | xTimerDelete (blk : Z) | xTaskCreatePinnedToCore (core : Z)
  | vTaskDelay (ms : Z) | ets_delay_us (us : Z)
  | xSemaphoreCreate | vSemaphoreDelete | xSemaphoreTake (ms : Z) | xSemaphoreGive
  | xQueueReset | taskYIELD | malloc (n : Z)
  (** not a call but the scheduler's choice: whether a task just created runs its
      first instruction only after the code that follows its creation *)
  | task_starts_late.

(** What of the system's objects exists: the UART driver, the semaphores, the stream
    buffers, the tasks and the timers. *)
Record Owned := mkOwned { driver : bool; sems : Z; buffers : Z; tasks : Z; timers : Z }.
#[export] Instance eta_Owned : Eta Owned := fun r =>
  mkOwned (driver r) (sems r) (buffers r) (tasks r) (timers r).


Class Idf (D : Type) := {
  idf : IdfCall -> D -> Z * D;
  (** [esp_err_t] and the out-parameter: [None] for an error *)
  uart_get_tx_buffer_free_size : D -> option Z;
  xStreamBufferCreate : Z -> D -> bool * D;
  vStreamBufferDelete : D -> D;
  xStreamBufferSend : list Z -> D -> Z * D;
  xStreamBufferReceive : Z -> D -> list Z * D;
  xStreamBufferBytesAvailable : D -> Z;
  xStreamBufferSpacesAvailable : D -> Z;
  xStreamBufferReset : D -> D;
}.

Definition ESP_OK : Z := 0.
Definition ESP_ERR_NO_MEM : Z := 0x101.
Definition pdPASS : Z := 1.

(** What a call with the answer [r] creates or gives back. *)
Definition own_step (f : IdfCall) (r : Z) (o : Owned) : Owned :=
  match f with
  | uart_driver_install _ _ _ => if r =? ESP_OK then o <| driver := true |> else o
  | uart_driver_delete => o <| driver := false |>
  | xSemaphoreCreate => if r =? 0 then o else o <| sems ::= Z.succ |>
  | vSemaphoreDelete => o <| sems ::= Z.pred |>
  | xTaskCreatePinnedToCore _ => if r =? pdPASS then o <| tasks ::= Z.succ |> else o
  | xTimerCreate _ => if r =? 0 then o else o <| timers ::= Z.succ |>
  | xTimerDelete _ => o <| timers ::= Z.pred |>
  | _ => o
  end.

(** The stream buffer, when there is one: the bytes in it and the number it can
    hold. It is a queue of [uint8_t]; a send without waiting takes what fits. And
    the objects that exist ([own]). *)
Class IdfLaws (D : Type) `{Idf D} := {
  sbv : D -> option (list Z * Z);
  sb_wf : forall d q c, sbv d = Some (q, c) -> bytes q /\ lenZ q <= c /\ 1 <= c < 2147483648;
  sb_of_idf : forall f d, sbv (snd (idf f d)) = sbv d;
  sb_create : forall n d, sbv (snd (xStreamBufferCreate n d)) =
    if fst (xStreamBufferCreate n d) then Some ([], n) else sbv d;
  sb_delete : forall d, sbv (vStreamBufferDelete d) = None;
  sb_send : forall b d q c, sbv d = Some (q, c) ->
    fst (xStreamBufferSend b d) = Z.min (lenZ b) (c - lenZ q) /\
    sbv (snd (xStreamBufferSend b d)) =
      Some (q ++ take (Z.to_nat (fst (xStreamBufferSend b d))) (map u8 b), c);
  sb_receive : forall n d q c, sbv d = Some (q, c) -> 0 <= n ->
    fst (xStreamBufferReceive n d) = take (Z.to_nat n) q /\
    sbv (snd (xStreamBufferReceive n d)) = Some (drop (Z.to_nat n) q, c);
  sb_available : forall d q c, sbv d = Some (q, c) -> xStreamBufferBytesAvailable d = lenZ q;
  sb_spaces : forall d q c, sbv d = Some (q, c) -> xStreamBufferSpacesAvailable d = c - lenZ q;
  sb_reset : forall d q c, sbv d = Some (q, c) -> sbv (xStreamBufferReset d) = Some ([], c);
  own : D -> Owned;
  own_idf : forall f d, own (snd (idf f d)) = own_step f (fst (idf f d)) (own d);
  own_installed : forall d, fst (idf uart_is_driver_installed d) = 0 <-> driver (own d) = false;
  own_create : forall n d, own (snd (xStreamBufferCreate n d)) =
    (own d) <| buffers ::= (fun k => k + (if fst (xStreamBufferCreate n d) then 1 else 0)) |>;
  own_delete : forall d, own (vStreamBufferDelete d) = (own d) <| buffers ::= Z.pred |>;
}.

Definition tskNO_AFFINITY : Z := 2147483647.
Definition PEEK_BUF_CAP : Z := 16.
Definition kServiceableFloor : Z := 20 * 1024.
Definition INT32_MAX : Z := 2147483647.

(** ** The class *)

(** The members that carry state; a handle is a flag (null or not). *)
Record EspHal {D : Type} := mkEsp {
  cfg : AutoLinkConfig;
  last_setspd_ms : Z;
  task_handle : bool;
  timer_handle : bool;
  stream_buf : bool;
  mutex : bool;
  task_exit_sem : bool;
  running : bool;
  okState : bool;
  breakWindowEpoch_ : Z;
  healthy : bool;
  rxOverflows_ : Z;
  rxFrameErrs_ : Z;
  singleCoreEvTask_ : bool;
  stream_buf_size_ : Z;
  rx_buffer_size_ : Z;
  tx_buffer_size_ : Z;
  peek_buf_ : list Z;
  peek_buf_len_ : Z;
  peek_buf_pos_ : Z;
  appBufNullLogged_ : bool;
  dev : D;
}.
#[global] Arguments EspHal D : clear implicits.
#[global] Arguments mkEsp {D}.
#[export] Instance eta_EspHal {D} : Eta (EspHal D) := fun r =>
  mkEsp (cfg r) (last_setspd_ms r) (task_handle r) (timer_handle r) (stream_buf r) (mutex r)
    (task_exit_sem r) (running r) (okState r) (breakWindowEpoch_ r) (healthy r) (rxOverflows_ r)
    (rxFrameErrs_ r) (singleCoreEvTask_ r) (stream_buf_size_ r) (rx_buffer_size_ r)
    (tx_buffer_size_ r) (peek_buf_ r) (peek_buf_len_ r) (peek_buf_pos_ r) (appBufNullLogged_ r)
    (dev r).

Section EspHal.
Context {D : Type} `{Idf D}.
Abbreviation Esp := (M (EspHal D)).

Definition self : Esp (EspHal D) := gets id.
Definition call (f : IdfCall) : Esp Z := fun h =>
  let '(r, d) := idf f (dev h) in Some (r, h <| dev := d |>).
Definition fld {T} (p : EspHal D -> T) {s : Setter p} (v : T) : Esp unit :=
  modify (rset p (fun _ => v)).

(** [EspHal::EspHal]. *)
Definition esp_init (config : AutoLinkConfig) (d : D) : EspHal D :=
  mkEsp config 0 false false false false false false false 0 false 0 0 false 0 0 0
    (replicate 16 0) 0 0 false d.

(** ** Start *)

(** [free]: what [esp_get_free_heap_size] reports. *)
Definition esp_txBufferFloor (c : AutoLinkConfig) (free : Z) : Z :=
  uartTxBufferFloorCapped c free (heapReserveBytes c).

Definition setMode (m : Mode) : Esp unit :=
  h <- self;;
  modify (fun h => h <| cfg := (cfg h) <| mode := m |> |>);;
  if running h then ret tt
  else
    h <- self;;
    fld rx_buffer_size_ (uartRxBufferFloor (cfg h));;
    free <- call esp_get_free_heap_size;;
    fld tx_buffer_size_ (esp_txBufferFloor (cfg h) free);;
    fld stream_buf_size_ (streamBufferFloor (cfg h)).

Definition getMode (h : EspHal D) : Mode := mode (cfg h).

(** The lambda [cleanup] of [begin]. *)
Definition cleanup : Esp unit :=
  fld running false;;
  fld tx_buffer_size_ 0;;
  fld rx_buffer_size_ 0;;
  fld stream_buf_size_ 0;;
  h <- self;;
  when (mutex h) (_ <- call vSemaphoreDelete;; fld mutex false);;
  when (task_exit_sem h) (_ <- call vSemaphoreDelete;; fld task_exit_sem false);;
  when (stream_buf h) (
    modify (fun h => h <| dev := vStreamBufferDelete (dev h) |>);;
    fld stream_buf false).

(** Everything of [begin] after the guard: [true] when the link layer can run
    on it. *)
Definition begin_alloc (totalFree : Z) : Esp bool :=
  h <- self;;
  let dist := distributeHeapBudget (cfg h) totalFree in
  fld stream_buf_size_ (streamBuf dist);;
  fld rx_buffer_size_ (rxBuf dist);;
  fld tx_buffer_size_ (txBuf dist);;
  if (streamBuf dist =? 0) || (rxBuf dist =? 0) || (txBuf dist =? 0) then ret false
  else
    h <- self;;
    ok <- (if stream_buf h then ret true
           else
             let '(ok, d) := xStreamBufferCreate (stream_buf_size_ h) (dev h) in
             modify (fun h => h <| dev := d |>);;
             fld stream_buf ok;;
             ret ok);;
    if negb ok then ret false
    else ret (negb (postFree dist <? kServiceableFloor)).

Definition begin_uart : Esp bool :=
  i <- call uart_is_driver_installed;;
  when (negb (i =? 0)) (_ <- call uart_driver_delete;; ret tt);;
  h <- self;;
  e <- call (uart_driver_install (rx_buffer_size_ h) (tx_buffer_size_ h) 64);;
  if e =? ESP_ERR_NO_MEM then ret false
  else if negb (e =? ESP_OK) then ret false
  else
    e <- call uart_param_config;;
    if negb (e =? ESP_OK) then _ <- call uart_driver_delete;; ret false
    else
      e <- call uart_set_pin;;
      if negb (e =? ESP_OK) then _ <- call uart_driver_delete;; ret false
      else
        _ <- call gpio_set_pull_mode;;
        ret true.

(** How the last step ends. *)
Inductive Started := TaskFailed | TimerFailed | AllStarted.

(** [evCore]: the core the preprocessor chose. *)
Definition begin_task (evCore : Z) : Esp Started :=
  fld singleCoreEvTask_ (evCore =? tskNO_AFFINITY);;
  r <- call (xTaskCreatePinnedToCore evCore);;
  if negb (r =? pdPASS) then _ <- call uart_driver_delete;; ret TaskFailed
  else
    fld task_handle true;;
    t <- call (xTimerCreate 50);;
    fld timer_handle (negb (t =? 0));;
    if t =? 0 then _ <- call uart_driver_delete;; ret TimerFailed
    else ret AllStarted.

(** The first instruction of the created task, [hal->running = true]
    ([EspHalUartEvent.h], line 14), where it shows: [running] is [true] when the
    task is created, so only a start after the clean-up changes it. *)
Definition first_run : Esp unit :=
  late <- call task_starts_late;;
  when (negb (late =? 0)) (fld running true).

Definition begin_ (evCore : Z) : Esp unit :=
  h <- self;;
  if running h then ret tt
  else
    fld running true;;
    (if mutex h then ret tt else m <- call xSemaphoreCreate;; fld mutex (negb (m =? 0)));;
    (if task_exit_sem h then ret tt
     else m <- call xSemaphoreCreate;; fld task_exit_sem (negb (m =? 0)));;
    h <- self;;
    when (rx_buffer_size_ h =? 0) (fld rx_buffer_size_ (uartRxBufferFloor (cfg h)));;
    when (tx_buffer_size_ h =? 0)
      (free <- call esp_get_free_heap_size;; fld tx_buffer_size_ (esp_txBufferFloor (cfg h) free));;
    fld stream_buf_size_ (streamBufferFloor (cfg h));;
    free <- call esp_get_free_heap_size;;
    a <- begin_alloc free;;
    if negb a then cleanup
    else
      u <- begin_uart;;
      if negb u then cleanup
      else
        t <- begin_task evCore;;
        match t with
        | TaskFailed => cleanup
        | TimerFailed => cleanup;; first_run
        | AllStarted => fld healthy true
        end.

Definition begin_with (evCore : Z) (c : AutoLinkConfig) : Esp unit :=
  h <- self;;
  when (negb (running h)) (fld cfg c;; setMode (mode c));;
  begin_ evCore.

(** [EspHal::~EspHal]: the task is asked to leave and waited for, forever, before
    anything it uses is given back. *)
Definition destroy : Esp unit :=
  fld running false;;
  h <- self;;
  when (task_handle h && task_exit_sem h) (_ <- call (xSemaphoreTake 0xFFFFFFFF);; ret tt);;
  when (task_exit_sem h) (_ <- call vSemaphoreDelete;; ret tt);;
  when (timer_handle h) (_ <- call (xTimerDelete 0);; ret tt);;
  _ <- call uart_driver_delete;;
  when (stream_buf h) (modify (fun h => h <| dev := vStreamBufferDelete (dev h) |>));;
  when (mutex h) (_ <- call vSemaphoreDelete;; ret tt).

(** ** The UART and the timer *)

(** [(uint32_t)(esp_timer_get_time() / 1000)]. *)
Definition timer_ms : Esp Z := us <- call esp_timer_get_time;; ret (u32 (us ÷ 1000)).

Definition setSpd (spd : Z) : Esp unit :=
  _ <- call (uart_wait_tx_done 20);;
  _ <- call uart_flush_input;;
  _ <- call (uart_set_baudrate spd);;
  t <- timer_ms;;
  fld last_setspd_ms t.

Definition sendBreak : Esp unit := _ <- call (uart_write_bytes_with_break [32] 15);; ret tt.

(** The count, and the milliseconds passed to [onTxBlockedNote]. *)
Definition tx (b : list Z) : Esp (Z * Z) :=
  t0 <- timer_ms;;
  w <- call (uart_write_bytes b);;
  t1 <- timer_ms;;
  ret (w, u32 (t1 - t0)).

Definition txAvail : Esp Z :=
  h <- self;;
  ret (match uart_get_tx_buffer_free_size (dev h) with Some n => i32 n | None => 0 end).

Definition flushTx : Esp unit := _ <- call (uart_wait_tx_done 100);; ret tt.
Definition discardTx : Esp unit := _ <- call (uart_wait_tx_done 20);; ret tt.

(** [for (i = 0; i < 3; i++)]. *)
Fixpoint startTimer_loop (k : nat) (ms : Z) : Esp unit :=
  match k with
  | O => ret tt
  | S k =>
      a <- call (xTimerChangePeriod ms 20);;
      b <- (if a =? pdPASS then call (xTimerStart 20) else ret 0);;
      if (a =? pdPASS) && (b =? pdPASS) then ret tt else startTimer_loop k ms
  end.
Definition startTimer (ms : Z) : Esp unit :=
  h <- self;;
  if timer_handle h then startTimer_loop 3 ms else ret tt.

Definition stopTimer : Esp unit :=
  h <- self;;
  when (timer_handle h) (_ <- call (xTimerStop 20);; ret tt).

Definition delayMs (ms : Z) : Esp unit := _ <- call (vTaskDelay ms);; ret tt.
Definition delayUs (us : Z) : Esp unit := _ <- call (ets_delay_us us);; ret tt.
Definition nowMs : Esp Z := t <- call millis;; ret (u32 t).

Definition lock : Esp unit :=
  h <- self;; when (mutex h) (_ <- call (xSemaphoreTake 0xFFFFFFFF);; ret tt).
Definition unlock : Esp unit := h <- self;; when (mutex h) (_ <- call xSemaphoreGive;; ret tt).
Definition tryLock (timeoutMs : Z) : Esp bool :=
  h <- self;;
  if negb (mutex h) then ret true
  else r <- call (xSemaphoreTake timeoutMs);; ret (r =? pdPASS).

(** ** The application's byte buffer

    A byte that was peeked at has left the stream buffer and waits in
    [peek_buf_], between [peek_buf_pos_] and [peek_buf_len_]. *)

Definition sb_take (n : Z) : Esp (list Z) := fun h =>
  let '(b, d) := xStreamBufferReceive n (dev h) in Some (b, h <| dev := d |>).

Definition pushAppBuf (b : list Z) : Esp Z :=
  h <- self;;
  if lenZ b <=? 0 then ret 0
  else if negb (stream_buf h) then fld appBufNullLogged_ true;; ret 0
  else
    let '(n, d) := xStreamBufferSend b (dev h) in
    modify (fun h => h <| dev := d |>);;
    ret (i32 n).

(** [while (total < max_len && pos < len)], [k] rounds left; the bytes copied
    and the final position. *)
Fixpoint pop_peek (k : nat) (buf : list Z) (len pos : Z) : list Z * Z :=
  match k with
  | O => ([], pos)
  | S k =>
      if pos <? len then
        let '(r, p) := pop_peek k buf len (pos + 1) in (rd 0 buf pos :: r, p)
      else ([], pos)
  end.

Definition popAppBuf (max_len : Z) : Esp (list Z) :=
  h <- self;;
  let '(r, pos) := pop_peek (Z.to_nat max_len) (peek_buf_ h) (peek_buf_len_ h) (peek_buf_pos_ h) in
  fld peek_buf_pos_ pos;;
  when (pos >=? peek_buf_len_ h) (fld peek_buf_len_ 0;; fld peek_buf_pos_ 0);;
  if (lenZ r <? max_len) && stream_buf h then
    b <- sb_take (max_len - lenZ r);;
    ret (r ++ b)
  else ret r.

(** Appending to [peek_buf_]. *)
Definition stash (b : Z) : Esp unit :=
  modify (fun h => h <| peek_buf_ := wr (peek_buf_ h) (peek_buf_len_ h) b |>
                     <| peek_buf_len_ ::= (fun n => n + 1) |>).

Definition peekAppBuf : Esp Z :=
  h <- self;;
  if peek_buf_pos_ h <? peek_buf_len_ h then ret (rd 0 (peek_buf_ h) (peek_buf_pos_ h))
  else if stream_buf h then
    b <- sb_take 1;;
    match b with
    | [x] =>
        if peek_buf_len_ h <? PEEK_BUF_CAP then
          stash x;;
          h <- self;;
          ret (rd 0 (peek_buf_ h) (peek_buf_pos_ h))
        else ret (-1)
    | _ => ret (-1)
    end
  else ret (-1).

(** [while (copied < n)]: [k] bytes left to copy. *)
Fixpoint peekAt_loop (k : nat) : Esp (list Z) :=
  match k with
  | O => ret []
  | S k =>
      h <- self;;
      if negb (stream_buf h) then ret []
      else
        b <- sb_take 1;;
        match b with
        | [x] =>
            when (peek_buf_len_ h <? PEEK_BUF_CAP) (stash x);;
            r <- peekAt_loop k;;
            ret (x :: r)
        | _ => ret []
        end
  end.

(** The bytes copied to [out]. *)
Definition peekAt (n offset : Z) : Esp (list Z) :=
  if (n <=? 0) || (offset <? 0) then ret []
  else
    h <- self;;
    let from :=
      if offset <? peek_buf_len_ h
      then Z.min n (peek_buf_len_ h - offset) else 0 in
    let out := take (Z.to_nat from) (drop (Z.to_nat offset) (peek_buf_ h)) in
    r <- peekAt_loop (Z.to_nat (n - from));;
    ret (out ++ r).

Definition appBufAvailable : Esp Z :=
  h <- self;;
  let n := if stream_buf h then i32 (xStreamBufferBytesAvailable (dev h)) else 0 in
  ret (n + (peek_buf_len_ h - peek_buf_pos_ h)).

Definition appBufFree : Esp Z :=
  h <- self;;
  if negb (stream_buf h) then ret INT32_MAX
  else
    let free_ := xStreamBufferSpacesAvailable (dev h) in
    ret (if free_ >? 0 then i32 (free_ - 1) else 0).

Definition clearAppBuf : Esp unit :=
  h <- self;;
  when (stream_buf h) (modify (fun h => h <| dev := xStreamBufferReset (dev h) |>));;
  fld peek_buf_len_ 0;;
  fld peek_buf_pos_ 0.

Definition flushRxHw : Esp unit := _ <- call uart_flush_input;; ret tt.

Definition setOkState (ok : bool) : Esp unit :=
  h <- self;;
  when (ok && negb (okState h)) (modify (fun h => h <| breakWindowEpoch_ ::= (fun e => u32 (e + 1)) |>));;
  fld okState ok.

(** ** The object as the link's hardware *)

Definition exec {A} (m : Esp A) (h : EspHal D) : EspHal D :=
  match m h with Some (_, h') => h' | None => h end.
Definition eval {A} (a : A) (m : Esp A) (h : EspHal D) : A * EspHal D :=
  match m h with Some r => r | None => (a, h) end.

(** The wait on the ACK semaphore is [Link]'s own call into FreeRTOS. *)
Definition sem_wait (ms : Z) : Esp unit := _ <- call (xSemaphoreTake ms);; ret tt.
Definition heap_alloc (n : Z) : Esp bool := r <- call (malloc n);; ret (negb (r =? 0)).
Definition sem_create : Esp bool := r <- call xSemaphoreCreate;; ret (negb (r =? 0)).

(** [evCore] is fixed by the build. *)
Definition esp_raw (evCore : Z) : IHal (EspHal D) := {|
  hal_begin := fun c => exec (begin_with evCore c);
  Hal.setSpd := fun s => exec (setSpd s);
  Hal.sendBreak := exec sendBreak;
  Hal.tx := fun b => eval (0, 0) (tx b);
  Hal.txAvail := eval 0 txAvail;
  txRingSize := tx_buffer_size_;
  rxRingSize := stream_buf_size_;
  Hal.flushTx := exec flushTx;
  Hal.discardTx := exec discardTx;
  Hal.startTimer := fun ms => exec (startTimer ms);
  Hal.delayMs := fun ms => exec (delayMs ms);
  Hal.delayUs := fun us => exec (delayUs us);
  Hal.nowMs := eval 0 nowMs;
  Hal.tryLock := fun ms => eval true (tryLock ms);
  Hal.pushAppBuf := fun b => eval 0 (pushAppBuf b);
  Hal.popAppBuf := fun n => eval [] (popAppBuf n);
  Hal.peekAppBuf := eval (-1) peekAppBuf;
  Hal.appBufAvailable := eval 0 appBufAvailable;
  Hal.appBufFree := eval 0 appBufFree;
  Hal.clearAppBuf := exec clearAppBuf;
  Hal.flushRxHw := exec flushRxHw;
  Hal.setOkState := fun b => exec (setOkState b);
  semWait := fun ms => exec (sem_wait ms);
  Hal.malloc := fun n => eval false (heap_alloc n);
  semCreate := eval false sem_create;
|}.

(** ** Well-formedness and the byte queue *)

Definition esp_inv `{!IdfLaws D} (h : EspHal D) : Prop :=
  (0 <= peek_buf_pos_ h < peek_buf_len_ h \/ peek_buf_pos_ h = 0 /\ peek_buf_len_ h = 0) /\
  peek_buf_len_ h <= PEEK_BUF_CAP /\ lenZ (peek_buf_ h) = PEEK_BUF_CAP /\
  bytes (peek_buf_ h) /\ (stream_buf h = true -> sbv (dev h) <> None).

(** What was peeked at and not read. *)
Definition pending (h : EspHal D) : list Z :=
  take (Z.to_nat (peek_buf_len_ h - peek_buf_pos_ h)) (drop (Z.to_nat (peek_buf_pos_ h)) (peek_buf_ h)).

Definition sb_view `{!IdfLaws D} (h : EspHal D) : option (list Z * Z) :=
  if stream_buf h then sbv (dev h) else None.

(** The bytes the application has not read, and how many the object can hold
    with one place of the stream buffer kept free. *)
Definition esp_view `{!IdfLaws D} (h : EspHal D) : list Z * Z :=
  match sb_view h with
  | Some (q, c) => (pending h ++ q, lenZ (pending h) + (c - 1))
  | None => (pending h, -1)
  end.

Definition seen `{!IdfLaws D} (v : list Z * Z) (h : EspHal D) : Prop := esp_inv h /\ esp_view h = v.
End EspHal.

Section Laws.
Context {D : Type} `{IdfLaws D}.

Lemma lenZ_pending h : esp_inv h -> lenZ (pending h) = peek_buf_len_ h - peek_buf_pos_ h.
Proof.
  intros (Hp & Hc & Hb & _). unfold pending, lenZ in *. rewrite length_take, length_drop.
  unfold PEEK_BUF_CAP in *. lia.
Qed.

Lemma pending_bytes h : esp_inv h -> bytes (pending h).
Proof. intros (_ & _ & _ & Hb & _). unfold pending. by apply bytes_take, bytes_drop. Qed.

(** *** What leaves the queue alone *)

Lemma call_seen v f : keeps False (seen v) (call f).
Proof.
  intros h [(Hp & Hc & Hl & Hb & Hs) Hv]. unfold call, wpd.
  pose proof (sb_of_idf f (dev h)) as Hd. destruct (idf f (dev h)) as [r d] eqn:E. cbn [snd] in Hd.
  split; [split_and!; try done; cbn; by rewrite Hd|]. rewrite <- Hv. unfold esp_view, sb_view. cbn. by rewrite Hd.
Qed.

Lemma modify_seen v f : (forall h, seen v h -> seen v (f h)) -> keeps False (seen v) (modify f).
Proof. apply keeps_modify. Qed.

Lemma self_seen v : keeps False (seen v) self.
Proof. by intros h. Qed.
End Laws.

Create HintDb esp discriminated.

(** A method whose assignments are to other members. *)
Ltac esp_step :=
  lazymatch goal with
  | |- keeps _ _ (call _) => apply call_seen
  | |- keeps _ _ self => apply self_seen
  | |- keeps _ _ (fld _ _) => apply modify_seen; let Hs := fresh in intros ? Hs; exact Hs
  | |- keeps _ _ (modify _) => apply modify_seen; let Hs := fresh in intros ? Hs; exact Hs
  | |- _ => keeps_step
  end.
Ltac esp := repeat first [ solve [auto with esp nocore] | esp_step ].

Section Others.
Context {D : Type} `{IdfLaws D} (v : list Z * Z).
Abbreviation others := (keeps False (seen v)).

Lemma setSpd_seen s : others (setSpd s).
Proof. unfold setSpd, timer_ms. esp. Qed.
Lemma sendBreak_seen : others sendBreak.
Proof. unfold sendBreak. esp. Qed.
Lemma tx_seen b : others (tx b).
Proof. unfold tx, timer_ms. esp. Qed.
Lemma txAvail_seen : others txAvail.
Proof. unfold txAvail. esp. Qed.
Lemma startTimer_seen ms : others (startTimer ms).
Proof.
  unfold startTimer. esp. generalize 3%nat. intros k. induction k as [|k IH]; cbn [startTimer_loop]; esp.
Qed.
Lemma tryLock_seen t : others (tryLock t).
Proof. unfold tryLock. esp. Qed.
Lemma setOkState_seen b : others (setOkState b).
Proof. unfold setOkState. esp. Qed.
Lemma nowMs_seen : others nowMs.
Proof. unfold nowMs. esp. Qed.
Lemma heap_alloc_seen n : others (heap_alloc n).
Proof. unfold heap_alloc. esp. Qed.
Lemma sem_create_seen : others sem_create.
Proof. unfold sem_create. esp. Qed.
End Others.

(** Step through a method. *)
Lemma wpd_self {D} d (Q : EspHal D -> EspHal D -> Prop) h : Q h h -> wpd d self Q h.
Proof. done. Qed.
Lemma wpd_fld {D T} d (p : EspHal D -> T) {s : Setter p} (v : T) Q h :
  Q tt (rset p (fun _ => v) h) -> wpd d (fld p v) Q h.
Proof. done. Qed.
Ltac es_step :=
  lazymatch goal with
  | |- wpd _ self _ _ => apply wpd_self
  | |- wpd _ (fld _ _) _ _ => apply wpd_fld
  | |- _ => wp_step
  end.
Ltac es := repeat (es_step; cbv beta).

Section Queue.
Context {D : Type} `{IdfLaws D}.
Implicit Types h : EspHal D.

Lemma view_none h : stream_buf h = false -> sb_view h = None.
Proof. unfold sb_view. by intros ->. Qed.

Lemma view_some h : esp_inv h -> stream_buf h = true ->
  exists q c, sb_view h = Some (q, c) /\ sbv (dev h) = Some (q, c) /\ bytes q /\ lenZ q <= c /\
              1 <= c < 2147483648.
Proof.
  intros (_ & _ & _ & _ & Hs) E. unfold sb_view. rewrite E. specialize (Hs E).
  destruct (sbv (dev h)) as [[q c]|] eqn:Ed; [|done]. exists q, c. destruct (sb_wf _ _ _ Ed) as (? & ? & ?).
  by split_and!; try lia.
Qed.

Lemma esp_view_bytes h : esp_inv h -> bytes (fst (esp_view h)).
Proof.
  intros Hi. unfold esp_view. pose proof (pending_bytes h Hi) as Hp.
  destruct (stream_buf h) eqn:Es; [|by rewrite view_none].
  destruct (view_some h Hi Es) as (q & c & -> & _ & Hq & _). by apply bytes_app.
Qed.

(** The device changes; the members do not. *)
Lemma esp_inv_dev h d : esp_inv h -> (stream_buf h = true -> sbv d <> None) -> esp_inv (h <| dev := d |>).
Proof. intros (Hp & Hc & Hl & Hb & _) Hd. by split_and!. Qed.

Lemma pushAppBuf_ok b h : esp_inv h ->
  wp (pushAppBuf b)
    (fun n h' => esp_inv h' /\ 0 <= n <= lenZ b /\
       esp_view h' = (fst (esp_view h) ++ take (Z.to_nat n) (map u8 b), snd (esp_view h)) /\
       (0 <= snd (esp_view h) -> lenZ b <= snd (esp_view h) - lenZ (fst (esp_view h)) -> n = lenZ b)) h.
Proof.
  intros Hi. pose proof (lenZ_nonneg b) as Hb. unfold pushAppBuf. es.
  destruct (Z.leb_spec (lenZ b) 0).
  { es. change (take (Z.to_nat 0) (map u8 b)) with (@nil Z). rewrite app_nil_r, <- surjective_pairing.
    split; [done|]. split_and!; done || lia. }
  destruct (stream_buf h) eqn:Es; cbn [negb].
  - destruct (view_some h Hi Es) as (q & c & Ev & Ed & Hq & Hl & Hc).
    destruct (sb_send b _ _ _ Ed) as [E1 E2].
    destruct (xStreamBufferSend b (dev h)) as [n d]. cbn [fst snd] in *. es.
    pose proof (lenZ_nonneg q). rewrite i32_small by lia. unfold esp_view. rewrite Ev.
    replace (sb_view (h <| dev := d |>)) with (Some (q ++ take (Z.to_nat n) (map u8 b), c))
      by (unfold sb_view; cbn; by rewrite Es, E2).
    change (pending (h <| dev := d |>)) with (pending h). cbn [fst snd].
    split; [apply esp_inv_dev; [done|by rewrite E2]|]. split; [lia|]. split; [by rewrite <- app_assoc|].
    intros _. rewrite lenZ_app. lia.
  - es. unfold esp_view. rewrite (view_none h Es). cbn [fst snd]. split; [apply Hi|].
    split; [lia|]. split; [|lia]. change (take (Z.to_nat 0) (map u8 b)) with (@nil Z). rewrite app_nil_r.
    replace (sb_view (h <| appBufNullLogged_ := true |>)) with (@None (list Z * Z))
      by (unfold sb_view; cbn; by rewrite Es). done.
Qed.

(** The loop of [popAppBuf] copies from the peeked bytes. *)
Lemma pop_peek_spec buf len k : forall pos,
  0 <= pos <= len -> len <= lenZ buf ->
  pop_peek k buf len pos =
    (take k (take (Z.to_nat (len - pos)) (drop (Z.to_nat pos) buf)),
     pos + Z.min (Z.of_nat k) (len - pos)).
Proof.
  induction k as [|k IH]; intros pos Hp Hl; cbn [pop_peek]; [f_equal; lia|].
  destruct (Z.ltb_spec pos len).
  - rewrite IH by lia. replace (Z.to_nat (len - pos)) with (S (Z.to_nat (len - (pos + 1)))) by lia.
    assert (Hd : drop (Z.to_nat pos) buf = rd 0 buf pos :: drop (Z.to_nat (pos + 1)) buf).
    { replace (Z.to_nat (pos + 1)) with (S (Z.to_nat pos)) by lia. apply drop_S.
      apply rd_in_range. lia. }
    rewrite Hd. cbn [take]. f_equal. lia.
  - replace (len - pos) with 0 by lia. cbn [Z.to_nat take]. f_equal. lia.
Qed.

(** The peeked bytes after [n] of them were read. *)
Lemma peek_advance {A} n h (k : M (EspHal D) A) Q :
  esp_inv h -> 0 <= n ->
  (forall h', esp_inv h' -> pending h' = drop (Z.to_nat n) (pending h) ->
     stream_buf h' = stream_buf h -> dev h' = dev h -> wp k Q h') ->
  wp (let pos := peek_buf_pos_ h + Z.min n (peek_buf_len_ h - peek_buf_pos_ h) in
      fld peek_buf_pos_ pos;;
      when (pos >=? peek_buf_len_ h) (fld peek_buf_len_ 0;; fld peek_buf_pos_ 0);;
      k) Q h.
Proof.
  intros Hi Hn HQ. pose proof (lenZ_pending h Hi) as Hlp. destruct Hi as (Hp & Hc & Hl & Hb & Hs).
  cbv zeta. set (pos := _ + _). es.
  destruct (Z.leb_spec (peek_buf_len_ h) pos) as [Hg|Hg].
  - es. apply HQ; try done.
    + split_and!; try done; cbn; unfold PEEK_BUF_CAP in *; lia.
    + rewrite (drop_ge (pending h)); [done|]. unfold lenZ, pos in *. lia.
  - es. apply HQ; try done.
    + split_and!; try done. cbn. unfold pos in *. lia.
    + unfold pending. cbn. rewrite skipn_firstn_comm, drop_drop. unfold pos in *.
      f_equal; [lia|]. f_equal. lia.
Qed.

Lemma sb_take_ok n q c h : esp_inv h -> sb_view h = Some (q, c) -> 0 <= n ->
  wp (sb_take n) (fun b h' => b = take (Z.to_nat n) q /\ esp_inv h' /\ pending h' = pending h /\
    sb_view h' = Some (drop (Z.to_nat n) q, c) /\ h' = h <| dev := dev h' |>) h.
Proof.
  intros Hi Ev Hn. unfold sb_view in Ev. destruct (stream_buf h) eqn:Es; [|done].
  destruct (sb_receive n _ _ _ Ev Hn) as [E1 E2]. unfold wp, wpd, sb_take.
  destruct (xStreamBufferReceive n (dev h)) as [b d]. cbn [fst snd] in *.
  split_and!; try done; [|unfold sb_view; cbn; by rewrite Es].
  apply esp_inv_dev; [done|]. by rewrite E2.
Qed.

Lemma view_cap h : esp_inv h -> (0 <= snd (esp_view h) <-> stream_buf h = true).
Proof.
  intros Hi. unfold esp_view. destruct (stream_buf h) eqn:Es.
  - destruct (view_some h Hi Es) as (q & c & -> & _ & _ & _ & Hc). cbn.
    pose proof (lenZ_nonneg (pending h)). split; [done|lia].
  - rewrite view_none by done. cbn. split; [lia|done].
Qed.

(** A read takes the peeked bytes first, then the stream buffer's: the queue's
    front. *)
Lemma popAppBuf_ok n h : esp_inv h ->
  wp (popAppBuf n)
    (fun r h' => esp_inv h' /\ r = take (Z.to_nat n) (fst (esp_view h)) /\
       fst (esp_view h') = drop (Z.to_nat n) (fst (esp_view h)) /\
       (0 <= snd (esp_view h) -> 0 <= snd (esp_view h'))) h.
Proof.
  intros Hi. pose proof (lenZ_pending h Hi) as Hlp. pose proof Hi as (Hp & Hc & Hl & _).
  unfold popAppBuf. apply wpd_bind, wpd_self. rewrite pop_peek_spec by (unfold PEEK_BUF_CAP in *; lia).
  fold (pending h). set (m := Z.of_nat (Z.to_nat n)).
  apply (peek_advance m h _ _ Hi); [lia|]. intros h1 Hi1 Hp1 Hs1 Hd1.
  unfold m in Hp1. rewrite Nat2Z.id in Hp1. clear m. set (P := pending h) in *.
  assert (Hsv : sb_view h1 = sb_view h) by (unfold sb_view; by rewrite Hs1, Hd1).
  assert (Hlt : length (take (Z.to_nat n) P) = Nat.min (Z.to_nat n) (length P)) by apply length_take.
  destruct (stream_buf h) eqn:Es.
  - destruct (view_some h Hi Es) as (q & c & Ev & _ & _ & Hq & Hcc). rewrite Ev in Hsv.
    assert (Hv : fst (esp_view h) = P ++ q) by (unfold esp_view; by rewrite Ev).
    rewrite Hv, firstn_app, skipn_app. rewrite andb_true_r.
    destruct (Z.ltb_spec (lenZ (take (Z.to_nat n) P)) n) as [Hn|Hn]; es.
    + eapply wpd_mono; [apply (sb_take_ok _ q c h1); [done|done|lia]|].
      intros b h2 (-> & Hi2 & Hp2 & Hv2 & Eh2). es. rewrite (view_cap h Hi), (view_cap h2 Hi2). split; [done|].
      assert (En : Z.to_nat (n - lenZ (take (Z.to_nat n) P)) = (Z.to_nat n - length P)%nat)
        by (unfold lenZ in *; lia).
      rewrite En in *. split; [done|]. split; [unfold esp_view; rewrite Hv2; cbn; by rewrite Hp2, Hp1|].
      intros _. by rewrite Eh2.
    + rewrite (view_cap h Hi), (view_cap h1 Hi1). split; [done|].
      assert (En : (Z.to_nat n - length P = 0)%nat) by (unfold lenZ in *; lia). rewrite En.
      split; [by rewrite app_nil_r|]. split; [unfold esp_view; rewrite Hsv; cbn; by rewrite Hp1|done].
  - rewrite andb_false_r. es. rewrite (view_cap h Hi), (view_cap h1 Hi1). rewrite view_none in Hsv by done.
    assert (Hv : fst (esp_view h) = P) by (unfold esp_view; by rewrite view_none).
    rewrite Hv. split_and!; try done; [|congruence]. unfold esp_view. by rewrite view_none.
Qed.

(** A byte moved from the stream buffer to the peeked ones. *)
Lemma stash_ok x h : esp_inv h -> is_byte x -> peek_buf_len_ h < PEEK_BUF_CAP ->
  wp (stash x) (fun _ h' => esp_inv h' /\ pending h' = pending h ++ [x] /\ sb_view h' = sb_view h /\
    peek_buf_pos_ h' = peek_buf_pos_ h /\ peek_buf_len_ h' = peek_buf_len_ h + 1 /\
    stream_buf h' = stream_buf h) h.
Proof.
  intros (Hp & Hc & Hl & Hb & Hs) Hx Hlt. unfold stash. es.
  set (h' := _ <| peek_buf_len_ ::= _ |>).
  assert (Hi' : esp_inv h').
  { split_and!; try done; cbn; try (unfold PEEK_BUF_CAP in *; lia); [by rewrite lenZ_wr|].
    by apply bytes_wr. }
  split_and!; try done. unfold pending. cbn. unfold PEEK_BUF_CAP, lenZ, wr in *.
  set (i := Z.to_nat (peek_buf_pos_ h)). set (e := Z.to_nat (peek_buf_len_ h)).
  replace (Z.to_nat (peek_buf_len_ h + 1 - peek_buf_pos_ h)) with (S (e - i)) by lia.
  replace (Z.to_nat (peek_buf_len_ h - peek_buf_pos_ h)) with (e - i)%nat by lia.
  rewrite (take_S_r _ _ x); [|rewrite lookup_drop; replace (i + (e - i))%nat with e by lia;
    apply list_lookup_insert_eq; lia].
  f_equal. by rewrite drop_insert_ge, take_insert_ge by lia.
Qed.

(** A peek returns the queue's front and leaves the queue alone: [-1] only when
    it is empty. *)
Lemma peekAppBuf_ok h : esp_inv h ->
  wp peekAppBuf (fun r h' => esp_inv h' /\ fst (esp_view h') = fst (esp_view h) /\
    (0 <= snd (esp_view h) -> 0 <= snd (esp_view h')) /\
    r = match fst (esp_view h) with [] => -1 | x :: _ => x end) h.
Proof.
  intros Hi. pose proof (lenZ_pending h Hi) as Hlp. pose proof Hi as (Hp & Hc & Hl & _).
  unfold peekAppBuf. apply wpd_bind, wpd_self.
  destruct (Z.ltb_spec (peek_buf_pos_ h) (peek_buf_len_ h)) as [Hlt|Hge].
  - es. split_and!; try done. unfold esp_view.
    assert (Hpn : pending h = rd 0 (peek_buf_ h) (peek_buf_pos_ h) ::
      take (Z.to_nat (peek_buf_len_ h - peek_buf_pos_ h - 1)) (drop (S (Z.to_nat (peek_buf_pos_ h))) (peek_buf_ h))).
    { unfold pending. rewrite (drop_S _ (rd 0 (peek_buf_ h) (peek_buf_pos_ h)) (Z.to_nat (peek_buf_pos_ h))).
      - replace (Z.to_nat (peek_buf_len_ h - peek_buf_pos_ h))
          with (S (Z.to_nat (peek_buf_len_ h - peek_buf_pos_ h - 1))) by lia. done.
      - apply rd_in_range. unfold PEEK_BUF_CAP in *. lia. }
    rewrite Hpn. by destruct (sb_view h) as [[]|].
  - assert (Hpos : peek_buf_pos_ h = 0 /\ peek_buf_len_ h = 0) by lia. destruct Hpos as [E1 E2].
    assert (Hpn : pending h = []) by (unfold pending; by rewrite E1, E2).
    destruct (stream_buf h) eqn:Es.
    + destruct (view_some h Hi Es) as (q & c & Ev & _ & Hq & Hqc & Hcc).
      assert (Hv : esp_view h = (q, c - 1)) by (unfold esp_view; rewrite Ev, Hpn; cbn; f_equal).
      rewrite Hv. cbn [fst snd]. apply wpd_bind.
      eapply wpd_mono; [apply (sb_take_ok 1 q c h); done || lia|].
      intros b h1 (-> & Hi1 & Hp1 & Hv1 & Eh1). rewrite Hpn in Hp1.
      assert (Es1 : stream_buf h1 = true) by (rewrite Eh1; exact Es).
      change (Z.to_nat 1) with 1%nat in *.
      destruct q as [|x q]; cbn [take drop] in *; es.
      * unfold esp_view. rewrite Hv1, Hp1. cbn. split_and!; try done; lia.
      * rewrite E2. change (0 <? PEEK_BUF_CAP) with true. cbv iota. rewrite take_0, drop_0 in *. es. inversion Hq; subst.
        assert (El1 : peek_buf_len_ h1 = 0 /\ peek_buf_pos_ h1 = 0) by (rewrite Eh1; done).
        eapply wpd_mono; [apply (stash_ok x h1 Hi1); [done|unfold PEEK_BUF_CAP; lia]|].
        intros ? h2 (Hi2 & Hp2 & Hv2 & Ep2 & El2 & Es2). es. rewrite Hp1 in Hp2. rewrite Hv1 in Hv2.
        unfold esp_view. rewrite Hv2, Hp2. cbn [fst snd app]. pose proof (lenZ_nonneg [x]).
        split_and!; try done; [lia|].
        destruct El1 as [El El']. unfold pending in Hp2. rewrite Ep2, El2, El, El' in Hp2. rewrite Ep2, El'. cbn in Hp2.
        destruct (peek_buf_ h2); cbn in Hp2; [done|]. by injection Hp2 as ->.
    + es. unfold esp_view. rewrite view_none by done. by rewrite Hpn.
Qed.

Lemma appBufAvailable_ok h : esp_inv h ->
  wp appBufAvailable (fun r h' => h' = h /\ r = lenZ (fst (esp_view h))) h.
Proof.
  intros Hi. pose proof (lenZ_pending h Hi) as Hlp. unfold appBufAvailable. es. split; [done|].
  unfold esp_view. destruct (stream_buf h) eqn:Es; [|rewrite view_none by done; cbn [fst]; lia].
  destruct (view_some h Hi Es) as (q & c & Ev & Ed & Hq & Hqc & Hcc). rewrite Ev. cbn [fst].
  rewrite (sb_available _ _ _ Ed), lenZ_app. pose proof (lenZ_nonneg q). rewrite i32_small by lia. lia.
Qed.

Lemma appBufFree_ok h : esp_inv h ->
  wp appBufFree (fun r h' => h' = h /\ forall n, 0 <= snd (esp_view h) -> 0 < n ->
    (r <? n) = (snd (esp_view h) - lenZ (fst (esp_view h)) <? n)) h.
Proof.
  intros Hi. unfold appBufFree. es. destruct (stream_buf h) eqn:Es; cbn [negb]; es; (split; [done|]).
  - intros n _ Hn. destruct (view_some h Hi Es) as (q & c & Ev & Ed & Hq & Hqc & Hcc).
    unfold esp_view. rewrite Ev. cbn [fst snd]. rewrite (sb_spaces _ _ _ Ed), lenZ_app. pose proof (lenZ_nonneg q).
    destruct (Z.ltb_spec 0 (c - lenZ q)); [rewrite i32_small by lia|];
      match goal with |- (?a <? n) = (?b <? n) => destruct (Z.ltb_spec a n), (Z.ltb_spec b n) end; lia.
  - intros n Hc. apply (view_cap h Hi) in Hc. congruence.
Qed.

Lemma clearAppBuf_ok h : esp_inv h ->
  wp clearAppBuf (fun _ h' => esp_inv h' /\ fst (esp_view h') = []) h.
Proof.
  intros Hi. pose proof Hi as (Hp & Hc & Hl & Hb & Hs). unfold clearAppBuf. es.
  destruct (stream_buf h) eqn:Es; es.
  - destruct (view_some h Hi Es) as (q & c & Ev & Ed & Hq & Hqc & Hcc). pose proof (sb_reset _ _ _ Ed) as Er.
    split; [unfold esp_inv; cbn; split_and!; try done; try (unfold PEEK_BUF_CAP; lia); by rewrite Er|].
    unfold esp_view, sb_view. cbn. by rewrite Es, Er.
  - split; [unfold esp_inv; cbn; split_and!; try done; try (unfold PEEK_BUF_CAP; lia); by rewrite Es|].
    unfold esp_view, sb_view. cbn. by rewrite Es.
Qed.
End Queue.

(** ** Start and failure *)

Section Blind.
Context {D : Type} `{IdfLaws D}.
Implicit Types h : EspHal D.

(** A predicate that reads the device only through [sbv]. *)
Definition dev_blind (I : EspHal D -> Prop) : Prop :=
  forall h d, sbv d = sbv (dev h) -> I h -> I (h <| dev := d |>).

Lemma wpd_call f Q h :
  (forall r d, sbv d = sbv (dev h) -> Q r (h <| dev := d |>)) -> wpd False (call f) Q h.
Proof.
  intros HQ. unfold call, wpd. pose proof (sb_of_idf f (dev h)) as Hd.
  destruct (idf f (dev h)) as [r d]. by apply HQ.
Qed.

Lemma keeps_call I f : dev_blind I -> keeps False I (call f).
Proof. intros HI h Hh. apply wpd_call. intros r d Hd. by apply HI. Qed.
Lemma keeps_self (I : EspHal D -> Prop) : keeps False I self.
Proof. by intros h. Qed.
Lemma keeps_fld {T} I (p : EspHal D -> T) {s : Setter p} (v : T) :
  (forall h, I h -> I (rset p (fun _ => v) h)) -> keeps False I (fld p v).
Proof. apply keeps_modify. Qed.

(** One that reads the objects that exist, too, across calls that leave them. *)
Definition own_blind (I : EspHal D -> Prop) : Prop :=
  forall h d, sbv d = sbv (dev h) -> own d = own (dev h) -> I h -> I (h <| dev := d |>).

Lemma wpd_owns f Q h :
  (forall r d, sbv d = sbv (dev h) -> own d = own_step f r (own (dev h)) -> Q r (h <| dev := d |>)) ->
  wpd False (call f) Q h.
Proof.
  intros HQ. unfold call, wpd. pose proof (sb_of_idf f (dev h)) as Hd. pose proof (own_idf f (dev h)) as Ho.
  destruct (idf f (dev h)) as [r d]. by apply HQ.
Qed.

Lemma keeps_owns I f : own_blind I -> (forall r o, own_step f r o = o) -> keeps False I (call f).
Proof. intros HI Hf h Hh. apply wpd_owns. intros r d Hd Ho. rewrite Hf in Ho. by apply HI. Qed.

Lemma inv_blind : dev_blind esp_inv.
Proof. intros h d Hd (Hp & Hc & Hl & Hb & Hs). split_and!; try done. cbn. by rewrite Hd. Qed.

End Blind.

(** Preservation of what does not look at the device. *)
Ltac quiet_step blind :=
  lazymatch goal with
  | |- keeps _ _ self => apply keeps_self
  | |- keeps _ _ (call _) => apply keeps_call; apply blind
  | |- keeps _ _ (fld _ _) => apply keeps_fld; let Hh := fresh in intros ? Hh; exact Hh
  | |- keeps _ _ (modify _) => apply keeps_modify; let Hh := fresh in intros ? Hh; exact Hh
  | |- _ => keeps_step
  end.

(** The same for what reads the accounts, too. *)
Ltac quiet_own blind :=
  lazymatch goal with
  | |- keeps _ _ self => apply keeps_self
  | |- keeps _ _ (call _) => apply keeps_owns; [apply blind|done]
  | |- keeps _ _ (fld _ _) => apply keeps_fld; let Hh := fresh in intros ? Hh; exact Hh
  | |- keeps _ _ (modify _) => apply keeps_modify; let Hh := fresh in intros ? Hh; exact Hh
  | |- _ => keeps_step
  end.

Section Begin.
Context {D : Type} `{IdfLaws D} (evCore : Z).
Implicit Types h : EspHal D.

Definition b2z (b : bool) : Z := if b then 1 else 0.
(** The semaphores and stream buffers that exist are those the object has handles
    of. *)
Definition tied h : Prop :=
  sems (own (dev h)) = b2z (mutex h) + b2z (task_exit_sem h) /\ buffers (own (dev h)) = b2z (stream_buf h).

(** The other objects and their handles. *)
Definition others_of h : bool * (Z * bool) * (Z * bool) :=
  (driver (own (dev h)), (tasks (own (dev h)), task_handle h), (timers (own (dev h)), timer_handle h)).

(** While [begin] runs: [b] is [healthy] and the configuration, [R] the driver, the
    task and the timer. *)
Definition starting (b : bool * AutoLinkConfig) R h : Prop :=
  esp_inv h /\ running h = true /\ (healthy h, cfg h) = b /\ tied h /\ others_of h = R.
Lemma starting_blind b R : own_blind (starting b R).
Proof.
  intros h d Hd Ho (Hi & Hr & Hb & Ht & HR). split; [by apply inv_blind|]. unfold tied, others_of in *. cbn. by rewrite Ho.
Qed.

(** The buffers are there, in the sizes the heap was divided into. *)
Definition sized h : Prop :=
  stream_buf h = true /\
  exists total, let dist := distributeHeapBudget (cfg h) total in
    stream_buf_size_ h = streamBuf dist /\ rx_buffer_size_ h = rxBuf dist /\
    tx_buffer_size_ h = txBuf dist /\ streamBuf dist <> 0 /\ rxBuf dist <> 0 /\ txBuf dist <> 0 /\
    kServiceableFloor <= postFree dist.
Definition allocated (b : bool * AutoLinkConfig) R h : Prop := starting b R h /\ sized h.
Lemma allocated_blind b R : own_blind (allocated b R).
Proof. intros h d Hd Ho [Hi Hr]. split; [by apply starting_blind|done]. Qed.

(** The object's own allocations given back. *)
Definition gone h : Prop :=
  esp_inv h /\ stream_buf h = false /\ mutex h = false /\ task_exit_sem h = false /\
  stream_buf_size_ h = 0 /\ rx_buffer_size_ h = 0 /\ tx_buffer_size_ h = 0 /\
  sems (own (dev h)) = 0 /\ buffers (own (dev h)) = 0.

Lemma cleanup_ok b R h : starting b R h ->
  wp cleanup (fun _ h' => gone h' /\ running h' = false /\ (healthy h', cfg h') = b /\ others_of h' = R) h.
Proof.
  intros ((Hp & Hc & Hl & Hb & Hs) & Hr & Hh & [Ht1 Ht2] & HR). unfold cleanup. es. cbn.
  unfold others_of in *.
  destruct (mutex h) eqn:Em, (task_exit_sem h) eqn:Et, (stream_buf h) eqn:Es;
    repeat (progress (es; cbv iota) || (apply wpd_owns; intros ? ? ? ?));
    unfold gone, esp_inv; cbn in *; rewrite ?own_delete;
    repeat match goal with E : own _ = _ |- _ => rewrite E; clear E end; cbn;
    rewrite ?Em, ?Et, ?Es, ?Ht1, ?Ht2; split_and!; done || lia.
Qed.

Lemma begin_alloc_ok b R total h : starting b R h ->
  wp (begin_alloc total) (fun ok h' => starting b R h' /\ (ok = true -> sized h')) h.
Proof.
  intros Hi. unfold begin_alloc. es. set (dist := distributeHeapBudget (cfg h) total).
  destruct (Z.eqb_spec (streamBuf dist) 0), (Z.eqb_spec (rxBuf dist) 0), (Z.eqb_spec (txBuf dist) 0);
    cbn [orb]; try (es; split; done).
  es. cbn. destruct (stream_buf h) eqn:Es.
  - es. cbn [negb]. es. split; [exact Hi|]. intros Hf%negb_true_iff%Z.ltb_ge. split; [done|]. by exists total.
  - pose proof (sb_create (streamBuf dist) (dev h)) as Hcr. pose proof (own_create (streamBuf dist) (dev h)) as Hoc.
    destruct (xStreamBufferCreate _ _) as [ok d]. cbn [fst snd] in Hcr, Hoc. es.
    assert (Hi' : starting b R (h <| stream_buf_size_ := streamBuf dist |> <| rx_buffer_size_ := rxBuf dist |>
      <| tx_buffer_size_ := txBuf dist |> <| dev := d |> <| stream_buf := ok |>)).
    { destruct Hi as ((Hp & Hc & Hl & Hb & Hs) & Hr & Hh & [Ht1 Ht2] & HR). split; [split_and!; try done; cbn; intros ->; by rewrite Hcr|].
      split; [done|]. split; [done|]. unfold tied, others_of in *. cbn. rewrite Hoc. cbn. rewrite Ht2, Es. by destruct ok. }
    destruct ok; cbn [negb]; es; (split; [exact Hi'|]); [|done].
    intros Hf%negb_true_iff%Z.ltb_ge. split; [done|]. by exists total.
Qed.

(** The driver is installed at the end, or is not there. *)
Lemma begin_uart_ok b v T U h : allocated b (v, T, U) h ->
  wp begin_uart (fun ok h' => allocated b (ok, T, U) h') h.
Proof.
  intros Hh. unfold begin_uart.
  assert (Hdel : forall g w, allocated b (w, T, U) g -> forall d, sbv d = sbv (dev g) ->
    own d = own_step uart_driver_delete 0 (own (dev g)) -> allocated b (false, T, U) (g <| dev := d |>)).
  { intros g w ((Hi & Hr & Hb & Ht & HR) & Hs) d Hd Ho. split; [|exact Hs]. split; [by apply inv_blind|]. split; [done|]. split; [done|].
    unfold tied, others_of in *. cbn in *. rewrite Ho. cbn. split; [done|]. by injection HR as _ <- <-. }
  apply wpd_bind. unfold call at 1, wpd at 1. pose proof (sb_of_idf uart_is_driver_installed (dev h)) as Hd.
  pose proof (own_idf uart_is_driver_installed (dev h)) as Ho. pose proof (own_installed (dev h)) as Hin.
  destruct (idf uart_is_driver_installed (dev h)) as [i d]. cbn [fst snd] in *.
  assert (H1 : allocated b (v, T, U) (h <| dev := d |>)) by (by apply allocated_blind).
  assert (Hv : i = 0 <-> v = false).
  { rewrite Hin. destruct Hh as ((_ & _ & _ & _ & HR) & _). unfold others_of in HR. by injection HR as -> _ _. }
  clear Hh Hin Ho Hd. set (g := h <| dev := d |>) in *. clearbody g. clear h d.
  apply wpd_bind. apply (wpd_mono _ _ (fun _ g' => allocated b (false, T, U) g')).
  { destruct (Z.eqb_spec i 0) as [E|E]; cbn [negb].
    - es. assert (v = false) as -> by tauto. exact H1.
    - es. apply wpd_owns. intros r d Hd Ho. es. by eapply Hdel. }
  intros _ g1 H2. es. apply wpd_owns. intros e d Hd Ho.
  destruct (Z.eqb_spec e ESP_ERR_NO_MEM) as [->|_].
  { es. apply (allocated_blind b (false, T, U)); done. }
  destruct (Z.eqb_spec e ESP_OK) as [->|Ne]; cbn [negb].
  2: { es. apply (allocated_blind b (false, T, U)); [done| |done]. rewrite Ho. cbn. by destruct (Z.eqb_spec e ESP_OK). }
  assert (H3 : allocated b (true, T, U) (g1 <| dev := d |>)).
  { destruct H2 as ((Hi & Hr & Hb & Ht & HR) & Hs). split; [|exact Hs]. split; [by apply inv_blind|]. split; [done|]. split; [done|].
    unfold tied, others_of in *. cbn in *. rewrite Ho. cbn. split; [done|]. by injection HR as _ <- <-. }
  clear Hd Ho H2. set (g2 := g1 <| dev := d |>) in *. clearbody g2. clear g1 d.
  es. apply wpd_owns. intros e d Hd Ho. pose proof (allocated_blind _ _ _ d Hd Ho H3) as H4.
  destruct (negb _); es; (apply wpd_owns; intros e2 d2 Hd2 Ho2; es); [by eapply Hdel|].
  pose proof (allocated_blind _ _ _ d2 Hd2 Ho2 H4) as H5.
  destruct (negb _); es; (apply wpd_owns; intros e3 d3 Hd3 Ho3; es); [by eapply Hdel|].
  by apply allocated_blind.
Qed.

Lemma begin_task_ok b n tv m uv h : allocated b (true, (n, tv), (m, uv)) h ->
  wp (begin_task evCore) (fun r h' =>
    match r with
    | TaskFailed => starting b (false, (n, tv), (m, uv)) h'
    | TimerFailed => starting b (false, (n + 1, true), (m, false)) h'
    | AllStarted => allocated b (true, (n + 1, true), (m + 1, true)) h'
    end) h.
Proof.
  intros ((Hi & Hr & Hb & [Ht1 Ht2] & HR) & Hs). unfold begin_task. es. unfold tied, others_of in *. injection HR as R1 R2 R3 R4 R5.
  apply wpd_owns. intros r d Hd Ho. cbn in Hd, Ho. destruct (Z.eqb_spec r pdPASS) as [->|Hn]; cbn [negb] in *.
  2: { es. apply wpd_owns. intros r2 d2 Hd2 Ho2. cbn in *. es. rewrite Ho in Ho2. cbn in Ho2.
       split; [apply (inv_blind h); [congruence|done]|]. unfold tied, others_of. cbn. rewrite Ho2. cbn. split_and!; try done.
       by rewrite R2, R3, R4, R5. }
  es. apply wpd_owns. intros t d2 Hd2 Ho2. cbn in *. es. rewrite Ho in Ho2. cbn in Ho2.
  destruct (Z.eqb_spec t 0) as [->|Hnt]; cbn [negb].
  - es. apply wpd_owns. intros r3 d3 Hd3 Ho3. cbn in *. es. rewrite Ho2 in Ho3. cbn in Ho3.
    split; [apply (inv_blind h); [congruence|done]|]. unfold tied, others_of. cbn. rewrite Ho3. cbn. split_and!; try done.
    by rewrite R2, R4.
  - es. split; [|exact Hs]. split; [apply (inv_blind h); [congruence|done]|]. unfold tied, others_of. cbn. rewrite Ho2. cbn.
    split_and!; try done. by rewrite R1, R2, R4.
Qed.
(** The three ways a start ends, from the driver [v], the tasks [n] and the timers [m]
    there were: everything there; *)
Definition up c n m h : Prop :=
  exists T U, allocated (true, c) (true, (T, true), (U, true)) h /\ T = n + 1 /\ U = m + 1.

(** everything given back, and a driver that was there before begin perhaps with it; *)
Definition down b v n tv m uv h : Prop :=
  gone h /\ running h = false /\ (healthy h, cfg h) = b /\
  (others_of h = (v, (n, tv), (m, uv)) \/ others_of h = (false, (n, tv), (m, uv))).

(** or, without a timer, everything but the task. *)
Definition orphaned b n m h : Prop :=
  gone h /\ (healthy h, cfg h) = b /\ others_of h = (false, (n + 1, true), (m, false)).

Definition outcome b v n tv m uv h : Prop :=
  up (snd b) n m h \/ down b v n tv m uv h \/ orphaned b n m h.

Lemma first_run_ok b n m h :
  gone h -> (healthy h, cfg h) = b -> others_of h = (false, (n + 1, true), (m, false)) ->
  wp first_run (fun _ => orphaned b n m) h.
Proof.
  intros (Hi & Hg) Hb HR. unfold first_run. es. apply wpd_owns. intros r d Hd Ho. cbn in Ho.
  assert (H1 : orphaned b n m (h <| dev := d |>)).
  { split; [split; [by apply inv_blind|cbn; by rewrite Ho]|]. split; [done|]. unfold others_of in *. cbn. by rewrite Ho. }
  destruct (negb _); es; [|exact H1]. exact H1.
Qed.

(** Allocating a semaphore where there is none. *)
Lemma sem_ok (J : EspHal D -> Prop) h (p : EspHal D -> bool) {s : Setter p} e : p h = e ->
  (forall v, p h = false -> forall d, sbv d = sbv (dev h) ->
     own d = own_step xSemaphoreCreate (b2z v) (own (dev h)) -> J (rset p (fun _ => v) (h <| dev := d |>))) ->
  J h ->
  wp (if e then ret tt else m <- call xSemaphoreCreate;; fld p (negb (m =? 0))) (fun _ => J) h.
Proof.
  intros Ep Hp Hh. destruct e; es; [exact Hh|]. apply wpd_owns. intros r d Hd Ho. es.
  apply Hp; try done. rewrite Ho. cbn. by destruct (Z.eqb_spec r 0).
Qed.

Lemma begin_outcome b h v n tv m uv : esp_inv h -> running h = false -> (healthy h, cfg h) = b -> tied h ->
  others_of h = (v, (n, tv), (m, uv)) ->
  wp (begin_ evCore) (fun _ => outcome b v n tv m uv) h.
Proof.
  intros Hi Hr Hb Ht HR. unfold begin_. es. rewrite Hr. es. set (R := (v, (n, tv), (m, uv))) in *.
  set (h0 := h <| running := true |>). change (mutex h) with (mutex h0). change (task_exit_sem h) with (task_exit_sem h0).
  assert (H0' : starting b R h0) by done. clearbody h0. clear Hi Hr Hb Ht HR. remember (task_exit_sem h0) as te eqn:Ete.
  eapply wpd_mono; [apply (sem_ok (fun g => starting b R g /\ task_exit_sem g = te) h0 mutex (mutex h0)); [done| |done]|].
  { intros w E d Hd Ho. destruct H0' as (Hi & Hr & Hb & [Ht1 Ht2] & HR). split; [|done].
    split; [by apply (inv_blind h0)|]. split; [done|]. split; [done|].
    unfold tied, others_of in *. cbn. rewrite Ho. rewrite E in Ht1. destruct w; cbn in *; (split; [split; [unfold b2z in *; lia|done]|done]). }
  intros [] h1 [H1 Ete1]. es. eapply wpd_mono; [apply (sem_ok (starting b R) h1 task_exit_sem te); [done| |done]|].
  { intros w E d Hd Ho. destruct H1 as (Hi & Hr & Hb & [Ht1 Ht2] & HR).
    split; [by apply (inv_blind h1)|]. split; [done|]. split; [done|].
    unfold tied, others_of in *. cbn. rewrite Ho. rewrite E in Ht1. destruct w; cbn in *; (split; [split; [unfold b2z in *; lia|done]|done]). }
  intros [] h2 H2. es.
  assert (Hq : forall A (f : M (EspHal D) A) (k : A -> M (EspHal D) unit) g,
    keeps False (starting b R) f -> starting b R g ->
    (forall a g', starting b R g' -> wpd False (k a) (fun _ => outcome b v n tv m uv) g') ->
    wpd False f (fun a => wpd False (k a) (fun _ => outcome b v n tv m uv)) g).
  { intros A f k g Hm Hg Hk. eapply wpd_mono; [by apply Hm|]. intros a' g' Hg'. by apply Hk. }
  apply Hq; [repeat quiet_own (starting_blind b R)|done|]. intros [] h3 H3.
  apply wpd_bind, Hq; [repeat quiet_own (starting_blind b R)|done|]. intros [] h4 H4.
  apply wpd_bind, wpd_fld, wpd_bind. apply Hq; [repeat quiet_own (starting_blind b R)|done|]. intros free h5 H5.
  apply wpd_bind. eapply wpd_mono; [by apply (begin_alloc_ok b R)|]. intros ok h6 [H6 Ha].
  destruct ok; cbn [negb].
  2: { eapply wpd_mono; [by apply (cleanup_ok b R)|]. intros [] g (Hg & Hr & Hb & HR). right. left. split_and!; try done. by left. }
  apply wpd_bind. eapply wpd_mono; [apply (begin_uart_ok b v); split; [exact H6|by apply Ha]|].
  intros u h7 H7. destruct u; cbn [negb].
  2: { eapply wpd_mono; [apply (cleanup_ok b), H7|]. intros [] g (Hg & Hr & Hb & HR). right. left. split_and!; try done. by right. }
  apply wpd_bind. eapply wpd_mono; [by apply begin_task_ok|]. intros t h8 H8. destruct t.
  - eapply wpd_mono; [by apply (cleanup_ok b)|]. intros [] g (Hg & Hr & Hb & HR). right. left. split_and!; try done. by right.
  - apply wpd_bind. eapply wpd_mono; [by apply (cleanup_ok b)|]. intros [] g (Hg & Hr & Hb & HR).
    eapply wpd_mono; [by apply (first_run_ok b n m)|]. intros [] g'. by right; right.
  - es. left. exists (n + 1), (m + 1). split; [|done]. destruct H8 as [(Hi & Hr & <- & Hrest) Hs]. by split.
Qed.

(** The object stays well formed whatever the accounts. *)
Lemma cleanup_inv : keeps False esp_inv cleanup.
Proof.
  intros h (Hp & Hc & Hl & Hb & Hs). unfold cleanup. es. cbn.
  destruct (mutex h) eqn:Em, (task_exit_sem h) eqn:Et, (stream_buf h) eqn:Es;
    repeat (progress (es; cbv iota) || (apply wpd_call; intros ? ? ?)); unfold esp_inv; cbn; by rewrite ?Es.
Qed.

Lemma begin_alloc_inv total : keeps False esp_inv (begin_alloc total).
Proof.
  intros h Hi. unfold begin_alloc. es. destruct (_ || _); es; [exact Hi|]. destruct (stream_buf h) eqn:Es; cbn; rewrite ?Es; es.
  { cbn [negb]. by es. }
  match goal with |- context [xStreamBufferCreate ?k ?dd] => pose proof (sb_create k dd) as Hcr; destruct (xStreamBufferCreate k dd) as [ok d] end.
  cbn [fst snd] in Hcr. es. destruct Hi as (Hp & Hc & Hl & Hb & Hs).
  destruct ok; cbn [negb]; es; (split_and!; try done; cbn; by rewrite Hcr).
Qed.

Lemma begin_inv : keeps False esp_inv (begin_ evCore).
Proof.
  pose proof cleanup_inv. pose proof begin_alloc_inv.
  unfold begin_, begin_uart, begin_task, first_run. repeat (eauto 1; quiet_step (inv_blind (D := D))).
Qed.
End Begin.

(** ** The device as the link's hardware

    Every method keeps the object well formed, so the well-formed objects are a
    hardware in their own right: the link's theorems are about a link on it. *)

Section Device.
Context {D : Type} `{IdfLaws D} (evCore : Z).

Lemma seen_inv {A} (m : M (EspHal D) A) : (forall v, keeps False (seen v) m) -> keeps False esp_inv m.
Proof.
  intros Hm h Hh. eapply wpd_mono; [by apply (Hm (esp_view h))|]. by intros ? ? [? _].
Qed.
Lemma wp_inv {A} (m : M (EspHal D) A) (Q : EspHal D -> A -> EspHal D -> Prop) :
  (forall h, esp_inv h -> wp m (fun a h' => esp_inv h' /\ Q h a h') h) -> keeps False esp_inv m.
Proof. intros Hm h Hh. eapply wpd_mono; [by apply Hm|]. by intros ? ? [? _]. Qed.

Lemma setMode_inv m : keeps False esp_inv (setMode (D := D) m).
Proof. unfold setMode. repeat quiet_step (inv_blind (D := D)). Qed.

Lemma begin_with_inv c : keeps False esp_inv (begin_with (D := D) evCore c).
Proof.
  intros h Hi. unfold begin_with. es.
  pose proof (begin_inv evCore) as Hb.
  destruct (negb (running h)); es; [|by apply Hb].
  eapply wpd_mono; [by apply setMode_inv|]. intros x g Hg. by apply Hb.
Qed.

Lemma keeps_view {A} (m : M (EspHal D) A) h v : (forall v, keeps False (seen v) m) ->
  esp_inv h -> esp_view h = v -> wpd False m (fun _ h' => esp_inv h' /\ esp_view h' = v) h.
Proof. intros Hm Hi Hv. by apply Hm. Qed.

Definition EspDev : Type := { h : EspHal D | esp_inv h }.

Lemma run_inv {A} (m : M (EspHal D) A) (Hm : keeps False esp_inv m) h :
  esp_inv h -> esp_inv (exec m h).
Proof.
  intros Hi. specialize (Hm h Hi). unfold wpd in Hm. unfold exec. by destruct (m h) as [[]|].
Qed.

Definition does (m : M (EspHal D) unit) (Hm : keeps False esp_inv m) (x : EspDev) : EspDev :=
  exist _ (exec m (`x)) (run_inv m Hm (`x) (proj2_sig x)).
Definition gives {A} (a : A) (m : M (EspHal D) A) (Hm : keeps False esp_inv m) (x : EspDev) : A * EspDev :=
  (fst (eval a m (`x)), exist _ (exec m (`x)) (run_inv m Hm (`x) (proj2_sig x))).

Lemma setSpd_inv s : keeps False esp_inv (setSpd (D := D) s).
Proof. apply seen_inv. intros. apply setSpd_seen. Qed.
Lemma sendBreak_inv : keeps False esp_inv (sendBreak (D := D)).
Proof. apply seen_inv. intros. apply sendBreak_seen. Qed.
Lemma tx_inv b : keeps False esp_inv (tx (D := D) b).
Proof. apply seen_inv. intros. apply tx_seen. Qed.
Lemma txAvail_inv : keeps False esp_inv (txAvail (D := D)).
Proof. apply seen_inv. intros. apply txAvail_seen. Qed.
Lemma startTimer_inv ms : keeps False esp_inv (startTimer (D := D) ms).
Proof. apply seen_inv. intros. apply startTimer_seen. Qed.
Lemma tryLock_inv ms : keeps False esp_inv (tryLock (D := D) ms).
Proof. apply seen_inv. intros. apply tryLock_seen. Qed.
Lemma setOkState_inv b : keeps False esp_inv (setOkState (D := D) b).
Proof. apply seen_inv. intros. apply setOkState_seen. Qed.
Lemma heap_alloc_inv n : keeps False esp_inv (heap_alloc (D := D) n).
Proof. unfold heap_alloc. repeat quiet_step (inv_blind (D := D)). Qed.
Lemma sem_create_inv : keeps False esp_inv (sem_create (D := D)).
Proof. unfold sem_create. repeat quiet_step (inv_blind (D := D)). Qed.
Lemma nowMs_inv : keeps False esp_inv (nowMs (D := D)).
Proof. apply seen_inv. intros. apply nowMs_seen. Qed.
Lemma call_inv f : keeps False esp_inv (_ <- call (D := D) f;; ret tt).
Proof. repeat quiet_step (inv_blind (D := D)). Qed.
Lemma pushAppBuf_inv b : keeps False esp_inv (pushAppBuf (D := D) b).
Proof. eapply wp_inv. intros h. by apply pushAppBuf_ok. Qed.
Lemma popAppBuf_inv n : keeps False esp_inv (popAppBuf (D := D) n).
Proof. eapply wp_inv. intros h. by apply popAppBuf_ok. Qed.
Lemma peekAppBuf_inv : keeps False esp_inv (peekAppBuf (D := D)).
Proof. eapply wp_inv. intros h. by apply peekAppBuf_ok. Qed.
Lemma appBufAvailable_inv : keeps False esp_inv (appBufAvailable (D := D)).
Proof. intros h Hi. eapply wpd_mono; [by apply appBufAvailable_ok|]. by intros ? ? [-> _]. Qed.
Lemma appBufFree_inv : keeps False esp_inv (appBufFree (D := D)).
Proof. intros h Hi. eapply wpd_mono; [by apply appBufFree_ok|]. by intros ? ? [-> _]. Qed.
Lemma clearAppBuf_inv : keeps False esp_inv (clearAppBuf (D := D)).
Proof. eapply (wp_inv _ (fun _ _ h' => fst (esp_view h') = [])). intros h. by apply clearAppBuf_ok. Qed.

#[export] Instance esp_hal : IHal EspDev := {
  hal_begin := fun c => does (begin_with evCore c) (begin_with_inv c);
  Hal.setSpd := fun s => does (setSpd s) (setSpd_inv s);
  Hal.sendBreak := does sendBreak sendBreak_inv;
  Hal.tx := fun b => gives (0, 0) (tx b) (tx_inv b);
  Hal.txAvail := gives 0 txAvail txAvail_inv;
  txRingSize := fun x => tx_buffer_size_ (`x);
  rxRingSize := fun x => stream_buf_size_ (`x);
  Hal.flushTx := does flushTx (call_inv _);
  Hal.discardTx := does discardTx (call_inv _);
  Hal.startTimer := fun ms => does (startTimer ms) (startTimer_inv ms);
  Hal.delayMs := fun ms => does (delayMs ms) (call_inv _);
  Hal.delayUs := fun us => does (delayUs us) (call_inv _);
  Hal.nowMs := gives 0 nowMs nowMs_inv;
  Hal.tryLock := fun ms => gives true (tryLock ms) (tryLock_inv ms);
  Hal.pushAppBuf := fun b => gives 0 (pushAppBuf b) (pushAppBuf_inv b);
  Hal.popAppBuf := fun n => gives [] (popAppBuf n) (popAppBuf_inv n);
  Hal.peekAppBuf := gives (-1) peekAppBuf peekAppBuf_inv;
  Hal.appBufAvailable := gives 0 appBufAvailable appBufAvailable_inv;
  Hal.appBufFree := gives 0 appBufFree appBufFree_inv;
  Hal.clearAppBuf := does clearAppBuf clearAppBuf_inv;
  Hal.flushRxHw := does flushRxHw (call_inv _);
  Hal.setOkState := fun b => does (setOkState b) (setOkState_inv b);
  semWait := fun ms => does (sem_wait ms) (call_inv _);
  Hal.malloc := fun n => gives false (heap_alloc n) (heap_alloc_inv n);
  semCreate := gives false sem_create sem_create_inv;
}.

(** What a method does is what its weakest precondition says. *)
Lemma eval_ok {A} (a : A) (m : M (EspHal D) A) Q h : wp m Q h -> Q (fst (eval a m h)) (exec m h).
Proof. unfold wp, wpd, eval, exec. by destruct (m h) as [[]|]. Qed.
Lemma exec_view {A} (m : M (EspHal D) A) (x : EspDev) : (forall v, keeps False (seen v) m) ->
  esp_view (exec m (`x)) = esp_view (`x).
Proof.
  intros Hm. destruct x as [h Hi]. cbn [proj1_sig].
  pose proof (keeps_view m h _ Hm Hi eq_refl) as Hw. unfold wpd in Hw. unfold exec.
  destruct (m h) as [[]|]; [by apply Hw|done].
Qed.
Lemma call_view f (x : EspDev) : esp_view (exec (_ <- call f;; ret tt) (`x)) = esp_view (`x).
Proof. apply exec_view. intros v. esp. Qed.

Lemma push_dev b (x : EspDev) :
  let n := fst (Hal.pushAppBuf b x) in
  0 <= n <= lenZ b /\
  esp_view (proj1_sig (snd (Hal.pushAppBuf b x))) =
    (fst (esp_view (`x)) ++ take (Z.to_nat n) (map u8 b), snd (esp_view (`x))) /\
  (0 <= snd (esp_view (`x)) -> lenZ b <= snd (esp_view (`x)) - lenZ (fst (esp_view (`x))) -> n = lenZ b).
Proof. destruct x as [h Hi]. apply (eval_ok 0 _ _ h (pushAppBuf_ok b h Hi)). Qed.

Lemma pop_dev n (x : EspDev) :
  fst (Hal.popAppBuf n x) = take (Z.to_nat n) (fst (esp_view (`x))) /\
  fst (esp_view (proj1_sig (snd (Hal.popAppBuf n x)))) = drop (Z.to_nat n) (fst (esp_view (`x))) /\
  (0 <= snd (esp_view (`x)) -> 0 <= snd (esp_view (proj1_sig (snd (Hal.popAppBuf n x))))).
Proof. destruct x as [h Hi]. apply (eval_ok [] _ _ h (popAppBuf_ok n h Hi)). Qed.

#[export] Instance esp_laws : IHalLaws EspDev.
Proof.
  split.
  - intros [h Hi]. cbn. unfold eval, nowMs, call, bind, ret. destruct (idf millis (dev h)). apply u32_range.
  - intros b x. apply push_dev.
  - intros n x Hn. rewrite (proj1 (pop_dev n x)). unfold lenZ. rewrite length_take. lia.
  - intros n x. rewrite (proj1 (pop_dev n x)). apply bytes_take, esp_view_bytes. apply (proj2_sig x).
Qed.

(** The contract of the application buffer holds on the device. *)
#[export] Instance esp_app : HalApp EspDev.
Proof.
  refine {| appv := fun x => esp_view (`x) |}.
  - intros b x Hb. destruct (push_dev b x) as (_ & E & _). by rewrite map_u8_bytes in E.
  - intros b x. apply push_dev.
  - intros n [h Hi]. apply (eval_ok 0 _ _ h (appBufFree_ok h Hi)).
  - intros n x. by split; apply pop_dev.
  - intros n x. apply pop_dev.
  - intros [h Hi]. apply (eval_ok 0 _ _ h (appBufAvailable_ok h Hi)).
  - intros [h Hi]. apply (eval_ok tt _ _ h (clearAppBuf_ok h Hi)).
  - intros [h Hi]. destruct (eval_ok 0 _ _ h (appBufAvailable_ok h Hi)) as [E _].
    change (esp_view (exec appBufAvailable h) = esp_view h). by rewrite E.
  - intros [h Hi]. destruct (eval_ok 0 _ _ h (appBufFree_ok h Hi)) as [E _].
    change (esp_view (exec appBufFree h) = esp_view h). by rewrite E.
  - intros b x. apply exec_view. intros v. apply tx_seen.
  - intros x. apply exec_view. intros v. apply txAvail_seen.
  - intros x. apply exec_view. intros v. apply nowMs_seen.
  - intros ms x. apply exec_view. intros v. apply startTimer_seen.
  - intros x. apply exec_view. intros v. apply sendBreak_seen.
  - intros s x. apply exec_view. intros v. apply setSpd_seen.
  - intros x. apply call_view.
  - intros x. apply call_view.
  - intros x. apply call_view.
  - intros b x. apply exec_view. intros v. apply setOkState_seen.
  - intros ms x. apply call_view.
  - intros us x. apply call_view.
  - intros n x. apply exec_view. intros v. apply heap_alloc_seen.
  - intros x. apply exec_view. intros v. apply sem_create_seen.
Defined.
End Device.

(** ** The application buffer over a run *)

Inductive AppOp := Push (b : list Z) | Pop (n : Z) | Peek | Avail | Free | Transmit (b : list Z)
  | Retune (spd : Z) | Arm (ms : Z).

Section Fifo.
Context {D : Type} `{IdfLaws D}.

(** The bytes taken in and the bytes handed out. *)
Definition app_op (o : AppOp) : M (EspHal D) (list Z * list Z) :=
  match o with
  | Push b => n <- pushAppBuf b;; ret (take (Z.to_nat n) b, [])
  | Pop n => b <- popAppBuf n;; ret ([], b)
  | Peek => _ <- peekAppBuf;; ret ([], [])
  | Avail => _ <- appBufAvailable;; ret ([], [])
  | Free => _ <- appBufFree;; ret ([], [])
  | Transmit b => _ <- tx b;; ret ([], [])
  | Retune s => setSpd s;; ret ([], [])
  | Arm ms => startTimer ms;; ret ([], [])
  end.

Fixpoint app_run (ops : list AppOp) : M (EspHal D) (list Z * list Z) :=
  match ops with
  | [] => ret ([], [])
  | o :: ops => r <- app_op o;; r' <- app_run ops;; ret (fst r ++ fst r', snd r ++ snd r')
  end.

Definition op_ok (o : AppOp) : Prop := match o with Push b => bytes b | _ => True end.

Lemma app_op_ok o h : esp_inv h -> op_ok o ->
  wp (app_op o) (fun r h' => esp_inv h' /\
    snd r ++ fst (esp_view h') = fst (esp_view h) ++ fst r) h.
Proof.
  intros Hi Ho.
  assert (Hsame : forall (A : Type) (m : M (EspHal D) A), (forall v, keeps False (seen v) m) ->
    wp (_ <- m;; ret ([], [])) (fun r h' => esp_inv h' /\
      (snd r : list Z) ++ fst (esp_view h') = fst (esp_view h) ++ fst r) h).
  { intros A m Hm. apply wpd_bind. eapply wpd_mono; [by apply (Hm (esp_view h))|].
    intros a' h' [Hi' Hv]. es. by rewrite Hv, app_nil_r. }
  destruct o; cbn [app_op]; try (apply Hsame; intros v; first
    [apply tx_seen | apply setSpd_seen | apply startTimer_seen]); apply wpd_bind.
  - eapply wpd_mono; [by apply pushAppBuf_ok|]. intros n h' (Hi' & _ & Hv & _). es.
    split; [done|]. cbn [fst snd]. by rewrite Hv, map_u8_bytes.
  - eapply wpd_mono; [by apply popAppBuf_ok|]. intros r h' (Hi' & -> & Hv & _). es.
    split; [done|]. cbn [fst snd]. by rewrite Hv, app_nil_r, take_drop.
  - eapply wpd_mono; [by apply peekAppBuf_ok|]. intros r h' (Hi' & Hv & _). es.
    split; [done|]. cbn [fst snd]. by rewrite Hv, app_nil_r.
  - eapply wpd_mono; [by apply appBufAvailable_ok|]. intros r h' [-> _]. es. by rewrite app_nil_r.
  - eapply wpd_mono; [by apply appBufFree_ok|]. intros r h' [-> _]. es. by rewrite app_nil_r.
Qed.

(** C10: The application buffer of the device is a queue: over any run of pushes,
    reads, one-byte peeks ([peekAppBuf]) and queries, with transmissions, baud changes
    and timer starts in between, what was read followed by what is left is what
    was there followed by what the pushes took, each byte once and in order;
    and every operation leaves the object well formed. [peekAt] is not among them: it
    loses what it copies past the sixteenth byte ([peekAt_loses_past_16]). *)
Theorem app_buffer_fifo ops h : esp_inv h -> Forall op_ok ops ->
  exists acc got h', app_run ops h = Some ((acc, got), h') /\ esp_inv h' /\
    got ++ fst (esp_view h') = fst (esp_view h) ++ acc.
Proof.
  intros Hi Ho. enough (Hw : wp (app_run ops) (fun r h' => esp_inv h' /\
    snd r ++ fst (esp_view h') = fst (esp_view h) ++ fst r) h).
  { destruct (wp_run _ _ _ Hw) as ([acc got] & h' & E & Hr). by exists acc, got, h'. }
  revert h Hi. induction Ho as [|o ops Ho _ IH]; intros h Hi; cbn [app_run].
  { es. by rewrite app_nil_r. }
  apply wpd_bind. eapply wpd_mono; [by apply app_op_ok|]. intros r h1 [Hi1 H1].
  apply wpd_bind. eapply wpd_mono; [by apply IH|]. intros r' h2 [Hi2 H2]. es. split; [done|].
  cbn [fst snd]. by rewrite <- app_assoc, H2, !app_assoc, H1.
Qed.

(** C14: Starting the device is all or nothing, but for one path: [begin] on an object
    that is not running and owns what it has handles of ends in one of three ways.
    Up: driver, task and timer installed over buffers that are exactly what
    [distributeHeapBudget] gave, all three of them non-empty and with the
    serviceable floor left free. Down: every semaphore and stream buffer given back,
    no task or timer more than before, no driver that was not there before, all
    three sizes zero. Or, when there is no timer to be had, orphaned: everything
    given back but the task, which goes on, and may have set [running] again
    ([orphan_runs]). *)
Theorem begin_all_or_nothing evCore c h : esp_inv h -> running h = false -> tied h ->
  let o := own (dev h) in
  exists h', begin_with evCore c h = Some (tt, h') /\
    (up c (tasks o) (timers o) h' \/
     down (healthy h, c) (driver o) (tasks o) (task_handle h) (timers o) (timer_handle h) h' \/
     orphaned (healthy h, c) (tasks o) (timers o) h').
Proof.
  intros Hi Hr Ht o.
  set (R := (driver o, (tasks o, task_handle h), (timers o, timer_handle h))).
  enough (Hw : wp (begin_with evCore c)
    (fun _ => outcome (healthy h, c) (driver o) (tasks o) (task_handle h) (timers o) (timer_handle h)) h).
  { destruct (wp_run _ _ _ Hw) as ([] & h' & E & Ho). by exists h'. }
  unfold begin_with. es. rewrite Hr. cbn [negb]. es.
  set (I := fun g : EspHal D => esp_inv g /\ running g = false /\ (healthy g, cfg g) = (healthy h, c) /\ tied g /\ others_of g = R).
  assert (HI : own_blind I).
  { intros g d Hd Ho (Hg1 & Hg2 & Hg3 & Hg4 & Hg5). split; [by apply inv_blind|]. unfold tied, others_of in *. cbn. by rewrite Ho. }
  assert (Hs : keeps False I (setMode (mode c))).
  { unfold setMode. repeat (quiet_own HI || idtac). apply keeps_modify. intros g (Hg1 & Hg2 & Hg3 & Hg4).
    split; [done|]. split; [done|]. split; [|done]. cbn. injection Hg3 as -> ->. by destruct c. }
  eapply wpd_mono; [by apply Hs|]. intros x g (Hg1 & Hg2 & Hg3 & Hg4 & Hg5).
  by apply (begin_outcome evCore (healthy h, c)).
Qed.
End Fifo.

(** ** Looking further ahead *)

Section PeekAt.
Context {D : Type} `{IdfLaws D}.
Implicit Types h : EspHal D.

Lemma peekAt_loop_ok k : forall q c h,
  esp_inv h -> peek_buf_pos_ h = 0 -> sb_view h = Some (q, c) ->
  wp (peekAt_loop k) (fun r h' => r = take k q /\ esp_inv h' /\ sb_view h' = Some (drop k q, c) /\
    pending h' = pending h ++ take (16 - length (pending h)) (take k q)) h.
Proof.
  induction k as [|k IH]; intros q c h Hi Hp Ev; cbn [peekAt_loop].
  { es. rewrite take_0, drop_0, take_nil, app_nil_r. by split_and!. }
  apply wpd_bind, wpd_self.
  assert (Es : stream_buf h = true) by (unfold sb_view in Ev; by destruct (stream_buf h)).
  rewrite Es. cbn [negb]. apply wpd_bind. eapply wpd_mono; [by apply (sb_take_ok 1 q c h)|].
  intros b h1 (-> & Hi1 & Hp1 & Hv1 & Eh1). change (Z.to_nat 1) with 1%nat in *.
  assert (Hpl : peek_buf_len_ h1 = peek_buf_len_ h /\ peek_buf_pos_ h1 = 0) by (rewrite Eh1; done).
  destruct Hpl as [Hl1 Hp01]. pose proof (lenZ_pending h Hi) as Hlp. rewrite Hp in Hlp.
  pose proof Hi as (_ & Hcap & _). unfold PEEK_BUF_CAP in Hcap.
  destruct q as [|x q].
  { rewrite take_nil, drop_nil in *. es. by split_and!; rewrite ?take_nil, ?app_nil_r. }
  change (drop 1 (x :: q)) with q in Hv1. change (take 1 (x :: q)) with [x]. cbv iota.
  destruct (view_some h Hi Es) as (q' & c' & Ev' & _ & Hb & _).
  rewrite Ev in Ev'. injection Ev' as <- <-. inversion Hb as [|? ? Hx Hbq]; subst.
  unfold PEEK_BUF_CAP. destruct (Z.ltb_spec (peek_buf_len_ h) 16) as [Hlt|Hge]; es; cbv iota.
  - eapply wpd_mono; [apply (stash_ok x h1 Hi1); [done|unfold PEEK_BUF_CAP; lia]|].
    intros ? h2 (Hi2 & Hp2 & Hv2 & Ep2 & El2 & Es2). rewrite Hp1 in Hp2. rewrite Hv1 in Hv2.
    es. eapply wpd_mono; [apply (IH q c h2); done || congruence|].
    intros r h3 (-> & Hi3 & Hv3 & Hp3). es. split_and!; try done. rewrite Hp3, Hp2, <- app_assoc. f_equal.
    rewrite length_app. cbn [length]. unfold lenZ in Hlp.
    replace (16 - length (pending h))%nat with (S (16 - (length (pending h) + 1)))%nat by lia. done.
  - eapply wpd_mono; [apply (IH q c h1); done || congruence|].
    intros r h3 (-> & Hi3 & Hv3 & Hp3). es. split_and!; try done. rewrite Hp3, Hp1. f_equal.
    unfold lenZ in Hlp. by replace (16 - length (pending h))%nat with 0%nat by lia.
Qed.

(** [peekAt(out, n, 0)] copies the first [n] bytes of the queue, but the
    object can only hold sixteen of them: the bytes from the seventeenth to the
    [n]-th are copied out and lost to the reads that follow. Up to sixteen it
    is a peek. *)
Theorem peekAt_loses_past_16 n h : esp_inv h -> peek_buf_pos_ h = 0 -> 0 < n ->
  exists r h', peekAt n 0 h = Some (r, h') /\ esp_inv h' /\
    r = take (Z.to_nat n) (fst (esp_view h)) /\
    fst (esp_view h') = take 16 (fst (esp_view h)) ++ drop (Z.to_nat (Z.max 16 n)) (fst (esp_view h)).
Proof.
  intros Hi Hp Hn. apply wp_run. unfold peekAt. replace (n <=? 0) with false by lia. cbn [orb Z.ltb Z.compare].
  apply wpd_bind, wpd_self. pose proof (lenZ_pending h Hi) as Hlp. rewrite Hp in Hlp.
  pose proof Hi as (_ & Hcap & Hl & _). unfold PEEK_BUF_CAP in *. set (P := pending h) in *.
  set (from := if 0 <? peek_buf_len_ h then Z.min n (peek_buf_len_ h - 0) else 0).
  assert (Hf : from = Z.min n (lenZ P)).
  { unfold from. pose proof (lenZ_nonneg P). destruct (Z.ltb_spec 0 (peek_buf_len_ h)); lia. }
  assert (Ho : take (Z.to_nat from) (drop (Z.to_nat 0) (peek_buf_ h)) = take (Z.to_nat n) P).
  { unfold P, pending. rewrite Hp. change (Z.to_nat 0) with 0%nat. rewrite !drop_0, take_take.
    f_equal. lia. }
  rewrite Ho. apply wpd_bind.
  assert (Hk : Z.to_nat (n - from) = (Z.to_nat n - length P)%nat) by (unfold lenZ in *; lia).
  rewrite Hk. destruct (stream_buf h) eqn:Es.
  - destruct (view_some h Hi Es) as (q & c & Ev & _).
    eapply wpd_mono; [by apply (peekAt_loop_ok _ q c h)|]. fold P.
    intros r h' (-> & Hi' & Hv' & Hp'). es. unfold esp_view. rewrite Ev, Hv'. cbn [fst].
    split; [done|]. split; [by rewrite firstn_app|]. rewrite Hp', <- app_assoc. fold P.
    rewrite firstn_app, (take_ge P 16) by (unfold lenZ in *; lia). rewrite <- app_assoc. f_equal.
    rewrite skipn_app, (drop_ge P) by (unfold lenZ in *; lia). cbn [app].
    destruct (Z.leb_spec n 16).
    + rewrite take_take. replace (Z.to_nat (Z.max 16 n)) with 16%nat by lia. rewrite take_drop.
      replace (Nat.min (16 - length P) (Z.to_nat n - length P)) with (Z.to_nat n - length P)%nat by lia.
      apply take_drop.
    + rewrite take_take. f_equal; [f_equal; unfold lenZ in *; lia|f_equal; lia].
  - assert (Hv : esp_view h = (P, -1)) by (unfold esp_view; by rewrite view_none).
    rewrite Hv. cbn [fst]. destruct (Z.to_nat n - length P)%nat; cbn [peekAt_loop]; es; rewrite ?Es; cbn [negb]; es;
      rewrite app_nil_r, Hv; cbn [fst]; (split; [done|]); (split; [done|]);
      rewrite take_ge by (unfold lenZ in *; lia); by rewrite drop_ge, app_nil_r by (unfold lenZ in *; lia).
Qed.
End PeekAt.

(** ** A device that works *)

(** One stream buffer, a heap and the objects; every call succeeds. *)
Record MockIdf := mkMockIdf { k_sb : option (list Z * Z); k_heap : Z; k_own : Owned }.

Definition sb_valid (v : list Z * Z) : bool :=
  forallb (fun b => (0 <=? b) && (b <? 256)) (fst v) && (lenZ (fst v) <=? snd v) &&
  (1 <=? snd v) && (snd v <? 2147483648).
Definition k_view (d : MockIdf) : option (list Z * Z) :=
  match k_sb d with Some v => if sb_valid v then Some v else None | None => None end.
Definition k_set (v : option (list Z * Z)) (d : MockIdf) : MockIdf := mkMockIdf v (k_heap d) (k_own d).
Definition k_count (n : Z) (d : MockIdf) : MockIdf :=
  mkMockIdf (k_sb d) (k_heap d) ((k_own d) <| buffers ::= (fun k => k + n) |>).

Definition k_answer (f : IdfCall) (d : MockIdf) : Z :=
  match f with
  | uart_write_bytes b => lenZ b
  | xTaskCreatePinnedToCore _ | xTimerCreate _ | xTimerChangePeriod _ _ | xTimerStart _
  | xSemaphoreTake _ | xSemaphoreCreate | malloc _ => pdPASS
  | esp_get_free_heap_size => k_heap d
  | uart_is_driver_installed => if driver (k_own d) then 1 else 0
  | _ => ESP_OK
  end.
Definition k_call (f : IdfCall) (d : MockIdf) : Z * MockIdf :=
  (k_answer f d, mkMockIdf (k_sb d) (k_heap d) (own_step f (k_answer f d) (k_own d))).

Definition k_send (b : list Z) (d : MockIdf) : Z * MockIdf :=
  match k_view d with
  | Some (q, c) =>
      let n := Z.min (lenZ b) (c - lenZ q) in (n, k_set (Some (q ++ take (Z.to_nat n) (map u8 b), c)) d)
  | None => (0, d)
  end.
Definition k_receive (n : Z) (d : MockIdf) : list Z * MockIdf :=
  match k_view d with
  | Some (q, c) => (take (Z.to_nat n) q, k_set (Some (drop (Z.to_nat n) q, c)) d)
  | None => ([], d)
  end.

#[export] Instance mock_idf : Idf MockIdf := {
  idf := k_call;
  uart_get_tx_buffer_free_size := fun _ => Some 4096;
  xStreamBufferCreate := fun n d => if sb_valid ([], n) then (true, k_count 1 (k_set (Some ([], n)) d)) else (false, k_count 0 d);
  vStreamBufferDelete := fun d => k_count (-1) (k_set None d);
  xStreamBufferSend := k_send;
  xStreamBufferReceive := k_receive;
  xStreamBufferBytesAvailable := fun d => match k_view d with Some (q, _) => lenZ q | None => 0 end;
  xStreamBufferSpacesAvailable := fun d =>
    match k_view d with Some (q, c) => c - lenZ q | None => 0 end;
  xStreamBufferReset := fun d => match k_view d with Some (_, c) => k_set (Some ([], c)) d | None => d end;
}.

Lemma sb_valid_spec q c :
  sb_valid (q, c) = true <-> bytes q /\ lenZ q <= c /\ 1 <= c < 2147483648.
Proof.
  unfold sb_valid. cbn [fst snd]. rewrite !andb_true_iff, forallb_forall, !Z.leb_le, Z.ltb_lt.
  unfold bytes. rewrite List.Forall_forall. unfold is_byte. split.
  - intros (((Hb & ?) & ?) & ?). split_and!; try done; try lia. intros x Hx. apply Hb in Hx. lia.
  - intros (Hb & ? & ?). split_and!; try lia. intros x Hx. apply Hb in Hx. lia.
Qed.

Lemma k_view_some d q c : k_view d = Some (q, c) ->
  bytes q /\ lenZ q <= c /\ 1 <= c < 2147483648.
Proof.
  unfold k_view. destruct (k_sb d) as [v|]; [|done]. destruct (sb_valid v) eqn:E; [|done].
  intros [= ->]. by apply sb_valid_spec.
Qed.
Lemma k_view_set q c d : bytes q -> lenZ q <= c -> 1 <= c < 2147483648 ->
  k_view (k_set (Some (q, c)) d) = Some (q, c).
Proof. intros. unfold k_view, k_set. cbn. by rewrite (proj2 (sb_valid_spec q c)). Qed.

Lemma map_u8_all b : bytes (map u8 b).
Proof. apply Forall_map, Forall_forall. intros x _. apply u8_byte. Qed.

#[export] Instance mock_idf_laws : IdfLaws MockIdf.
Proof.
  refine {| sbv := k_view; own := k_own |}; cbn.
  - intros d q c. apply k_view_some.
  - done.
  - intros n d. destruct (sb_valid ([], n)) eqn:E; cbn; [|done]. unfold k_view. cbn. by rewrite E.
  - done.
  - intros b d q c E. unfold k_send. rewrite E. cbn [fst snd]. split; [done|].
    pose proof (lenZ_nonneg b). pose proof (lenZ_nonneg q). apply k_view_some in E as (? & ? & ?).
    apply k_view_set; [|rewrite lenZ_app; unfold lenZ in *; rewrite length_take, length_map; lia|done].
    apply bytes_app. split; [done|]. apply bytes_take, map_u8_all.
  - intros n d q c E Hn. unfold k_receive. rewrite E. cbn [fst snd]. split; [done|].
    apply k_view_some in E as (? & ? & ?).
    apply k_view_set; [by apply bytes_drop|unfold lenZ in *; rewrite length_drop; lia|done].
  - intros d q c E. by rewrite E.
  - intros d q c E. by rewrite E.
  - intros d q c E. rewrite E. apply k_view_some in E as (? & ? & ?).
    apply k_view_set; [constructor|unfold lenZ; cbn; lia|done].
  - done.
  - intros d. unfold k_answer. by destruct (driver (k_own d)).
  - intros n d. by destruct (sb_valid ([], n)).
  - done.
Defined.

Definition demo_esp : EspHal MockIdf := esp_init default_config (mkMockIdf None 200000 (mkOwned false 0 0 0 0)).
Definition demo_up : EspHal MockIdf := exec (begin_with 0 default_config) demo_esp.

Lemma demo_esp_inv : esp_inv demo_esp.
Proof. unfold esp_inv. cbn. split_and!; try done; try (unfold PEEK_BUF_CAP; lia). repeat constructor; done. Qed.
Lemma demo_up_inv : esp_inv demo_up.
Proof. apply run_inv; [apply begin_with_inv|apply demo_esp_inv]. Qed.

Lemma begin_all_or_nothing_witness :
  healthy demo_up = true /\ k_own (dev demo_up) = mkOwned true 2 1 1 1 /\
  exists h', begin_with 0 default_config demo_esp = Some (tt, h') /\
    (up default_config 0 0 h' \/ down (false, default_config) false 0 false 0 false h' \/
     orphaned (false, default_config) 0 0 h').
Proof.
  split; [vm_compute; reflexivity|]. split; [vm_compute; reflexivity|].
  by apply (begin_all_or_nothing 0 default_config demo_esp demo_esp_inv).
Defined.

(** A device without a timer to give, whose scheduler runs the task late. *)
Definition no_timer_idf : Idf MockIdf := {|
  idf := fun f d =>
    match f with
    | xTimerCreate _ => (0, d)
    | task_starts_late => (1, d)
    | _ => k_call f d
    end;
  uart_get_tx_buffer_free_size := uart_get_tx_buffer_free_size;
  xStreamBufferCreate := xStreamBufferCreate;
  vStreamBufferDelete := vStreamBufferDelete;
  xStreamBufferSend := xStreamBufferSend;
  xStreamBufferReceive := xStreamBufferReceive;
  xStreamBufferBytesAvailable := xStreamBufferBytesAvailable;
  xStreamBufferSpacesAvailable := xStreamBufferSpacesAvailable;
  xStreamBufferReset := xStreamBufferReset;
|}.

(** The failed start leaves a task over the deleted objects, and the object running:
    a further [begin] does nothing. *)
Lemma orphan_runs :
  let h := exec (begin_with (H := no_timer_idf) 0 default_config) demo_esp in
  healthy h = false /\ running h = true /\ mutex h = false /\ stream_buf h = false /\
  k_own (dev h) = mkOwned false 0 0 1 0 /\
  begin_with (H := no_timer_idf) 0 default_config h = Some (tt, h).
Proof. by vm_compute. Qed.

Lemma app_buffer_fifo_witness :
  exists acc got h',
    app_run [Push [1; 2; 3]; Peek; Transmit [9]; Pop 2; Push [4]; Pop 9] demo_up = Some ((acc, got), h') /\
    esp_inv h' /\ got ++ fst (esp_view h') = fst (esp_view demo_up) ++ acc.
Proof.
  apply app_buffer_fifo; [apply demo_up_inv|repeat constructor; done].
Defined.

Example demo_fifo_run :
  match app_run [Push [1; 2; 3]; Peek; Transmit [9]; Pop 2; Push [4]; Pop 9] demo_up with
  | Some ((acc, got), h') => (acc, got, fst (esp_view h')) = ([1; 2; 3; 4], [1; 2; 3; 4], [])
  | None => False
  end.
Proof. vm_compute. reflexivity. Qed.

Definition demo_17 : EspHal MockIdf :=
  exec (pushAppBuf (map Z.of_nat (seq 1 20))) demo_up.

Lemma peekAt_loses_past_16_witness :
  fst (esp_view demo_17) = map Z.of_nat (seq 1 20) /\
  exists r h', peekAt 18 0 demo_17 = Some (r, h') /\ esp_inv h' /\
    r = take (Z.to_nat 18) (fst (esp_view demo_17)) /\
    fst (esp_view h') =
      take 16 (fst (esp_view demo_17)) ++ drop (Z.to_nat (Z.max 16 18)) (fst (esp_view demo_17)).
Proof.
  split; [vm_compute; reflexivity|].
  apply (peekAt_loses_past_16 18 demo_17); [|vm_compute; reflexivity|lia].
  apply run_inv; [apply pushAppBuf_inv|apply demo_up_inv].
Defined.
End EspHal.
