(* ===== verification/LinkState.v ===== *)
(** * The state of a link ([src/al/link/Link.h], [LinkSweep.h], [LinkStats.h])

    [class Link] has about a hundred members. They are grouped here by the part
    of the code that owns them; every name is the member's. [World] is the link
    and the hardware it drives, [Act] the monad of its methods, and the last
    part of the file has the accesses of the methods: [GET], [SET] and [UPD] on
    a member, [hw]/[hwdo] for a call on the HAL. *)
From S2P Require Import Prelude Monad MsgCodec FrameRx Config Decision Health BaudSweep.
From S2P Require Import ArqCache Arq Hal.
Import MsgCodec FrameRx Config Decision Health BaudSweep ArqCache Arq Hal.

Module LinkState.

Inductive State := OK | SWP.
#[export] Instance State_eq_dec : EqDecision State.
Proof. solve_decision. Defined.

Inductive ResendSource := SrcNak | SrcRto.
#[export] Instance ResendSource_eq_dec : EqDecision ResendSource.
Proof. solve_decision. Defined.

Inductive SweepPhase := NONE | PHASE1 | PHASE2 | PHASE3.
#[export] Instance SweepPhase_eq_dec : EqDecision SweepPhase.
Proof. solve_decision. Defined.

Inductive ResetReason :=
  | Kickoff | UserDropLink | ErrThreshold | ErrRate | HealthWatchdog | GbnMaxRetx
  | GbnKeepRescue | PeerEpochMismatch | PeerBaudMismatch | BaudUpgrade.
#[export] Instance ResetReason_eq_dec : EqDecision ResetReason.
Proof. solve_decision. Defined.
Definition reason_index (r : ResetReason) : Z :=
  match r with
  | Kickoff => 0 | UserDropLink => 1 | ErrThreshold => 2 | ErrRate => 3 | HealthWatchdog => 4
  | GbnMaxRetx => 5 | GbnKeepRescue => 6 | PeerEpochMismatch => 7 | PeerBaudMismatch => 8
  | BaudUpgrade => 9
  end.

Inductive FrameErrCause := BadHeader | OverLen | CrcFail.

Inductive SendMsgReason :=
  | ROk | NotOk | PostLockQuiet | GbnWindowFull | PoolExhaust | LengthInvalid | LengthZero
  | ChunksOverflow | SyncMidMessageTimeout | RateLimited | TxRingStall | RNone.
#[export] Instance SendMsgReason_eq_dec : EqDecision SendMsgReason.
Proof. solve_decision. Defined.

Definition CTRL_FRAME_SIZE : Z := 5.
Definition PHASE3_ACKS_NEEDED : Z := 2.
Definition RX_ACK_WIRE_BYTES : Z := 8.
Definition RX_NAK_WIRE_BYTES : Z := 6.
Definition PING_CMD : Z := 0x22.
Definition PONG_CMD : Z := 0x33.
Definition REQ_CMD : Z := 0x11.
Definition LOCK_CMD : Z := 0x44.

Definition NO_PREFERRED_BAUD : Z := 0xFF.
Definition BAUD_UPGRADE_MAX_ATTEMPTS : Z := 3.
Definition BAUD_UPGRADE_DELAY_MS : Z := 10000.
Definition RESWEEP_PREF_MAX_ATTEMPTS : Z := 2.
Definition RESWEEP_PREF_ATTEMPT_CEILING : Z := 24.
Definition RATE_WINDOW_MS : Z := 1000.
Definition WIRE_AGG_WINDOW_MS : Z := 1000.
Definition DISC_STORM_THRESHOLD : Z := 3.
Definition kPeerBaudMismatchThreshold : Z := 3.
Definition DEFAULT_GBN_KEEP_RESCUE_CAP : Z := 3.
Definition DEFAULT_GBN_APPBACKLOG_CAP : Z := 5.
Definition HOLD_NAK_LIVENESS_MS : Z := 1000.

(** The sub-phase dwell table ([struct SweepDwells]). *)
Record SweepDwells := mkDwells {
  phase1 : Z;
  phase2 : list Z;
  phase2Slave : list Z;
  phase3 : Z;
  phase2Total : Z;
}.
#[export] Instance eta_SweepDwells : Eta SweepDwells := fun r =>
  mkDwells (phase1 r) (phase2 r) (phase2Slave r) (phase3 r) (phase2Total r).

(** The sweep driver's members ([class LinkSweep]). *)
Record LinkSweep := mkLinkSweep {
  phase_ : SweepPhase;
  phase3Baud_ : Z;
  phase3Acks_ : Z;
  dwells_ : SweepDwells;
  phase2ElapsedMs_ : Z;
}.
#[export] Instance eta_LinkSweep : Eta LinkSweep := fun r =>
  mkLinkSweep (phase_ r) (phase3Baud_ r) (phase3Acks_ r) (dwells_ r) (phase2ElapsedMs_ r).

(** Baud sweep and preferred-baud memory. *)
Record SwpG := mkSwpG {
  spdI : Z;
  pingSample : Z;
  emptySweeps : Z;
  sweepPongCount_ : Z;
  baudSweep : UtilBaudSweep;
  sweep_ : LinkSweep;
  preferredBaud_ : Z;
  bestProvenBaud_ : Z;
  baudUpgradeAtMs_ : Z;
  baudUpgradeAttempts_ : Z;
  resweepPrefPending_ : bool;
  resweepPrefAttempts_ : Z;
  resweepPrefDeadlineMs_ : Z;
  baudRetries_ : Z;
  sweepEpoch_ : Z;
  peerSweepEpoch_ : Z;
  peerSweepEpochKnown_ : bool;
}.
#[export] Instance eta_SwpG : Eta SwpG := fun r =>
  mkSwpG (spdI r) (pingSample r) (emptySweeps r) (sweepPongCount_ r) (baudSweep r) (sweep_
    r) (preferredBaud_ r) (bestProvenBaud_ r) (baudUpgradeAtMs_ r) (baudUpgradeAttempts_ r)
    (resweepPrefPending_ r) (resweepPrefAttempts_ r) (resweepPrefDeadlineMs_ r)
    (baudRetries_ r) (sweepEpoch_ r) (peerSweepEpoch_ r) (peerSweepEpochKnown_ r).

(** Session history: error windows, disconnects, pause. *)
Record SesG := mkSesG {
  errs : Z;
  errWindowStartMs_ : Z;
  errWindowCount_ : Z;
  lastDiscMs_ : Z;
  recentDiscs_ : Z;
  locksWithoutRecv_ : Z;
  wasEverOk_ : bool;
  linkPaused_ : bool;
  kickedOff_ : bool;
}.
#[export] Instance eta_SesG : Eta SesG := fun r =>
  mkSesG (errs r) (errWindowStartMs_ r) (errWindowCount_ r) (lastDiscMs_ r) (recentDiscs_ r)
    (locksWithoutRecv_ r) (wasEverOk_ r) (linkPaused_ r) (kickedOff_ r).

(** Timestamps and the rate limiter. *)
Record TimG := mkTimG {
  lastRxMs : Z;
  lastTxMs : Z;
  lastValidRxMs : Z;
  txRejFirstMs_ : Z;
  txRejLastMs_ : Z;
  lockedAtMs_ : Z;
  postLockFirstTxDone_ : Z;
  firstPeerResponseSeen_ : bool;
  settleUntilMs_ : Z;
  postLockQuietLogged_ : bool;
  lastOkTickMs_ : Z;
  rateWindowStartMs_ : Z;
  rateWindowBytes_ : Z;
  rateNextAllowedMs_ : Z;
}.
#[export] Instance eta_TimG : Eta TimG := fun r =>
  mkTimG (lastRxMs r) (lastTxMs r) (lastValidRxMs r) (txRejFirstMs_ r) (txRejLastMs_ r)
    (lockedAtMs_ r) (postLockFirstTxDone_ r) (firstPeerResponseSeen_ r) (settleUntilMs_ r)
    (postLockQuietLogged_ r) (lastOkTickMs_ r) (rateWindowStartMs_ r) (rateWindowBytes_ r)
    (rateNextAllowedMs_ r).

(** The receiver: byte-level state, sequence state, held NAK. [okCarry_] is the
    filled part of the array ([okCarryLen_] is its length); [ctrlBuf] is [rxBuf]. *)
Record RxG := mkRxG {
  ctrlBuf : list Z;
  rxIdx : Z;
  okCarry_ : list Z;
  frameRx : UtilFrameRx;
  msgRx_ : LinkMsgCodec;
  msgRxStartedMs_ : Z;
  rxSeqSet : bool;
  rxSeq : Z;
  rxSeqWrap_ : Z;
  lastRxSeq_ : Z;
  holdNakActive_ : bool;
  holdNakSeq_ : Z;
  holdNakWrap_ : Z;
  holdNakFreeAtSet_ : Z;
  holdNakLastMs_ : Z;
}.
#[export] Instance eta_RxG : Eta RxG := fun r =>
  mkRxG (ctrlBuf r) (rxIdx r) (okCarry_ r) (frameRx r) (msgRx_ r) (msgRxStartedMs_ r)
    (rxSeqSet r) (rxSeq r) (rxSeqWrap_ r) (lastRxSeq_ r) (holdNakActive_ r) (holdNakSeq_ r)
    (holdNakWrap_ r) (holdNakFreeAtSet_ r) (holdNakLastMs_ r).

(** The sender: sequence number, ARQ tables, retransmit cache. *)
Record TxG := mkTxG {
  txSeq : Z;
  txSeqLap_ : Z;
  arq_ : LinkArq;
  arqCache_ : ArqCache;
}.
#[export] Instance eta_TxG : Eta TxG := fun r =>
  mkTxG (txSeq r) (txSeqLap_ r) (arq_ r) (arqCache_ r).

(** Go-Back-N pacing and the last ACK/NAK seen. *)
Record GbnG := mkGbnG {
  gbnAttempts_ : Z;
  gbnBackoffMs_ : Z;
  gbnLastRetxBase_ : Z;
  gbnLastResendMs_ : Z;
  gbnLastResendBase_ : Z;
  resendSource_ : ResendSource;
  gbnBaseStuckSinceMs_ : Z;
  gbnBaseStuckTrackedSeq_ : Z;
  gbnBaseStuckThresholdMs_ : Z;
  gbnBaseStuckThresholdOverridden_ : bool;
  consecutiveKeep_ : Z;
  consecutiveAppBacklog_ : Z;
  lastAckSeq_ : Z;
  lastNakSeq_ : Z;
}.
#[export] Instance eta_GbnG : Eta GbnG := fun r =>
  mkGbnG (gbnAttempts_ r) (gbnBackoffMs_ r) (gbnLastRetxBase_ r) (gbnLastResendMs_ r)
    (gbnLastResendBase_ r) (resendSource_ r) (gbnBaseStuckSinceMs_ r)
    (gbnBaseStuckTrackedSeq_ r) (gbnBaseStuckThresholdMs_ r)
    (gbnBaseStuckThresholdOverridden_ r) (consecutiveKeep_ r) (consecutiveAppBacklog_ r)
    (lastAckSeq_ r) (lastNakSeq_ r).

(** BREAK suspicion. *)
Record BrkG := mkBrkG {
  breakSuspectMs_ : Z;
  breakSuspectSeen_ : Z;
  breakStormPending_ : bool;
  breakConfirmPending_ : bool;
  breakStormSeen_ : bool;
}.
#[export] Instance eta_BrkG : Eta BrkG := fun r =>
  mkBrkG (breakSuspectMs_ r) (breakSuspectSeen_ r) (breakStormPending_ r)
    (breakConfirmPending_ r) (breakStormSeen_ r).

(** Counters and the last reasons. *)
Record CntG := mkCntG {
  txBytes : Z;
  rxBytes : Z;
  postLockQuietDrops_ : Z;
  rateLimitedCount_ : Z;
  txRingStallDrops_ : Z;
  gbnWindowFullDrops_ : Z;
  poolExhaustDrops_ : Z;
  discCount : Z;
  frameErrs : Z;
  badHeaderErrs_ : Z;
  overLenErrs_ : Z;
  crcFailErrs_ : Z;
  lastBadHeaderLogMs_ : Z;
  droppedChunksOnReset : Z;
  settleDrops_ : Z;
  staleAmbiguous_ : Z;
  acksSent_ : Z;
  naksSent_ : Z;
  holdNaksLiveness_ : Z;
  resyncDroppedBytes_ : Z;
  wireAckAggAcks_ : Z;
  wireAckAggFreed_ : Z;
  wireAckAggLastMs_ : Z;
  txBlockedMs_ : Z;
  gaps : Z;
  stale : Z;
  lostMsgs : Z;
  breaksSuppressed_ : Z;
  resetReasonCounts_ : list Z;
  resetCount_ : Z;
  lastResetReason_ : ResetReason;
  lastSendMsgReason_ : SendMsgReason;
}.
#[export] Instance eta_CntG : Eta CntG := fun r =>
  mkCntG (txBytes r) (rxBytes r) (postLockQuietDrops_ r) (rateLimitedCount_ r)
    (txRingStallDrops_ r) (gbnWindowFullDrops_ r) (poolExhaustDrops_ r) (discCount r)
    (frameErrs r) (badHeaderErrs_ r) (overLenErrs_ r) (crcFailErrs_ r) (lastBadHeaderLogMs_
    r) (droppedChunksOnReset r) (settleDrops_ r) (staleAmbiguous_ r) (acksSent_ r)
    (naksSent_ r) (holdNaksLiveness_ r) (resyncDroppedBytes_ r) (wireAckAggAcks_ r)
    (wireAckAggFreed_ r) (wireAckAggLastMs_ r) (txBlockedMs_ r) (gaps r) (stale r) (lostMsgs
    r) (breaksSuppressed_ r) (resetReasonCounts_ r) (resetCount_ r) (lastResetReason_ r)
    (lastSendMsgReason_ r).

(** The object. *)
Record Link := mkLink {
  isMaster : bool;
  cfg : AutoLinkConfig;
  state : State;
  swp : SwpG;
  ses : SesG;
  tim : TimG;
  rxg : RxG;
  txg : TxG;
  gbn : GbnG;
  brk : BrkG;
  cnt : CntG;
}.
#[export] Instance eta_Link : Eta Link := fun r =>
  mkLink (isMaster r) (cfg r) (state r) (swp r) (ses r) (tim r) (rxg r) (txg r) (gbn r) (brk
    r) (cnt r).

(** One SYNC chunk being retried ([struct SyncOp]); [raw] is the chunk with its length. *)
Record SyncOp := mkSyncOp {
  op_seq : Z;
  op_raw : list Z;
  op_attempt : Z;
  op_started : bool;
  op_firstStepMs : Z;
}.
#[export] Instance eta_SyncOp : Eta SyncOp := fun r =>
  mkSyncOp (op_seq r) (op_raw r) (op_attempt r) (op_started r) (op_firstStepMs r).

(** ** Construction *)

Definition dwells_init : SweepDwells := mkDwells 0 (replicate 16 0) (replicate 16 0) 0 0.
Definition linksweep_init : LinkSweep := mkLinkSweep NONE (-1) 0 dwells_init 0.

(** [Link::Link]: the members' initialisers; [sc] is the sweep configuration
    the body installs. The cache is the caller's. *)
Definition link_init (cache : ArqCache) (isMasterNode : bool) (config : AutoLinkConfig) : Link :=
  {| isMaster := isMasterNode;
     cfg := config;
     state := OK;
     swp := mkSwpG 0 0 0 0
              (configure (pingSamplesPerBaud config) (minAcceptRate config) (-1)
                 (sweep_init (clampedCount config)))
              linksweep_init NO_PREFERRED_BAUD NO_PREFERRED_BAUD 0 0 false 0 0 0 0 0 false;
     ses := mkSesG 0 0 0 0 0 0 false false false;
     tim := mkTimG 0 0 0 0 0 0 0 false 0 false 0 0 0 0;
     rxg := mkRxG (replicate 5 0) 0 [] frame_reset codec_init 0 false 0 0 0xFF false 0xFF 0 0 0;
     txg := mkTxG 0 0 arq_init cache;
     gbn := mkGbnG 0 0 0xFF 0 0xFF SrcRto 0 0xFF 0 false 0 0 0xFF 0xFF;
     brk := mkBrkG 0 0 false false false;
     cnt := mkCntG 0 0 0 0 0 0 0 0 0 0 0 0 0 0 0 0 0 0 0 0 0 0 0 0 0 0 0 0 (replicate 10 0) 0
              Kickoff ROk |}.

(** ** The object and its hardware *)

Record World (H : Type) := mkWorld { lk : Link; hal : H }.
#[global] Arguments mkWorld {H} lk hal.
#[global] Arguments lk {H} w : rename.
#[global] Arguments hal {H} w : rename.
#[export] Instance eta_World H : Eta (World H) := fun w => mkWorld (lk w) (hal w).

Definition Act (H A : Type) : Type := M (World H) A.

Section Access.
Context {H : Type}.

(** The whole object, read once. *)
Definition link : Act H Link := gets lk.
Definition upd (f : Link -> Link) : Act H unit := modify (fun w => mkWorld (f (lk w)) (hal w)).

(** A HAL call with a result, and one without. *)
Definition hw {A} (f : H -> A * H) : Act H A :=
  fun w => Some (fst (f (hal w)), mkWorld (lk w) (snd (f (hal w)))).
Definition hwdo (f : H -> H) : Act H unit := modify (fun w => mkWorld (lk w) (f (hal w))).
End Access.

(** [g.p := v], [g.p := f g.p] and a read of [g.p], for a member [p] of group [g]. *)
Notation "'SET' g p := v" := (upd (rset g (rset p (fun _ => v))))
  (at level 90, g at level 1, p at level 1, v at level 89) : autolink_scope.
Notation "'UPD' g p := f" := (upd (rset g (rset p f)))
  (at level 90, g at level 1, p at level 1, f at level 89) : autolink_scope.
Notation "'GET' g p" := (gets (fun w => p (g (lk w))))
  (at level 90, g at level 1, p at level 1) : autolink_scope.

(** A 64-bit event counter ticks. *)
Definition add64 (k n : Z) : Z := u64 (n + k).
Notation "'TICK' p" := (upd (rset cnt (rset p (add64 1)))) (at level 90, p at level 1) : autolink_scope.

End LinkState.
