(* ===== verification/Comm.v ===== *)
(** * The link as its applications use it

    The part of [AutoLink]'s interface ([include/AutoLink.h]) that the demo
    applications of [src/al/pingpong] call, with the Arduino functions they use,
    as a class over a world [W]. Other tasks run between two calls: every call,
    a query too, may change the world. A call that need not return gives an
    [option]. The applications are proved against [CommLaws]; [AutoLink.v] gives
    the instance built on the modelled link and device, [AutoLinkLaws.v] its laws. *)
From S2P Require Import Prelude Monad Config LinkState.
Import Config LinkState.

Module Comm.

(** The fields of [Stats] the applications read. *)
Record StatsView := mkStats { tx : Z; rx : Z; droppedChunksOnReset : Z }.

Class Comm (W : Type) := {
  begin : W -> option (bool * W);
  isHealthy : W -> bool * W;
  ready : W -> bool * W;
  sendMsg : list Z -> W -> option (bool * Z * W);
  (** a length, 0 for none, negative for an error *)
  recv : Z -> W -> option (Z * W);
  flushRx : W -> option W;
  kickoff : W -> option W;
  setLinkPaused : bool -> W -> W;
  setMode : Mode -> W -> W;
  mode : W -> Mode * W;
  maxMsg : W -> Z * W;
  txDelayMs : W -> Z * W;
  lastNakSeq : W -> Z * W;
  isAcked : Z -> W -> bool * W;
  arqPendingCount : W -> Z * W;
  arqWindow : W -> Z * W;
  lastSendMsgReason : W -> SendMsgReason * W;
  getStats : W -> StatsView * W;
  blinkWait : Z -> Z -> Z -> Z -> W -> W;
  (** Arduino *)
  millis : W -> Z * W;
  delay : Z -> W -> W;
  random : Z -> W -> Z * W;
}.

(** A bound on the messages waiting: the applications' receive loops take their
    fuel from it. *)
Class Backlog (W : Type) := backlog : W -> nat.

(** What the applications rely on: sequence numbers are bytes, the clock is a
    [uint32_t], [random(n)] is below [n]; the largest message fits their buffers
    (they configure the link with the defaults); and, where [dv] is false, every
    call returns and one that hands over a message leaves less to receive. With
    [dv] true a call may fail to return: what is then proved of an application is
    what holds when it returns. *)
Class CommLaws (dv : Prop) (W : Type) `{Comm W} `{Backlog W} := {
  sendMsg_law : forall b w, match sendMsg b w with Some (_, seq, _) => is_byte seq | None => dv end;
  recv_law : forall n w,
    match recv n w with Some (r, w') => 0 < r -> dv \/ (backlog w' < backlog w)%nat | None => dv end;
  flushRx_law : forall w, flushRx w = None -> dv;
  kickoff_law : forall w, kickoff w = None -> dv;
  lastNakSeq_byte : forall w, is_byte (fst (lastNakSeq w));
  maxMsg_range : forall w, 1 <= fst (maxMsg w) <= AUTOLINK_DEFAULT_MAX_MSG;
  millis_u32 : forall w, is_u32 (fst (millis w));
  random_range : forall n w, 0 < n -> 0 <= fst (random n w) < n;
}.

(** ** An application: its object and the world behind it *)

Record Node (S W : Type) := mkNode { app : S; io : W }.
#[global] Arguments mkNode {S W}. #[global] Arguments app {S W}. #[global] Arguments io {S W}.

Definition App (S W A : Type) : Type := M (Node S W) A.

Section App.
Context {S W : Type}.

Definition ask {A} (f : W -> A * W) : App S W A := fun n =>
  let '(a, w) := f (io n) in Some (a, mkNode (app n) w).
Definition call {A} (f : W -> option (A * W)) : App S W A := fun n =>
  match f (io n) with Some (a, w) => Some (a, mkNode (app n) w) | None => None end.
Definition act (f : W -> W) : App S W unit := ask (fun w => (tt, f w)).
Definition run (f : W -> option W) : App S W unit := call (fun w => option_map (pair tt) (f w)).
Definition get {A} (f : S -> A) : App S W A := gets (fun n => f (app n)).
Definition this : App S W S := get id.
Definition put (f : S -> S) : App S W unit := modify (fun n => mkNode (f (app n)) (io n)).

Definition waiting `{Backlog W} : App S W nat := gets (fun n => Datatypes.S (backlog (io n))).

(** *** Rules *)

Lemma wpd_ask {A} d (f : W -> A * W) (Q : A -> Node S W -> Prop) n :
  (forall a w, f (io n) = (a, w) -> Q a (mkNode (app n) w)) -> wpd d (ask f) Q n.
Proof. unfold wpd, ask. intros HQ. destruct (f (io n)) as [a w] eqn:E. by apply HQ. Qed.

Lemma wpd_io {A} d (f : W -> option (A * W)) (Q : A -> Node S W -> Prop) n :
  (f (io n) = None -> d) -> (forall a w, f (io n) = Some (a, w) -> Q a (mkNode (app n) w)) -> wpd d (call f) Q n.
Proof. unfold wpd, call. intros Hd HQ. destruct (f (io n)) as [[a w]|] eqn:E; auto. Qed.

Lemma wpd_put d f (Q : unit -> Node S W -> Prop) n : Q tt (mkNode (f (app n)) (io n)) -> wpd d (put f) Q n.
Proof. done. Qed.

Lemma wpd_get {A} d (f : S -> A) (Q : A -> Node S W -> Prop) n : Q (f (app n)) n -> wpd d (get f) Q n.
Proof. done. Qed.
End App.

(** A computation that leaves the object alone preserves what is said of it. *)
Section Keeps.
Context {S W : Type} (d : Prop) (P : S -> Prop).
Abbreviation I := (fun n : Node S W => P (app n)).

Lemma keeps_ask {A} (f : W -> A * W) : keeps d I (ask f).
Proof. intros n Hn. apply wpd_ask. intros a w _. exact Hn. Qed.

Lemma keeps_act f : keeps d I (act f).
Proof. apply keeps_ask. Qed.

Lemma keeps_io {A} (f : W -> option (A * W)) : (forall w, f w = None -> d) -> keeps d I (call f).
Proof. intros Hd n Hn. apply wpd_io; [apply Hd|]. intros a w _. exact Hn. Qed.

Lemma keeps_run f : (forall w, f w = None -> d) -> keeps d I (run f).
Proof. intros Hd. apply keeps_io. intros w. destruct (f w) eqn:E; [done|]. intros _. by apply (Hd w). Qed.

Lemma keeps_get {A} (f : S -> A) : keeps d I (get f).
Proof. by intros n Hn. Qed.

Lemma keeps_put f : (forall p, P p -> P (f p)) -> keeps d I (put f).
Proof. intros Hf n Hn. by apply Hf. Qed.
End Keeps.
#[export] Hint Resolve keeps_ask keeps_act keeps_get : keeps.

Notation "'ASSIGN' p := v" := (put (rset p (fun _ => v))) (at level 90, p at level 1, v at level 99) : autolink_scope.
Notation "'APPLY' p := f" := (put (rset p f)) (at level 90, p at level 1, f at level 99) : autolink_scope.

(** One step of a run of an application. *)
Ltac app_step :=
  lazymatch goal with
  | |- wp _ _ _ => unfold wp
  | |- wpd _ (ret _) _ _ => apply wpd_ret
  | |- wpd _ (bind _ _) _ _ => apply wpd_bind
  | |- wpd _ (when ?b _) _ _ => unfold when
  | |- wpd _ (get _) _ _ => apply wpd_get
  | |- wpd _ this _ _ => apply wpd_get; unfold id
  | |- wpd _ (put _) _ _ => apply wpd_put
  | |- wpd _ waiting _ _ => apply wpd_gets
  end; cbv beta; cbn [app io].
End Comm.
