(* ===== verification/MockComm.v ===== *)
(** * A link for the demo applications to run on

    A scripted world with the [Comm] interface and its laws: what waits to be
    received, which sends are refused and why, which sequence numbers are
    acknowledged. The concrete runs of [Ping] and [Pong] use it. *)
From S2P Require Import Prelude Monad Config LinkState Comm.
Import Config LinkState Comm.

Module MockComm.

(** [outcomes]: the reasons of the coming sends, accepted when there is none left. *)
Record Mock := mkMock {
  clock : Z; up : bool; inbox : list Z; nak : Z; acked : list Z;
  outcomes : list SendMsgReason; lastReason : SendMsgReason; nextSeq : Z;
  mode_ : Mode; window_ : Z; pending_ : Z;
}.
#[export] Instance eta_Mock : Eta Mock := fun r =>
  mkMock (clock r) (up r) (inbox r) (nak r) (acked r) (outcomes r) (lastReason r) (nextSeq r)
    (mode_ r) (window_ r) (pending_ r).

Definition mock_init : Mock := mkMock 1000 true [] 255 [] [] ROk 1 ASYNC 32 0.

Definition mock_send (b : list Z) (w : Mock) : option (bool * Z * Mock) :=
  match outcomes w with
  | r :: rs =>
      if bool_decide (r = ROk) then
        Some (true, u8 (nextSeq w), w <| outcomes := rs |> <| lastReason := ROk |> <| nextSeq ::= Z.succ |>)
      else Some (false, 0, w <| outcomes := rs |> <| lastReason := r |>)
  | [] => Some (true, u8 (nextSeq w), w <| lastReason := ROk |> <| nextSeq ::= Z.succ |>)
  end.

#[export] Instance mock_comm : Comm Mock := {
  begin w := Some (true, w);
  isHealthy w := (true, w);
  ready w := (up w, w);
  sendMsg := mock_send;
  recv _ w := match inbox w with [] => Some (0, w) | n :: q => Some (n, w <| inbox := q |>) end;
  flushRx w := Some (w <| inbox := [] |>);
  kickoff w := Some w;
  setLinkPaused _ w := w;
  setMode m w := w <| mode_ := m |>;
  mode w := (mode_ w, w);
  maxMsg w := (2048, w);
  txDelayMs w := (0, w);
  lastNakSeq w := (u8 (nak w), w);
  isAcked s w := (existsb (Z.eqb s) (acked w), w);
  arqPendingCount w := (pending_ w, w);
  arqWindow w := (window_ w, w);
  lastSendMsgReason w := (lastReason w, w);
  getStats w := (mkStats 0 0 0, w);
  blinkWait _ _ _ _ w := w;
  millis w := (u32 (clock w), w <| clock ::= Z.add 1 |>);
  delay ms w := w <| clock ::= Z.add ms |>;
  random n w := (if n >? 0 then clock w mod n else 0, w <| clock ::= Z.add 1 |>);
}.
#[export] Instance mock_backlog : Backlog Mock := fun w => length (inbox w).

#[export] Instance mock_laws : CommLaws False Mock.
Proof.
  split; cbn.
  - intros b w. unfold mock_send. destruct (outcomes w) as [|r rs]; [apply u8_byte|].
    case_bool_decide; [apply u8_byte|done].
  - intros _ w. destruct (inbox w) as [|x q] eqn:E; [lia|].
    intros _. right. unfold backlog, mock_backlog. rewrite E. cbn. lia.
  - done.
  - done.
  - intros w. apply u8_byte.
  - intros w. unfold AUTOLINK_DEFAULT_MAX_MSG. lia.
  - intros w. apply u32_range.
  - intros n w Hn. replace (n >? 0) with true by lia. by apply Z.mod_pos_bound.
Qed.
End MockComm.
