(* ===== verification/PingPong.v ===== *)
(** * The demo applications' shared parts ([src/al/pingpong])

    [PingGap.h], [PingFill.h] and [PingPongBase.h]: the gap decision, the message
    sizes and fillings, the statistics baseline and the bring-up. Log lines are
    left out; what the logging code keeps is not. *)
From S2P Require Import Prelude Monad Config LinkState Comm.
Import Config LinkState Comm.

Module PingPong.

Definition BUF_SIZE : Z := AUTOLINK_DEFAULT_MAX_MSG.
Definition MAX_TX_PER_LOOP : Z := 16.
Definition AUTOLINK_APP_SETTLE_MS : Z := 600.

(** ** [PingGap.h] *)

Definition PING_GAP_NO_GAP : Z := 255.
Inductive GapAction := Stay | Enter | Update | Resume.
#[export] Instance GapAction_dec : EqDecision GapAction.
Proof. solve_decision. Defined.

(** The action and [nextGap]. *)
Definition decideGapTransition (currentGap lastNak : Z) (gapPending : bool) : GapAction * Z :=
  if currentGap =? PING_GAP_NO_GAP then
    if (lastNak <>? PING_GAP_NO_GAP) && gapPending then (Enter, lastNak)
    else (Stay, PING_GAP_NO_GAP)
  else if (lastNak <>? PING_GAP_NO_GAP) && (lastNak <>? currentGap) then (Update, lastNak)
  else if negb gapPending then (Resume, PING_GAP_NO_GAP)
  else (Stay, currentGap).

(** ** [PingFill.h] *)

Section Fill.
Context {S W : Type} `{CW : Comm W}.
Abbreviation App := (App S W).

Definition pingPickMsgSizeClamped (maxSeqSize liveCap randomMinBytes randomMaxBytes : Z) : App Z :=
  let cap := maxSeqSize in
  let cap := if randomMaxBytes <? cap then randomMaxBytes else cap in
  let cap := if liveCap <? cap then liveCap else cap in
  let minSize := randomMinBytes in
  let minSize := if minSize >? cap then cap else minSize in
  let span := cap - minSize + 1 in
  let span := if span <? 1 then 1 else span in
  r <- ask (random span);; ret (minSize + r).

(** "0123456789abcdefghijklmnopqrstuvwxyz" *)
Definition hex_digit (i : Z) : Z := if i <? 10 then 48 + i else 87 + i.

(** [for (i = 0; i < n; i++) b[i] = HEX_DIGITS[i % 36];] with [k] rounds done. *)
Fixpoint fill_seq_loop (k : nat) (i : Z) (b : list Z) : list Z :=
  match k with
  | O => b
  | Datatypes.S k => fill_seq_loop k (i + 1) (wr b i (hex_digit (i mod 36)))
  end.
Definition pingFillSequential (b : list Z) (n : Z) : list Z := fill_seq_loop (Z.to_nat n) 0 b.

Fixpoint fill_random_loop (k : nat) (i : Z) (b : list Z) : App (list Z) :=
  match k with
  | O => ret b
  | Datatypes.S k => r <- ask (random 256);; fill_random_loop k (i + 1) (wr b i (u8 r))
  end.
Definition pingFillRandom (b : list Z) (n : Z) : App (list Z) := fill_random_loop (Z.to_nat n) 0 b.
End Fill.

(** ** [PingPongBase.h] *)

Record StatBaseline := mkBaseline {
  tMs : Z; lastTx : Z; lastRx : Z; lastLinkDropped : Z; lastAppDropped : Z;
}.
#[export] Instance eta_StatBaseline : Eta StatBaseline := fun r =>
  mkBaseline (tMs r) (lastTx r) (lastRx r) (lastLinkDropped r) (lastAppDropped r).
Definition baseline_init : StatBaseline := mkBaseline 0 0 0 0 (2 ^ 64 - 1).

Definition resetStatBaseline (b : StatBaseline) : StatBaseline :=
  b <| lastTx := 0 |> <| lastRx := 0 |> <| tMs := 0 |>.

(** What a call of [logStats] finds: nothing due, counters that went back, or a
    report with the rates and whether drops on one side went unseen on the other. *)
Inductive LossWarning := NoWarning | LinkOnly | AppOnly.
Inductive StatsLog := NotDue | Rebased | Report (warn : LossWarning) (txRate rxRate : Z).

Definition logStats_at (now : Z) (s : StatsView) (appDropped : Z) (b : StatBaseline) : StatsLog * StatBaseline :=
  if (tx s <? lastTx b) || (rx s <? lastRx b) then
    (Rebased, b <| lastTx := tx s |> <| lastRx := rx s |> <| tMs := now |>)
  else
    let warn :=
      if lastAppDropped b <>? 2 ^ 64 - 1 then
        let linkDelta := u64 (droppedChunksOnReset s - lastLinkDropped b) in
        let appDelta := u64 (appDropped - lastAppDropped b) in
        if (linkDelta >? 0) && (appDelta =? 0) then LinkOnly
        else if (appDelta >? 0) && (linkDelta =? 0) then AppOnly
        else NoWarning
      else NoWarning in
    let b := b <| lastLinkDropped := droppedChunksOnReset s |> <| lastAppDropped := appDropped |> in
    let dt := u32 (now - tMs b) in
    let rate := fun cur last => if dt =? 0 then 0 else u64 (u64 (cur - last) * 1000) / dt in
    (Report warn (rate (tx s) (lastTx b)) (rate (rx s) (lastRx b)),
     b <| lastTx := tx s |> <| lastRx := rx s |> <| tMs := now |>).

Section Base.
Context {S W : Type} `{CW : Comm W}.
Abbreviation App := (App S W).

Definition logStats (appDropped : Z) (b : StatBaseline) : App StatBaseline :=
  now <- ask millis;;
  if u32 (now - tMs b) <? 5000 then ret b
  else
    s <- ask getStats;;
    ret (snd (logStats_at now s appDropped b)).

(** [saved]: the mode byte in NVS, when it opens. The endless loops of a link
    that cannot come up do not return. *)
Definition bringUpLink (saved : option Z) (prePaused : bool) : App unit :=
  when prePaused (act (setLinkPaused true));;
  (match saved with
   | Some m =>
       if m <>? 255 then act (setMode (if m =? 0 then SYNC else ASYNC)) else ret tt
   | None => ret tt
   end);;
  act (blinkWait 1 100 100 2000);;
  ok <- call begin;;
  if negb ok then stuck
  else
    healthy <- ask isHealthy;;
    if negb (healthy : bool) then stuck
    else act (blinkWait 2 100 100 2000).
End Base.
End PingPong.
