(* ===== verification/Ping.v ===== *)
(** * The Ping application ([src/al/pingpong/Ping.h])

    The sender of the demo: it keeps up to 32 messages in flight, stops when the
    peer reports a gap, paces and retries its sends. The object is [Ping]; its
    methods are [App] computations over any world with the [Comm] interface. *)
From S2P Require Import Prelude Monad Crc Config LinkState Comm PingPong.
Import Crc Config LinkState Comm PingPong.

Module Ping.

Inductive FillMode := SEQUENTIAL | RANDOM.
#[export] Instance FillMode_dec : EqDecision FillMode.
Proof. solve_decision. Defined.

Definition NO_GAP : Z := 255.
Definition WINDOW : Z := AUTOLINK_ARQ_PIPELINE_WINDOW.
Definition STALL_MS : Z := 10000.
Definition SETTLE_MS : Z := AUTOLINK_APP_SETTLE_MS.
Definition GAP_STOP_FORCE_RESUME_MS : Z := 5000.
Definition RANDOM_MIN_BYTES : Z := 1.
Definition RANDOM_MAX_BYTES : Z := maxLenForChunkBudget (AUTOLINK_ARQ_PIPELINE_WINDOW / 2).
Definition BACKPRESSURE_COOLDOWN_MS : Z := 1000.

Record Slot := mkSlot { len : Z; crc : Z; seq : Z }.
Definition no_slot : Slot := mkSlot 0 0 0.

(** [wasReady_] is the base's. *)
Record Ping := mkPing {
  queue_ : list Slot; head_ : Z; tail_ : Z; count_ : Z;
  tStall_ : Z; tReady_ : Z; tSweepStall_ : Z; tNotReady_ : Z; tNextSendMs_ : Z;
  backpressureCoolUntilMs_ : Z; consecTransient_ : Z;
  havePendingDraw_ : bool; pendingDrawLen_ : Z; pendingDrawCrc_ : Z;
  gapSeq_ : Z; lastSeq_ : Z; tGapStopMs_ : Z;
  seqSize_ : Z; maxSeqSize_ : Z;
  successEchoCount_ : Z; mismatchCount_ : Z;
  sendBuf_ : list Z;
  stat_ : StatBaseline; fillMode_ : FillMode; paused_ : bool; wasReady_ : bool;
}.
#[export] Instance eta_Ping : Eta Ping := fun r =>
  mkPing (queue_ r) (head_ r) (tail_ r) (count_ r) (tStall_ r) (tReady_ r) (tSweepStall_ r) (tNotReady_ r)
    (tNextSendMs_ r) (backpressureCoolUntilMs_ r) (consecTransient_ r) (havePendingDraw_ r) (pendingDrawLen_ r)
    (pendingDrawCrc_ r) (gapSeq_ r) (lastSeq_ r) (tGapStopMs_ r) (seqSize_ r) (maxSeqSize_ r)
    (successEchoCount_ r) (mismatchCount_ r) (sendBuf_ r) (stat_ r) (fillMode_ r) (paused_ r) (wasReady_ r).

Definition ping_init : Ping :=
  mkPing (replicate 32 no_slot) 0 0 0 0 0 0 0 0 0 0 false 0 0 NO_GAP 0 0 1 AUTOLINK_DEFAULT_MAX_MSG 0 0
    (replicate (Z.to_nat 5120) 0) baseline_init SEQUENTIAL true false.

(** [clearQueue_] *)
Definition clear_queue (p : Ping) : Ping :=
  p <| head_ := 0 |> <| tail_ := 0 |> <| count_ := 0 |> <| tStall_ := 0 |> <| gapSeq_ := NO_GAP |>
    <| tGapStopMs_ := 0 |> <| havePendingDraw_ := false |>.

Section Ping.
Context {W : Type} `{CW : Comm W} `{BW : Backlog W}.
Abbreviation App := (App Ping W).

Definition effWindow_ : App Z := w <- ask arqWindow;; ret (if w >? 0 then w else WINDOW).

(** [while ((got = recv(...)) > 0);]: the last result. *)
Fixpoint drain (k : nat) : App Z :=
  match k with
  | O => stuck
  | S k => got <- call (recv BUF_SIZE);; if got >? 0 then drain k else ret got
  end.

Definition drain_all : App Z := k <- waiting;; drain k.

(** [while (count_ > 0 && isAcked(queue_[head_].seq))]: at most [count_] rounds. *)
Fixpoint retire (k : nat) : App unit :=
  match k with
  | O => ret tt
  | S k =>
      p <- this;;
      if count_ p >? 0 then
        acked <- ask (isAcked (seq (rd no_slot (queue_ p) (head_ p))));;
        if (acked : bool) then
          APPLY successEchoCount_ := (fun n => u64 (n + 1));;
          ASSIGN head_ := ((head_ p + 1) mod WINDOW);;
          ASSIGN count_ := (count_ p - 1);;
          retire k
        else ret tt
      else ret tt
  end.
Definition retire_all : App unit := n <- get count_;; retire (Z.to_nat n).

Definition log_stats : App unit :=
  b <- get stat_;; b <- logStats 0 b;; ASSIGN stat_ := b.

(** [pickMsgSize_] *)
Definition pickMsgSize_ : App Z :=
  p <- this;;
  match fillMode_ p with
  | SEQUENTIAL => ret (if seqSize_ p <? 1 then 1 else seqSize_ p)
  | RANDOM =>
      w <- effWindow_;;
      pend <- ask arqPendingCount;;
      let liveCap := i32 (maxLenForFreeWindow w pend) in
      let liveCap := if liveCap <? 1 then 1 else liveCap in
      pingPickMsgSizeClamped (maxSeqSize_ p) liveCap RANDOM_MIN_BYTES RANDOM_MAX_BYTES
  end.

(** [fillBuf_(sendBuf_, n, fillMode_)] *)
Definition fillBuf_ (n : Z) : App unit :=
  p <- this;;
  match fillMode_ p with
  | SEQUENTIAL => ASSIGN sendBuf_ := (pingFillSequential (sendBuf_ p) n)
  | RANDOM => b <- pingFillRandom (sendBuf_ p) n;; ASSIGN sendBuf_ := b
  end.

(** ** [loop], part by part *)

(** Not ready (lines 60-96). *)
Definition not_ready (now : Z) : App unit :=
  was <- get wasReady_;;
  (if (was : bool) then
     ASSIGN wasReady_ := false;;
     put clear_queue;;
     ASSIGN consecTransient_ := 0;;
     ASSIGN tSweepStall_ := now;;
     last <- get lastSeq_;;
     ASSIGN gapSeq_ := (u8 (last + 1));;
     ASSIGN tGapStopMs_ := 0;;
     ASSIGN backpressureCoolUntilMs_ := 0;;
     APPLY stat_ := resetStatBaseline
   else
     t <- get tNotReady_;;
     when (u32 (now - t) >=? 1000) (ASSIGN tNotReady_ := now));;
  act (blinkWait 3 100 100 0);;
  act (delay 10).

(** The first loop on a new session (lines 98-113). *)
Definition became_ready (now : Z) : App unit :=
  was <- get wasReady_;;
  when (negb was) (
    run flushRx;;
    _ <- drain_all;;
    act (blinkWait 4 60 60 0);;
    ASSIGN tReady_ := now;;
    ASSIGN wasReady_ := true;;
    ASSIGN consecTransient_ := 0;;
    ASSIGN gapSeq_ := NO_GAP;;
    ASSIGN tGapStopMs_ := 0;;
    ASSIGN backpressureCoolUntilMs_ := 0).

(** The pipeline stall (lines 119-136). *)
Definition check_stall (now : Z) : App unit :=
  n <- get count_;;
  if n =? WINDOW then
    t <- get tStall_;;
    when (t =? 0) (ASSIGN tStall_ := now);;
    t <- get tStall_;;
    when (u32 (now - t) >? STALL_MS) (
      put clear_queue;;
      run flushRx;;
      APPLY consecTransient_ := (fun n => u32 (n + 1)))
  else ASSIGN tStall_ := 0.

(** The gap decision (lines 145-175): the action and [nextGap]. *)
Definition gap_decide : App (GapAction * Z) :=
  lastNak <- ask lastNakSeq;;
  gap <- get gapSeq_;;
  let gapCand := if gap =? NO_GAP then lastNak else gap in
  gapPending <- (if gapCand <>? NO_GAP then a <- ask (isAcked gapCand);; ret (negb a) else ret false);;
  let '(a, nextGap) := decideGapTransition gap lastNak gapPending in
  stale <- (if (bool_decide (a = Enter) || bool_decide (a = Update)) && (nextGap <>? NO_GAP)
            then ask (isAcked nextGap) else ret false);;
  ret (if (stale : bool) then (Stay, gap) else (a, nextGap)).

(** Its time stamp (lines 176-191). *)
Definition gap_stamp (now : Z) (a : GapAction) : App unit :=
  match a with
  | Enter | Update => ASSIGN tGapStopMs_ := now
  | Resume => ASSIGN tGapStopMs_ := 0
  | Stay => ret tt
  end.

(** The forced resume and the new [gapSeq_] (lines 211-222). *)
Definition gap_latch (now nextGap : Z) : App Z :=
  gap <- get gapSeq_;;
  t <- get tGapStopMs_;;
  if (gap <>? NO_GAP) && (t <>? 0) && (u32 (now - t) >? GAP_STOP_FORCE_RESUME_MS) then
    ASSIGN tGapStopMs_ := 0;;
    ASSIGN gapSeq_ := NO_GAP;;
    ret NO_GAP
  else
    ASSIGN gapSeq_ := nextGap;;
    ret nextGap.

Definition gap_step (now : Z) : App Z :=
  r <- gap_decide;;
  gap_stamp now (fst r);;
  gap_latch now (snd r).

(** What a stopped loop does (lines 224-278). *)
Definition gap_stopped : App unit :=
  _ <- drain_all;;
  retire_all;;
  log_stats.

(** Whether there is room for the next draw (lines 324-334). *)
Definition room : App bool :=
  w <- effWindow_;;
  pend <- ask arqPendingCount;;
  p <- this;;
  let needed :=
    if havePendingDraw_ p then chunksForMsgLen (pendingDrawLen_ p)
    else match fillMode_ p with SEQUENTIAL => chunksForMsgLen (seqSize_ p) | RANDOM => 1 end in
  ret (negb (w - pend <? needed)).

(** The retained draw, or a fresh one (lines 339-348). *)
Definition draw : App (Z * Z) :=
  p <- this;;
  if havePendingDraw_ p then ret (pendingDrawLen_ p, pendingDrawCrc_ p)
  else
    n <- pickMsgSize_;;
    fillBuf_ n;;
    b <- get sendBuf_;;
    ret (n, crc16 (take (Z.to_nat n) b)).

(** The send was refused (lines 351-425). *)
Definition refused (n crc : Z) : App unit :=
  r <- ask ready;;
  if negb (r : bool) then ret tt
  else
    reason <- ask lastSendMsgReason;;
    if negb (bool_decide (reason = GbnWindowFull)) then
      t <- ask millis;;
      ASSIGN backpressureCoolUntilMs_ := (u32 (t + BACKPRESSURE_COOLDOWN_MS));;
      ASSIGN havePendingDraw_ := false
    else
      ASSIGN pendingDrawLen_ := n;;
      ASSIGN pendingDrawCrc_ := crc;;
      ASSIGN havePendingDraw_ := true.

(** It was accepted (lines 427-444). *)
Definition accepted (n crc_ seq_ txDelayMs : Z) : App unit :=
  ASSIGN havePendingDraw_ := false;;
  act (blinkWait 1 60 60 0);;
  tail <- get tail_;;
  APPLY queue_ := (fun q => wr q tail (mkSlot n crc_ seq_));;
  ASSIGN lastSeq_ := seq_;;
  ASSIGN tail_ := ((tail + 1) mod WINDOW);;
  APPLY count_ := (fun c => c + 1);;
  ASSIGN consecTransient_ := 0;;
  p <- this;;
  (match fillMode_ p with
   | SEQUENTIAL =>
       let s := seqSize_ p + 1 in
       ASSIGN seqSize_ := (if s >? maxSeqSize_ p then 1 else s)
   | RANDOM => ret tt
   end);;
  when (txDelayMs >? 0) (
    t <- ask millis;;
    ASSIGN tNextSendMs_ := (u32 (t + u32 txDelayMs))).

(** [while (count_ < WINDOW && sentThisLoop < maxTx)]: [k] sends left. *)
Fixpoint send_loop (k : nat) (now txDelayMs : Z) : App unit :=
  match k with
  | O => ret tt
  | S k =>
      p <- this;;
      if count_ p <? WINDOW then
        if (txDelayMs >? 0) && (i32 (now - tNextSendMs_ p) <? 0) then ret tt
        else if (backpressureCoolUntilMs_ p <>? 0) && (i32 (now - backpressureCoolUntilMs_ p) <? 0) then ret tt
        else
          ok <- room;;
          if negb ok then ret tt
          else
            nc <- draw;;
            let '(n, crc) := nc in
            b <- get sendBuf_;;
            r <- call (sendMsg (take (Z.to_nat n) b));;
            let '(sent, seq) := r in
            if negb (sent : bool) then refused n crc
            else accepted n crc seq txDelayMs;; send_loop k now txDelayMs
      else ret tt
  end.

(** The sends of a loop (lines 281-445). *)
Definition send_phase (now : Z) : App unit :=
  m <- ask mode;;
  let maxTx := if is_sync m then 1 else MAX_TX_PER_LOOP in
  d <- ask txDelayMs;;
  t <- get tNextSendMs_;;
  when ((d >? 0) && (t =? 0)) (ASSIGN tNextSendMs_ := now);;
  send_loop (Z.to_nat maxTx) now d.

(** What comes back (lines 447-496). *)
Definition echo_phase : App unit :=
  got <- drain_all;;
  retire_all;;
  (if got <? 0 then
     APPLY mismatchCount_ := (fun n => u64 (n + 1));;
     put clear_queue;;
     run flushRx;;
     APPLY consecTransient_ := (fun n => u32 (n + 1))
   else ASSIGN consecTransient_ := 0);;
  log_stats.

Definition loop : App unit :=
  now <- ask millis;;
  r <- ask ready;;
  if negb (r : bool) then not_ready now
  else
    became_ready now;;
    t <- get tReady_;;
    if u32 (now - t) <? SETTLE_MS then ret tt
    else
      check_stall now;;
      paused <- get paused_;;
      if (paused : bool) then _ <- call (recv BUF_SIZE);; ret tt
      else
        gap <- gap_step now;;
        if gap <>? NO_GAP then gap_stopped
        else send_phase now;; echo_phase.

(** ** The other methods *)

Definition setFillMode (m : FillMode) : App unit :=
  ASSIGN fillMode_ := m;;
  match m with SEQUENTIAL => ASSIGN seqSize_ := 1 | RANDOM => ret tt end.

Definition setPaused (p : bool) : App unit :=
  ASSIGN paused_ := p;;
  act (setLinkPaused p);;
  when (negb p) (
    put clear_queue;;
    APPLY stat_ := resetStatBaseline;;
    ASSIGN tNextSendMs_ := 0;;
    ASSIGN gapSeq_ := NO_GAP;;
    ASSIGN tGapStopMs_ := 0;;
    t <- ask millis;;
    ASSIGN tSweepStall_ := t;;
    run kickoff).

(** [up]: whether the web monitor came up. *)
Definition setup (saved : option Z) (up : bool) : App unit :=
  paused <- get paused_;;
  bringUpLink saved paused;;
  m <- ask maxMsg;;
  ASSIGN maxSeqSize_ := (i32 m);;
  when (negb up) (
    ASSIGN paused_ := false;;
    act (setLinkPaused false);;
    run kickoff).

End Ping.
End Ping.
