(* ===== verification/PingInv.v ===== *)
(** * The Ping application is well typed and runs to the end

    The invariant of the [Ping] object: its ring of pending messages, its sequence
    numbers, sizes and the draw it retains are in range. Every method returns and
    keeps it, over any link with the laws of [CommLaws]. *)
From S2P Require Import Prelude Monad Crc Config LinkState Comm MockComm PingPong Ping.
Import Crc Config LinkState Comm MockComm PingPong Ping.

Module PingInv.

(** A retained draw is still in the buffer. *)
Definition draw_ok (p : Ping) : Prop :=
  havePendingDraw_ p = true ->
  1 <= pendingDrawLen_ p <= BUF_SIZE /\
  pendingDrawCrc_ p = crc16 (take (Z.to_nat (pendingDrawLen_ p)) (sendBuf_ p)).

Definition slot_ok (s : Slot) : Prop := is_byte (seq s).

Definition ring_ok (p : Ping) : Prop :=
  lenZ (queue_ p) = WINDOW /\ Forall slot_ok (queue_ p) /\
  0 <= head_ p < WINDOW /\ 0 <= count_ p <= WINDOW /\ tail_ p = (head_ p + count_ p) mod WINDOW.

Definition sizes_ok (p : Ping) : Prop :=
  lenZ (sendBuf_ p) = BUF_SIZE /\ 1 <= maxSeqSize_ p <= BUF_SIZE /\ 1 <= seqSize_ p <= BUF_SIZE.

Definition ping_ok (p : Ping) : Prop :=
  ring_ok p /\ sizes_ok p /\ is_byte (gapSeq_ p) /\ is_byte (lastSeq_ p) /\ draw_ok p.
Definition node_ok {W} (n : Node Ping W) : Prop := ping_ok (app n).

Ltac p_cbn := cbn [rset queue_ head_ tail_ count_ tStall_ tReady_ tSweepStall_ tNotReady_ tNextSendMs_
  backpressureCoolUntilMs_ consecTransient_ havePendingDraw_ pendingDrawLen_ pendingDrawCrc_ gapSeq_ lastSeq_
  tGapStopMs_ seqSize_ maxSeqSize_ successEchoCount_ mismatchCount_ sendBuf_ stat_ fillMode_ paused_ wasReady_] in *.

Lemma ping_init_ok : ping_ok ping_init.
Proof.
  unfold ping_ok, ring_ok, sizes_ok, draw_ok. split_and!; try done.
  apply Forall_replicate. done.
Qed.

Lemma clear_queue_ok p : ping_ok p -> ping_ok (clear_queue p).
Proof.
  intros ((Hl & Hs & _) & Hz & _ & Hq & _). split; [by split_and!|]. split; [exact Hz|].
  split; [done|]. split; [exact Hq|]. done.
Qed.

Lemma slot_seq p : ping_ok p -> is_byte (seq (rd no_slot (queue_ p) (head_ p))).
Proof.
  intros ((Hl & Hs & Hh & _) & _). unfold rd.
  apply (proj1 (List.Forall_forall slot_ok (queue_ p)) Hs). apply nth_In. unfold lenZ, WINDOW in *. lia.
Qed.

Lemma length_fill_seq k : forall i b, lenZ (fill_seq_loop k i b) = lenZ b.
Proof. induction k as [|k IH]; intros i b; cbn [fill_seq_loop]; [done|]. by rewrite IH, lenZ_wr. Qed.

(** What an update outside the ring, the sizes, the gap and the draw keeps. *)
Ltac same_ok := let p := fresh "p" in let Hp := fresh in intros p Hp; exact Hp.

Section Laws.
Context {dv : Prop} {W : Type} `{CommLaws dv W}.
Implicit Types n : Node Ping W.

#[local] Hint Extern 1 (keeps _ _ (ask _)) => apply (keeps_ask _ ping_ok) : keeps.
#[local] Hint Extern 1 (keeps _ _ (act _)) => apply (keeps_act _ ping_ok) : keeps.
#[local] Hint Extern 1 (keeps _ _ (get _)) => apply (keeps_get _ ping_ok) : keeps.
#[local] Hint Extern 1 (keeps _ _ this) => apply (keeps_get _ ping_ok) : keeps.

(** ** The receive loops end *)

Lemma drain_wp k : forall n Q, (dv \/ (backlog (io n) < k)%nat) ->
  (forall r w, r <= 0 -> Q r (mkNode (app n) w)) -> wpd dv (drain k) Q n.
Proof.
  induction k as [|k IH]; intros n Q Hk HQ; [destruct Hk; [done|lia]|]. cbn [drain]. repeat app_step.
  pose proof (recv_law BUF_SIZE (io n)) as L. apply wpd_io; [intros E; by rewrite E in L|].
  intros r w E. rewrite E in L. destruct (Z.ltb_spec 0 r) as [Hp|Hp]; [|by apply HQ].
  apply IH; cbn [io app]; [destruct Hk, (L Hp); auto; right; lia|done].
Qed.

Lemma drain_all_wp n Q : (forall r w, r <= 0 -> Q r (mkNode (app n) w)) -> wpd dv drain_all Q n.
Proof. intros HQ. unfold drain_all. repeat app_step. apply drain_wp; [right; lia|done]. Qed.

Lemma drain_all_keeps : keeps dv node_ok drain_all.
Proof. intros n Hn. by apply drain_all_wp. Qed.

Lemma retire_keeps k : keeps dv node_ok (retire k).
Proof.
  induction k as [|k IH]; cbn [retire]; [apply keeps_ret|]. intros n Hn. repeat app_step.
  destruct (Z.ltb_spec 0 (count_ (app n))) as [Hp|Hp]; [|by apply wpd_ret].
  repeat app_step. apply wpd_ask. intros a w _. destruct a; [|by apply wpd_ret].
  repeat app_step. apply IH. unfold node_ok in *. cbn [app].
  destruct Hn as ((Hl & Hs & Hh & Hc & Ht) & Hz & Hg & Hq & Hd). unfold WINDOW, AUTOLINK_ARQ_PIPELINE_WINDOW in *.
  split; [|split; [exact Hz|]; split; [exact Hg|]; split; [exact Hq|exact Hd]].
  split; [exact Hl|]. split; [exact Hs|]. unfold WINDOW, AUTOLINK_ARQ_PIPELINE_WINDOW. p_cbn. split; [apply Z.mod_pos_bound; lia|]. split; [lia|].
  rewrite Ht, Zplus_mod_idemp_l. f_equal. lia.
Qed.

Lemma retire_all_keeps : keeps dv node_ok retire_all.
Proof. unfold retire_all. apply keeps_bind; [apply keeps_get|intros ?; apply retire_keeps]. Qed.

Lemma logStats_keeps b : keeps dv node_ok (logStats (S := Ping) 0 b).
Proof. unfold logStats. keeps_tac. Qed.

Lemma log_stats_keeps : keeps dv node_ok log_stats.
Proof.
  unfold log_stats. apply keeps_bind; [apply keeps_get|]. intros b.
  apply keeps_bind; [apply logStats_keeps|]. intros b'. apply (keeps_put _ ping_ok). same_ok.
Qed.

Lemma flushRx_keeps : keeps dv node_ok (run flushRx).
Proof. apply keeps_run, flushRx_law. Qed.

Lemma kickoff_keeps : keeps dv node_ok (run kickoff).
Proof. apply keeps_run, kickoff_law. Qed.

Lemma recv_keeps m : keeps dv node_ok (call (recv m)).
Proof. apply keeps_io. intros w Hw. pose proof (recv_law m w) as L. by rewrite Hw in L. Qed.

#[local] Hint Resolve drain_all_keeps retire_all_keeps log_stats_keeps flushRx_keeps kickoff_keeps recv_keeps : keeps.
#[local] Hint Extern 2 (keeps _ _ (put _)) => apply (keeps_put _ ping_ok); same_ok : keeps.
#[local] Hint Extern 1 (keeps _ _ (put clear_queue)) => apply (keeps_put _ ping_ok), clear_queue_ok : keeps.
#[local] Hint Extern 1 (keeps _ _ (put (rset gapSeq_ _))) =>
  apply (keeps_put _ ping_ok); intros p (? & ? & ? & ? & ?); split_and!; try done; apply u8_byte : keeps.

(** ** The parts of [loop] *)

Lemma not_ready_keeps now : keeps dv node_ok (not_ready now).
Proof. unfold not_ready. keeps_tac. Qed.

Lemma became_ready_keeps now : keeps dv node_ok (became_ready now).
Proof. unfold became_ready. keeps_tac. Qed.

Lemma check_stall_keeps now : keeps dv node_ok (check_stall now).
Proof. unfold check_stall. keeps_tac. Qed.

Lemma set_gap_ok p g : ping_ok p -> is_byte g -> ping_ok (p <| gapSeq_ := g |>).
Proof. intros (? & ? & _ & ? & ?) ?. by split_and!. Qed.

Lemma set_gap_stop_ok p t : ping_ok p -> ping_ok (p <| tGapStopMs_ := t |>).
Proof. exact (fun x => x). Qed.

Lemma decide_byte gap nak b : is_byte gap -> is_byte nak -> is_byte (snd (decideGapTransition gap nak b)).
Proof. intros. unfold decideGapTransition. repeat case_match; try done. Qed.

Lemma gap_stamp_keeps now a : keeps dv node_ok (gap_stamp (W := W) now a).
Proof. destruct a; cbn [gap_stamp]; keeps_tac. Qed.

(** The decision looks only. *)
Lemma gap_decide_wp n (Q : _ -> _ -> Prop) : node_ok n ->
  (forall a g w, is_byte g -> Q (a, g) (mkNode (app n) w)) -> wpd dv gap_decide Q n.
Proof.
  intros Hn HQ. unfold gap_decide. repeat app_step. apply wpd_ask. intros nak w En. repeat app_step.
  assert (Hnak : is_byte nak) by (pose proof (lastNakSeq_byte (io n)) as X; by rewrite En in X).
  assert (Hgap : is_byte (gapSeq_ (app n))) by apply Hn.
  set (cand := if _ =? _ then _ else _). clearbody cand.
  assert (Hb : forall (b : bool) w', wpd dv (let '(a, nextGap) := decideGapTransition (gapSeq_ (app n)) nak b in
     bind (if (bool_decide (a = Enter) || bool_decide (a = Update)) && (nextGap <>? NO_GAP)
              then ask (isAcked nextGap) else ret false)
       (fun stale : bool => ret (if stale then (Stay, gapSeq_ (app n)) else (a, nextGap)))) Q (mkNode (app n) w')).
  { intros b w'. pose proof (decide_byte _ _ b Hgap Hnak) as Hd.
    destruct (decideGapTransition _ _ b) as [a g]. cbn [snd] in Hd.
    apply wpd_bind. destruct (_ && _); [apply wpd_ask; intros st w2 _|apply wpd_ret]; apply wpd_ret;
      [destruct st|]; apply HQ; auto. }
  destruct (cand <>? NO_GAP); repeat app_step; [apply wpd_ask; intros a w' _; repeat app_step|]; apply Hb.
Qed.

Lemma gap_latch_keeps now g : is_byte g -> keeps dv node_ok (gap_latch (W := W) now g).
Proof.
  intros Hg n Hn. unfold gap_latch. repeat app_step. destruct (_ && _ && _); repeat app_step; by apply set_gap_ok.
Qed.

Lemma gap_step_keeps now : keeps dv node_ok (gap_step now).
Proof.
  intros n Hn. unfold gap_step. repeat app_step. apply gap_decide_wp; [done|]. intros a g w Hg. repeat app_step.
  eapply wpd_mono; [apply (gap_stamp_keeps now a); exact Hn|]. intros ? n' Hn'. by apply gap_latch_keeps.
Qed.

(** ** Sending *)

Lemma effWindow_keeps : keeps dv node_ok effWindow_.
Proof. unfold effWindow_. keeps_tac. Qed.

Lemma room_app n (Q : bool -> Node Ping W -> Prop) : (forall b w, Q b (mkNode (app n) w)) -> wpd dv room Q n.
Proof.
  intros HQ. unfold room, effWindow_. repeat app_step. apply wpd_ask. intros win w _.
  repeat app_step. apply wpd_ask. intros pend w2 _. repeat app_step. apply HQ.
Qed.

Lemma pick_wp n (Q : Z -> Node Ping W -> Prop) : node_ok n ->
  (forall k w, 1 <= k <= BUF_SIZE -> Q k (mkNode (app n) w)) -> wpd dv pickMsgSize_ Q n.
Proof.
  intros (_ & (_ & Hm & Hs) & _) HQ. unfold pickMsgSize_. repeat app_step. destruct n as [p w]. cbn [app io] in *.
  destruct (fillMode_ p).
  - rewrite clamp_lo. apply wpd_ret. apply HQ. lia.
  - unfold effWindow_. repeat app_step. apply wpd_ask. intros win w1 _. repeat app_step. apply wpd_ask. intros pend w2 _.
    cbv beta zeta. cbn [app io]. rewrite clamp_lo. unfold pingPickMsgSizeClamped. rewrite !clamp_hi, clamp_lo.
    repeat app_step. apply wpd_ask. intros r w3 Er. apply wpd_ret. cbn [app io] in *. apply HQ.
    change RANDOM_MAX_BYTES with 3750 in *. unfold RANDOM_MIN_BYTES, BUF_SIZE, AUTOLINK_DEFAULT_MAX_MSG in *.
    set (cap := Z.min _ _) in *. assert (Hcap : 1 <= cap <= 5120) by (unfold cap; lia).
    rewrite (Z.min_l 1 cap) in * by lia. replace (Z.max (cap - 1 + 1) 1) with cap in Er by lia.
    pose proof (random_range cap w2 ltac:(lia)) as Hr. rewrite Er in Hr. cbn in Hr. lia.
Qed.

Lemma fill_random_wp k : forall i b n (Q : list Z -> Node Ping W -> Prop),
  (forall b' w, lenZ b' = lenZ b -> Q b' (mkNode (app n) w)) -> wpd dv (fill_random_loop k i b) Q n.
Proof.
  induction k as [|k IH]; intros i b n Q HQ; cbn [fill_random_loop].
  - apply wpd_ret. destruct n. by apply HQ.
  - repeat app_step. apply wpd_ask. intros r w _. apply IH. intros b' w' Hb'. apply HQ. by rewrite Hb', lenZ_wr.
Qed.

Lemma set_buf_same p : p <| sendBuf_ := sendBuf_ p |> = p.
Proof. by destruct p. Qed.

(** The message drawn: the retained one, or a fresh one put into the buffer. *)
Lemma draw_wp n (Q : Z * Z -> Node Ping W -> Prop) : node_ok n ->
  (forall k b w, 1 <= k <= BUF_SIZE -> lenZ b = BUF_SIZE ->
     (havePendingDraw_ (app n) = true -> k = pendingDrawLen_ (app n) /\ b = sendBuf_ (app n)) ->
     Q (k, crc16 (take (Z.to_nat k) b)) (mkNode ((app n) <| sendBuf_ := b |>) w)) ->
  wpd dv draw Q n.
Proof.
  intros Hn HQ. unfold draw. repeat app_step. destruct (havePendingDraw_ (app n)) eqn:Eh.
  - apply wpd_ret. destruct Hn as (_ & (Hb & _) & _ & _ & Hd). destruct (Hd Eh) as [Hl ->].
    specialize (HQ (pendingDrawLen_ (app n)) (sendBuf_ (app n)) (io n) Hl Hb). rewrite set_buf_same in HQ.
    destruct n. by apply HQ.
  - apply wpd_bind. apply pick_wp; [done|]. intros k w Hk. unfold fillBuf_. repeat app_step.
    assert (Hb : lenZ (sendBuf_ (app n)) = BUF_SIZE) by apply Hn.
    destruct (fillMode_ (app n)); repeat app_step.
    + apply HQ; [done|by rewrite <- Hb; apply length_fill_seq|congruence].
    + apply fill_random_wp. intros b' w' Hb'. repeat app_step. apply HQ; [done|by rewrite Hb'|congruence].
Qed.

Lemma set_buf_ok p b : ping_ok p -> lenZ b = BUF_SIZE -> (havePendingDraw_ p = true -> b = sendBuf_ p) ->
  ping_ok (p <| sendBuf_ := b |>).
Proof.
  intros (Hr & (_ & Hz) & Hg & Hq & Hd) Hb Hh. split; [exact Hr|]. split; [by split|]. split; [exact Hg|]. split; [exact Hq|].
  intros E. cbn in *. rewrite (Hh E). by apply Hd.
Qed.

Lemma refused_keeps k b : keeps dv (fun n => node_ok n /\ 1 <= k <= BUF_SIZE /\ sendBuf_ (app n) = b)
  (refused k (crc16 (take (Z.to_nat k) b))).
Proof.
  intros n (Hn & Hk & Hb). unfold refused. repeat app_step. apply wpd_ask. intros r w _.
  destruct r; cbn [negb]; [|by apply wpd_ret]. repeat app_step. apply wpd_ask. intros reason w2 _.
  destruct (negb _); repeat app_step.
  - apply wpd_ask. intros t w3 _. repeat app_step. unfold node_ok in *. cbn [app] in *. split; [|by split].
    destruct Hn as (Hr & Hz & Hg & Hq & _). by split_and!.
  - unfold node_ok in *. cbn [app] in *. split; [|by split].
    destruct Hn as (Hr & Hz & Hg & Hq & _). split; [exact Hr|]. split; [exact Hz|]. split; [exact Hg|].
    split; [exact Hq|]. intros _. cbn. by rewrite Hb.
Qed.

Lemma accepted_wp n k c sq d : node_ok n -> count_ (app n) < WINDOW -> is_byte sq ->
  wpd dv (accepted k c sq d) (fun _ n' => node_ok n' /\ havePendingDraw_ (app n') = false) n.
Proof.
  intros ((Hl & Hs & Hh & Hc & Ht) & (Hb & Hm & Hz) & Hg & Hq & _) Hlt Hsq. unfold accepted. repeat app_step.
  apply wpd_ask. intros [] w _. repeat app_step. destruct n as [p w0]. cbn [app io] in *. p_cbn.
  unfold WINDOW, AUTOLINK_ARQ_PIPELINE_WINDOW in *.
  assert (Hring : ring_ok (p <| havePendingDraw_ := false |> <| queue_ ::= (fun q => wr q (tail_ p) (mkSlot k c sq)) |>
     <| lastSeq_ := sq |> <| tail_ := (tail_ p + 1) mod 32 |> <| count_ ::= (fun c => c + 1) |>)).
  { unfold ring_ok, WINDOW, AUTOLINK_ARQ_PIPELINE_WINDOW. p_cbn. rewrite lenZ_wr. split; [done|].
    split; [by apply Forall_insert|]. split; [done|]. split; [lia|]. rewrite Ht, Zplus_mod_idemp_l. f_equal. lia. }
  assert (Hrest : forall q, ping_ok q /\ havePendingDraw_ q = false ->
    wpd dv (when (d >? 0) (t <- ask millis;; ASSIGN tNextSendMs_ := u32 (t + u32 d)))
      (fun _ n' => node_ok n' /\ havePendingDraw_ (app n') = false) (mkNode q w)).
  { intros q Hq'. destruct (d >? 0); repeat app_step; [apply wpd_ask; intros t w' _; repeat app_step|]; exact Hq'. }
  destruct (fillMode_ p); repeat app_step; apply Hrest; (split; [|done]);
    (split; [exact Hring|]; split; [|by split_and!]); p_cbn; (split; [done|]); (split; [done|]); p_cbn; [|done].
  destruct (maxSeqSize_ p <? seqSize_ p + 1) eqn:E; unfold BUF_SIZE, AUTOLINK_DEFAULT_MAX_MSG in *; lia.
Qed.

Lemma send_call_wp b n (Q : bool * Z -> Node Ping W -> Prop) :
  (forall ok sq w, is_byte sq -> sendMsg b (io n) = Some (ok, sq, w) -> Q (ok, sq) (mkNode (app n) w)) ->
  wpd dv (call (sendMsg b)) Q n.
Proof.
  intros HQ. pose proof (sendMsg_law b (io n)) as L.
  apply wpd_io; [intros E; by rewrite E in L|]. intros [ok sq] w E. rewrite E in L. by apply HQ.
Qed.

#[local] Opaque crc16 take accepted refused draw room.

Lemma send_loop_keeps k now d : keeps dv node_ok (send_loop k now d).
Proof.
  induction k as [|k IH]; cbn [send_loop]; [apply keeps_ret|]. intros n Hn. repeat app_step.
  destruct (Z.ltb_spec (count_ (app n)) WINDOW) as [Hc|_]; [|by apply wpd_ret].
  destruct (_ && _); [by apply wpd_ret|]. destruct (_ && _); [by apply wpd_ret|].
  apply wpd_bind, room_app. intros b w. destruct b; cbn [negb]; [|by apply wpd_ret].
  apply wpd_bind, draw_wp; [exact Hn|]. intros j b w1 Hj Hb Hh. repeat app_step.
  apply send_call_wp. intros ok sq w2 Hsq _. repeat app_step.
  assert (Hok : ping_ok ((app n) <| sendBuf_ := b |>)) by (apply set_buf_ok; [exact Hn|done|intros E; by apply Hh]).
  destruct ok; cbn [negb].
  - repeat app_step. eapply wpd_mono; [by apply accepted_wp|]. intros ? n' [Hn' _]. by apply IH.
  - eapply wpd_mono; [by apply refused_keeps|]. by intros ? n' (Hn' & _).
Qed.
#[local] Hint Resolve send_loop_keeps : keeps.

Lemma send_phase_keeps now : keeps dv node_ok (send_phase now).
Proof. unfold send_phase. keeps_tac. Qed.

Lemma echo_phase_keeps : keeps dv node_ok echo_phase.
Proof. unfold echo_phase. keeps_tac. Qed.

Lemma gap_stopped_keeps : keeps dv node_ok gap_stopped.
Proof. unfold gap_stopped. keeps_tac. Qed.
#[local] Hint Resolve not_ready_keeps became_ready_keeps check_stall_keeps gap_step_keeps send_phase_keeps
  echo_phase_keeps gap_stopped_keeps : keeps.

Lemma loop_keeps : keeps dv node_ok loop.
Proof. unfold loop. keeps_tac. Qed.

(** ** The other methods *)

Lemma setFillMode_keeps m : keeps dv node_ok (setFillMode (W := W) m).
Proof.
  unfold setFillMode. apply keeps_bind; [apply (keeps_put _ ping_ok); same_ok|]. intros _. destruct m; [|apply keeps_ret].
  apply (keeps_put _ ping_ok). intros p (Hr & (Hb & Hm & _) & Hrest). split; [exact Hr|]. split; [|exact Hrest].
  split; [done|]. split; [exact Hm|]. done.
Qed.

Lemma setPaused_keeps b : keeps dv node_ok (setPaused b).
Proof. unfold setPaused. keeps_tac. Qed.

(** A link that cannot come up halts the application. *)
Lemma setup_keeps saved up : keeps True node_ok (setup saved up).
Proof.
  unfold setup, bringUpLink. apply keeps_bind; [apply (keeps_get _ ping_ok)|]. intros paused.
  apply keeps_bind.
  { keeps_tac; try (by apply keeps_stuck); try (by apply (keeps_weaken _ _ dv); auto with keeps). by apply (keeps_io True ping_ok). }
  intros _ n Hn. repeat app_step. apply wpd_ask. intros m w Em. repeat app_step.
  pose proof (maxMsg_range (io n)) as Hm. rewrite Em in Hm. cbn in Hm.
  assert (Hok : ping_ok ((app n) <| maxSeqSize_ := i32 m |>)).
  { destruct Hn as (Hr & (Hb & _ & Hs) & Hrest). split; [exact Hr|]. split; [|exact Hrest]. split; [done|]. split; [|exact Hs].
    unfold BUF_SIZE, AUTOLINK_DEFAULT_MAX_MSG in *. cbn. rewrite i32_small; lia. }
  assert (K : keeps True node_ok (when (negb up) (ASSIGN paused_ := false;; act (setLinkPaused false);; run kickoff))).
  { apply (keeps_weaken _ _ dv); [keeps_tac|done]. }
  by apply K.
Qed.
End Laws.

(** ** A life of the application *)

Inductive PingOp := Loop | SetPaused (p : bool) | SetFillMode (m : FillMode) | Setup (saved : option Z) (up : bool).

Definition ping_op {W} `{Comm W} `{Backlog W} (o : PingOp) : App Ping W unit :=
  match o with
  | Loop => loop
  | SetPaused p => setPaused p
  | SetFillMode m => setFillMode m
  | Setup saved up => setup saved up
  end.

(** The calls in turn; [None] when one does not return. *)
Fixpoint ping_run {W} `{Comm W} `{Backlog W} (ops : list PingOp) (n : Node Ping W) : option (Node Ping W) :=
  match ops with
  | [] => Some n
  | o :: ops => match ping_op o n with Some (_, n) => ping_run ops n | None => None end
  end.

Definition no_setup (o : PingOp) : Prop := match o with Setup _ _ => False | _ => True end.

Lemma ping_run_ok {dv} {W} `{CommLaws dv W} ops : forall n, ping_ok (app n) ->
  match ping_run ops n with Some n => ping_ok (app n) | None => dv \/ ~ Forall no_setup ops end.
Proof.
  induction ops as [|o ops IH]; intros n Hn; cbn [ping_run]; [done|].
  assert (K : keeps (dv \/ ~ no_setup o) node_ok (ping_op o)).
  { destruct o; cbn [ping_op no_setup].
    - apply (keeps_weaken _ _ dv); [apply loop_keeps|by left].
    - apply (keeps_weaken _ _ dv); [apply setPaused_keeps|by left].
    - apply (keeps_weaken _ _ dv); [apply setFillMode_keeps|by left].
    - intros m Hm. eapply wpd_weaken; [by apply setup_keeps|tauto]. }
  specialize (K n Hn). unfold wpd in K. destruct (ping_op o n) as [[[] n']|].
  - specialize (IH n' K). destruct (ping_run ops n'); [done|]. destruct IH as [Hd|IH]; [by left|right].
    contradict IH. by inversion IH.
  - destruct K as [Hd|K]; [by left|right]. contradict K. by inversion K.
Qed.

(** C34: The Ping object is well typed in every life: started as constructed, over
    any link with the laws of the interface, whatever calls of its methods and
    whatever the link answers, its ring of 32 pending messages has its indices in
    range and its tail where head and count say, every message size fits its
    5120-byte buffer, and a retained draw is in the buffer with its checksum; and
    over a link whose calls return, every method but [setup], which halts on a
    link that cannot come up, returns. *)
Theorem ping_type {dv} {W} `{CommLaws dv W} ops w :
  match ping_run ops (mkNode ping_init w) with
  | Some n => ping_ok (app n)
  | None => dv \/ ~ Forall no_setup ops
  end.
Proof. apply (ping_run_ok ops (mkNode ping_init w)), ping_init_ok. Qed.

(** Brought up, resumed in RANDOM mode and run past the settle time: a burst of 16
    messages is in the ring. *)
Lemma ping_type_witness :
  let ops := [Setup None true; SetPaused false; SetFillMode RANDOM] ++ replicate 601 Loop in
  let n := ping_run ops (mkNode ping_init (mock_init <| inbox := [7; 3] |>)) in
  option_map (fun n => count_ (app n)) n = Some 16 /\
  match n with Some n => ping_ok (app n) | None => False \/ ~ Forall no_setup ops end.
Proof. split; [vm_compute; reflexivity|]. apply (ping_type (W := Mock)). Defined.
End PingInv.
