(* ===== verification/PingSends.v ===== *)
(** * What the Ping application sends

    A loop's traffic is one of the runs of a small specification ([sends]): a
    burst of at most sixteen messages, each of at most 5120 bytes, ended by the
    first refusal; nothing while stopped on a gap; and a message refused because
    the window was full is the next one sent, byte for byte. The link is observed
    by a world that records every message handed to it. *)
From S2P Require Import Prelude Monad Crc Config LinkState Comm MockComm PingPong Ping PingInv.
Import Crc Config LinkState Comm MockComm PingPong Ping PingInv.

Module PingSends.

(** ** The observed link *)

(** A message given to [sendMsg], and whether it was accepted. *)
Definition Sent : Type := list Z * bool.
(** What is observed: the mode the link reported when asked, and the messages. *)
Inductive Event := Asked (m : Mode) | Gave (s : Sent).

Section Traced.
Context {W : Type} `{CW : Comm W} {BW : Backlog W}.
Definition T : Type := W * list Event.

Definition seen {A} (f : W -> A * W) (t : T) : A * T := let '(a, w) := f (fst t) in (a, (w, snd t)).
Definition seen_opt {A} (f : W -> option (A * W)) (t : T) : option (A * T) :=
  match f (fst t) with Some (a, w) => Some (a, (w, snd t)) | None => None end.
Definition seen_run (f : W -> option W) (t : T) : option T :=
  match f (fst t) with Some w => Some (w, snd t) | None => None end.
Definition seen_act (f : W -> W) (t : T) : T := (f (fst t), snd t).

#[export] Instance traced_comm : Comm T := {
  begin := seen_opt begin;
  isHealthy := seen isHealthy;
  ready := seen ready;
  sendMsg b t :=
    match sendMsg b (fst t) with
    | Some (ok, seq, w) => Some (ok, seq, (w, snd t ++ [Gave (b, ok)]))
    | None => None
    end;
  recv n := seen_opt (recv n);
  flushRx := seen_run flushRx;
  kickoff := seen_run kickoff;
  setLinkPaused p := seen_act (setLinkPaused p);
  setMode m := seen_act (setMode m);
  mode t := let '(m, w) := mode (fst t) in (m, (w, snd t ++ [Asked m]));
  maxMsg := seen maxMsg;
  txDelayMs := seen txDelayMs;
  lastNakSeq := seen lastNakSeq;
  isAcked s := seen (isAcked s);
  arqPendingCount := seen arqPendingCount;
  arqWindow := seen arqWindow;
  lastSendMsgReason := seen lastSendMsgReason;
  getStats := seen getStats;
  blinkWait n a b c := seen_act (blinkWait n a b c);
  millis := seen millis;
  delay ms := seen_act (delay ms);
  random n := seen (random n);
}.
#[export] Instance traced_backlog : Backlog T := fun t => backlog (fst t).

#[export] Instance traced_laws {dv} `{!CommLaws dv W} : CommLaws dv T.
Proof.
  split; unfold seen, seen_opt, seen_run; cbn.
  - intros b [w tr]. pose proof (sendMsg_law b w) as L. cbn. by destruct (sendMsg b w) as [[[? ?] ?]|].
  - intros n [w tr]. pose proof (recv_law n w) as L. unfold backlog, traced_backlog, seen_opt. cbn.
    by destruct (recv n w) as [[? ?]|].
  - intros [w tr]. pose proof (flushRx_law w) as L. unfold seen_run. cbn. destruct (flushRx w); auto; done.
  - intros [w tr]. pose proof (kickoff_law w) as L. unfold seen_run. cbn. destruct (kickoff w); auto; done.
  - intros [w tr]. pose proof (lastNakSeq_byte w) as X. unfold seen. cbn. by destruct (lastNakSeq w).
  - intros [w tr]. pose proof (maxMsg_range w) as X. unfold seen. cbn. by destruct (maxMsg w).
  - intros [w tr]. pose proof (millis_u32 w) as X. unfold seen. cbn. by destruct (millis w).
  - intros n [w tr] Hn. pose proof (random_range n w Hn) as X. unfold seen. cbn. by destruct (random n w).
Qed.
End Traced.
#[global] Arguments T W : clear implicits.

(** ** The specification of a burst *)

Definition msg_fits (m : list Z) : Prop := 1 <= lenZ m <= BUF_SIZE.

(** [sends k d tr d']: with [k] sends left and the draw [d] retained, the messages
    [tr] are handed over and [d'] is retained. *)
Inductive sends : nat -> option (list Z) -> list Sent -> option (list Z) -> Prop :=
  | sends_none k d : sends k d [] d
  | sends_refused k d m d' :
      msg_fits m -> (d = None \/ d = Some m) -> (d' = None \/ d' = Some m) -> sends (S k) d [(m, false)] d'
  | sends_accepted k d m tr d' :
      msg_fits m -> (d = None \/ d = Some m) -> sends k None tr d' -> sends (S k) d ((m, true) :: tr) d'.

(** The message retained. *)
Definition retained (p : Ping) : option (list Z) :=
  if havePendingDraw_ p then Some (take (Z.to_nat (pendingDrawLen_ p)) (sendBuf_ p)) else None.

Section Burst.
Context {dv : Prop} {W : Type} `{CommLaws dv W}.
Implicit Types n : Node Ping (T W).

Definition trace n : list Event := snd (io n).

(** No message goes out, and the draw is kept, or dropped where [drop] allows it. *)
Definition quiet (drop : Prop) (tr : list Event) (d : option (list Z)) n : Prop :=
  trace n = tr /\ (retained (app n) = d \/ (drop /\ retained (app n) = None)).

Lemma quiet_ask {A} c tr d (f : T W -> A * T W) : (forall t, snd (snd (f t)) = snd t) -> keeps dv (quiet c tr d) (ask f).
Proof.
  intros Hf n [Ht Hd]. apply wpd_ask. intros a w E. split; [|exact Hd]. unfold trace in *. cbn.
  specialize (Hf (io n)). rewrite E in Hf. cbn in Hf. congruence.
Qed.

Lemma quiet_act c tr d (f : T W -> T W) : (forall t, snd (f t) = snd t) -> keeps dv (quiet c tr d) (act f).
Proof. intros Hf. by apply quiet_ask. Qed.

Lemma quiet_io {A} c tr d (f : T W -> option (A * T W)) :
  (forall t, match f t with Some (_, t') => snd t' = snd t | None => dv end) -> keeps dv (quiet c tr d) (call f).
Proof.
  intros Hf n [Ht Hd]. specialize (Hf (io n)). apply wpd_io; [intros E; by rewrite E in Hf|].
  intros a w E. rewrite E in Hf. split; [|exact Hd]. unfold trace in *. cbn. congruence.
Qed.

Lemma quiet_run c tr d (f : T W -> option (T W)) :
  (forall t, match f t with Some t' => snd t' = snd t | None => dv end) -> keeps dv (quiet c tr d) (run f).
Proof. intros Hf. apply quiet_io. intros t. specialize (Hf t). by destruct (f t). Qed.

Lemma quiet_get {A} c tr d (f : Ping -> A) : keeps dv (quiet c tr d) (get f).
Proof. by intros n Hn. Qed.

Lemma quiet_put c tr d f : (forall p, retained (f p) = retained p \/ (c /\ retained (f p) = None)) -> keeps dv (quiet c tr d) (put f).
Proof.
  intros Hf n [Ht Hd]. apply wpd_put. split; [exact Ht|]. cbn [app]. destruct (Hf (app n)) as [-> | [Hc ->] ]; [done|by right].
Qed.

(** The calls of the observed link. *)
Ltac seen_tac :=
  intros [? ?]; cbn; unfold seen, seen_act, seen_opt, seen_run; cbn; try done;
  by match goal with |- context [let '(_, _) := ?x in _] => destruct x end.

#[local] Hint Extern 1 (keeps _ _ (ask _)) => apply quiet_ask; seen_tac : keeps.
#[local] Hint Extern 1 (keeps _ _ (act _)) => apply quiet_act; seen_tac : keeps.
#[local] Hint Extern 1 (keeps _ _ (get _)) => apply quiet_get : keeps.
#[local] Hint Extern 1 (keeps _ _ this) => apply quiet_get : keeps.
#[local] Hint Extern 1 (keeps _ _ (put _)) => apply quiet_put; intros ?; by (left; reflexivity) || (right; split; [done|reflexivity]) : keeps.

Lemma recv_quiet c tr d m : keeps dv (quiet c tr d) (call (recv m)).
Proof.
  apply quiet_io. intros [w l]. pose proof (recv_law m w) as L. cbn. unfold seen_opt. cbn.
  by destruct (recv m w) as [[? ?]|].
Qed.

Lemma flushRx_quiet c tr d : keeps dv (quiet c tr d) (run flushRx).
Proof.
  apply quiet_run. intros [w l]. pose proof (flushRx_law w) as L. cbn. unfold seen_run. cbn.
  destruct (flushRx w); auto; done.
Qed.

Lemma drain_quiet k c tr d n :
  dv \/ (backlog (io n) < k)%nat -> quiet c tr d n -> wpd dv (drain k) (fun _ => quiet c tr d) n.
Proof.
  revert n. induction k as [|k IH]; intros n Hk Hn; [destruct Hk; [done|lia]|]. cbn [drain]. apply wpd_bind.
  eapply wpd_mono; [apply wpd_conj; [by apply recv_quiet|]|].
  - instantiate (1 := fun r n' => 0 < r -> dv \/ (backlog (io n') < backlog (io n))%nat).
    pose proof (recv_law BUF_SIZE (io n)) as L. apply wpd_io; [intros E; by rewrite E in L|].
    intros r w E. by rewrite E in L.
  - intros r n' [Hq Hr]. cbv beta in *. destruct (Z.ltb_spec 0 r) as [Hp|]; [|by apply wpd_ret].
    apply IH; [|done]. destruct Hk, (Hr Hp); auto. right. lia.
Qed.

Lemma drain_all_quiet c tr d : keeps dv (quiet c tr d) drain_all.
Proof. intros n Hn. unfold drain_all. repeat app_step. apply drain_quiet; [right; lia|done]. Qed.

Lemma retire_quiet c tr d k : keeps dv (quiet c tr d) (retire k).
Proof. induction k as [|k IH]; cbn [retire]; keeps_tac. Qed.
#[local] Hint Resolve recv_quiet flushRx_quiet drain_all_quiet retire_quiet : keeps.

Lemma retire_all_quiet c tr d : keeps dv (quiet c tr d) retire_all.
Proof. unfold retire_all. keeps_tac. Qed.

Lemma log_stats_quiet c tr d : keeps dv (quiet c tr d) log_stats.
Proof. unfold log_stats, logStats. keeps_tac. Qed.
#[local] Hint Resolve retire_all_quiet log_stats_quiet : keeps.

Lemma not_ready_quiet tr d now : keeps dv (quiet True tr d) (not_ready now).
Proof. unfold not_ready. keeps_tac. Qed.

Lemma became_ready_quiet c tr d now : keeps dv (quiet c tr d) (became_ready now).
Proof. unfold became_ready. keeps_tac. Qed.

Lemma gap_step_quiet c tr d now : keeps dv (quiet c tr d) (gap_step now).
Proof. unfold gap_step, gap_decide, gap_stamp, gap_latch. keeps_tac. Qed.

Lemma gap_stopped_quiet c tr d : keeps dv (quiet c tr d) gap_stopped.
Proof. unfold gap_stopped. keeps_tac. Qed.

Lemma check_stall_quiet tr d now : keeps dv (quiet True tr d) (check_stall now).
Proof. unfold check_stall. keeps_tac. Qed.

Lemma echo_phase_quiet tr d : keeps dv (quiet True tr d) echo_phase.
Proof. unfold echo_phase. keeps_tac. Qed.

(** ** The burst *)

Definition still (tr : list Event) n : Prop := trace n = tr.

Lemma still_ask {A} tr (f : T W -> A * T W) : (forall t, snd (snd (f t)) = snd t) -> keeps dv (still tr) (ask f).
Proof.
  intros Hf n Hn. apply wpd_ask. intros a w E. unfold still, trace in *. cbn.
  specialize (Hf (io n)). rewrite E in Hf. cbn in Hf. congruence.
Qed.

Lemma still_act tr (f : T W -> T W) : (forall t, snd (f t) = snd t) -> keeps dv (still tr) (act f).
Proof. intros Hf. by apply still_ask. Qed.

Lemma still_get {A} tr (f : Ping -> A) : keeps dv (still tr) (get f).
Proof. by intros n Hn. Qed.

Lemma still_put tr f : keeps dv (still tr) (put f).
Proof. intros n Hn. exact Hn. Qed.

#[local] Hint Extern 1 (keeps _ (still _) (ask _)) => apply still_ask; seen_tac : keeps.
#[local] Hint Extern 1 (keeps _ (still _) (act _)) => apply still_act; seen_tac : keeps.
#[local] Hint Extern 1 (keeps _ (still _) (get _)) => apply still_get : keeps.
#[local] Hint Extern 1 (keeps _ (still _) this) => apply still_get : keeps.
#[local] Hint Extern 1 (keeps _ (still _) (put _)) => apply still_put : keeps.

Lemma room_still tr : keeps dv (still tr) room.
Proof. unfold room, effWindow_. keeps_tac. Qed.

Lemma fill_still tr k : forall i b, keeps dv (still tr) (fill_random_loop (S := Ping) (W := T W) k i b).
Proof. induction k as [|k IH]; intros i b; cbn [fill_random_loop]; keeps_tac. Qed.
#[local] Hint Resolve fill_still : keeps.

Lemma draw_still tr : keeps dv (still tr) draw.
Proof.
  unfold draw, pickMsgSize_, effWindow_, pingPickMsgSizeClamped, fillBuf_, pingFillRandom. keeps_tac.
Qed.

Lemma accepted_still tr k c s d : keeps dv (still tr) (accepted k c s d).
Proof. unfold accepted. keeps_tac. Qed.

Lemma refused_still tr k c : keeps dv (still tr) (refused k c).
Proof. unfold refused. keeps_tac. Qed.

(** No gap is being waited for. *)
Definition no_gap (p : Ping) : Prop := gapSeq_ p = NO_GAP.

Lemma no_gap_put f : (forall p, gapSeq_ (f p) = gapSeq_ p) -> keeps dv (fun n : Node Ping (T W) => no_gap (app n)) (put f).
Proof. intros Hf. apply (keeps_put _ no_gap). unfold no_gap. intros p. by rewrite Hf. Qed.

#[local] Hint Extern 1 (keeps _ _ (put _)) => apply no_gap_put; by intros : keeps.
#[local] Hint Extern 1 (keeps _ _ (ask _)) => apply (keeps_ask _ no_gap) : keeps.
#[local] Hint Extern 1 (keeps _ _ (act _)) => apply (keeps_act _ no_gap) : keeps.
#[local] Hint Extern 1 (keeps _ _ (get _)) => apply (keeps_get _ no_gap) : keeps.
#[local] Hint Extern 1 (keeps _ _ this) => apply (keeps_get _ no_gap) : keeps.
#[local] Hint Extern 1 (keeps _ _ (put clear_queue)) => apply (keeps_put _ no_gap); by intros : keeps.

Lemma accepted_no_gap k c s d : keeps dv (fun n => no_gap (app n)) (accepted k c s d).
Proof. unfold accepted. keeps_tac. Qed.

Lemma retire_no_gap k : keeps dv (fun n : Node Ping (T W) => no_gap (app n)) (retire k).
Proof. induction k as [|k IH]; cbn [retire]; keeps_tac. Qed.
#[local] Hint Resolve retire_no_gap : keeps.

Lemma echo_phase_no_gap : keeps dv (fun n => no_gap (app n)) echo_phase.
Proof.
  assert (Kf : keeps dv (fun n : Node Ping (T W) => no_gap (app n)) (run flushRx)).
  { apply (keeps_run dv no_gap), flushRx_law. }
  assert (Kd : keeps dv (fun n : Node Ping (T W) => no_gap (app n)) drain_all).
  { intros n Hn. by apply drain_all_wp. }
  unfold echo_phase, retire_all, log_stats, logStats. keeps_tac.
Qed.

Lemma refused_wp k c n :
  wpd dv (refused k c) (fun _ n' => gapSeq_ (app n') = gapSeq_ (app n) /\
    (retained (app n') = retained (app n) \/ retained (app n') = None \/
     retained (app n') = Some (take (Z.to_nat k) (sendBuf_ (app n))))) n.
Proof.
  unfold refused. repeat app_step. apply wpd_ask. intros r w _. destruct r; cbn [negb]; [|apply wpd_ret; auto].
  repeat app_step. apply wpd_ask. intros reason w2 _. destruct (negb _); repeat app_step.
  - apply wpd_ask. intros t w3 _. repeat app_step. auto.
  - auto.
Qed.

#[local] Opaque crc16 take accepted refused draw room.

(** A draw changes the buffer only, and not under a retained message. *)
Lemma draw_sends n (Q : Z * Z -> Node Ping (T W) -> Prop) : ping_ok (app n) ->
  (forall j b w, 1 <= j <= BUF_SIZE -> lenZ b = BUF_SIZE -> snd w = trace n ->
     (retained (app n) = None \/ retained (app n) = Some (take (Z.to_nat j) b)) ->
     retained ((app n) <| sendBuf_ := b |>) = retained (app n) -> ping_ok ((app n) <| sendBuf_ := b |>) ->
     Q (j, crc16 (take (Z.to_nat j) b)) (mkNode ((app n) <| sendBuf_ := b |>) w)) ->
  wpd dv draw Q n.
Proof.
  intros Hn HQ. eapply wpd_mono; [apply wpd_conj; [|apply (draw_still (trace n)); reflexivity]|].
  { apply (draw_wp n (fun c n1 => exists b, app n1 = ((app n) <| sendBuf_ := b |>) /\
      1 <= fst c <= BUF_SIZE /\ lenZ b = BUF_SIZE /\ snd c = crc16 (take (Z.to_nat (fst c)) b) /\
      (havePendingDraw_ (app n) = true -> fst c = pendingDrawLen_ (app n) /\ b = sendBuf_ (app n)))); [exact Hn|].
    intros j b w1 Hj Hb Hh. exists b. exact (conj eq_refl (conj Hj (conj Hb (conj eq_refl Hh)))). }
  intros [j c] [p1 w1] [(b & Hp1 & Hj & Hb & Hcrc & Hh) Htr1]. cbn [app fst snd] in *. subst p1 c.
  apply HQ; [done|done|exact Htr1| | |apply set_buf_ok; [exact Hn|done|intros E; by apply Hh]].
  - unfold retained. destruct (havePendingDraw_ (app n)); [right|by left]. by destruct (Hh eq_refl) as [<- <-].
  - unfold retained. cbn. destruct (havePendingDraw_ (app n)); [|done]. by destruct (Hh eq_refl) as [_ <-].
Qed.

Lemma send_call_sends m n (Q : bool * Z -> Node Ping (T W) -> Prop) :
  (forall ok sq w, is_byte sq -> snd w = trace n ++ [Gave (m, ok)] -> Q (ok, sq) (mkNode (app n) w)) ->
  wpd dv (call (sendMsg m)) Q n.
Proof.
  intros HQ. apply send_call_wp. intros ok sq [w2 tr2] Hsq E. apply HQ; [done|]. cbn in E |- *. unfold trace.
  destruct (sendMsg m (fst (io n))) as [[[? ?] ?]|]; [|done]. by injection E as -> -> _ <-.
Qed.

Lemma send_loop_sends k now d : forall n, ping_ok (app n) -> no_gap (app n) ->
  wpd dv (send_loop k now d) (fun _ n' => ping_ok (app n') /\ no_gap (app n') /\
    exists new, trace n' = trace n ++ map Gave new /\ sends k (retained (app n)) new (retained (app n'))) n.
Proof.
  assert (stop : forall j n, ping_ok (app n) -> no_gap (app n) -> ping_ok (app n) /\ no_gap (app n) /\
    exists new, trace n = trace n ++ map Gave new /\ sends j (retained (app n)) new (retained (app n))).
  { intros j n Hn Hg. split; [exact Hn|]. split; [exact Hg|]. exists []. split; [by rewrite app_nil_r|constructor]. }
  induction k as [|k IH]; intros n Hn Hg; cbn [send_loop]; [by apply wpd_ret, stop|]. repeat app_step.
  destruct (Z.ltb_spec (count_ (app n)) WINDOW) as [Hc|_]; [|by apply wpd_ret, stop].
  destruct (_ && _); [by apply wpd_ret, stop|]. destruct (_ && _); [by apply wpd_ret, stop|].
  apply wpd_bind. eapply wpd_mono; [apply wpd_conj; [|apply (room_still (trace n)); reflexivity]|].
  { apply (room_app n (fun _ n1 => app n1 = app n)). by intros b w. }
  intros r [p w] [Hp Htr]. cbn [app] in Hp. subst p. rewrite <- Htr.
  destruct r; cbn [negb]; [|by apply wpd_ret, (stop _ (mkNode (app n) w))].
  apply wpd_bind, draw_sends; [exact Hn|]. cbn [app io]. intros j b w1 Hj Hb Ht1 Hd Hret Hok. repeat app_step.
  set (m := take (Z.to_nat j) b) in *.
  assert (Hfit : msg_fits m) by (unfold msg_fits, m; rewrite lenZ_take; lia).
  apply send_call_sends. intros ok sq w2 Hsq Ht2. unfold trace at 1 in Ht2. cbn [app io] in Ht2 |- *.
  rewrite Ht1 in Ht2. destruct ok; cbn [negb]; repeat app_step.
  - eapply wpd_mono; [apply wpd_conj; [by apply accepted_wp|apply wpd_conj;
      [apply (accepted_no_gap j _ sq d); exact Hg|apply (accepted_still (snd w2)); reflexivity]]|].
    intros ? n3 ((Hn3 & Hh3) & Hg3 & Ht3). eapply wpd_mono; [by apply IH|].
    intros ? n4 (Hn4 & Hg4 & new & Ht4 & Hs). split; [exact Hn4|]. split; [exact Hg4|]. exists ((m, true) :: new).
    split; [rewrite Ht4, Ht3, Ht2; by rewrite <- app_assoc|]. apply sends_accepted; [done|done|].
    unfold retained in Hs at 1. by rewrite Hh3 in Hs.
  - eapply wpd_mono; [apply wpd_conj; [by apply refused_keeps|apply wpd_conj;
      [apply refused_wp|apply (refused_still (snd w2)); reflexivity]]|].
    intros ? n3 ((Hn3 & _) & (Hg3 & Hr3) & Ht3). split; [exact Hn3|]. split; [unfold no_gap in *; by rewrite Hg3|].
    exists [(m, false)]. split; [by rewrite Ht3|]. apply sends_refused; [done|done|]. cbn [app] in Hr3.
    rewrite Hret in Hr3. destruct Hr3 as [-> | [-> | ->] ]; auto.
Qed.

(** ** A whole loop *)

Definition steady c tr d n : Prop := ping_ok (app n) /\ quiet c tr d n.

Lemma steady_of {A} c tr d (m : App Ping (T W) A) :
  keeps dv (fun n => node_ok n) m -> keeps dv (quiet c tr d) m -> keeps dv (steady c tr d) m.
Proof. intros K1 K2 n [Hn Hq]. by apply wpd_conj; [apply K1|apply K2]. Qed.

Lemma gap_latch_gap now g n : wpd dv (gap_latch now g) (fun g n' => gapSeq_ (app n') = g) n.
Proof. unfold gap_latch. repeat app_step. by destruct (_ && _ && _); repeat app_step. Qed.

Lemma gap_step_gap now n : ping_ok (app n) -> wpd dv (gap_step now) (fun g n' => gapSeq_ (app n') = g) n.
Proof.
  intros Hn. unfold gap_step. repeat app_step. apply gap_decide_wp; [exact Hn|]. intros a g w Hg. repeat app_step.
  eapply wpd_mono; [by apply (gap_stamp_keeps now a)|]. intros ? n' _. apply gap_latch_gap.
Qed.

(** The stall drops the draw of a full window only. *)
Lemma check_stall_steady now tr d n : ping_ok (app n) -> quiet False tr d n ->
  wpd dv (check_stall now) (fun _ => steady (count_ (app n) = WINDOW) tr d) n.
Proof.
  intros Hn [Ht Hd]. assert (Hc : quiet True tr d n) by (split; [exact Ht|left; tauto]).
  destruct (Z.eqb_spec (count_ (app n)) WINDOW) as [E|E].
  - eapply wpd_mono; [apply (steady_of True tr d); [apply check_stall_keeps|apply check_stall_quiet|by split]|].
    intros ? n' (Hn' & Ht' & Hd'). split; [exact Hn'|]. split; [exact Ht'|tauto].
  - unfold check_stall. repeat app_step. rewrite (proj2 (Z.eqb_neq _ _) E). repeat app_step.
    split; [exact Hn|]. split; [exact Ht|left; tauto].
Qed.

(** The bound on a burst in mode [m]. *)
Definition burst (m : Mode) : nat := Z.to_nat (if is_sync m then 1 else MAX_TX_PER_LOOP).

Lemma send_phase_sends now n : ping_ok (app n) -> no_gap (app n) ->
  wpd dv (send_phase now) (fun _ n' => ping_ok (app n') /\ no_gap (app n') /\
    exists m new, trace n' = trace n ++ Asked m :: map Gave new /\
      sends (burst m) (retained (app n)) new (retained (app n'))) n.
Proof.
  intros Hn Hg. unfold send_phase. repeat app_step. destruct n as [p [w tr]]. unfold trace. cbn [app io snd] in *.
  apply wpd_ask. intros m w1 Em. repeat app_step. apply wpd_ask. intros d w2 Ed. repeat app_step.
  cbn [io] in Em, Ed. assert (Ht : snd w2 = tr ++ [Asked m]).
  { cbn in Em, Ed. unfold seen in Ed. cbn in Em. destruct (mode w). injection Em as -> <-. cbn in Ed.
    destruct (txDelayMs w0). by injection Ed as _ <-. }
  assert (Hloop : forall p', ping_ok p' -> no_gap p' -> retained p' = retained p ->
    wpd dv (send_loop (burst m) now d) (fun _ n' => ping_ok (app n') /\ no_gap (app n') /\
      exists m new, snd (io n') = tr ++ Asked m :: map Gave new /\
        sends (burst m) (retained p) new (retained (app n'))) (mkNode p' w2)).
  { intros p' Hp' Hg' Hr. eapply wpd_mono; [by apply send_loop_sends|].
    intros ? n' (Hn' & Hg'' & new & Hnew & Hs). split; [exact Hn'|]. split; [exact Hg''|]. exists m, new.
    cbn [app io] in *. unfold trace in Hnew. cbn [io] in Hnew. rewrite Ht, <- app_assoc in Hnew.
    split; [exact Hnew|]. by rewrite <- Hr. }
  destruct (_ && _); repeat app_step; by apply Hloop.
Qed.

Definition counts (c : Z) (p : Ping) : Prop := count_ p = c.

Lemma counts_put c f : (forall p, count_ (f p) = count_ p) -> keeps dv (fun n : Node Ping (T W) => counts c (app n)) (put f).
Proof. intros Hf. apply (keeps_put _ (counts c)). unfold counts. intros p. by rewrite Hf. Qed.

Lemma became_ready_counts c now : keeps dv (fun n => counts c (app n)) (became_ready now).
Proof.
  assert (Kf : keeps dv (fun n : Node Ping (T W) => counts c (app n)) (run flushRx)).
  { apply (keeps_run dv (counts c)), flushRx_law. }
  assert (Kd : keeps dv (fun n : Node Ping (T W) => counts c (app n)) drain_all).
  { intros n Hn. by apply drain_all_wp. }
  unfold became_ready. repeat first [apply counts_put; by intros | apply (keeps_act _ (counts c)) | apply (keeps_get _ (counts c))
    | progress keeps_tac].
Qed.

(** What a loop may send: nothing, or, in the mode the link reported to it, a
    burst that starts with the draw retained before it, unless the stall of a full
    window dropped that. *)
Inductive loop_sent n n' : Prop :=
  | sent_nothing :
      trace n' = trace n ->
      retained (app n') = retained (app n) \/ retained (app n') = None -> loop_sent n n'
  | sent_burst m d0 new d1 :
      trace n' = trace n ++ Asked m :: map Gave new ->
      d0 = retained (app n) \/ (d0 = None /\ count_ (app n) = WINDOW) ->
      sends (burst m) d0 new d1 ->
      retained (app n') = d1 \/ retained (app n') = None ->
      no_gap (app n') -> loop_sent n n'.

Lemma loop_sent_quiet c n n' : quiet c (trace n) (retained (app n)) n' -> loop_sent n n'.
Proof.
  intros [Ht Hd]. apply sent_nothing; tauto.
Qed.

(** Before the stall is checked nothing is sent, dropped or retired. *)
Definition waiting_ok n n' : Prop := steady False (trace n) (retained (app n)) n' /\ counts (count_ (app n)) (app n').

Lemma waiting_ask {A} n (f : T W -> A * T W) : (forall t, snd (snd (f t)) = snd t) -> keeps dv (waiting_ok n) (ask f).
Proof.
  intros Hf n' [Hs Hc]. apply wpd_conj; [|by apply (keeps_ask _ (counts _))].
  apply steady_of; [apply (keeps_ask _ ping_ok)|by apply quiet_ask|exact Hs].
Qed.

(** From the gap decision on. *)
Lemma loop_tail now n c n1 : (c -> count_ (app n) = WINDOW) -> steady c (trace n) (retained (app n)) n1 ->
  wpd dv (bind (gap_step now) (fun gap => if gap <>? NO_GAP then gap_stopped else bind (send_phase now) (fun _ => echo_phase)))
    (fun _ => loop_sent n) n1.
Proof.
  intros Hc S1. apply wpd_bind. eapply wpd_mono; [apply wpd_conj; [apply (steady_of c); [apply gap_step_keeps|
    apply gap_step_quiet|exact S1]|apply gap_step_gap, S1]|].
  intros gap n2 [(Hn2 & Hq2) Hg2]. cbv beta in *. destruct (Z.eqb_spec gap NO_GAP) as [->|_]; cbn [negb].
  - apply wpd_bind. eapply wpd_mono; [by apply send_phase_sends|].
    intros ? n3 (Hn3 & Hg3 & m & new & Ht3 & Hs). eapply wpd_mono; [apply wpd_conj; [apply (echo_phase_quiet (trace n3) (retained (app n3)));
      split; [reflexivity|left; reflexivity]|by apply echo_phase_no_gap]|].
    intros ? n4 [[Ht4 Hd4] Hg4]. destruct Hq2 as [Ht2 Hd2].
    apply (sent_burst n n4 m (retained (app n2)) new (retained (app n3)));
      [by rewrite Ht4, Ht3, Ht2|tauto|exact Hs|tauto|exact Hg4].
  - eapply wpd_mono; [by apply gap_stopped_quiet|]. intros ? n3. by apply loop_sent_quiet.
Qed.

Lemma loop_sent_wpd n : ping_ok (app n) -> wpd dv loop (fun _ => loop_sent n) n.
Proof.
  intros Hn. unfold loop.
  assert (S0 : waiting_ok n n) by (split; [split; [exact Hn|by split; [|left]]|done]).
  apply wpd_bind. eapply wpd_mono; [apply (waiting_ask n); [seen_tac|exact S0]|]. intros now n1 S1.
  apply wpd_bind. eapply wpd_mono; [apply (waiting_ask n); [seen_tac|exact S1]|]. intros r n2 S2.
  destruct r; cbn [negb].
  2: { destruct S2 as ((_ & Ht & Hd) & _). eapply wpd_mono; [apply (not_ready_quiet (trace n) (retained (app n)))|].
    { split; [exact Ht|tauto]. } intros ? n3. by apply loop_sent_quiet. }
  apply wpd_bind. eapply wpd_mono; [apply wpd_conj; [apply (steady_of False); [apply became_ready_keeps|
    apply became_ready_quiet|apply S2]|apply (became_ready_counts (count_ (app n))), S2]|].
  intros ? n3 [S3 C3]. repeat app_step. destruct (_ <? SETTLE_MS).
  { apply wpd_ret. eapply loop_sent_quiet, S3. }
  apply wpd_bind. eapply wpd_mono; [apply (check_stall_steady now); apply S3|].
  intros ? n4 S4. cbv beta in *. rewrite C3 in S4. repeat app_step. destruct (paused_ (app n4)).
  - apply wpd_bind. eapply wpd_mono; [apply recv_quiet, S4|]. intros ? n5 S5. apply wpd_ret. eapply loop_sent_quiet, S5.
  - exact (loop_tail now n _ n4 (fun E => E) S4).
Qed.

(** C33: What the Ping application puts on the wire in one call of [loop], over any
    link with the laws of the interface: the call returns where the link's calls
    do, and it gave [sendMsg] nothing, or, after asking the link for its mode, one
    burst: of at most one message when the link answered SYNC and of at most
    sixteen when it answered ASYNC, each of 1 to 5120 bytes, with nothing after
    the first refusal. A burst begins with the message retained by
    an earlier loop, byte for byte, unless the stall of a full window dropped it;
    the message retained afterwards is the one refused last, the earlier one if
    the burst was empty, or none; and a loop
    that got as far as a burst is not waiting for a gap. *)
Theorem loop_sends n : ping_ok (app n) ->
  match loop n with Some (_, n') => loop_sent n n' | None => dv end.
Proof. intros Hn. exact (loop_sent_wpd n Hn). Qed.
End Burst.



(** A retained message of 5 bytes goes first, the window then fills up. *)
Definition ping_before : Ping :=
  ping_init <| paused_ := false |> <| wasReady_ := true |> <| sendBuf_ := pingFillSequential (replicate (Z.to_nat 5120) 0) 5 |>
    <| havePendingDraw_ := true |> <| pendingDrawLen_ := 5 |> <| pendingDrawCrc_ := crc16 [48; 49; 50; 51; 52] |>.
Definition mock_before : Mock := mock_init <| outcomes := [ROk; ROk; GbnWindowFull] |>.

Lemma ping_before_ok : ping_ok ping_before.
Proof.
  assert (X : lenZ (sendBuf_ ping_before) = BUF_SIZE) by reflexivity.
  assert (Y : crc16 (take 5 (sendBuf_ ping_before)) = pendingDrawCrc_ ping_before) by reflexivity.
  unfold ping_ok, ring_ok, sizes_ok, draw_ok. split_and!; try done. by apply Forall_replicate.
Qed.

Lemma loop_sends_witness :
  let n := mkNode ping_before (mock_before, []) in
  ping_ok (app n) /\ option_map (fun r => (trace (snd r), retained (app (snd r)))) (loop n) =
    Some ([Asked (fst (mode mock_before)); Gave ([48; 49; 50; 51; 52], true); Gave ([48; 49], true);
           Gave ([48; 49; 50], false)], Some [48; 49; 50]) /\
  match loop n with Some (_, n') => loop_sent n n' | None => False end.
Proof. split; [apply ping_before_ok|]. split; [vm_compute; reflexivity|]. apply loop_sends, ping_before_ok. Defined.
End PingSends.
