(* ===== verification/Pong.v ===== *)
(** * The Pong application ([src/al/pingpong/Pong.h])

    The receiver of the demo: it takes messages off the link, at most one a loop
    in SYNC mode and sixteen in ASYNC mode. *)
From S2P Require Import Prelude Monad Config LinkState Comm PingPong.
Import Config LinkState Comm PingPong.

Module Pong.

Definition SETTLE_MS : Z := AUTOLINK_APP_SETTLE_MS.

Record Pong := mkPong {
  ackCount_ : Z; tNotReady_ : Z; tReady_ : Z; stat_ : StatBaseline; wasReady_ : bool;
}.
#[export] Instance eta_Pong : Eta Pong := fun r =>
  mkPong (ackCount_ r) (tNotReady_ r) (tReady_ r) (stat_ r) (wasReady_ r).
Definition pong_init : Pong := mkPong 0 0 0 baseline_init false.

Section Pong.
Context {W : Type} `{CW : Comm W} `{BW : Backlog W}.
Abbreviation App := (App Pong W).

(** [while (recv(scratch_) > 0);] *)
Fixpoint drain (k : nat) : App unit :=
  match k with
  | O => stuck
  | S k => n <- call (recv BUF_SIZE);; if n >? 0 then drain k else ret tt
  end.

Definition drain_all : App unit := k <- waiting;; drain k.

(** [while (recvThisLoop < maxAck && (n = recv(...)) > 0)]: [k] messages at most. *)
Fixpoint take_loop (k : nat) : App unit :=
  match k with
  | O => ret tt
  | S k =>
      n <- call (recv BUF_SIZE);;
      if n >? 0 then
        APPLY ackCount_ := (fun c => u64 (c + 1));;
        act (blinkWait 1 60 60 0);;
        take_loop k
      else ret tt
  end.

Definition not_ready : App unit :=
  was <- get wasReady_;;
  (if (was : bool) then
     ASSIGN wasReady_ := false;;
     t <- ask millis;;
     ASSIGN tNotReady_ := t;;
     APPLY stat_ := resetStatBaseline
   else
     now <- ask millis;;
     t <- get tNotReady_;;
     when (u32 (now - t) >=? 1000) (ASSIGN tNotReady_ := now));;
  act (blinkWait 3 100 100 0);;
  act (delay 10).

Definition serve : App unit :=
  m <- ask mode;;
  let maxAck := if is_sync m then 1 else MAX_TX_PER_LOOP in
  take_loop (Z.to_nat maxAck);;
  b <- get stat_;;
  b <- logStats 0 b;;
  ASSIGN stat_ := b.

Definition loop : App unit :=
  r <- ask ready;;
  if negb (r : bool) then not_ready
  else
    was <- get wasReady_;;
    if negb (was : bool) then
      act (blinkWait 4 60 60 0);;
      ASSIGN wasReady_ := true;;
      t <- ask millis;;
      ASSIGN tReady_ := t
    else
      t <- get tReady_;;
      if t <>? 0 then
        now <- ask millis;;
        if u32 (now - t) <? SETTLE_MS then drain_all
        else
          drain_all;;
          ASSIGN tReady_ := 0;;
          serve
      else serve.

Definition setup (saved : option Z) : App unit :=
  bringUpLink saved false;;
  run kickoff.
End Pong.
End Pong.
