(* ===== verification/Timing.v ===== *)
(** * Baud-dependent timing of the link ([Link.h], [LinkBreak.cpp], [LinkTimersGbn.cpp],
    [LinkSweepGlue.cpp])

    Pure functions of the object: retransmission timeout, resend flight time,
    stuck threshold, BREAK grace and confirmation windows, timer periods. *)
From S2P Require Import Prelude MsgCodec FrameRx Config Decision Arq LinkState.
Import MsgCodec FrameRx Config Decision Arq LinkState.

Module Timing.

Definition baud_at (l : Link) : Z := allowedBaudSafe (cfg l) (spdI (swp l)).

(** [spdI < 0 || spdI >= cfg.allowedBaudsCount] *)
Definition spdI_outside (l : Link) : bool :=
  (spdI (swp l) <? 0) || (spdI (swp l) >=? allowedBaudsCount (cfg l)).

Definition BREAK_GRACE_MS : Z := 20.
Definition BREAK_GRACE_FLOOR_MS : Z := 2.
Definition BREAK_CONFIRM_MS : Z := 150.
Definition BREAK_COALESCE_MS : Z := 10.
Definition EVENT_TASK_LOCK_TIMEOUT_MS : Z := 5.

Definition breakGraceMs (l : Link) : Z :=
  if spdI_outside l then BREAK_GRACE_MS
  else
    let rt := roundTripMs (baud_at l) in
    u32 (if rt <? BREAK_GRACE_FLOOR_MS then BREAK_GRACE_FLOOR_MS else rt).

Definition breakConfirmMs (l : Link) : Z :=
  if spdI_outside l then BREAK_CONFIRM_MS
  else if baud_at l =? 0 then BREAK_CONFIRM_MS
  else
    let twoChunkFlight := (MAX_CHUNK + MSG_HDR) * 20 * 1000 / baud_at l in
    if twoChunkFlight >? BREAK_CONFIRM_MS then twoChunkFlight else BREAK_CONFIRM_MS.

Definition resweepPrefBudgetMs (l : Link) : Z :=
  let b := u32 (u32 (syncAckTimeoutMs (cfg l)) * 8) in
  let b := if b <? 3000 then 3000 else b in
  if b >? 5000 then 5000 else b.

Definition interChunkGapMs (l : Link) : Z :=
  if is_sync (mode (cfg l)) then 0
  else if asyncChunkGapMs (cfg l) <? 0 then 0 else asyncChunkGapMs (cfg l).

Definition gbnBackoffCapMs (l : Link) : Z :=
  let s := u32 (syncAckTimeoutMs (cfg l)) in
  let cap := u32 (s * 8) in
  if cap <? s then s else cap.

(** [uint32_t chunkBytes = MAX_CHUNK + 4; chunkBytes * 10 * 1000 / baud * 2] *)
Definition chunk_rtt (baud : Z) : Z := u32 ((MAX_CHUNK + 4) * 10 * 1000 / baud * 2).

Definition baudAwareRtoMs (l : Link) : Z :=
  let baud := baud_at l in
  if baud =? 0 then syncAckTimeoutMs (cfg l)
  else
    let rto := chunk_rtt baud in
    if rto >? u32 (syncAckTimeoutMs (cfg l)) then i32 rto else syncAckTimeoutMs (cfg l).

Definition gbnResendFlightMs (l : Link) : Z :=
  let baud := baud_at l in
  if baud =? 0 then syncAckTimeoutMs (cfg l)
  else
    let rtt := chunk_rtt baud in
    if rtt >? 2 then i32 rtt else 2.

Definition baudAwareStuckThresholdMs (l : Link) : Z :=
  let floor := u32 (syncAckTimeoutMs (cfg l)) in
  if spdI_outside l then floor
  else
    let baud := baud_at l in
    if baud =? 0 then floor
    else
      let pending := pendingCount (arq_ (txg l)) in
      if pending <=? 0 then floor
      else
        let pendingBytes := pending * (MAX_CHUNK + MSG_HDR) in
        let drain := u32 (u64 (pendingBytes * 10000) / baud) in
        let total := u32 (drain + u32 (roundTripMs baud)) in
        if total <? floor then floor else total.

Definition okTickMs (l : Link) : Z :=
  let s := syncAckTimeoutMs (cfg l) in
  let k := Z.quot (idleTimeoutMs (cfg l)) 3 in
  let k := if k <? 50 then 50 else k in
  let k := if k <? s then s else k in
  if is_sync (mode (cfg l)) then k
  else
    let k := if k >? s then s else k in
    if k <? 50 then 50 else k.

Definition reorderExpectedSeq (l : Link) : Z :=
  u8 (if rxSeq (rxg l) =? FrameRx.COBS_SEQ_MAX then 0 else rxSeq (rxg l) + 1).

(** [ctx.allowedBaudsCount()] of the sweep context. *)
Definition ctx_allowedBaudsCount (l : Link) : Z :=
  if allowedBaudsCount (cfg l) <? 0 then 0
  else if allowedBaudsCount (cfg l) >? AUTOLINK_MAX_BAUDS then AUTOLINK_MAX_BAUDS
  else allowedBaudsCount (cfg l).

(** ** What the timers are armed with *)

(** The configurations the sources mean: non-negative timeouts that the
    [uint32_t] arithmetic does not wrap, bauds that are zero-free. *)
Record cfg_timing_ok (c : AutoLinkConfig) : Prop := mkTimingOk {
  ct_sync : 0 <= syncAckTimeoutMs c < 2 ^ 28;
  ct_idle : 0 <= idleTimeoutMs c < 2 ^ 28;
  ct_bauds : forall i, 0 <= i < AUTOLINK_MAX_BAUDS -> 0 <= rd 0 (allowedBauds c) i < 2 ^ 32;
}.

Lemma baud_at_range l : cfg_timing_ok (cfg l) -> 0 <= baud_at l < 2 ^ 32.
Proof.
  intros H. unfold baud_at, allowedBaudSafe.
  destruct (Z.ltb_spec (spdI (swp l)) 0); [cbn; lia|].
  destruct (Z.leb_spec AUTOLINK_MAX_BAUDS (spdI (swp l))); [cbn; lia|]. cbn [orb].
  apply (ct_bauds _ H). lia.
Qed.

Lemma chunk_rtt_range baud : 0 < baud -> 0 <= chunk_rtt baud <= 5080000.
Proof.
  intros Hb. unfold chunk_rtt. change ((MAX_CHUNK + 4) * 10 * 1000) with 2540000.
  assert (0 <= 2540000 / baud <= 2540000).
  { split; [apply Z.div_pos; lia|]. apply Z.div_le_upper_bound; nia. }
  rewrite u32_small by (unfold is_u32; lia). lia.
Qed.

(** The retransmission timeout covers the flight of a chunk and its ACK. *)
Lemma baudAwareRtoMs_spec l :
  cfg_timing_ok (cfg l) ->
  baudAwareRtoMs l =
    if baud_at l =? 0 then syncAckTimeoutMs (cfg l)
    else Z.max (chunk_rtt (baud_at l)) (syncAckTimeoutMs (cfg l)).
Proof.
  intros H. pose proof (baud_at_range l H) as Hb. pose proof (ct_sync _ H).
  unfold baudAwareRtoMs. destruct (Z.eqb_spec (baud_at l) 0); [done|].
  pose proof (chunk_rtt_range (baud_at l)).
  rewrite u32_small by (unfold is_u32; lia).
  destruct (Z.ltb_spec (syncAckTimeoutMs (cfg l)) (chunk_rtt (baud_at l))).
  - rewrite i32_small by lia. lia.
  - lia.
Qed.

Lemma okTickMs_pos l : cfg_timing_ok (cfg l) -> 50 <= okTickMs l < 2 ^ 28.
Proof.
  intros [Hs Hi _]. unfold okTickMs.
  assert (0 <= Z.quot (idleTimeoutMs (cfg l)) 3 < 2 ^ 28).
  { rewrite Z.quot_div_nonneg by lia. mlia. }
  rewrite !clamp_lo, !clamp_hi. destruct (is_sync _); lia.
Qed.

End Timing.
