(* ===== verification/Tx.v ===== *)
(** * Sending frames ([src/al/link/io/LinkTx.cpp], helpers of [Link.h])

    Every byte the link puts on the wire is built here: control frames of the
    sweep, COBS frames of data, ACKs and NAKs. The second half proves the
    framing: what [buildAndTxCobsFrame] transmits is the delimited COBS image of
    the sequence number, the chunk and their CRC, which the peer's receiver
    classifies back to the same payload. *)
From S2P Require Import Prelude Monad Crc Cobs MsgCodec FrameRx Config Decision ArqCache Arq.
From S2P Require Import Hal LinkState Timing.
Import Crc Cobs MsgCodec FrameRx Config Decision ArqCache Arq Hal LinkState Timing.

Module Tx.

(** The delimited COBS image of [raw], built in a buffer of [cap] bytes:
    [frame[0] = 0; n = encode(raw, frame + 1); frame[1 + n] = 0]. *)
Definition cobsFrame (cap : nat) (raw : list Z) : list Z :=
  let '(dst, encLen) := Cobs.encode raw (replicate (cap - 1) 0) in
  0 :: take (Z.to_nat encLen) dst ++ [0].

(** [unenc]: sequence number, chunk, CRC-8 of both. *)
Definition sealed (body : list Z) : list Z := body ++ [crc8 body].

(** [seq == COBS_SEQ_MAX ? 0 : seq + 1] *)
Definition next_seq (s : Z) : Z := if s =? COBS_SEQ_MAX then 0 else u8 (s + 1).

Section Tx.
Context {H : Type} `{IHal H}.

(** [hw.tx]; the HAL reports the time it blocked to [onTxBlockedNote]. *)
Definition hw_tx (b : list Z) : Act H Z :=
  r <- hw (tx b);;
  UPD cnt txBlockedMs_ := add64 (snd r);;
  ret (fst r).

Definition noteTxReject : Act H unit :=
  t <- hw nowMs;;
  let t := if t =? 0 then 1 else t in
  first <- GET tim txRejFirstMs_;;
  when (first =? 0) (SET tim txRejFirstMs_ := t);;
  SET tim txRejLastMs_ := t.

(** A valid frame while a BREAK is suspected: the second one after the grace
    period clears the suspicion. *)
Definition noteValidFrameOk : Act H unit :=
  l <- link;;
  if breakSuspectMs_ (brk l) =? 0 then ret tt
  else
    now <- hw nowMs;;
    if u32 (now - breakSuspectMs_ (brk l)) <? breakGraceMs l then ret tt
    else if breakSuspectSeen_ (brk l) =? 0 then SET brk breakSuspectSeen_ := 1
    else
      SET brk breakSuspectMs_ := 0;;
      SET brk breakSuspectSeen_ := 0;;
      TICK breaksSuppressed_.

Definition sendSweepFrame (payload : Z) : Act H unit :=
  epoch <- GET swp sweepEpoch_;;
  _ <- hw_tx (sealed [0xAA; 0x55; epoch; payload]);;
  UPD cnt txBytes := add64 CTRL_FRAME_SIZE;;
  t <- hw nowMs;;
  SET tim lastTxMs := t.

Definition sendPongAck : Act H unit := sendSweepFrame PONG_CMD.

(** A refused frame leaves the sequence number alone; the caller decides. *)
Definition buildAndTxCobsFrame (seq : Z) (b : list Z) : Act H bool :=
  avail <- hw txAvail;;
  if avail <? kWorstCaseCobsFrame then
    TICK txRingStallDrops_;;
    noteTxReject;;
    _ <- hw txAvail;;
    ret false
  else
    let b := take (Z.to_nat MAX_CHUNK) b in
    _ <- hw_tx (cobsFrame 256 (sealed (seq :: b)));;
    ret true.

Definition sendCobsFrame (b : list Z) : Act H bool :=
  seq <- GET txg txSeq;;
  ok <- buildAndTxCobsFrame seq b;;
  if negb ok then ret false
  else
    (if seq =? COBS_SEQ_MAX then
       SET txg txSeq := 0;;
       UPD txg txSeqLap_ := (fun lap => u8 (lap + 1))
     else SET txg txSeq := u8 (seq + 1));;
    ret true.

(** Send and register a chunk; [0xFF] when it was refused. *)
Definition sendCobsFrameAcked (b : list Z) (baseSeq : Z) : Act H Z :=
  l <- link;;
  let seq := txSeq (txg l) in
  if (lenZ b >? 0) && negb (hasRoom (arqCache_ (txg l))) then
    TICK poolExhaustDrops_;;
    ret 0xFF
  else
    ok <- sendCobsFrame b;;
    if negb ok then ret 0xFF
    else
      l <- link;;
      when (negb (is_sync (mode (cfg l))) && negb (gbnActive_ (arq_ (txg l)))) (
        UPD txg arq_ := (fun a => a <| gbnBase_ := seq |>);;
        SET gbn gbnAttempts_ := 0;;
        SET gbn gbnBackoffMs_ := 0;;
        SET gbn gbnLastRetxBase_ := 0xFF;;
        SET gbn consecutiveKeep_ := 0;;
        UPD txg arq_ := (fun a => a <| gbnActive_ := true |>));;
      now <- hw nowMs;;
      lap <- GET txg txSeqLap_;;
      UPD txg arq_ := onSent seq baseSeq now lap;;
      when (lenZ b >? 0) (UPD txg arqCache_ := ArqCache.insert seq b);;
      ret seq.

Definition resendCobsFrame (seq : Z) (b : list Z) : Act H bool :=
  ok <- buildAndTxCobsFrame seq b;;
  if negb ok then ret false
  else
    when (lenZ b >? 0) (UPD cnt txBytes := add64 (lenZ b));;
    t <- hw nowMs;;
    SET tim lastTxMs := t;;
    ret true.

(** ACKs and NAKs: [body] without its CRC byte. *)
Definition txSmallCobs (body : list Z) : Act H unit :=
  let frame := cobsFrame 16 (sealed body) in
  avail <- hw txAvail;;
  if avail <? lenZ frame then
    TICK txRingStallDrops_;;
    _ <- hw txAvail;;
    ret tt
  else
    _ <- hw_tx frame;;
    UPD cnt txBytes := add64 (lenZ frame);;
    t <- hw nowMs;;
    SET tim lastTxMs := t.

Definition sendCtrlCobsFrame (type seq : Z) : Act H unit := txSmallCobs [type; seq].

Definition sendAckFrame (acked bytesRecvd : Z) : Act H unit :=
  txSmallCobs [ACK_TYPE; acked; u8 (Z.land bytesRecvd 0xFF); u8 (Z.land (Z.shiftr bytesRecvd 8) 0xFF)];;
  TICK acksSent_.

Definition sendNakFrame (missing : Z) : Act H unit :=
  sendCtrlCobsFrame NAK_TYPE missing;;
  TICK naksSent_.

(** [while (offset < len)] over the rest [b] of the message; one round per chunk. *)
Fixpoint buildMsg_loop (fuel : nat) (b : list Z) (lastSeq : Z) : Act H Z :=
  match fuel, b with
  | _, [] => ret lastSeq
  | O, _ => stuck
  | S fuel, _ =>
      let chunk := take (Z.to_nat MAX_CHUNK) b in
      seq <- GET txg txSeq;;
      _ <- sendCobsFrame chunk;;
      UPD cnt txBytes := add64 (lenZ chunk);;
      t <- hw nowMs;;
      SET tim lastTxMs := t;;
      buildMsg_loop fuel (drop (Z.to_nat MAX_CHUNK) b) seq
  end.

(** Sends the message unregistered; the last sequence number used. *)
Definition buildAndSendMsg (b : list Z) : Act H Z :=
  let hdr := msgHdrEncode (lenZ b) (crc16 b) in
  seq <- GET txg txSeq;;
  if lenZ b + MSG_HDR <=? MAX_CHUNK then
    _ <- sendCobsFrame (hdr ++ b);;
    UPD cnt txBytes := add64 (lenZ b);;
    t <- hw nowMs;;
    SET tim lastTxMs := t;;
    ret seq
  else
    _ <- sendCobsFrame hdr;;
    t <- hw nowMs;;
    SET tim lastTxMs := t;;
    buildMsg_loop (length b) b seq.

End Tx.

(** ** Framing *)

Lemma sealed_bytes b : bytes b -> bytes (sealed b).
Proof.
  intros Hb. apply bytes_app. split; [done|]. apply bytes_cons. split; [|constructor].
  by apply crc8_byte.
Qed.

(** The frame on the wire: delimiters around the COBS blocks. *)
Lemma cobsFrame_spec cap raw :
  encodedMax (lenZ raw) <= Z.of_nat cap - 1 ->
  cobsFrame cap raw = 0 :: stuff [] raw ++ [0].
Proof.
  intros Hc. unfold cobsFrame.
  destruct (encode_spec raw (replicate (cap - 1) 0)) as (rest & -> & Hl).
  { unfold lenZ at 2. rewrite length_replicate. lia. }
  unfold lenZ. rewrite Nat2Z.id, take_app_length. done.
Qed.

Lemma next_seq_at base i : next_seq (seq_at base i) = seq_at base (i + 1).
Proof.
  pose proof (seq_at_range base i) as Hr. unfold is_seq in Hr.
  rewrite seq_at_succ. unfold next_seq, COBS_SEQ_MAX.
  destruct (Z.eqb_spec (seq_at base i) 253); [done|]. rewrite u8_small; [done|]. red. lia.
Qed.

End Tx.
