(* ===== verification/Core.v ===== *)
(** * Session control ([LinkSweep.cpp], [LinkCore.cpp], [lockOk_unlocked], [err_unlocked])

    The sweep phases, the reset that ends a session, the lock that starts one,
    and the error counters that decide when to give one up. *)
From Stdlib Require Import SpecFloat.
From S2P Require Import Prelude Monad Crc Cobs MsgCodec FrameRx Config Decision BaudSweep.
From S2P Require Import ArqCache Arq Hal LinkState Timing Tx.
Import MsgCodec FrameRx Config Decision BaudSweep ArqCache Arq Hal LinkState Timing Tx.

Module Core.

Section Core.
Context {H : Type} `{IHal H}.

Definition changeState (newState : State) : Act H unit :=
  l <- link;;
  if decide (state l = newState) then ret tt
  else
    upd (rset state (fun _ => newState));;
    hwdo (setOkState (bool_decide (newState = OK))).

(** [cfg.clampToMaxBauds()] *)
Definition clampBauds : Act H Z :=
  l <- link;;
  let '(n, c) := clampToMaxBauds (cfg l) in
  upd (rset cfg (fun _ => c));;
  ret n.

(** [hw.setSpd(cfg.allowedBaudSafe(i))] *)
Definition setSpdIdx (i : Z) : Act H unit :=
  l <- link;;
  hwdo (setSpd (allowedBaudSafe (cfg l) i)).

(** A member of [sweep_] or of its dwell table. *)
Definition updSweep (f : LinkSweep -> LinkSweep) : Act H unit := UPD swp sweep_ := f.
Definition dwell2 (l : Link) (i : Z) : Z := rd 0 (phase2 (dwells_ (sweep_ (swp l)))) i.
Definition dwell2s (l : Link) (i : Z) : Z := rd 0 (phase2Slave (dwells_ (sweep_ (swp l)))) i.

Definition sweep_reset (s : LinkSweep) : LinkSweep :=
  s <| phase_ := NONE |> <| phase3Baud_ := -1 |> <| phase3Acks_ := 0 |> <| phase2ElapsedMs_ := 0 |>.

(** [subTick <= 0 || subTick > dwell ? dwell : subTick] *)
Definition subTick (sub dwell : Z) : Z := if (sub <=? 0) || (sub >? dwell) then dwell else sub.

Definition enterPhase1 : Act H unit :=
  updSweep (rset phase_ (fun _ => PHASE1));;
  SET swp sweepPongCount_ := 0;;
  l <- link;;
  let slowest := ctx_allowedBaudsCount l - 1 in
  SET swp spdI := slowest;;
  setSpdIdx slowest;;
  if isMaster l then
    sendSweepFrame PING_CMD;;
    hwdo (startTimer (phase1 (dwells_ (sweep_ (swp l)))))
  else hwdo (startTimer (dwell2 l 0 + 200)).

Definition enterPhase2 : Act H unit :=
  updSweep (rset phase_ (fun _ => PHASE2));;
  SET swp spdI := 0;;
  setSpdIdx 0;;
  l <- link;;
  if isMaster l then
    sendSweepFrame PING_CMD;;
    updSweep (rset phase2ElapsedMs_ (fun _ => 0));;
    hwdo (startTimer (subTick (dwell2s l 0) (dwell2 l 0)))
  else hwdo (startTimer (dwell2s l 0)).

(** [rt < 50 ? 50 : rt], then [t3 < 200 ? 200 : t3] with [t3 = rt * k + 100]. *)
Definition phase3_timer (baud k : Z) : Z :=
  let rt := roundTripMs baud in
  let rt := if rt <? 50 then 50 else rt in
  let t3 := rt * k + 100 in
  if t3 <? 200 then 200 else t3.

Definition enterPhase3 (chosenBaud : Z) : Act H unit :=
  updSweep (fun s => s <| phase_ := PHASE3 |> <| phase3Baud_ := chosenBaud |> <| phase3Acks_ := 0 |>);;
  setSpdIdx chosenBaud;;
  l <- link;;
  let t3 := phase3_timer (allowedBaudSafe (cfg l) chosenBaud) (PHASE3_ACKS_NEEDED + 1) in
  if isMaster l then
    sendSweepFrame PING_CMD;;
    hwdo (startTimer t3)
  else hwdo (startTimer (t3 * (RESWEEP_PREF_MAX_ATTEMPTS + 1))).

(** [(int)(250 * n * 1.1f)] *)
Definition masterDwell (n : Z) : Z := sf_trunc (SFmul 24 128 (float32 (250 * n) 0) (float32 9227469 (-23))).

Definition computeDwells : Act H unit :=
  l <- link;;
  let rt0 := roundTripMs (allowedBaudSafe (cfg l) 0) in
  let slave := replicate 16 250 in
  let phase3 := sf_trunc (dmul (dmul (dbl 3 0) (dbl rt0 0)) (dbl 3 (-1))) + 1 in
  let total := foldr Z.add 0 slave in
  updSweep (rset dwells_ (fun _ =>
    mkDwells (Config.delayMs (cfg l)) (replicate 16 (masterDwell (ctx_allowedBaudsCount l))) slave
      phase3 (total * 5 + 200))).

Definition phase1ArmMs : Act H Z :=
  l <- link;;
  if negb (isMaster l) then ret (dwell2 l 0 + 200)
  else
    now <- hw nowMs;;
    ret (jitterPhase1Dwell (phase1 (dwells_ (sweep_ (swp l)))) (Z.lxor now 0xA5)).

(** ** Reset *)

Definition resetSeq : Act H unit :=
  SET txg txSeq := 0;;
  UPD txg txSeqLap_ := (fun n => u8 (n + 1));;
  l <- link;;
  if negb (wasEverOk_ (ses l)) && negb (is_sync (mode (cfg l))) then
    SET rxg rxSeqSet := true;;
    SET rxg rxSeq := COBS_SEQ_MAX
  else
    SET rxg rxSeqSet := false;;
    SET rxg rxSeq := 0.

(** [postLockQuietMs] (if positive) plus two ACK timeouts. *)
Definition fairChanceMs (l : Link) : Z :=
  u32 (u32 (if postLockQuietMs (cfg l) >? 0 then postLockQuietMs (cfg l) else 0) +
       u32 (2 * syncAckTimeoutMs (cfg l))).

(** The session bookkeeping of a counted reset (lines 403-461). *)
Definition reset_count (reason : ResetReason) : Act H unit :=
  TICK discCount;;
  when (bool_decide (reason <> PeerEpochMismatch)) (UPD swp sweepEpoch_ := (fun e => u8 (e + 1)));;
  dnow <- hw nowMs;;
  l <- link;;
  when (wasEverOk_ (ses l)) (
    SET ses recentDiscs_ :=
      (if negb (lastDiscMs_ (ses l) =? 0) && (u32 (dnow - lastDiscMs_ (ses l)) <? 10000)
       then recentDiscs_ (ses l) + 1 else 1);;
    SET ses lastDiscMs_ := dnow;;
    when (negb (lockedAtMs_ (tim l) =? 0) &&
          (u32 (dnow - lockedAtMs_ (tim l)) >=? fairChanceMs l))
      (UPD ses locksWithoutRecv_ := (fun n => n + 1))).

(** Forgetting the preferred baud (lines 486-496). *)
Definition reset_pref (preserve : bool) (reason : ResetReason) : Act H unit :=
  l <- link;;
  let slaveMayPreserve := negb (isMaster l) && bool_decide (reason = HealthWatchdog) in
  when (negb preserve || (negb (isMaster l) && negb slaveMayPreserve)) (
    SET swp preferredBaud_ := NO_PREFERRED_BAUD;;
    SET swp bestProvenBaud_ := NO_PREFERRED_BAUD;;
    SET swp baudUpgradeAtMs_ := 0;;
    SET swp baudUpgradeAttempts_ := 0;;
    SET swp resweepPrefPending_ := false).

(** The counters and receivers every reset clears (lines 502-524). *)
Definition reset_common : Act H unit :=
  SET swp sweepPongCount_ := 0;;
  SET swp baudRetries_ := 0;;
  SET swp pingSample := 0;;
  SET rxg rxIdx := 0;;
  SET rxg okCarry_ := [];;
  UPD rxg msgRx_ := codec_reset;;
  SET rxg msgRxStartedMs_ := 0;;
  SET rxg frameRx := frame_reset;;
  UPD swp baudSweep := resetAll;;
  SET ses errs := 0;;
  SET swp emptySweeps := 0;;
  t <- hw nowMs;;
  SET ses errWindowStartMs_ := t;;
  SET ses errWindowCount_ := 0;;
  t <- hw nowMs;;
  SET tim lastRxMs := t;;
  SET tim txRejFirstMs_ := 0;;
  SET tim txRejLastMs_ := 0.

(** What the end of an OK session wipes (lines 533-602). *)
Definition reset_session : Act H unit :=
  l <- link;;
  when (gbnActive_ (arq_ (txg l)) && (pendingCount (arq_ (txg l)) >? 0))
    (UPD cnt droppedChunksOnReset := add64 (pendingCount (arq_ (txg l))));;
  UPD txg arq_ := arq_clearAll;;
  resetSeq;;
  SET gbn lastAckSeq_ := 0xFF;;
  SET gbn lastNakSeq_ := 0xFF;;
  SET rxg lastRxSeq_ := 0xFF;;
  SET rxg holdNakActive_ := false;;
  SET rxg holdNakSeq_ := 0xFF;;
  SET rxg holdNakFreeAtSet_ := 0;;
  SET rxg holdNakWrap_ := 0;;
  SET rxg rxSeqWrap_ := 0;;
  SET tim postLockQuietLogged_ := false;;
  SET tim postLockFirstTxDone_ := 0;;
  SET tim firstPeerResponseSeen_ := false;;
  SET gbn gbnAttempts_ := 0;;
  SET gbn gbnBackoffMs_ := 0;;
  SET gbn gbnLastRetxBase_ := 0xFF;;
  SET gbn gbnLastResendBase_ := 0xFF;;
  SET gbn resendSource_ := SrcRto;;
  SET gbn gbnLastResendMs_ := 0;;
  SET gbn gbnBaseStuckSinceMs_ := 0;;
  SET gbn gbnBaseStuckTrackedSeq_ := 0xFF;;
  SET gbn consecutiveKeep_ := 0.

(** [preferredBaud_ < (uint8_t)cfg.clampToMaxBauds()], evaluated last but for
    the history tests that follow it. *)
Definition reset_relock (preserve : bool) : Act H bool :=
  l <- link;;
  if preserve && wasEverOk_ (ses l) && negb (preferredBaud_ (swp l) =? NO_PREFERRED_BAUD) then
    n <- clampBauds;;
    ret ((preferredBaud_ (swp l) <? u8 n) &&
         (recentDiscs_ (ses l) <? DISC_STORM_THRESHOLD) &&
         (locksWithoutRecv_ (ses l) <? kPeerBaudMismatchThreshold) &&
         negb (breakStormSeen_ (brk l)))
  else ret false.

(** Where the next sweep starts (lines 631-653). *)
Definition reset_sweep (preserve : bool) : Act H unit :=
  relock <- reset_relock preserve;;
  if (relock : bool) then
    l <- link;;
    SET swp spdI := preferredBaud_ (swp l);;
    enterPhase3 (preferredBaud_ (swp l));;
    SET swp resweepPrefPending_ := true;;
    SET swp resweepPrefAttempts_ := 0;;
    t <- hw nowMs;;
    SET swp resweepPrefDeadlineMs_ := u32 (t + resweepPrefBudgetMs l)
  else
    enterPhase1;;
    SET swp resweepPrefPending_ := false;;
    SET swp resweepPrefAttempts_ := 0;;
    SET swp resweepPrefDeadlineMs_ := 0.

Definition reset (count preserve : bool) (reason : ResetReason) : Act H unit :=
  l <- link;;
  let endedOkSession := bool_decide (state l = OK) in
  UPD cnt resetReasonCounts_ :=
    (fun c => wr c (reason_index reason) (add64 1 (rd 0 c (reason_index reason))));;
  TICK resetCount_;;
  SET cnt lastResetReason_ := reason;;
  when (count && endedOkSession) (reset_count reason);;
  changeState SWP;;
  SET swp spdI := 0;;
  reset_pref preserve reason;;
  reset_common;;
  when endedOkSession reset_session;;
  SET brk breakSuspectMs_ := 0;;
  SET brk breakSuspectSeen_ := 0;;
  hwdo clearAppBuf;;
  reset_sweep preserve;;
  UPD txg arqCache_ := ArqCache.clearAll;;
  hwdo discardTx.

(** ** Lock *)

(** The baud memory of a lock (lines 73-98). *)
Definition lock_baud (idx : Z) : Act H unit :=
  SET swp spdI := idx;;
  SET ses errs := 0;;
  SET swp preferredBaud_ := u8 idx;;
  best <- GET swp bestProvenBaud_;;
  when ((best =? NO_PREFERRED_BAUD) || (u8 idx <? best)) (SET swp bestProvenBaud_ := u8 idx);;
  l <- link;;
  let best := bestProvenBaud_ (swp l) in
  if negb (best =? NO_PREFERRED_BAUD) && (u8 idx >? best) &&
     (baudUpgradeAttempts_ (swp l) <? BAUD_UPGRADE_MAX_ATTEMPTS)
  then
    t <- hw nowMs;;
    SET swp baudUpgradeAtMs_ := u32 (t + BAUD_UPGRADE_DELAY_MS)
  else
    SET swp baudUpgradeAtMs_ := 0;;
    when (u8 idx <=? best) (SET swp baudUpgradeAttempts_ := 0).

(** The session clocks a lock starts (lines 99-163). *)
Definition lock_clocks : Act H unit :=
  SET swp baudRetries_ := 0;;
  t <- hw nowMs;;
  SET ses errWindowStartMs_ := t;;
  SET ses errWindowCount_ := 0;;
  t <- hw nowMs;;
  SET tim lastTxMs := t;;
  SET tim lastRxMs := t;;
  t <- hw nowMs;;
  SET tim lastValidRxMs := t;;
  t <- hw nowMs;;
  SET tim lockedAtMs_ := t;;
  SET tim postLockFirstTxDone_ := t;;
  SET tim firstPeerResponseSeen_ := false;;
  SET tim postLockQuietLogged_ := false;;
  hwdo clearAppBuf;;
  hwdo flushRxHw;;
  t <- hw nowMs;;
  SET tim settleUntilMs_ := u32 (t + AUTOLINK_WIRE_SETTLE_MS);;
  SET gbn gbnAttempts_ := 0;;
  SET gbn gbnBackoffMs_ := 0;;
  SET gbn gbnLastRetxBase_ := 0xFF;;
  SET gbn gbnLastResendBase_ := 0xFF;;
  SET gbn gbnLastResendMs_ := 0;;
  SET gbn consecutiveKeep_ := 0;;
  l <- link;;
  SET gbn gbnBaseStuckThresholdMs_ := u32 (syncAckTimeoutMs (cfg l));;
  SET gbn gbnBaseStuckThresholdOverridden_ := false.

(** The debug line that follows divides by the baud: a zero baud has no
    defined outcome. *)
Definition lockOk (idx : Z) : Act H unit :=
  l <- link;;
  if decide (state l = OK) then ret tt
  else
    hwdo (setSpd (allowedBaudSafe (cfg l) idx));;
    lock_baud idx;;
    lock_clocks;;
    if allowedBaudSafe (cfg l) idx =? 0 then stuck
    else
      changeState OK;;
      SET ses wasEverOk_ := true;;
      SET swp resweepPrefPending_ := false;;
      SET swp resweepPrefAttempts_ := 0;;
      l <- link;;
      hwdo (startTimer (okTickMs l)).

(** ** Errors *)

Definition count_cause (cause : FrameErrCause) : Act H unit :=
  match cause with
  | BadHeader => TICK badHeaderErrs_
  | OverLen => TICK overLenErrs_
  | CrcFail => TICK crcFailErrs_
  end.

(** [err_unlocked]: [true] when the error ended the session. *)
Definition err_ (cause : FrameErrCause) : Act H bool :=
  l <- link;;
  if decide (state l = OK) then
    UPD ses errs := (fun n => n + 1);;
    TICK frameErrs;;
    count_cause cause;;
    now <- hw nowMs;;
    l <- link;;
    (if u32 (now - errWindowStartMs_ (ses l)) >=? 1000 then
       SET ses errWindowStartMs_ := now;;
       SET ses errWindowCount_ := 1
     else UPD ses errWindowCount_ := (fun n => n + 1));;
    l <- link;;
    if errs (ses l) >? errThreshold (cfg l) then
      reset true false ErrThreshold;; ret true
    else if (errRateWindow (cfg l) >? 0) && (errWindowCount_ (ses l) >? errRateWindow (cfg l)) then
      reset true false ErrRate;; ret true
    else ret false
  else ret false.

End Core.
End Core.
