(* ===== verification/Sweep.v ===== *)
(** * The baud sweep ([LinkSweepGlue.cpp], [LinkTimersSwp.cpp])

    The handshake handlers (a control frame in SWP) and the sweep timer, for
    both roles. *)
From S2P Require Import Prelude Monad MsgCodec FrameRx Config Decision BaudSweep ArqCache Arq.
From S2P Require Import Hal LinkState Timing Tx Core.
Import MsgCodec FrameRx Config Decision BaudSweep ArqCache Arq Hal LinkState Timing Tx Core.

Module Sweep.

(** [for (j = 0; j < best; j++) if (scoreAt(j) > 0) return j; return best;] *)
Fixpoint first_scored (n : nat) (j best : Z) (s : UtilBaudSweep) : Z :=
  match n with
  | O => best
  | S n => if scoreAt j s >? 0 then j else first_scored n (j + 1) best s
  end.
Definition bestSpd (l : Link) : Z :=
  let best := pickBest (baudSweep (swp l)) in
  if best <? 0 then 0 else first_scored (Z.to_nat best) 0 best (baudSweep (swp l)).

Section Sweep.
Context {H : Type} `{IHal H}.

(** Tune to [baud] and lock there, announcing it when [announce]. *)
Definition tune (i : Z) : Act H unit :=
  setSpdIdx i;;
  SET swp spdI := i.

Definition applyMasterSwpAction (a : SwpPhaseAction) : Act H bool :=
  match a with
  | PromoteToPhase2 => enterPhase2;; ret false
  | PromoteToPhase3 => i <- GET swp spdI;; enterPhase3 i;; ret false
  | Lock =>
      l <- link;;
      let baud := phase3Baud_ (sweep_ (swp l)) in
      updSweep sweep_reset;;
      tune baud;;
      sendSweepFrame (u8 (LOCK_CMD + u8 baud));;
      lockOk baud;;
      ret false
  | Stay =>
      l <- link;;
      sendSweepFrame PING_CMD;;
      hwdo (startTimer (phase3_timer (allowedBaudSafe (cfg l) (phase3Baud_ (sweep_ (swp l))))
                          (PHASE3_ACKS_NEEDED - phase3Acks_ (sweep_ (swp l)) + 1)));;
      ret false
  | FallbackLockSlowest | SendPongAck | DropToPhase1 => ret false
  end.

Definition applyPongSwpAction (a : SwpPhaseAction) : Act H bool :=
  match a with
  | SendPongAck => sendPongAck;; ret false
  | PromoteToPhase3 => i <- GET swp spdI;; enterPhase3 i;; sendPongAck;; ret false
  | Lock =>
      l <- link;;
      let lb := phase3Baud_ (sweep_ (swp l)) in
      updSweep sweep_reset;;
      tune lb;;
      sendSweepFrame (u8 (LOCK_CMD + u8 lb));;
      lockOk lb;;
      ret false
  | Stay => sendPongAck;; ret false
  | PromoteToPhase2 =>
      sendPongAck;;
      enterPhase2;;
      l <- link;;
      hwdo (startTimer (dwell2s l 0));;
      ret false
  | FallbackLockSlowest | DropToPhase1 => ret false
  end.

(** The peer's epoch is latched from the first frame and followed from then on. *)
Definition latch_epoch (cobsSeq : Z) : Act H unit :=
  l <- link;;
  if negb (peerSweepEpochKnown_ (swp l)) then
    SET swp peerSweepEpoch_ := cobsSeq;;
    SET swp peerSweepEpochKnown_ := true
  else when (negb (cobsSeq =? peerSweepEpoch_ (swp l))) (SET swp peerSweepEpoch_ := cobsSeq).

Definition incPhase3Acks : LinkSweep -> LinkSweep := rset phase3Acks_ (fun n => n + 1).

(** A PONG at the master (lines 244-277). *)
Definition masterPong : Act H bool :=
  UPD swp sweepPongCount_ := (fun n => n + 1);;
  l <- link;;
  match phase_ (sweep_ (swp l)) with
  | PHASE1 => applyMasterSwpAction decideMasterPhase1Ack
  | PHASE2 => applyMasterSwpAction decideMasterPhase2Ack
  | PHASE3 =>
      updSweep incPhase3Acks;;
      applyMasterSwpAction
        (decideMasterPhase3Ack (phase3Acks_ (sweep_ (swp l)) + 1) PHASE3_ACKS_NEEDED)
  | NONE => ret false
  end.

(** A PING at the slave (lines 278-303). *)
Definition slavePing : Act H bool :=
  l <- link;;
  UPD swp baudSweep := score (spdI (swp l));;
  match phase_ (sweep_ (swp l)) with
  | PHASE1 => applyPongSwpAction decidePongPhase1Ping
  | PHASE2 => applyPongSwpAction decidePongPhase2Ping
  | PHASE3 =>
      updSweep incPhase3Acks;;
      applyPongSwpAction
        (decidePongPhase3Ping (phase3Acks_ (sweep_ (swp l)) + 1) PHASE3_ACKS_NEEDED)
  | NONE => ret false
  end.

Definition handleSwp (cobsSeq payload : Z) : Act H bool :=
  latch_epoch cobsSeq;;
  n <- clampBauds;;
  l <- link;;
  match isLockPayload payload n with
  | Some lockIdx =>
      tune lockIdx;;
      updSweep sweep_reset;;
      lockOk lockIdx;;
      ret false
  | None =>
      if negb (isMaster l) && (payload =? REQ_CMD) then
        let best := bestSpd l in
        sendSweepFrame (u8 best);;
        lockOk best;;
        ret false
      else if isMaster l && (payload =? PONG_CMD) then masterPong
      else if negb (isMaster l) && (payload =? PING_CMD) then slavePing
      else ret false
  end.

(** ** The sweep timer *)

(** Back to phase 1 at the slowest baud, when no PONG justified a fallback lock. *)
Definition fallback_denied : Act H unit :=
  n <- clampBauds;;
  SET swp spdI := n - 1;;
  setSpdIdx (n - 1);;
  enterPhase1.

Definition timer_master_p1 : Act H unit :=
  sendSweepFrame PING_CMD;;
  UPD swp pingSample := (fun n => n + 1);;
  ms <- phase1ArmMs;;
  hwdo (startTimer ms).

(** Lines 25-92. *)
Definition timer_master_p2 : Act H unit :=
  l <- link;;
  let dwell := dwell2 l (spdI (swp l)) in
  let sub := subTick (dwell2s l (spdI (swp l))) dwell in
  updSweep (rset phase2ElapsedMs_ (fun e => e + sub));;
  if phase2ElapsedMs_ (sweep_ (swp l)) + sub <? dwell then
    sendSweepFrame PING_CMD;;
    hwdo (startTimer sub)
  else
    updSweep (rset phase2ElapsedMs_ (fun _ => 0));;
    UPD swp spdI := (fun i => i + 1);;
    n <- clampBauds;;
    i <- GET swp spdI;;
    match decideMasterPhase2Timeout i n with
    | FallbackLockSlowest =>
        n <- clampBauds;;
        l <- link;;
        let lb := n - 1 in
        if sweepPongCount_ (swp l) <? 1 then fallback_denied
        else
          updSweep sweep_reset;;
          tune lb;;
          sendSweepFrame (u8 (LOCK_CMD + u8 lb));;
          lockOk lb
    | _ =>
        setSpdIdx i;;
        sendSweepFrame PING_CMD;;
        l <- link;;
        hwdo (startTimer (subTick (dwell2s l i) (dwell2 l i)))
    end.

(** [resweepPrefDeadlineMs_ != 0 && (int32_t)(deadline - now) > 0 && attempts < ceiling] *)
Definition camp_open : Act H bool :=
  l <- link;;
  if resweepPrefDeadlineMs_ (swp l) =? 0 then ret false
  else
    now <- hw nowMs;;
    ret ((i32 (resweepPrefDeadlineMs_ (swp l) - now) >? 0) &&
         (resweepPrefAttempts_ (swp l) <? RESWEEP_PREF_ATTEMPT_CEILING)).

(** Lines 122-192: camping at the preserved baud. *)
Definition timer_master_camp : Act H unit :=
  open <- camp_open;;
  if (open : bool) then
    UPD swp resweepPrefAttempts_ := (fun n => n + 1);;
    _ <- hw nowMs;;
    sendSweepFrame PING_CMD;;
    l <- link;;
    hwdo (startTimer (phase3_timer (allowedBaudSafe (cfg l) (phase3Baud_ (sweep_ (swp l))))
                        (PHASE3_ACKS_NEEDED - phase3Acks_ (sweep_ (swp l)) + 1)))
  else
    SET swp resweepPrefAttempts_ := 0;;
    SET swp resweepPrefPending_ := false;;
    SET swp resweepPrefDeadlineMs_ := 0;;
    updSweep sweep_reset;;
    n <- clampBauds;;
    tune (n - 1);;
    updSweep (rset phase_ (fun _ => PHASE1));;
    sendSweepFrame PING_CMD;;
    ms <- phase1ArmMs;;
    hwdo (startTimer ms).

(** Lines 93-228. *)
Definition timer_master_p3 : Act H unit :=
  l <- link;;
  if resweepPrefPending_ (swp l) then timer_master_camp
  else
    let next := phase3Baud_ (sweep_ (swp l)) + 1 in
    n <- clampBauds;;
    match decideMasterPhase3Timeout next n with
    | FallbackLockSlowest =>
        n <- clampBauds;;
        let lb := n - 1 in
        if sweepPongCount_ (swp l) <? 1 then fallback_denied
        else
          updSweep sweep_reset;;
          SET swp spdI := lb;;
          setSpdIdx lb;;
          lockOk lb
    | _ =>
        updSweep sweep_reset;;
        SET swp spdI := next;;
        setSpdIdx next;;
        sendSweepFrame PING_CMD;;
        l <- link;;
        hwdo (startTimer (dwell2 l next))
    end.

(** Lines 263-303: the slave walks up from the slowest baud. *)
Definition timer_slave_p2 : Act H unit :=
  l <- link;;
  if spdI (swp l) <=? 0 then
    if allowedBaudsCount (cfg l) <=? 1 then hwdo (startTimer (dwell2s l 0))
    else
      n <- clampBauds;;
      SET swp spdI := n - 1;;
      setSpdIdx (n - 1);;
      hwdo (startTimer (dwell2s l (n - 1)))
  else
    let dwell := dwell2s l (spdI (swp l)) in
    UPD swp spdI := (fun i => i - 1);;
    match decidePongPhase2Timeout (spdI (swp l) - 1) with
    | DropToPhase1 => enterPhase1
    | _ =>
        setSpdIdx (spdI (swp l) - 1);;
        hwdo (startTimer dwell)
    end.

(** [rearmMs], bounded by what is left of the camp (lines 343-375). *)
Definition camp_rearm (l : Link) (now : Z) : Z :=
  let r := Z.quot (idleTimeoutMs (cfg l)) 2 in
  let r := if r <? 1000 then 1000 else r in
  if resweepPrefDeadlineMs_ (swp l) =? 0 then r
  else
    let remainingMs := i32 (i32 (resweepPrefDeadlineMs_ (swp l)) - i32 now) in
    if remainingMs >? 0 then
      let budgetMs := remainingMs - 100 in
      let budgetMs := if budgetMs <? 250 then 250 else budgetMs in
      if r >? budgetMs then budgetMs else r
    else r.

(** Lines 331-387: the slave camps in phase 3, then gives up its preferred baud. *)
Definition timer_slave_camp : Act H unit :=
  l <- link;;
  elapsed <-
    (if resweepPrefDeadlineMs_ (swp l) =? 0 then ret false
     else now <- hw nowMs;; ret (i32 (now - resweepPrefDeadlineMs_ (swp l)) >=? 0));;
  if negb elapsed && (resweepPrefAttempts_ (swp l) <? RESWEEP_PREF_MAX_ATTEMPTS) then
    UPD swp resweepPrefAttempts_ := (fun n => n + 1);;
    now <- (if resweepPrefDeadlineMs_ (swp l) =? 0 then ret 0
            else _ <- hw nowMs;; hw nowMs);;
    hwdo (startTimer (camp_rearm l now))
  else
    SET swp resweepPrefAttempts_ := 0;;
    SET swp resweepPrefDeadlineMs_ := 0;;
    SET swp preferredBaud_ := NO_PREFERRED_BAUD;;
    SET swp resweepPrefPending_ := false;;
    enterPhase1.

Definition onTimerSwp : Act H unit :=
  l <- link;;
  if isMaster l then
    match phase_ (sweep_ (swp l)) with
    | PHASE1 => timer_master_p1
    | PHASE2 => timer_master_p2
    | PHASE3 => timer_master_p3
    | NONE => enterPhase1
    end
  else
    UPD swp emptySweeps := (fun n => n + 1);;
    match phase_ (sweep_ (swp l)) with
    | PHASE1 => ms <- phase1ArmMs;; hwdo (startTimer ms)
    | PHASE2 => timer_slave_p2
    | _ => timer_slave_camp
    end.

End Sweep.
End Sweep.
