(* ===== verification/Gbn.v ===== *)
(** * Go-Back-N retransmission ([LinkTimersGbn.cpp], [LinkTimerBreak.cpp], [retxSeq_unlocked])

    The sender's timer: resend the window from its base, back off, and decide
    between keeping a stuck link and dropping it. *)
From S2P Require Import Prelude Monad MsgCodec FrameRx Config Decision ArqCache Arq Hal.
From S2P Require Import LinkState Timing Tx Core.
Import MsgCodec FrameRx Config Decision ArqCache Arq Hal LinkState Timing Tx Core.

Module Gbn.
Section Gbn.
Context {H : Type} `{IHal H}.

(** A slot no longer in the cache was delivered: nothing is sent. *)
Definition retxSeq (seq : Z) : Act H bool :=
  l <- link;;
  if negb (slotInUse seq (arqCache_ (txg l))) then ret true
  else
    match peekForRetx seq (arqCache_ (txg l)) with
    | Some b => resendCobsFrame seq b
    | None => resendCobsFrame seq []
    end.

(** [for (i = 0; i < burst; i++)], [n] rounds left, from sequence number [s]. *)
Fixpoint resend_loop (n : nat) (s now : Z) : Act H unit :=
  match n with
  | O => ret tt
  | S n =>
      avail <- hw txAvail;;
      if avail <? kWorstCaseCobsFrame then _ <- hw txAvail;; ret tt
      else
        ok <- retxSeq s;;
        if negb ok then ret tt
        else
          src <- GET gbn resendSource_;;
          UPD txg arq_ := applyRetx s now (bool_decide (src = SrcRto));;
          resend_loop n (next_seq s) now
  end.

Definition gbnResendWindow (now : Z) : Act H unit :=
  l <- link;;
  let a := arq_ (txg l) in
  if negb (gbnActive_ a) then ret tt
  else
    let burst := decideGbnResendCap (pendingCount a) (gbnResendBurstMax (cfg l)) in
    SET gbn gbnLastResendBase_ := gbnBase_ a;;
    SET gbn gbnLastResendMs_ := now;;
    resend_loop (Z.to_nat burst) (gbnBase_ a) now.

Definition gbnRetxBaseAndRearm (now : Z) : Act H unit :=
  l <- link;;
  let base := gbnBase_ (arq_ (txg l)) in
  when (negb (gbnLastRetxBase_ (gbn l) =? 0xFF) && negb (gbnLastRetxBase_ (gbn l) =? base)) (
    SET gbn gbnAttempts_ := 0;;
    SET gbn gbnBackoffMs_ := 0;;
    SET gbn consecutiveKeep_ := 0);;
  UPD gbn gbnAttempts_ := (fun n => n + 1);;
  SET gbn gbnLastRetxBase_ := base;;
  l <- link;;
  SET gbn gbnBackoffMs_ :=
    decideGbnBackoff (gbnAttempts_ (gbn l)) (u32 (syncAckTimeoutMs (cfg l))) (gbnBackoffCapMs l);;
  SET gbn resendSource_ := SrcRto;;
  gbnResendWindow now;;
  SET gbn gbnBaseStuckSinceMs_ := now.

(** The stuck clock of the window base (lines 34-121). *)
Definition sweep_clock (now : Z) : Act H unit :=
  l <- link;;
  when (negb (gbnBaseStuckThresholdOverridden_ (gbn l)))
    (SET gbn gbnBaseStuckThresholdMs_ := baudAwareStuckThresholdMs l);;
  let priorOkTick := lastOkTickMs_ (tim l) in
  let stallFloor := u32 (u32 (okTickMs l) * 3) in
  let rto := u32 (baudAwareRtoMs l) in
  let stallFloor := if stallFloor <? rto then rto else stallFloor in
  avail <- hw appBufAvailable;;
  SET tim lastOkTickMs_ := now;;
  when (negb (priorOkTick =? 0) && (u32 (now - priorOkTick) >? stallFloor))
    (SET gbn gbnBaseStuckSinceMs_ := now);;
  (if avail >? 0 then
     l <- link;;
     when (consecutiveAppBacklog_ (gbn l) <? DEFAULT_GBN_APPBACKLOG_CAP) (
       SET gbn gbnBaseStuckSinceMs_ := now;;
       UPD gbn consecutiveAppBacklog_ := (fun n => n + 1))
   else SET gbn consecutiveAppBacklog_ := 0);;
  l <- link;;
  let base := gbnBase_ (arq_ (txg l)) in
  when (negb (base =? gbnBaseStuckTrackedSeq_ (gbn l))) (
    SET gbn gbnBaseStuckTrackedSeq_ := base;;
    SET gbn gbnBaseStuckSinceMs_ := now;;
    SET gbn consecutiveAppBacklog_ := 0).

(** [ackRtoMs] (lines 130-132). *)
Definition sweep_rto (l : Link) : Z :=
  let r := u32 (baudAwareRtoMs l) in
  if r <? u32 (syncAckTimeoutMs (cfg l)) then u32 (syncAckTimeoutMs (cfg l)) else r.

(** [baseStormStuck] (lines 141-145). *)
Definition base_stuck (l : Link) (now : Z) : bool :=
  let t := gbnBaseStuckThresholdMs_ (gbn l) in
  let b := u32 (gbnBackoffMs_ (gbn l) + sweep_rto l) in
  let t := if b >? t then b else t in
  u32 (now - gbnBaseStuckSinceMs_ (gbn l)) >=? t.

(** The retransmission budget of the base is spent (lines 176-235). *)
Definition sweep_drop (now : Z) : Act H bool :=
  l <- link;;
  match decideGbnDropOnMaxRetx now (lastRxMs (tim l)) (u32 (syncAckTimeoutMs (cfg l))) with
  | Decision.Keep =>
      if consecutiveKeep_ (gbn l) >=? DEFAULT_GBN_KEEP_RESCUE_CAP then
        SET gbn consecutiveKeep_ := 0;;
        reset true false GbnKeepRescue;;
        l <- link;;
        ret (bool_decide (state l = SWP))
      else
        UPD gbn consecutiveKeep_ := (fun n => n + 1);;
        UPD txg arq_ := (fun a => rearmSlot (gbnBase_ a) now a);;
        SET gbn gbnAttempts_ := 0;;
        SET gbn gbnBackoffMs_ := 0;;
        SET gbn gbnLastRetxBase_ := 0xFF;;
        ret false
  | Decision.DropLink =>
      SET gbn consecutiveKeep_ := 0;;
      reset true true GbnMaxRetx;;
      l <- link;;
      ret (bool_decide (state l = SWP))
  end.

Definition sweepRetx (now : Z) : Act H bool :=
  l <- link;;
  if is_sync (mode (cfg l)) || negb (gbnActive_ (arq_ (txg l))) then ret false
  else
    sweep_clock now;;
    l <- link;;
    let a := arq_ (txg l) in
    let stuck := base_stuck l now in
    match decideSlot (gbnBase_ a) now (sweep_rto l) (maxRetx (cfg l)) a with
    | Retx => gbnRetxBaseAndRearm now;; ret false
    | Hold =>
        if negb stuck then ret false
        else if retxCountFor (gbnBase_ a) a >=? 2 then sweep_drop now
        else gbnRetxBaseAndRearm now;; ret false
    | Drop => sweep_drop now
    end.

End Gbn.
End Gbn.
