(* ===== verification/Rx.v ===== *)
(** * Receiving ([src/al/link/io/LinkRx.cpp])

    The listener callbacks of the frame receiver (payload, ACK, NAK, error),
    the OK-state control frames, and [onRx], which splits the byte stream
    between the two. *)
From S2P Require Import Prelude Monad Crc Cobs MsgCodec FrameRx Config Decision ArqCache Arq.
From S2P Require Import Hal LinkState Timing Tx Core Sweep Gbn.
Import Crc MsgCodec FrameRx Config Decision ArqCache Arq Hal LinkState Timing Tx Core Sweep Gbn.

Module Rx.
Section Rx.
Context {H : Type} `{IHal H}.

(** ** Payload *)

(** A frame behind the expected one (lines 350-400). *)
Definition payload_stale (cobsSeq diff n : Z) : Act H bool :=
  TICK stale;;
  let back := LD_SEQ_WRAP - diff in
  let genuineDup := (diff =? 0) || (back <=? 2 * AUTOLINK_ARQ_PIPELINE_WINDOW) in
  if negb genuineDup then
    TICK staleAmbiguous_;;
    ret false
  else
    sendAckFrame cobsSeq (u16 n);;
    ret false.

(** A frame past the expected one in SYNC mode: delivered, the gap counted
    (lines 402-455). *)
Definition payload_gap_sync (cobsSeq diff : Z) (b : list Z) : Act H bool :=
  let n := lenZ b in
  (if n >? 0 then
     free <- hw appBufFree;;
     if free >=? n then
       acc <- hw (pushAppBuf b);;
       if acc =? n then
         TICK gaps;;
         UPD cnt lostMsgs := add64 diff;;
         UPD cnt rxBytes := add64 acc;;
         sendAckFrame cobsSeq 0
       else sendNakFrame cobsSeq
     else
       _ <- hw appBufFree;;
       sendNakFrame cobsSeq
   else
     TICK gaps;;
     UPD cnt lostMsgs := add64 diff;;
     sendAckFrame cobsSeq 0);;
  ret false.

(** In ASYNC mode it is dropped and the expected frame NAKed, unless that frame
    is held back rather than lost (lines 465-499). *)
Definition payload_gap_async : Act H bool :=
  l <- link;;
  let exp := reorderExpectedSeq l in
  if holdNakActive_ (rxg l) && (exp =? holdNakSeq_ (rxg l)) &&
     (rxSeqWrap_ (rxg l) =? holdNakWrap_ (rxg l))
  then ret false
  else
    TICK gaps;;
    TICK lostMsgs;;
    sendNakFrame exp;;
    ret false.

(** The expected frame does not fit the application buffer: it is held (NAKed
    once, then on more room or at the liveness period) (lines 529-603). *)
Definition payload_hold (cobsSeq : Z) : Act H bool :=
  _ <- hw appBufFree;;
  l <- link;;
  let freshHold := negb (holdNakActive_ (rxg l)) || negb (holdNakSeq_ (rxg l) =? cobsSeq) ||
                   negb (holdNakWrap_ (rxg l) =? rxSeqWrap_ (rxg l)) in
  now <- hw nowMs;;
  let liveness := negb freshHold &&
                  (u32 (now - holdNakLastMs_ (rxg l)) >=? HOLD_NAK_LIVENESS_MS) in
  (if freshHold then
     SET rxg holdNakActive_ := true;;
     SET rxg holdNakSeq_ := cobsSeq;;
     SET rxg holdNakWrap_ := rxSeqWrap_ (rxg l);;
     free <- hw appBufFree;;
     SET rxg holdNakFreeAtSet_ := free;;
     SET rxg holdNakLastMs_ := now;;
     sendNakFrame cobsSeq
   else
     free <- hw appBufFree;;
     if free >? holdNakFreeAtSet_ (rxg l) then
       free <- hw appBufFree;;
       SET rxg holdNakFreeAtSet_ := free;;
       SET rxg holdNakLastMs_ := now;;
       sendNakFrame cobsSeq
     else
       when liveness (
         SET rxg holdNakLastMs_ := now;;
         TICK holdNaksLiveness_;;
         sendNakFrame cobsSeq));;
  ret false.

(** [if (errs > 0) errs = 0;] *)
Definition clear_errs : Act H unit :=
  e <- GET ses errs;;
  when (e >? 0) (SET ses errs := 0).

(** The sequence state after an accepted frame (lines 653-657). *)
Definition advance_rxSeq (cobsSeq : Z) : Act H unit :=
  l <- link;;
  when (rxSeqSet (rxg l) && (cobsSeq <? rxSeq (rxg l)) &&
        (u8 (rxSeq (rxg l) - cobsSeq) >? COBS_SEQ_SPACE / 2))
    (UPD rxg rxSeqWrap_ := (fun n => u8 (n + 1)));;
  SET rxg rxSeq := cobsSeq;;
  SET rxg rxSeqSet := true.

(** The frame the receiver waits for (lines 518-661). *)
Definition payload_forward (cobsSeq : Z) (b : list Z) : Act H bool :=
  let n := lenZ b in
  if n =? 0 then
    SET rxg rxSeq := cobsSeq;;
    SET rxg rxSeqSet := true;;
    clear_errs;;
    ret false
  else
    free <- hw appBufFree;;
    if free <? n then payload_hold cobsSeq
    else
      acc <- hw (pushAppBuf b);;
      if negb (acc =? n) then
        _ <- hw appBufFree;;
        sendNakFrame cobsSeq;;
        ret false
      else
        UPD cnt rxBytes := add64 acc;;
        l <- link;;
        when (holdNakActive_ (rxg l) && (cobsSeq =? holdNakSeq_ (rxg l)) &&
              (rxSeqWrap_ (rxg l) =? holdNakWrap_ (rxg l))) (
          SET rxg holdNakActive_ := false;;
          SET rxg holdNakSeq_ := 0xFF;;
          SET rxg holdNakFreeAtSet_ := 0;;
          SET rxg holdNakLastMs_ := 0);;
        advance_rxSeq cobsSeq;;
        sendAckFrame cobsSeq (u16 n);;
        clear_errs;;
        ret false.

Definition onPayload (cobsSeq : Z) (b : list Z) : Act H bool :=
  l <- link;;
  if decide (state l = SWP) then ret true
  else
    noteValidFrameOk;;
    t <- hw nowMs;;
    SET tim lastValidRxMs := t;;
    SET rxg lastRxSeq_ := cobsSeq;;
    l <- link;;
    let '(cls, diff) := classifyGap cobsSeq (rxSeq (rxg l)) (rxSeqSet (rxg l)) in
    match cls with
    | Stale => payload_stale cobsSeq diff (lenZ b)
    | Gap =>
        if is_sync (mode (cfg l)) then payload_gap_sync cobsSeq diff b else payload_gap_async
    | Forward => payload_forward cobsSeq b
    end.

(** ** ACK *)

(** What any ACK or NAK in OK proves: the peer hears us. *)
Definition peer_response : Act H unit :=
  t <- hw nowMs;;
  SET tim lastValidRxMs := t;;
  l <- link;;
  when (negb (postLockFirstTxDone_ (tim l) =? 0) &&
        negb (postLockFirstTxDone_ (tim l) =? lockedAtMs_ (tim l)))
    (SET tim firstPeerResponseSeen_ := true).

(** [if (lastNakSeq_ == s) lastNakSeq_ = 0xFF;] *)
Definition forget_nak (s : Z) : Act H unit :=
  n <- GET gbn lastNakSeq_;;
  when (n =? s) (SET gbn lastNakSeq_ := 0xFF).

(** The cumulative walk from the window base to the acknowledged sequence
    number (lines 849-873): the number of rounds, and whether it got there. The
    guard stops it after 33 rounds, the fuel its caller gives it. *)
Fixpoint ack_walk (fuel : nat) (acked bytesRecvd s freed : Z) : Act H (Z * bool) :=
  match fuel with
  | O => stuck
  | S fuel =>
      let freed := freed + 1 in
      if freed >? AUTOLINK_ARQ_PIPELINE_WINDOW then ret (freed, false)
      else
        l <- link;;
        let n :=
          if s =? acked then bytesRecvd
          else match peekForRetx s (arqCache_ (txg l)) with
               | Some b => u16 (lenZ b)
               | None => 0
               end in
        UPD txg arq_ := onAcked s n;;
        UPD txg arqCache_ := freeBySeq s CumulativeBackfill;;
        forget_nak s;;
        if s =? acked then ret (freed, true)
        else ack_walk fuel acked bytesRecvd (next_seq s) freed
  end.

(** An ACK inside the window (lines 846-907). *)
Definition ack_window (acked bytesRecvd : Z) : Act H unit :=
  l <- link;;
  r <- ack_walk 33 acked bytesRecvd (gbnBase_ (arq_ (txg l))) 0;;
  when (snd r) (UPD txg arq_ := (fun a => a <| gbnBase_ := next_seq acked |>));;
  UPD cnt wireAckAggFreed_ := add64 (fst r);;
  SET gbn gbnAttempts_ := 0;;
  SET gbn gbnBackoffMs_ := 0;;
  SET gbn gbnLastRetxBase_ := 0xFF;;
  SET gbn gbnLastResendBase_ := 0xFF;;
  SET gbn consecutiveKeep_ := 0;;
  UPD txg arq_ := (fun a => a <| gbnActive_ := (pendingCount a >? 0) |>).

Definition onAck (acked bytesRecvd : Z) : Act H bool :=
  l <- link;;
  if decide (state l = SWP) then ret false
  else
    TICK wireAckAggAcks_;;
    SET ses locksWithoutRecv_ := 0;;
    peer_response;;
    l <- link;;
    if negb (isPending acked (arq_ (txg l))) then ret false
    else
      SET gbn lastAckSeq_ := acked;;
      forget_nak acked;;
      SET ses recentDiscs_ := 0;;
      UPD cnt rxBytes := add64 RX_ACK_WIRE_BYTES;;
      noteValidFrameOk;;
      l <- link;;
      if is_sync (mode (cfg l)) || negb (gbnActive_ (arq_ (txg l))) then
        UPD txg arq_ := onAcked acked bytesRecvd;;
        UPD txg arqCache_ := freeBySeq acked SingleAck;;
        ret false
      else if idxOf acked (arq_ (txg l)) <? 0 then ret false
      else ack_window acked bytesRecvd;; ret false.

(** ** NAK *)

(** [while (gbnBase != missing)] (lines 1056-1082); the guard stops it after 33
    rounds. *)
Fixpoint nak_walk (fuel : nat) (missing freed : Z) : Act H unit :=
  match fuel with
  | O => stuck
  | S fuel =>
      l <- link;;
      let a := arq_ (txg l) in
      let base := gbnBase_ a in
      if base =? missing then ret tt
      else if idxOf base a <? 0 then ret tt
      else if freed + 1 >? AUTOLINK_ARQ_PIPELINE_WINDOW then ret tt
      else
        UPD txg arq_ := onAcked base 0;;
        UPD txg arqCache_ := freeBySeq base NakCumulative;;
        forget_nak base;;
        UPD txg arq_ := (fun a => a <| gbnBase_ := next_seq (gbnBase_ a) |>);;
        nak_walk fuel missing (freed + 1)
  end.

(** The resend a NAK of the base asks for (lines 1144-1237). *)
Definition nak_resend (missing : Z) : Act H unit :=
  now <- hw nowMs;;
  l <- link;;
  let a := arq_ (txg l) in
  let d := gbnResendFlightMs l * 2 in
  let d := if d <? 16 then 16 else d in
  if (nakCountFor missing a >? u8 (maxRetx (cfg l))) && (missing =? gbnBase_ a) then
    UPD txg arq_ := noteSuppressedNak missing
  else if (gbnLastResendBase_ (gbn l) =? missing) &&
          (u32 (now - gbnLastResendMs_ (gbn l)) <? u32 d)
  then UPD txg arq_ := noteSuppressedNak missing
  else
    SET gbn resendSource_ := SrcNak;;
    t <- hw nowMs;;
    UPD txg arq_ := onNaked missing t;;
    gbnResendWindow now.

Definition onNak (missing : Z) : Act H bool :=
  l <- link;;
  if decide (state l = SWP) then ret false
  else
    SET ses locksWithoutRecv_ := 0;;
    SET ses recentDiscs_ := 0;;
    peer_response;;
    l <- link;;
    if negb (isPending missing (arq_ (txg l))) then ret false
    else
      SET gbn lastNakSeq_ := missing;;
      UPD cnt rxBytes := add64 RX_NAK_WIRE_BYTES;;
      if is_sync (mode (cfg l)) then UPD txg arq_ := noteNakWake missing;; ret false
      else
        let a := arq_ (txg l) in
        when (gbnActive_ a && negb (missing =? gbnBase_ a) && (idxOf missing a >=? 0))
          (nak_walk 34 missing 0);;
        l <- link;;
        let a := arq_ (txg l) in
        when (gbnActive_ a && (missing =? gbnBase_ a)) (nak_resend missing);;
        ret false.

Definition onFrameError : Act H bool := err_ CrcFail.

(** The callbacks of the object; their sequence numbers are [uint8_t]
    parameters, the byte count a [uint16_t]. *)
#[export] Instance link_listener : FrameListener (World H) := {
  FrameRx.getRx := fun w => frameRx (rxg (lk w));
  FrameRx.setRx := fun f w => mkWorld (rset rxg (rset frameRx (fun _ => f)) (lk w)) (hal w);
  FrameRx.onPayload := fun s b => onPayload (u8 s) b;
  FrameRx.onAck := fun s n => onAck (u8 s) (u16 n);
  FrameRx.onNak := fun s => onNak (u8 s);
  FrameRx.onFrameError := onFrameError;
}.

(** ** Control frames *)

Definition ctrl_crc_ok (b : list Z) : bool := crc8 (take 4 b) =? rd 0 b 4.

Definition processCtrlFrame (cur : State) : Act H bool :=
  l <- link;;
  let b := ctrlBuf (rxg l) in
  if negb (ctrl_crc_ok b) then
    now <- hw nowMs;;
    if now <? settleUntilMs_ (tim l) then TICK settleDrops_;; ret false
    else err_ CrcFail
  else
    t <- hw nowMs;;
    SET tim lastValidRxMs := t;;
    let cs := rd 0 b 2 in
    let pl := rd 0 b 3 in
    match cur with
    | OK =>
        noteValidFrameOk;;
        if (pl =? PING_CMD) && peerSweepEpochKnown_ (swp l) && negb (cs =? peerSweepEpoch_ (swp l))
        then
          let epochDelta := u8 (cs - peerSweepEpoch_ (swp l)) in
          SET swp peerSweepEpoch_ := cs;;
          reset true true
            (if (epochDelta >=? 1) && (epochDelta <=? 8) then HealthWatchdog else PeerEpochMismatch);;
          ret true
        else
          when (pl =? PING_CMD) (
            when (negb (peerSweepEpochKnown_ (swp l))) (
              SET swp peerSweepEpoch_ := cs;;
              SET swp peerSweepEpochKnown_ := true);;
            sendPongAck);;
          ret false
    | SWP => handleSwp cs pl
    end.

(** ** The byte stream *)

(** [data[a .. b)] *)
Definition slice (data : list Z) (a b : Z) : list Z := take (Z.to_nat (b - a)) (drop (Z.to_nat a) data).
Definition in_ok : Act H bool := l <- link;; ret (bool_decide (state l = OK)).

(** The inner scan of the OK state (lines 93-150): [start, i) is not fed yet.
    Returns [i], [start] and [needBreak]; every round advances [i] or leaves. *)
Fixpoint ok_scan (fuel : nat) (data : list Z) (start i : Z) (nb : bool) : Act H (Z * Z * bool) :=
  match fuel with
  | O => ret (i, start, nb)
  | S fuel =>
      let len := lenZ data in
      if i >=? len then ret (i, start, nb)
      else
        let b := rd 0 data i in
        if (b =? 0xAA) && (len - i >=? CTRL_FRAME_SIZE) && (rd 0 data (i + 1) =? 0x55) then
          if ctrl_crc_ok (slice data i (i + CTRL_FRAME_SIZE)) then
            c <- (if i >? start then feed (slice data start i) else ret 0);;
            ok <- (if i >? start then in_ok else ret true);;
            if negb ok then ret (start + c, start, nb)
            else
              SET rxg ctrlBuf := slice data i (i + CTRL_FRAME_SIZE);;
              SET rxg rxIdx := 0;;
              r <- processCtrlFrame OK;;
              let i := i + CTRL_FRAME_SIZE in
              ok_scan fuel data i i (nb || r)
          else ok_scan fuel data start (i + 1) nb
        else if (b =? 0xAA) && (len - i <? CTRL_FRAME_SIZE) &&
                ((len - i <? 2) || (rd 0 data (i + 1) =? 0x55)) then
          c <- (if i >? start then feed (slice data start i) else ret 0);;
          ok <- (if i >? start then in_ok else ret true);;
          if negb ok then ret (start + c, start, nb)
          else
            UPD rxg okCarry_ := (fun l => l ++ slice data i len);;
            ret (len, len, nb)
        else ok_scan fuel data start (i + 1) nb
  end.

(** A round of the outer loop in OK with a partial control frame carried over
    (lines 65-91): the new [i], [needBreak], and whether the loop stops. *)
Definition rx_carry (data : list Z) (i : Z) (nb : bool) : Act H (Z * bool * bool) :=
  l <- link;;
  let have := okCarry_ (rxg l) in
  let k := Z.min (CTRL_FRAME_SIZE - lenZ have) (lenZ data - i) in
  let carry := have ++ slice data i (i + k) in
  SET rxg okCarry_ := carry;;
  let i := i + k in
  if lenZ carry <? CTRL_FRAME_SIZE then ret (i, nb, true)
  else if (rd 0 carry 1 =? 0x55) && ctrl_crc_ok carry then
    SET rxg ctrlBuf := carry;;
    SET rxg rxIdx := 0;;
    SET rxg okCarry_ := [];;
    r <- processCtrlFrame OK;;
    ret (i, nb || r, false)
  else
    SET rxg okCarry_ := [];;
    _ <- feed carry;;
    ok <- in_ok;;
    ret (i, nb || negb ok, false).

(** A round in OK without a carry (lines 92-156). *)
Definition rx_scan (data : list Z) (i : Z) (nb : bool) : Act H (Z * bool) :=
  r <- ok_scan (length data) data i i nb;;
  let '(i, start, nb) := r in
  ok <- in_ok;;
  i <- (if (i >? start) && ok then c <- feed (slice data start i);; ret (start + c) else ret i);;
  ok <- in_ok;;
  ret (i, nb || negb ok).

(** A byte in SWP (lines 158-172): whether a frame ended the scan. *)
Definition rx_swp_byte (b : Z) : Act H bool :=
  l <- link;;
  let k := rxIdx (rxg l) in
  if (k =? 0) && negb (b =? 0xAA) then ret false
  else if (k =? 1) && negb (b =? 0x55) then SET rxg rxIdx := 0;; ret false
  else
    UPD rxg ctrlBuf := (fun l => wr l k b);;
    SET rxg rxIdx := k + 1;;
    if k + 1 =? CTRL_FRAME_SIZE then
      SET rxg rxIdx := 0;;
      processCtrlFrame SWP
    else ret false.

(** [while (i < len)]; every round consumes a byte. *)
Fixpoint rx_loop (fuel : nat) (data : list Z) (i : Z) (nb : bool) : Act H bool :=
  match fuel with
  | O => if i <? lenZ data then stuck else ret nb
  | S fuel =>
      if i >=? lenZ data then ret nb
      else
        l <- link;;
        if decide (state l = OK) then
          if lenZ (okCarry_ (rxg l)) >? 0 then
            r <- rx_carry data i nb;;
            let '(i, nb, stop) := r in
            if (stop : bool) then ret nb else rx_loop fuel data i nb
          else
            r <- rx_scan data i nb;;
            rx_loop fuel data (fst r) (snd r)
        else
          r <- rx_swp_byte (rd 0 data i);;
          if (r : bool) then ret true else rx_loop fuel data (i + 1) nb
  end.

Definition onRx (data : list Z) : Act H unit :=
  t <- hw nowMs;;
  SET tim lastRxMs := t;;
  needBreak <- rx_loop (length data) data 0 false;;
  when needBreak (hwdo sendBreak).

End Rx.
End Rx.
