(* ===== verification/Timers.v ===== *)
(** * Timer and BREAK events ([LinkTimersOk.cpp], [LinkTimerBreak.cpp])

    The OK tick (BREAK confirmation, health watchdog, retransmission, idle
    ping), the timer dispatch, and the BREAK state machine. *)
From S2P Require Import Prelude Monad MsgCodec FrameRx Config Decision Health ArqCache Arq Hal.
From S2P Require Import LinkState Timing Tx Core Sweep Gbn.
Import Health MsgCodec FrameRx Config Decision ArqCache Arq Hal LinkState Timing Tx Core Sweep Gbn.

Module Timers.

(** ** Health *)

(** The baud the link is locked at, [0] outside the clamped range. *)
Definition lockedBaud (l : Link) : Z :=
  if (0 <=? spdI (swp l)) && (spdI (swp l) <? clampedCount (cfg l))
  then allowedBaudSafe (cfg l) (spdI (swp l)) else 0.

(** The snapshot [applyHealth_unlocked] hands to [decideHealth] (lines 231-305). *)
Definition health_snapshot (l : Link) : Health.HealthState :=
  let pending := pendingCount (arq_ (txg l)) in
  let rto := u32 (baudAwareRtoMs l) in
  Health.mkHealth (txRejFirstMs_ (tim l)) (txRejLastMs_ (tim l)) (lastValidRxMs (tim l))
    (lastTxMs (tim l)) (lastRxMs (tim l)) rto pending (lastValidRxMs (tim l))
    (Health.healthPeerStalledMs (lockedBaud l) pending (u32 (gbnBackoffMs_ (gbn l) + rto)))
    (frameErrs (cnt l)) (negb (hasRoom (arqCache_ (txg l)))) (is_sync (mode (cfg l)))
    (isMaster l) (resweepPrefBudgetMs l) (gbnActive_ (arq_ (txg l))) (gbnAttempts_ (gbn l))
    (gbnAttempts_ (gbn l) <? maxRetx (cfg l)).

(** The verdict (lines 307-333). *)
Definition health_decision (l : Link) (now : Z) : Health.HealthAction :=
  let h := health_snapshot l in
  let a :=
    if idleTimeoutMs (cfg l) >? 0 then
      Health.decideHealth h now (idleTimeoutMs (cfg l))
        (Health.healthDeadPeerMs (idleTimeoutMs (cfg l))) (Health.rtoMs h)
    else Health.Keep in
  let fairChance := negb (lockedAtMs_ (tim l) =? 0) &&
                    (u32 (now - lockedAtMs_ (tim l)) >=? fairChanceMs l) in
  if bool_decide (a = Health.Keep) && fairChance &&
     Health.shouldEscalatePeerBaudMismatch (locksWithoutRecv_ (ses l)) kPeerBaudMismatchThreshold
  then Health.DropPeerBaudMismatch
  else a.

Section Timers.
Context {H : Type} `{IHal H}.

Definition applyHealth (now : Z) : Act H Health.HealthAction :=
  l <- link;;
  let a := health_decision l now in
  if decide (a = Health.Keep) then ret a
  else
    when (bool_decide (a = Health.DropPeerBaudMismatch)) (
      SET swp preferredBaud_ := NO_PREFERRED_BAUD;;
      SET swp resweepPrefPending_ := false);;
    reset true true HealthWatchdog;;
    ret a.

(** ** The OK tick *)

(** The ACK log window (lines 496-509). *)
Definition wire_aggregate (now : Z) : Act H unit :=
  l <- link;;
  if (wireAckAggAcks_ (cnt l) >? 0) && negb (wireAckAggLastMs_ (cnt l) =? 0) &&
     (u32 (now - wireAckAggLastMs_ (cnt l)) >=? WIRE_AGG_WINDOW_MS)
  then
    SET cnt wireAckAggAcks_ := 0;;
    SET cnt wireAckAggFreed_ := 0;;
    SET cnt wireAckAggLastMs_ := now
  else when (wireAckAggLastMs_ (cnt l) =? 0) (SET cnt wireAckAggLastMs_ := now).

(** A better proven baud is due for a retry (lines 520-523). *)
Definition upgrade_due (l : Link) (now : Z) : bool :=
  negb (baudUpgradeAtMs_ (swp l) =? 0) && (i32 (now - baudUpgradeAtMs_ (swp l)) >=? 0) &&
  negb (bestProvenBaud_ (swp l) =? NO_PREFERRED_BAUD) &&
  (u8 (spdI (swp l)) >? bestProvenBaud_ (swp l)) &&
  (baudUpgradeAttempts_ (swp l) <? BAUD_UPGRADE_MAX_ATTEMPTS).

Definition timer_upgrade : Act H bool :=
  SET swp baudUpgradeAtMs_ := 0;;
  UPD swp baudUpgradeAttempts_ := (fun n => n + 1);;
  l <- link;;
  SET swp preferredBaud_ := bestProvenBaud_ (swp l);;
  reset false true BaudUpgrade;;
  l <- link;;
  ret (bool_decide (state l = SWP)).

(** A BREAK is suspected (lines 535-594): confirmed after the window, polled
    (and the idle ping kept up) before. *)
Definition timer_break (now : Z) : Act H bool :=
  l <- link;;
  let confirmMs := breakConfirmMs l in
  let elapsed := u32 (now - breakSuspectMs_ (brk l)) in
  if elapsed >=? confirmMs then
    SET brk breakSuspectMs_ := 0;;
    SET brk breakSuspectSeen_ := 0;;
    hwdo clearAppBuf;;
    hwdo flushRxHw;;
    hwdo flushRxHw;;
    reset true true HealthWatchdog;;
    ret true
  else
    let remain := u32 (confirmMs - elapsed) in
    nextPoll <-
      (if (idleTimeoutMs (cfg l) >? 0) && (pendingCount (arq_ (txg l)) =? 0) then
         let half := u32 (idleTimeoutMs (cfg l)) / 2 in
         let sinceTx := u32 (now - lastTxMs (tim l)) in
         (if sinceTx >=? half then
            sendSweepFrame PING_CMD;;
            SET tim lastTxMs := now
          else ret tt);;
         let sinceTx := if sinceTx >=? half then 0 else sinceTx in
         let dueIn := u32 (half - sinceTx) in
         ret (if dueIn <? remain then dueIn else remain)
       else ret remain);;
    hwdo (startTimer (i32 (if nextPoll <? 1 then 1 else nextPoll)));;
    ret false.

(** The tail of a healthy tick (lines 604-613). *)
Definition timer_idle (now : Z) : Act H bool :=
  l <- link;;
  when ((idleTimeoutMs (cfg l) >? 0) && (pendingCount (arq_ (txg l)) =? 0) &&
        (u32 (now - lastTxMs (tim l)) >? u32 (idleTimeoutMs (cfg l)) / 2)) (
    sendSweepFrame PING_CMD;;
    SET tim lastTxMs := now);;
  l <- link;;
  let next := u32 (okTickMs l) in
  hwdo (startTimer (i32 (if gbnBackoffMs_ (gbn l) >? next then gbnBackoffMs_ (gbn l) else next)));;
  ret false.

Definition onTimerOk : Act H bool :=
  l <- link;;
  if linkPaused_ (ses l) then hwdo (startTimer (okTickMs l));; ret false
  else
    now <- hw nowMs;;
    wire_aggregate now;;
    l <- link;;
    if upgrade_due l now then timer_upgrade
    else if negb (breakSuspectMs_ (brk l) =? 0) then timer_break now
    else
      a <- applyHealth now;;
      if negb (bool_decide (a = Health.Keep)) then ret true
      else
        r <- sweepRetx now;;
        if (r : bool) then ret true else timer_idle now.

Definition onTimer : Act H unit :=
  l <- link;;
  if breakStormPending_ (brk l) then
    SET brk breakStormPending_ := false;;
    SET brk breakStormSeen_ := true;;
    reset true false PeerBaudMismatch;;
    l <- link;;
    when (negb (bool_decide (state l = OK))) (hwdo sendBreak)
  else if breakConfirmPending_ (brk l) then
    SET brk breakConfirmPending_ := false;;
    reset true true HealthWatchdog;;
    hwdo flushRxHw
  else
    brk <- (if decide (state l = OK) then onTimerOk else onTimerSwp;; ret false);;
    when brk (hwdo sendBreak).

(** ** BREAK *)

(** A first BREAK arms the suspicion (lines 61-115). *)
Definition break_suspect (now : Z) : Act H unit :=
  SET brk breakSuspectMs_ := (if now =? 0 then 1 else now);;
  SET brk breakSuspectSeen_ := 0;;
  l <- link;;
  let confirmMs := breakConfirmMs l in
  let armMs :=
    if (idleTimeoutMs (cfg l) >? 0) && (pendingCount (arq_ (txg l)) =? 0) then
      let half := u32 (idleTimeoutMs (cfg l)) / 2 in
      let sinceTx := u32 (now - lastTxMs (tim l)) in
      let dueIn := if sinceTx >=? half then 0 else half - sinceTx in
      if dueIn <? confirmMs then dueIn else confirmMs
    else confirmMs in
  hwdo (startTimer (i32 (if armMs <? 1 then 1 else armMs))).

Definition onBreak : Act H unit :=
  got <- hw (tryLock EVENT_TASK_LOCK_TIMEOUT_MS);;
  if negb got then ret tt
  else
    l <- link;;
    if decide (state l = SWP) then hwdo clearAppBuf
    else
      now <- hw nowMs;;
      if negb (breakSuspectMs_ (brk l) =? 0) &&
         (u32 (now - breakSuspectMs_ (brk l)) <? BREAK_COALESCE_MS)
      then hwdo (startTimer (i32 (breakConfirmMs l)))
      else if breakSuspectMs_ (brk l) =? 0 then break_suspect now
      else if breakSuspectSeen_ (brk l) =? 0 then
        SET brk breakSuspectMs_ := 0;;
        SET brk breakConfirmPending_ := true;;
        hwdo (startTimer 1)
      else
        SET brk breakSuspectSeen_ := 0;;
        hwdo (startTimer (i32 (breakConfirmMs l))).

Definition onBreakStorm : Act H unit :=
  got <- hw (tryLock EVENT_TASK_LOCK_TIMEOUT_MS);;
  when got (SET brk breakStormPending_ := true).

End Timers.
End Timers.
