(* ===== verification/Frames.v ===== *)
(** * Preservation of link invariants

    [on J] is an invariant of the object alone, whatever the hardware does.
    The rules below and the tactic [kt] walk a method and leave the
    assignments that touch what [J] is about; the calls with a lemma in the
    hint database [keeps] are closed by it. *)
From S2P Require Import Prelude Monad FrameRx Config Decision BaudSweep ArqCache Arq Hal.
From S2P Require Import LinkState Timing Tx Core Sweep Gbn Rx Timers.
Import FrameRx Config Decision BaudSweep ArqCache Arq Hal LinkState Timing Tx Core Sweep Gbn Rx Timers.

Module Frames.
Section Rules.
Context {H : Type} (d : Prop) (J : Link -> Prop).

Definition on : World H -> Prop := fun w => J (lk w).

Lemma keeps_hw {A} (f : H -> A * H) : keeps d on (hw f).
Proof. by intros w Hw. Qed.

Lemma keeps_hwdo (f : H -> H) : keeps d on (hwdo f).
Proof. by intros w Hw. Qed.

Lemma keeps_upd f : (forall l, J l -> J (f l)) -> keeps d on (upd f).
Proof. intros Hf w Hw. by apply Hf. Qed.

(** A snapshot of the object satisfies the invariant. *)
Lemma keeps_link {A} (f : Link -> Act H A) :
  (forall l, J l -> keeps d on (f l)) -> keeps d on (bind link f).
Proof. intros Hf w Hw. apply (Hf (lk w) Hw). done. Qed.

End Rules.

(** ** Moving between invariants *)

Section Moves.
Context {H : Type} (d : Prop).

(** From a state where the object satisfies [J], [m] ends in [K]. *)
Definition moves {A} (J K : Link -> Prop) (m : Act H A) : Prop :=
  forall w, J (lk w) -> wpd d m (fun _ w' => K (lk w')) w.

Lemma moves_keeps {A} J (m : Act H A) : keeps d (on J) m <-> moves J J m.
Proof. done. Qed.

Lemma moves_bind {A B} J R K (m : Act H A) (f : A -> Act H B) :
  moves J R m -> (forall a, moves R K (f a)) -> moves J K (bind m f).
Proof.
  intros Hm Hf w Hw. apply wpd_bind. eapply wpd_mono; [by apply Hm|]. intros a w' Hw'. by apply Hf.
Qed.

(** A snapshot pins the object. *)
Lemma moves_link {B} J K (f : Link -> Act H B) :
  (forall l, J l -> moves (eq l) K (f l)) -> moves J K (bind link f).
Proof. intros Hf w Hw. by apply (Hf (lk w) Hw). Qed.

Lemma moves_upd (J K : Link -> Prop) f : (forall l, J l -> K (f l)) -> moves J K (upd f).
Proof. intros Hf w Hw. by apply Hf. Qed.

Lemma moves_ret {A} (J K : Link -> Prop) (a : A) : (forall l, J l -> K l) -> moves J K (ret a).
Proof. intros Hf w Hw. by apply Hf. Qed.

Lemma moves_weaken {A} (J J' K K' : Link -> Prop) (m : Act H A) :
  moves J K m -> (forall l, J' l -> J l) -> (forall l, K l -> K' l) -> moves J' K' m.
Proof. intros Hm HJ HK w Hw. eapply wpd_mono; [by apply Hm, HJ|]. intros a w'. apply HK. Qed.

Lemma moves_pre {A} (J J' K : Link -> Prop) (m : Act H A) :
  moves J K m -> (forall l, J' l -> J l) -> moves J' K m.
Proof. intros. eapply moves_weaken; eauto. Qed.
End Moves.

(** ** Running the accesses *)

Section Access.
Context {H : Type} (d : Prop).

Lemma wpd_link (Q : Link -> World H -> Prop) w : Q (lk w) w -> wpd d link Q w.
Proof. done. Qed.

Lemma wpd_upd f (Q : unit -> World H -> Prop) w :
  Q tt (mkWorld (f (lk w)) (hal w)) -> wpd d (upd f) Q w.
Proof. done. Qed.

Lemma wpd_hw {A} (f : H -> A * H) (Q : A -> World H -> Prop) w :
  Q (fst (f (hal w))) (mkWorld (lk w) (snd (f (hal w)))) -> wpd d (hw f) Q w.
Proof. done. Qed.

Lemma wpd_hwdo (f : H -> H) (Q : unit -> World H -> Prop) w :
  Q tt (mkWorld (lk w) (f (hal w))) -> wpd d (hwdo f) Q w.
Proof. done. Qed.
End Access.

(** What holds of an unconditional run and what holds if it returns. *)
Lemma keeps_conj {S A} (I K : S -> Prop) (m : M S A) :
  keeps False I m -> keeps True K m -> keeps False (fun s => I s /\ K s) m.
Proof.
  intros Hi Hk s [H1 H2]. specialize (Hi s H1). specialize (Hk s H2).
  unfold wpd in *. destruct (m s) as [[a s']|]; [by split|done].
Qed.

Lemma keeps_iff {S A} d (I K : S -> Prop) (m : M S A) :
  (forall s, I s <-> K s) -> keeps d I m -> keeps d K m.
Proof.
  intros He Hm s Hs. apply He in Hs. eapply wpd_mono; [by apply Hm|].
  intros a s' H. by apply He.
Qed.

(** Feeding the receiver preserves what its assignments and the listener's
    callbacks preserve. *)
Lemma feed_keeps {S} `{FrameListener S} d (I : S -> Prop) data :
  (forall f s, I s -> I (setRx f s)) ->
  (forall s b, keeps d I (FrameRx.onPayload s b)) -> (forall s n, keeps d I (FrameRx.onAck s n)) ->
  (forall s, keeps d I (FrameRx.onNak s)) -> keeps d I FrameRx.onFrameError ->
  keeps d I (feed data).
Proof.
  intros Hset Hp Ha Hn He. unfold feed. generalize 0 as i.
  assert (Hd : forall f, keeps d I (dispatch f)) by (by intros []; cbn [dispatch]).
  induction data as [data IH] using (induction_ltof1 _ (@length Z)). unfold ltof in IH.
  intros i. destruct data as [|b data]; [apply keeps_ret|].
  assert (IH1 : forall i, keeps d I (feed_loop data i)) by (apply IH; simpl; lia).
  cbn [feed_loop]. apply keeps_bind; [apply keeps_gets|intros f].
  repeat match goal with |- keeps _ _ (if _ then _ else _) => apply keeps_if end.
  - destruct data as [|b2 data2]; [apply IH1|]. apply keeps_if; [apply IH; simpl; lia|apply IH1].
  - apply keeps_bind; [apply keeps_modify; auto|intros _].
    apply keeps_bind; [apply Hd|intros []; [apply keeps_ret|apply IH1]].
  - apply keeps_bind; [apply keeps_modify; auto|intros _; apply IH1].
  - apply keeps_bind; [apply keeps_modify; auto|intros _].
    apply keeps_bind; [apply He|intros []; [apply keeps_ret|apply IH1]].
Qed.

(** What holds of any result holds of it. *)
Lemma wpd_any {S A} (m : M S A) (Q : A -> S -> Prop) s : (forall a s', Q a s') -> wpd True m Q s.
Proof. intros HQ. unfold wpd. by destruct (m s) as [[]|]. Qed.

Lemma wpd_and {S A} d (m : M S A) (Q Q' : A -> S -> Prop) s :
  wpd d m Q s -> wpd True m Q' s -> wpd d m (fun a s' => Q a s' /\ Q' a s') s.
Proof. unfold wpd. by destruct (m s) as [[]|]. Qed.

(** [feed] consumes at least a byte of a non-empty buffer. *)
Lemma feed_progress {S} `{FrameListener S} data : forall i s,
  wpd True (feed_loop data i) (fun r _ => i <= r /\ (data <> [] -> i < r)) s.
Proof.
  induction data as [data IH] using (induction_ltof1 _ (@length Z)). unfold ltof in IH.
  intros i s. destruct data as [|b data]; [by split|].
  assert (IHn : forall data' j s, (length data' <= length data)%nat -> i < j ->
    wpd True (feed_loop data' j) (fun r _ => i <= r /\ (b :: data <> [] -> i < r)) s).
  { intros data' j s' Hl Hj. eapply wpd_mono; [apply IH; simpl; lia|]. intros r s'' [Hr _]. lia. }
  assert (Hret : forall (m : M S bool) s,
    wpd True (c <- m;; if c then ret (i + 1) else feed_loop data (i + 1))
      (fun r _ => i <= r /\ (b :: data <> [] -> i < r)) s).
  { intros m s'. apply wpd_bind, wpd_any. intros [] s''; [split; lia|apply IHn; lia]. }
  cbn [feed_loop]. apply wpd_bind, wpd_gets. destruct (b =? 0).
  - destruct (idx _ =? 0).
    + destruct data as [|b2 data2]; [apply IHn; lia|].
      destruct (b2 =? 0); apply IHn; simpl; lia.
    + apply wpd_bind, wpd_modify. apply Hret.
  - destruct (idx _ <? BUF_SIZE); apply wpd_bind, wpd_modify; [apply IHn; lia|apply Hret].
Qed.

#[export] Hint Resolve keeps_hw keeps_hwdo : keeps.
End Frames.
Import Frames.

(** One access, or one structural step. *)
Ltac ws_step :=
  lazymatch goal with
  | |- wpd _ link _ _ => apply wpd_link
  | |- wpd _ (upd _) _ _ => apply wpd_upd
  | |- wpd _ (hw _) _ _ => apply wpd_hw
  | |- wpd _ (hwdo _) _ _ => apply wpd_hwdo
  | |- wpd _ (let _ := _ in _) _ _ => cbv zeta
  | |- _ => wp_step
  end.
Ltac ws := repeat (ws_step; cbv beta).

Ltac kt_step :=
  lazymatch goal with
  | |- keeps _ _ (bind link _) => apply keeps_link; intros ? ?
  | |- keeps _ _ (hw _) => apply keeps_hw
  | |- keeps _ _ (hwdo _) => apply keeps_hwdo
  | |- keeps _ _ (let _ := _ in _) => cbv zeta
  | |- _ => keeps_step
  end.

(** The assignments that leave what the invariant reads alone. *)
Ltac kt_upd := apply keeps_upd; let l := fresh "l" in let Hl := fresh "Hl" in intros l Hl; exact Hl.

Ltac kt := repeat first [ solve [auto with keeps nocore] | kt_step | kt_upd ].
(** ** Methods that leave the sender, the mode and the link state alone

    Most methods neither touch the ARQ tables nor change state; for any
    property [P] of those three they preserve [txon P]. *)
Definition txon (P : TxG -> Mode -> State -> Prop) : Link -> Prop :=
  fun l => P (txg l) (mode (cfg l)) (state l).

Section TxFrames.
Context {H : Type} `{IHal H} (d : Prop) (P : TxG -> Mode -> State -> Prop).

Lemma fr_hw_tx b : keeps d (on (H := H) (txon P)) (hw_tx b).
Proof. unfold hw_tx. kt. Qed.
Hint Resolve fr_hw_tx : keeps.
Lemma fr_noteTxReject : keeps d (on (H := H) (txon P)) (noteTxReject).
Proof. unfold noteTxReject. kt. Qed.
Hint Resolve fr_noteTxReject : keeps.
Lemma fr_noteValidFrameOk : keeps d (on (H := H) (txon P)) (noteValidFrameOk).
Proof. unfold noteValidFrameOk. kt. Qed.
Hint Resolve fr_noteValidFrameOk : keeps.
Lemma fr_sendSweepFrame b : keeps d (on (H := H) (txon P)) (sendSweepFrame b).
Proof. unfold sendSweepFrame. kt. Qed.
Hint Resolve fr_sendSweepFrame : keeps.
Lemma fr_sendPongAck : keeps d (on (H := H) (txon P)) (sendPongAck).
Proof. unfold sendPongAck. kt. Qed.
Hint Resolve fr_sendPongAck : keeps.
Lemma fr_buildAndTxCobsFrame s b : keeps d (on (H := H) (txon P)) (buildAndTxCobsFrame s b).
Proof. unfold buildAndTxCobsFrame. kt. Qed.
Hint Resolve fr_buildAndTxCobsFrame : keeps.
Lemma fr_resendCobsFrame s b : keeps d (on (H := H) (txon P)) (resendCobsFrame s b).
Proof. unfold resendCobsFrame. kt. Qed.
Hint Resolve fr_resendCobsFrame : keeps.
Lemma fr_txSmallCobs b : keeps d (on (H := H) (txon P)) (txSmallCobs b).
Proof. unfold txSmallCobs. kt. Qed.
Hint Resolve fr_txSmallCobs : keeps.
Lemma fr_sendCtrlCobsFrame a b : keeps d (on (H := H) (txon P)) (sendCtrlCobsFrame a b).
Proof. unfold sendCtrlCobsFrame. kt. Qed.
Hint Resolve fr_sendCtrlCobsFrame : keeps.
Lemma fr_sendAckFrame a b : keeps d (on (H := H) (txon P)) (sendAckFrame a b).
Proof. unfold sendAckFrame. kt. Qed.
Hint Resolve fr_sendAckFrame : keeps.
Lemma fr_sendNakFrame a : keeps d (on (H := H) (txon P)) (sendNakFrame a).
Proof. unfold sendNakFrame. kt. Qed.
Hint Resolve fr_sendNakFrame : keeps.
Lemma fr_setSpdIdx i : keeps d (on (H := H) (txon P)) (setSpdIdx i).
Proof. unfold setSpdIdx. kt. Qed.
Hint Resolve fr_setSpdIdx : keeps.
Lemma fr_enterPhase1 : keeps d (on (H := H) (txon P)) (enterPhase1).
Proof. unfold enterPhase1, updSweep. kt. Qed.
Hint Resolve fr_enterPhase1 : keeps.
Lemma fr_enterPhase2 : keeps d (on (H := H) (txon P)) (enterPhase2).
Proof. unfold enterPhase2, updSweep. kt. Qed.
Hint Resolve fr_enterPhase2 : keeps.
Lemma fr_enterPhase3 i : keeps d (on (H := H) (txon P)) (enterPhase3 i).
Proof. unfold enterPhase3, updSweep. kt. Qed.
Hint Resolve fr_enterPhase3 : keeps.
Lemma fr_computeDwells : keeps d (on (H := H) (txon P)) (computeDwells).
Proof. unfold computeDwells, updSweep. kt. Qed.
Hint Resolve fr_computeDwells : keeps.
Lemma fr_phase1ArmMs : keeps d (on (H := H) (txon P)) (phase1ArmMs).
Proof. unfold phase1ArmMs. kt. Qed.
Hint Resolve fr_phase1ArmMs : keeps.
Lemma fr_reset_count r : keeps d (on (H := H) (txon P)) (reset_count r).
Proof. unfold reset_count. kt. Qed.
Hint Resolve fr_reset_count : keeps.
Lemma fr_reset_pref p r : keeps d (on (H := H) (txon P)) (reset_pref p r).
Proof. unfold reset_pref. kt. Qed.
Hint Resolve fr_reset_pref : keeps.
Lemma fr_reset_common : keeps d (on (H := H) (txon P)) (reset_common).
Proof. unfold reset_common. kt. Qed.
Hint Resolve fr_reset_common : keeps.
Lemma fr_clampBauds : keeps d (on (H := H) (txon P)) clampBauds.
Proof. intros w Hw. exact Hw. Qed.
Hint Resolve fr_clampBauds : keeps.
Lemma fr_reset_relock p : keeps d (on (H := H) (txon P)) (reset_relock p).
Proof. unfold reset_relock. kt. Qed.
Hint Resolve fr_reset_relock : keeps.
Lemma fr_reset_sweep p : keeps d (on (H := H) (txon P)) (reset_sweep p).
Proof. unfold reset_sweep. kt. Qed.
Hint Resolve fr_reset_sweep : keeps.
Lemma fr_lock_baud i : keeps d (on (H := H) (txon P)) (lock_baud i).
Proof. unfold lock_baud. kt. Qed.
Hint Resolve fr_lock_baud : keeps.
Lemma fr_lock_clocks : keeps d (on (H := H) (txon P)) (lock_clocks).
Proof. unfold lock_clocks. kt. Qed.
Hint Resolve fr_lock_clocks : keeps.
Lemma fr_count_cause c : keeps d (on (H := H) (txon P)) (count_cause c).
Proof. unfold count_cause. kt. Qed.
Hint Resolve fr_count_cause : keeps.
Lemma fr_latch_epoch c : keeps d (on (H := H) (txon P)) (latch_epoch c).
Proof. unfold latch_epoch. kt. Qed.
Hint Resolve fr_latch_epoch : keeps.
Lemma fr_tune i : keeps d (on (H := H) (txon P)) (tune i).
Proof. unfold tune. kt. Qed.
Hint Resolve fr_tune : keeps.
Lemma fr_fallback_denied : keeps d (on (H := H) (txon P)) (fallback_denied).
Proof. unfold fallback_denied. kt. Qed.
Hint Resolve fr_fallback_denied : keeps.
Lemma fr_timer_master_p1 : keeps d (on (H := H) (txon P)) (timer_master_p1).
Proof. unfold timer_master_p1. kt. Qed.
Hint Resolve fr_timer_master_p1 : keeps.
Lemma fr_camp_open : keeps d (on (H := H) (txon P)) (camp_open).
Proof. unfold camp_open. kt. Qed.
Hint Resolve fr_camp_open : keeps.
Lemma fr_timer_master_camp : keeps d (on (H := H) (txon P)) (timer_master_camp).
Proof. unfold timer_master_camp, updSweep. kt. Qed.
Hint Resolve fr_timer_master_camp : keeps.
Lemma fr_timer_slave_p2 : keeps d (on (H := H) (txon P)) (timer_slave_p2).
Proof. unfold timer_slave_p2. kt. Qed.
Hint Resolve fr_timer_slave_p2 : keeps.
Lemma fr_timer_slave_camp : keeps d (on (H := H) (txon P)) (timer_slave_camp).
Proof. unfold timer_slave_camp. kt. Qed.
Hint Resolve fr_timer_slave_camp : keeps.
Lemma fr_sweep_clock n : keeps d (on (H := H) (txon P)) (sweep_clock n).
Proof. unfold sweep_clock. kt. Qed.
Hint Resolve fr_sweep_clock : keeps.
Lemma fr_payload_stale a b c : keeps d (on (H := H) (txon P)) (payload_stale a b c).
Proof. unfold payload_stale. kt. Qed.
Hint Resolve fr_payload_stale : keeps.
Lemma fr_payload_gap_sync a b c : keeps d (on (H := H) (txon P)) (payload_gap_sync a b c).
Proof. unfold payload_gap_sync. kt. Qed.
Hint Resolve fr_payload_gap_sync : keeps.
Lemma fr_payload_gap_async : keeps d (on (H := H) (txon P)) (payload_gap_async).
Proof. unfold payload_gap_async. kt. Qed.
Hint Resolve fr_payload_gap_async : keeps.
Lemma fr_payload_hold a : keeps d (on (H := H) (txon P)) (payload_hold a).
Proof. unfold payload_hold. kt. Qed.
Hint Resolve fr_payload_hold : keeps.
Lemma fr_clear_errs : keeps d (on (H := H) (txon P)) (clear_errs).
Proof. unfold clear_errs. kt. Qed.
Hint Resolve fr_clear_errs : keeps.
Lemma fr_advance_rxSeq a : keeps d (on (H := H) (txon P)) (advance_rxSeq a).
Proof. unfold advance_rxSeq. kt. Qed.
Hint Resolve fr_advance_rxSeq : keeps.
Lemma fr_payload_forward a b : keeps d (on (H := H) (txon P)) (payload_forward a b).
Proof. unfold payload_forward. kt. Qed.
Hint Resolve fr_payload_forward : keeps.
Lemma fr_onPayload a b : keeps d (on (H := H) (txon P)) (onPayload a b).
Proof. unfold onPayload. kt. Qed.
Hint Resolve fr_onPayload : keeps.
Lemma fr_peer_response : keeps d (on (H := H) (txon P)) (peer_response).
Proof. unfold peer_response. kt. Qed.
Hint Resolve fr_peer_response : keeps.
Lemma fr_forget_nak a : keeps d (on (H := H) (txon P)) (forget_nak a).
Proof. unfold forget_nak. kt. Qed.
Hint Resolve fr_forget_nak : keeps.
Lemma fr_wire_aggregate n : keeps d (on (H := H) (txon P)) (wire_aggregate n).
Proof. unfold wire_aggregate. kt. Qed.
Hint Resolve fr_wire_aggregate : keeps.
Lemma fr_timer_idle n : keeps d (on (H := H) (txon P)) (timer_idle n).
Proof. unfold timer_idle. kt. Qed.
Hint Resolve fr_timer_idle : keeps.
Lemma fr_break_suspect n : keeps d (on (H := H) (txon P)) (break_suspect n).
Proof. unfold break_suspect. kt. Qed.
Hint Resolve fr_break_suspect : keeps.
Lemma fr_onBreak : keeps d (on (H := H) (txon P)) (onBreak).
Proof. unfold onBreak. kt. Qed.
Hint Resolve fr_onBreak : keeps.
Lemma fr_onBreakStorm : keeps d (on (H := H) (txon P)) (onBreakStorm).
Proof. unfold onBreakStorm. kt. Qed.
Hint Resolve fr_onBreakStorm : keeps.

End TxFrames.

#[export] Hint Resolve fr_hw_tx fr_noteTxReject fr_noteValidFrameOk fr_sendSweepFrame fr_sendPongAck fr_buildAndTxCobsFrame fr_resendCobsFrame fr_txSmallCobs fr_sendCtrlCobsFrame fr_sendAckFrame fr_sendNakFrame fr_setSpdIdx fr_enterPhase1 fr_enterPhase2 fr_enterPhase3 fr_computeDwells fr_phase1ArmMs fr_reset_count fr_reset_pref fr_reset_common fr_clampBauds fr_reset_relock fr_reset_sweep fr_lock_baud fr_lock_clocks fr_count_cause fr_latch_epoch fr_tune fr_fallback_denied fr_timer_master_p1 fr_camp_open fr_timer_master_camp fr_timer_slave_p2 fr_timer_slave_camp fr_sweep_clock fr_payload_stale fr_payload_gap_sync fr_payload_gap_async fr_payload_hold fr_clear_errs fr_advance_rxSeq fr_payload_forward fr_onPayload fr_peer_response fr_forget_nak fr_wire_aggregate fr_timer_idle fr_break_suspect fr_onBreak fr_onBreakStorm : keeps.
