(* ===== verification/Api.v ===== *)
(** * The application's calls ([LinkApi.cpp], [LinkCore.cpp], [LinkArq::waitForAck])

    The calls the application task makes: start, send, receive, drop. They
    block in three places (a full TX ring, the SYNC ACK wait, the inter-chunk
    gap), and each releases the link's lock there; [yield] is what the other
    tasks (UART receive, timer, another application task) do to the link while
    it is released. The blocking loops have no bound of their own: [fuel] is
    how many rounds a run is given, [None] a run that needs more. *)
From S2P Require Import Prelude Monad Crc MsgCodec FrameRx Config Decision Health ArqCache Arq.
From S2P Require Import Hal LinkState Timing Tx Core Sweep Gbn Rx.
Import Crc MsgCodec FrameRx Config Decision ArqCache Arq Hal LinkState Timing Tx Core Sweep Gbn Rx.

Module Api.
Section Api.
Context {H : Type} `{IHal H} (yield : World H -> World H) (fuel : nat).

(** [hw.unlock(); ...; hw.lock();] *)
Definition release : Act H unit := modify yield.

Definition err (cause : FrameErrCause) : Act H unit :=
  trigger <- err_ cause;;
  when trigger (hwdo sendBreak).

Definition clearErr : Act H unit := clear_errs.

(** ** Waiting *)

(** Room for [need] bytes in the TX ring (lines 95-168); the reason of a refusal. *)
Fixpoint drain_loop (n : nat) (need waitDeadline : Z) : Act H (bool * SendMsgReason) :=
  match n with
  | O => stuck
  | S n =>
      avail <- hw txAvail;;
      if avail >=? need then ret (true, RNone)
      else
        l <- link;;
        if negb (bool_decide (state l = OK)) then ret (false, NotOk)
        else if negb (hasRoom (arqCache_ (txg l))) then
          noteTxReject;;
          TICK poolExhaustDrops_;;
          _ <- hw txAvail;;
          ret (false, PoolExhaust)
        else
          hwdo (Hal.delayMs 1);;
          release;;
          now <- hw nowMs;;
          if i32 (now - waitDeadline) >=? 0 then
            TICK txRingStallDrops_;;
            noteTxReject;;
            ret (false, TxRingStall)
          else drain_loop n need waitDeadline
  end.

Definition drainTxRing : Act H (bool * SendMsgReason) :=
  let need := kWorstCaseCobsFrame in
  avail <- hw txAvail;;
  if avail >=? need then ret (true, RNone)
  else
    now <- hw nowMs;;
    l <- link;;
    drain_loop fuel need (u32 (now + u32 (baudAwareRtoMs l) + 1)).

(** The slot is given up: its pending bit and its budget are cleared. *)
Definition release_slot (seq : Z) (a : LinkArq) : LinkArq :=
  a <| ackedPending_ ::= (fun l => wr l (budgetIdx seq) false) |>
    <| retxCount_ ::= (fun l => wr l (budgetIdx seq) 0) |>.

(** After a wake-up that found the slot pending: re-checked under the lock
    (lines 278-290 and 294-305). *)
Definition wait_expire (seq genAtUnlock : Z) : Act H bool :=
  release;;
  l <- link;;
  if negb (isPending seq (arq_ (txg l))) then
    ret (clearAllEpoch_ (arq_ (txg l)) =? genAtUnlock)
  else
    UPD txg arq_ := release_slot seq;;
    ret false.

(** [while (isPending(seq))] of the device build. A take of a semaphore that could
    not be created stops in FreeRTOS's [configASSERT]: [stuck]. *)
Fixpoint wait_loop (n : nat) (seq genAtUnlock deadline : Z) : Act H bool :=
  match n with
  | O => stuck
  | S n =>
      l <- link;;
      let a := arq_ (txg l) in
      if negb (isPending seq a) then
        release;;
        l <- link;;
        ret (clearAllEpoch_ (arq_ (txg l)) =? genAtUnlock)
      else if negb (clearAllEpoch_ a =? genAtUnlock) then release;; ret false
      else if nakWake_ a && (nakWakeSeq_ a =? seq) then wait_expire seq genAtUnlock
      else
        now <- hw nowMs;;
        if now >=? deadline then wait_expire seq genAtUnlock
        else
          match ackSem_ a with
          | Some true => UPD txg arq_ := (fun a => a <| ackSem_ := Some false |>)
          | Some false => hwdo (semWait (deadline - now))
          | None => stuck
          end;;
          release;;
          wait_loop n seq genAtUnlock deadline
  end.

(** [ensureAckSem_unlocked] (lines 384-402 of [LinkArq.cpp]): created once. *)
Definition ensure_sem : Act H unit :=
  l <- link;;
  match ackSem_ (arq_ (txg l)) with
  | Some _ => ret tt
  | None => created <- hw semCreate;; UPD txg arq_ := ensureAckSem created
  end.

(** [true]: acknowledged in the same epoch. *)
Definition waitForAck (seq timeoutMs : Z) : Act H bool :=
  gen <- gets (fun w => clearAllEpoch_ (arq_ (txg (lk w))));;
  UPD txg arq_ := (fun a => a <| nakWake_ := false |> <| nakWakeSeq_ := 0xFF |>);;
  release;;
  ensure_sem;;
  t0 <- hw nowMs;;
  wait_loop fuel seq gen (u32 (t0 + timeoutMs)).

(** ** The post-lock quiet period (lines 120-202) *)

Definition quiet_ms (l : Link) : Z :=
  let m := if recentDiscs_ (ses l) >? 4 then 4 else recentDiscs_ (ses l) in
  let b := baud_at l in
  let chunkTx := if b >? 0 then MAX_CHUNK * 10 * 1000 / b else 0 in
  let rtoFloor := u32 (u32 (baudAwareRtoMs l) + chunkTx) in
  let quiet := u32 (u32 (postLockQuietMs (cfg l)) * u32 m) in
  if rtoFloor >? quiet then rtoFloor else quiet.

Definition txQuiet : Act H bool :=
  l <- link;;
  if (postLockQuietMs (cfg l) <=? 0) || (lockedAtMs_ (tim l) =? 0) then ret false
  else if postLockFirstTxDone_ (tim l) =? lockedAtMs_ (tim l) then ret false
  else if negb (postLockFirstTxDone_ (tim l) =? 0) && firstPeerResponseSeen_ (tim l) then ret false
  else
    now <- hw nowMs;;
    ret (u32 (now - lockedAtMs_ (tim l)) <? quiet_ms l).

(** ** SYNC: the retry ladder of one chunk *)

Definition syncRtoStep (op : SyncOp) : Act H (bool * SyncOp) :=
  now <- hw nowMs;;
  let op := if op_started op then op
            else op <| op_started := true |> <| op_firstStepMs := now |> in
  l <- link;;
  let budgetMs := u32 (maxRetx (cfg l) * u32 (syncAckTimeoutMs (cfg l))) in
  if u32 (now - op_firstStepMs op) >=? budgetMs then ret (false, op)
  else
    let op := op <| op_attempt ::= (fun n => n + 1) |> in
    r <- drainTxRing;;
    if negb (fst r) then ret (false, op)
    else
      ok <- buildAndTxCobsFrame (op_seq op) (op_raw op);;
      if negb ok then ret (false, op)
      else
        t <- hw nowMs;;
        lap <- GET txg txSeqLap_;;
        UPD txg arq_ := onSent (op_seq op) NO_BASE t lap;;
        t <- hw nowMs;;
        SET tim lastTxMs := t;;
        ret (true, op).

Fixpoint await_loop (n : nat) (op : SyncOp) : Act H bool :=
  match n with
  | O => stuck
  | S n =>
      l <- link;;
      acked <- waitForAck (op_seq op) (u32 (syncAckTimeoutMs (cfg l)));;
      if (acked : bool) then ret true
      else
        l <- link;;
        if negb (bool_decide (state l = OK)) then ret false
        else
          r <- syncRtoStep op;;
          if negb (fst r) then ret false else await_loop n (snd r)
  end.
Definition syncAwaitAcked (op : SyncOp) : Act H bool := await_loop fuel op.

Definition onSyncAckTimeout (midMessage : bool) : Act H bool :=
  noteTxReject;;
  l <- link;;
  if negb midMessage || negb (bool_decide (state l = OK)) then ret false
  else
    reset true false HealthWatchdog;;
    l <- link;;
    ret (bool_decide (state l = SWP)).

Definition new_op (seq : Z) (raw : list Z) : SyncOp := mkSyncOp seq raw 0 false 0.

(** ** [sendMsg] *)

(** How a send leaves the locked region: refused on the spot (no base), or run
    to the end with [ok], [brk] and the base sequence number. *)
Inductive Sent := Refused | Done (ok brk : bool) (base : Z).

Definition set_reason (r : SendMsgReason) : Act H unit := SET cnt lastSendMsgReason_ := r.

(** Lines 434-501: the byte window drains with the clock; then a debt or a full
    second restarts it. *)
Definition rate_window (now lineRateBps : Z) : Act H unit :=
  l <- link;;
  when (negb (rateWindowStartMs_ (tim l) =? 0) && (i32 (now - rateWindowStartMs_ (tim l)) >? 0)) (
    let elapsedMs := u32 (i32 now - i32 (rateWindowStartMs_ (tim l))) in
    let drained := u32 (u64 (elapsedMs * lineRateBps) / 1000) in
    SET tim rateWindowBytes_ :=
      (if drained >=? rateWindowBytes_ (tim l) then 0 else rateWindowBytes_ (tim l) - drained));;
  if negb (rateNextAllowedMs_ (tim l) =? 0) then
    SET tim rateWindowStartMs_ := now;;
    SET tim rateWindowBytes_ := 0;;
    SET tim rateNextAllowedMs_ := 0
  else
    when (u32 (now - rateWindowStartMs_ (tim l)) >=? RATE_WINDOW_MS) (
      SET tim rateWindowStartMs_ := now;;
      SET tim rateWindowBytes_ := 0).

Definition rate_refuse : Act H bool :=
  TICK rateLimitedCount_;;
  set_reason RateLimited;;
  ret false.

(** The offered-rate admission (lines 431-565): [false] refuses the message. *)
Definition rate_admit (len : Z) : Act H bool :=
  l <- link;;
  let b := baud_at l in
  if (b >? 0) && negb (spdI_outside l) then
    now <- hw nowMs;;
    let lineRateBps := b / 10 in
    if i32 (now - rateNextAllowedMs_ (tim l)) <? 0 then rate_refuse
    else
      rate_window now lineRateBps;;
      l <- link;;
      if len >? lineRateBps then
        if lineRateBps =? 0 then stuck
        else
          let extraWindows := u32 (len + lineRateBps - 1) / lineRateBps in
          SET tim rateNextAllowedMs_ := i32 (i32 now + i32 (u32 (extraWindows * RATE_WINDOW_MS)));;
          ret true
      else if u32 (rateWindowBytes_ (tim l) + len) >? lineRateBps then rate_refuse
      else
        UPD tim rateWindowBytes_ := (fun n => u32 (n + len));;
        ret true
  else ret true.

Definition hdr_of (b : list Z) : list Z := msgHdrEncode (lenZ b) (crc16 b).

(** Wire bookkeeping after a chunk: [txBytes += n; lastTxMs = now]. *)
Definition note_tx (n : Z) : Act H unit :=
  UPD cnt txBytes := add64 n;;
  t <- hw nowMs;;
  SET tim lastTxMs := t.

(** Register a SYNC chunk as in flight. *)
Definition sync_sent (seq : Z) : Act H unit :=
  t <- hw nowMs;;
  lap <- GET txg txSeqLap_;;
  UPD txg arq_ := onSent seq NO_BASE t lap.

(** Lines 587-630. *)
Definition send_sync_single (b : list Z) : Act H Sent :=
  let merged := hdr_of b ++ b in
  seq <- GET txg txSeq;;
  r <- drainTxRing;;
  if negb (fst r) then set_reason SyncMidMessageTimeout;; ret (Done false false 0)
  else
    ok <- sendCobsFrame merged;;
    if negb ok then set_reason SyncMidMessageTimeout;; ret (Done false false 0)
    else
      note_tx (lenZ b);;
      sync_sent seq;;
      acked <- syncAwaitAcked (new_op seq merged);;
      if (acked : bool) then ret (Done true false seq)
      else
        brk <- onSyncAckTimeout false;;
        ret (Done false brk seq).

(** Lines 672-736: the chunks after the header. *)
Fixpoint sync_chunks (n : nat) (b : list Z) : Act H bool :=
  match n, b with
  | _, [] => ret true
  | O, _ => stuck
  | S n, _ =>
      l <- link;;
      if negb (bool_decide (state l = OK)) then ret false
      else
        let chunk := take (Z.to_nat MAX_CHUNK) b in
        let seq := txSeq (txg l) in
        r <- drainTxRing;;
        ok <- (if fst r then sendCobsFrame chunk else ret false);;
        if negb ok then set_reason SyncMidMessageTimeout;; ret false
        else
          note_tx (lenZ chunk);;
          sync_sent seq;;
          acked <- syncAwaitAcked (new_op seq chunk);;
          if negb acked then set_reason SyncMidMessageTimeout;; ret false
          else sync_chunks n (drop (Z.to_nat MAX_CHUNK) b)
  end.

(** Lines 631-738. *)
Definition send_sync_multi (b : list Z) : Act H Sent :=
  seq <- GET txg txSeq;;
  r <- drainTxRing;;
  ok <- (if fst r then sendCobsFrame (hdr_of b) else ret false);;
  if negb ok then set_reason SyncMidMessageTimeout;; ret (Done false false 0)
  else
    t <- hw nowMs;;
    SET tim lastTxMs := t;;
    sync_sent seq;;
    acked <- syncAwaitAcked (new_op seq (hdr_of b));;
    if (acked : bool) then
      ok <- sync_chunks (length b) b;;
      ret (Done ok false seq)
    else
      brk <- onSyncAckTimeout true;;
      ret (Done false brk seq).

(** A chunk the cache or the ring refused. *)
Definition refuse_pool : Act H unit :=
  noteTxReject;;
  TICK poolExhaustDrops_;;
  set_reason PoolExhaust.

(** Lines 740-775. *)
Definition send_async_single (b : list Z) : Act H Sent :=
  seq <- sendCobsFrameAcked (hdr_of b ++ b) NO_BASE;;
  if seq =? 0xFF then refuse_pool;; ret Refused
  else note_tx (lenZ b);; ret (Done true false seq).

(** Lines 912-1008: the data chunks; the TX ring may have to drain first, and
    the lock is released for the inter-chunk gap. *)
Fixpoint async_chunks (n : nat) (b : list Z) (baseSeq : Z) : Act H bool :=
  match n, b with
  | _, [] => ret true
  | O, _ => stuck
  | S n, _ =>
      l <- link;;
      if negb (bool_decide (state l = OK)) then ret false
      else if negb (hasRoom (arqCache_ (txg l))) then refuse_pool;; ret false
      else
        avail <- hw txAvail;;
        if avail <? kWorstCaseCobsFrame then
          r <- drainTxRing;;
          if negb (fst r) then
            when (negb (bool_decide (snd r = RNone))) (set_reason (snd r));;
            ret false
          else async_chunks n b baseSeq
        else
          let chunk := take (Z.to_nat MAX_CHUNK) b in
          let rest := drop (Z.to_nat MAX_CHUNK) b in
          seq <- sendCobsFrameAcked chunk baseSeq;;
          if seq =? 0xFF then refuse_pool;; ret false
          else
            note_tx (lenZ chunk);;
            l <- link;;
            let gap := interChunkGapMs l in
            if (lenZ rest >? 0) && (gap >? 0) then
              hwdo (delayUs (u32 (u32 gap * 1000)));;
              release;;
              l <- link;;
              if negb (bool_decide (state l = OK)) then ret false
              else async_chunks n rest baseSeq
            else async_chunks n rest baseSeq
  end.

(** Lines 776-1009. *)
Definition send_async_multi (b : list Z) : Act H Sent :=
  avail <- hw txAvail;;
  if avail <? kWorstCaseCobsFrame then
    TICK txRingStallDrops_;;
    set_reason TxRingStall;;
    _ <- hw txAvail;;
    ret Refused
  else
    l <- link;;
    if freeRoom (arqCache_ (txg l)) <? chunksForMsgLen (lenZ b) then refuse_pool;; ret Refused
    else
      seq <- sendCobsFrameAcked (hdr_of b) NO_BASE;;
      if seq =? 0xFF then
        noteTxReject;;
        set_reason PoolExhaust;;
        ret Refused
      else
        ok <- async_chunks fuel b seq;;
        ret (Done ok false seq).

Definition send_body (b : list Z) : Act H Sent :=
  l <- link;;
  let single := lenZ b + MSG_HDR <=? MAX_CHUNK in
  if is_sync (mode (cfg l)) then (if single then send_sync_single b else send_sync_multi b)
  else (if single then send_async_single b else send_async_multi b).

(** Admission (lines 382-565): [true] lets the message onto the wire. *)
Definition send_admit (b : list Z) : Act H bool :=
  l <- link;;
  if negb (bool_decide (state l = OK)) then set_reason NotOk;; ret false
  else
    quiet <- txQuiet;;
    if (quiet : bool) then TICK postLockQuietDrops_;; set_reason PostLockQuiet;; ret false
    else
      let sync := is_sync (mode (cfg l)) in
      let inflight := if sync then 0 else pendingCount (arq_ (txg l)) in
      if negb sync && (inflight + chunksForMsgLen (lenZ b) >? window_ (arqCache_ (txg l))) then
        noteTxReject;;
        TICK gbnWindowFullDrops_;;
        set_reason GbnWindowFull;;
        ret false
      else rate_admit (lenZ b).

(** What a send reports: [ok], the base sequence number, and the lap stored in
    [*out] (not written by an early return). *)
Definition SendReport : Type := bool * Z * option Z.

(** The tail (lines 1011-1047). *)
Definition send_finish (r : Sent) : Act H SendReport :=
  match r with
  | Refused => ret (false, 0, None)
  | Done ok brk base =>
      when ok (SET tim txRejFirstMs_ := 0;; SET tim txRejLastMs_ := 0);;
      reason <- GET cnt lastSendMsgReason_;;
      when (ok || bool_decide (reason = ROk)) (set_reason (if ok then ROk else NotOk));;
      when brk (hwdo sendBreak);;
      lap <- GET txg txSeqLap_;;
      ret (ok, base, Some lap)
  end.

Definition sendMsg (b : list Z) : Act H SendReport :=
  l <- link;;
  let len := lenZ b in
  let chunks := chunksForMsgLen len in
  if len =? 0 then set_reason LengthZero;; ret (true, 0, None)
  else if len >? maxMsg (cfg l) then set_reason LengthInvalid;; ret (false, 0, None)
  else if (chunks <=? 0) || (chunks >? COBS_SEQ_SPACE) then
    set_reason ChunksOverflow;; ret (false, 0, None)
  else
    admitted <- send_admit b;;
    if negb admitted then ret (false, 0, None)
    else
      l <- link;;
      when ((postLockFirstTxDone_ (tim l) =? lockedAtMs_ (tim l)) &&
            negb (lockedAtMs_ (tim l) =? 0)) (
        t <- hw nowMs;;
        SET tim postLockFirstTxDone_ := t);;
      r <- send_body b;;
      send_finish r.

End Api.
End Api.
