(* ===== verification/Recv.v ===== *)
(** * Receiving messages, starting and dropping the link ([LinkApi.cpp], [LinkCore.cpp], [LinkRx.cpp])

    The application side of the receive path ([recvMsg] over the in-order byte
    stream), the raw stream calls, and the life-cycle calls. *)
From S2P Require Import Prelude Monad Crc MsgCodec FrameRx Config Decision BaudSweep ArqCache.
From S2P Require Import Arq Hal LinkState Timing Tx Core Sweep Gbn Rx Api.
Import Crc MsgCodec FrameRx Config Decision BaudSweep ArqCache Arq Hal LinkState Timing Tx Core
  Sweep Gbn Rx Api.

Module Recv.
Section Recv.
Context {H : Type} `{IHal H} (yield : World H -> World H) (fuel : nat).

(** ** The byte stream *)

(** [while (got < n)]: stop on an empty read. *)
Fixpoint read_loop (k : nat) (n : Z) : Act H (list Z) :=
  match k with
  | O => ret []
  | S k =>
      if n <=? 0 then ret []
      else
        r <- hw (popAppBuf n);;
        match r with
        | [] => ret []
        | _ => rest <- read_loop k (n - lenZ r);; ret (r ++ rest)
        end
  end.
Definition readStream (n : Z) : Act H (list Z) := read_loop (Z.to_nat n) n.

Definition available : Act H Z := hw appBufAvailable.
Definition peek : Act H Z := hw peekAppBuf.
Definition read : Act H Z :=
  r <- hw (popAppBuf 1);;
  ret (match r with [b] => b | _ => -1 end).

(** Resynchronise on the next plausible message header (lines 33-55 of
    [LinkRx.cpp]). *)
Definition findMsgHeaderResync (max_scan : Z) : Act H Z :=
  avail <- hw appBufAvailable;;
  if avail <? MSG_HDR then ret (-1)
  else
    let scan := if (max_scan >? 0) && (max_scan <? avail) then max_scan else avail in
    let snapLen := if scan + MSG_HDR >? avail then avail else scan + MSG_HDR in
    granted <- hw (malloc snapLen);;
    if negb granted then ret (-1)
    else
      snap <- hw (popAppBuf snapLen);;
      l <- link;;
      let d := msgResyncScan snap (maxMsg (cfg l)) in
      if d >=? 0 then
        _ <- hw (pushAppBuf (drop (Z.to_nat d) snap));;
        ret d
      else
        hwdo clearAppBuf;;
        UPD cnt resyncDroppedBytes_ := add64 avail;;
        ret avail.

(** ** [recvMsg] *)

(** How long a partial message may take (lines 1071-1076). *)
Definition stale_limit (l : Link) : Z :=
  let syncFloorMs := u32 (2 * u32 (syncAckTimeoutMs (cfg l))) in
  let asyncFloorMs := u32 (u32 (maxRetx (cfg l) * u32 (baudAwareRtoMs l)) + gbnBackoffCapMs l) in
  if asyncFloorMs >? syncFloorMs then asyncFloorMs else syncFloorMs.

(** What [recvMsg] returns: no message yet, an error, or the message. *)
Inductive Received := Nothing | Failed | Message (m : list Z).

(** Fail with [cause], counted after the lock is released. *)
Definition fail_with (cause : FrameErrCause) : Act H Received :=
  release yield;;
  err cause;;
  ret Failed.

Definition resync : Act H Z := l <- link;; findMsgHeaderResync (maxMsg (cfg l) + MSG_HDR).

(** [msgRx_.reset(); msgRxStartedMs_ = 0;] *)
Definition end_msg : Act H unit :=
  UPD rxg msgRx_ := codec_reset;;
  SET rxg msgRxStartedMs_ := 0.

(** The partial message is abandoned (lines 1059-1090). *)
Definition recv_stale : Act H bool :=
  l <- link;;
  if inMsg (msgRx_ (rxg l)) && negb (msgRxStartedMs_ (rxg l) =? 0) then
    now <- hw nowMs;;
    ret (u32 (now - msgRxStartedMs_ (rxg l)) >? stale_limit l)
  else ret false.

(** Lines 1127-1137: the log line is rate limited. *)
Definition note_bad_header : Act H unit :=
  now <- hw nowMs;;
  l <- link;;
  when ((lastBadHeaderLogMs_ (cnt l) =? 0) || (u32 (now - lastBadHeaderLogMs_ (cnt l)) >=? 1000))
    (SET cnt lastBadHeaderLogMs_ := now).

(** The header, when between messages (lines 1091-1146): [None] to go on with
    the body. *)
Definition recv_header : Act H (option Received) :=
  l <- link;;
  if inMsg (msgRx_ (rxg l)) then ret None
  else
    avail <- hw appBufAvailable;;
    if avail <? MSG_HDR then ret (Some Nothing)
    else
      h <- readStream MSG_HDR;;
      l <- link;;
      let '(ok, c) := beginMsg h (maxMsg (cfg l)) (msgRx_ (rxg l)) in
      SET rxg msgRx_ := c;;
      if negb ok then
        _ <- resync;;
        note_bad_header;;
        r <- fail_with BadHeader;;
        ret (Some r)
      else
        t <- hw nowMs;;
        SET rxg msgRxStartedMs_ := t;;
        ret None.

(** [while (left > 0) left -= readStream(sink, min(left, 256));] *)
Fixpoint discard_loop (k : nat) (left : Z) : Act H unit :=
  match k with
  | O => if left >? 0 then stuck else ret tt
  | S k =>
      if left >? 0 then
        r <- readStream (Z.min left 256);;
        discard_loop k (left - lenZ r)
      else ret tt
  end.

(** The body (lines 1147-1191). *)
Definition recv_body (max_len : Z) : Act H Received :=
  l <- link;;
  let len := len_ (msgRx_ (rxg l)) in
  let expCrc := crc_ (msgRx_ (rxg l)) in
  avail <- hw appBufAvailable;;
  if avail <? len then ret Nothing
  else
    end_msg;;
    if len >? max_len then
      discard_loop fuel len;;
      fail_with OverLen
    else
      out <- readStream len;;
      if crc16 out =? expCrc then
        SET ses locksWithoutRecv_ := 0;;
        SET ses recentDiscs_ := 0;;
        ret (Message out)
      else fail_with CrcFail.

Definition recvMsg (max_len : Z) : Act H Received :=
  stale <- recv_stale;;
  if (stale : bool) then
    end_msg;;
    _ <- resync;;
    fail_with BadHeader
  else
    r <- recv_header;;
    match r with
    | Some r => ret r
    | None => recv_body max_len
    end.

(** ** Raw writes *)

(** [sendMsg_unlocked] (lines 305-330): unregistered chunks, the gap waited
    under the lock. *)
Fixpoint write_loop (k : nat) (b : list Z) (offset : Z) : Act H Z :=
  match k, b with
  | _, [] => ret offset
  | O, _ => stuck
  | S k, _ =>
      l <- link;;
      if negb (bool_decide (state l = OK)) then ret offset
      else
        let chunk := take (Z.to_nat MAX_CHUNK) b in
        let rest := drop (Z.to_nat MAX_CHUNK) b in
        _ <- sendCobsFrame chunk;;
        note_tx (lenZ chunk);;
        l <- link;;
        let gap := interChunkGapMs l in
        when ((lenZ rest >? 0) && (gap >? 0)) (hwdo (delayUs (u32 (u32 gap * 1000))));;
        write_loop k rest (offset + lenZ chunk)
  end.

Definition write (b : list Z) : Act H Z :=
  if lenZ b <=? 0 then ret 0
  else
    l <- link;;
    if negb (bool_decide (state l = OK)) then ret 0
    else
      quiet <- txQuiet;;
      if (quiet : bool) then ret 0 else write_loop (length b) b 0.

(** ** Life cycle *)

Definition dropLink : Act H unit :=
  l <- link;;
  if negb (bool_decide (state l = OK)) then ret tt
  else
    reset true false UserDropLink;;
    l <- link;;
    when (bool_decide (state l = SWP)) (hwdo sendBreak).

Definition flushRx : Act H unit :=
  hwdo clearAppBuf;;
  end_msg;;
  SET rxg rxSeqSet := false;;
  SET rxg rxSeq := 0;;
  hwdo flushRxHw.

(** The slave's start (lines 303-338). *)
Definition kickoff_slave : Act H unit :=
  changeState SWP;;
  n <- clampBauds;;
  SET swp spdI := n - 1;;
  UPD swp sweepEpoch_ := (fun e => u8 (e + 1));;
  SET swp pingSample := 0;;
  SET rxg rxIdx := 0;;
  SET brk breakSuspectMs_ := 0;;
  SET brk breakSuspectSeen_ := 0;;
  end_msg;;
  SET rxg frameRx := frame_reset;;
  UPD swp baudSweep := resetAll;;
  resetSeq;;
  updSweep (rset phase_ (fun _ => PHASE1));;
  release yield;;
  hwdo clearAppBuf;;
  i <- GET swp spdI;;
  setSpdIdx i;;
  l <- link;;
  hwdo (startTimer (dwell2 l 0 + 200)).

Definition kickoff : Act H unit :=
  l <- link;;
  if decide (state l = OK) then ret tt
  else if linkPaused_ (ses l) then ret tt
  else
    SET ses kickedOff_ := true;;
    SET brk breakStormSeen_ := false;;
    if isMaster l then
      reset false false Kickoff;;
      UPD swp sweepEpoch_ := (fun e => u8 (e + 1));;
      hwdo sendBreak
    else kickoff_slave.

(** The pipeline window the installed buffers allow (lines 138-207): [None]
    when the ring cannot hold a single frame. *)
Definition ring_window (c : AutoLinkConfig) (hwRing rxRing : Z) : option Z :=
  let installFloor := if hwRing >? 0 then hwRing else uartTxBufferFloorCapped c (2 ^ 32 - 1) 0 in
  if installFloor <? kWorstCaseCobsFrame then None
  else
    let perChunkFloor := if is_sync (mode c) then kWorstCaseCobsFrame else MAX_CHUNK + 4 in
    let ringFrames := installFloor / perChunkFloor in
    let ringFrames := if ringFrames <? 1 then 1 else ringFrames in
    let rxBuf := if rxRing =? 0 then streamBufferFloor c else rxRing in
    let rxFrames := if rxBuf >? 0 then rxBuf / (MAX_CHUNK + MSG_HDR) else 0 in
    Some (if (rxFrames >? 0) && (ringFrames >? rxFrames) then rxFrames else ringFrames).

Definition begin : Act H bool :=
  l <- link;;
  hwdo (hal_begin (cfg l));;
  hwRing <- gets (fun w => txRingSize (hal w));;
  rxRing <- gets (fun w => rxRingSize (hal w));;
  match ring_window (cfg l) hwRing rxRing with
  | None => upd (rset state (fun _ => SWP));; ret false
  | Some w =>
      UPD txg arqCache_ := ArqCache.setWindow w;;
      computeDwells;;
      SET ses kickedOff_ := false;;
      l <- link;;
      when (bool_decide (state l = OK)) (changeState SWP);;
      SET brk breakSuspectMs_ := 0;;
      SET brk breakSuspectSeen_ := 0;;
      if linkPaused_ (ses l) then ret true
      else kickoff;; ret true
  end.

(** ** Settings and counters *)

Definition setLinkPaused (p : bool) : Act H unit := SET ses linkPaused_ := p.
Definition setMode (m : Mode) : Act H unit := upd (rset cfg (rset mode (fun _ => m))).
Definition setMaxMsg (m : Z) : Act H unit := upd (rset cfg (rset maxMsg (fun _ => m))).
Definition setTxDelayMs (ms : Z) : Act H unit :=
  upd (rset cfg (rset txDelayMs (fun _ => if ms <? 0 then 0 else ms))).

Definition resetStats : Act H unit :=
  SET cnt rxBytes := 0;;
  SET cnt txBytes := 0.

Definition resetErrors : Act H unit :=
  SET cnt droppedChunksOnReset := 0;;
  SET cnt frameErrs := 0;;
  SET cnt discCount := 0;;
  SET cnt crcFailErrs_ := 0;;
  SET cnt overLenErrs_ := 0;;
  SET cnt badHeaderErrs_ := 0;;
  SET cnt lastBadHeaderLogMs_ := 0;;
  SET cnt gbnWindowFullDrops_ := 0;;
  SET cnt poolExhaustDrops_ := 0;;
  SET ses errWindowCount_ := 0;;
  t <- hw nowMs;;
  SET ses errWindowStartMs_ := t.

Definition resetDiag : Act H unit :=
  SET cnt lostMsgs := 0;;
  SET cnt stale := 0;;
  SET cnt gaps := 0.

(** The locked queries: [pendingAcks], [isAcked], [getCurrentBaud] and the
    plain reads ([getState], [getErrCount], [getCurrentSpdIndex]). *)
Definition pendingAcks (l : Link) : Z := pendingCount (arq_ (txg l)).
Definition link_isAcked (cobsSeq : Z) (l : Link) : bool := isAcked cobsSeq (arq_ (txg l)).
Definition getCurrentBaud (l : Link) : Z :=
  if (spdI (swp l) >=? 0) && (spdI (swp l) <? clampedCount (cfg l)) then baud_at l else 0.

End Recv.
End Recv.
