(* ===== verification/Sender.v ===== *)
(** * The Go-Back-N sender's invariant

    In ASYNC mode the chunks in flight are the contiguous window
    [gbnBase_, txSeq): they are exactly the pending slots, exactly the slots
    the retransmit cache holds, and there are at most as many as admission
    allows. [sender_ok N] says so; every handler preserves it for every bound
    [N] (they only shrink the window), a reset empties the window, and a send
    extends it within the admitted bound. *)
From S2P Require Import Prelude Monad Crc Cobs MsgCodec FrameRx Config Decision BaudSweep.
From S2P Require Import ArqCache Arq Hal LinkState Timing Tx Core Sweep Gbn Rx Timers Api Recv.
From S2P Require Import Frames.
Import MsgCodec FrameRx Config Decision ArqCache Arq Hal LinkState Timing Tx Core Sweep Gbn Rx
  Timers Api Recv Frames.

Module Sender.

(** The slot of sequence number [s] holds a non-empty chunk. *)
Definition cached (c : ArqCache) (s : Z) : Prop :=
  exists p, contents c s = Some p /\ p <> [].

(** The cache's own invariant, and a window the arrays can hold. *)
Definition window_ok (c : ArqCache) : Prop := 1 <= window_ c <= windowMax_ c /\ windowMax_ c <= 32.
Definition cache_ok (c : ArqCache) : Prop := cache_inv c /\ window_ok c.

Lemma window_ok_ext c c' :
  window_ c' = window_ c -> windowMax_ c' = windowMax_ c -> window_ok c -> window_ok c'.
Proof. unfold window_ok. by intros -> ->. Qed.

Lemma releasePool_window i c :
  window_ (releasePool i c) = window_ c /\ windowMax_ (releasePool i c) = windowMax_ c.
Proof. unfold releasePool. by repeat case_match. Qed.

Lemma decCount_window c : window_ (decCount c) = window_ c /\ windowMax_ (decCount c) = windowMax_ c.
Proof. unfold decCount. by case_match. Qed.

Lemma insert_window s p c : window_ok c -> window_ok (insert s p c).
Proof.
  intros H. apply (window_ok_ext c); [| |done]; unfold insert; cbv zeta;
    repeat case_match; cbn; rewrite ?(proj1 (decCount_window _)), ?(proj2 (decCount_window _)); cbn;
    rewrite ?(proj1 (releasePool_window _ _)), ?(proj2 (releasePool_window _ _)); done.
Qed.

Lemma freeBySeq_window s cause c : window_ok c -> window_ok (freeBySeq s cause c).
Proof.
  intros H. apply (window_ok_ext c); [| |done]; unfold freeBySeq; cbv zeta;
    repeat case_match; cbn; rewrite ?(proj1 (decCount_window _)), ?(proj2 (decCount_window _)); cbn;
    rewrite ?(proj1 (releasePool_window _ _)), ?(proj2 (releasePool_window _ _)); done.
Qed.

Lemma setWindow_window w c : window_ok c -> window_ok (setWindow w c).
Proof.
  unfold window_ok, setWindow. intros [Hw Hm]. cbn.
  destruct (Z.ltb_spec w 1), (Z.ltb_spec (windowMax_ c) w), (Z.ltb_spec (windowMax_ c) 1); lia.
Qed.

Lemma insert_ok seq p c :
  cache_ok c -> 0 <= seq < SLOTS -> storable seq p c ->
  cache_ok (insert seq p c) /\
  forall s, 0 <= s < SLOTS ->
    contents (insert seq p c) s = if seq =? s then Some p else contents c s.
Proof.
  intros [Hi Hw] Hs Hst. destruct (insert_spec seq p c Hi Hs Hst).
  split; [split; [done|by apply insert_window]|done].
Qed.

Lemma freeBySeq_ok seq cause c :
  cache_ok c -> 0 <= seq < SLOTS ->
  cache_ok (freeBySeq seq cause c) /\
  forall s, 0 <= s < SLOTS ->
    contents (freeBySeq seq cause c) s = if seq =? s then None else contents c s.
Proof.
  intros [Hi Hw] Hs. destruct (freeBySeq_spec seq cause c Hi Hs).
  split; [split; [done|by apply freeBySeq_window]|done].
Qed.

Lemma clearAll_ok c : cache_ok c -> cache_ok (ArqCache.clearAll c).
Proof. intros [Hi Hw]. split; [by apply clearAll_inv|done]. Qed.

Lemma init_ok w : 1 <= w <= 32 -> cache_ok (cache_init w).
Proof. intros Hw. split; [apply init_inv; lia|]. unfold window_ok. cbn. lia. Qed.

(** [n] chunks from sequence number [base] on are in flight. *)
Record win (base n : Z) (t : TxG) : Prop := mkWin {
  win_arq : arq_wf (arq_ t);
  win_cache : cache_ok (arqCache_ t);
  win_base : is_seq base;
  win_seq : is_seq (txSeq t);
  win_pend : pend_window base n (arq_ t);
  win_next : 0 < n -> txSeq t = seq_at base n;
  win_held : forall s, is_seq s ->
    cached (arqCache_ t) s <-> exists i, 0 <= i < n /\ s = seq_at base i;
  win_only : forall s, 0 <= s < SLOTS -> contents (arqCache_ t) s = None \/ cached (arqCache_ t) s;
  win_range : forall s, 254 <= s < SLOTS -> contents (arqCache_ t) s = None;
}.

(** The window of [n] chunks at the recorded base, and the sender active. *)
Definition txw (n : Z) (t : TxG) : Prop :=
  win (gbnBase_ (arq_ t)) n t /\ gbnActive_ (arq_ t) = (0 <? n).

(** ASYNC, a window of at most [N] chunks, none in flight outside a session. *)
Definition sender_P (N : Z) (t : TxG) (m : Mode) (s : State) : Prop :=
  is_sync m = false /\ exists n, 0 <= n <= N /\ (s = SWP -> n = 0) /\ txw n t.
Abbreviation sender_ok N := (txon (sender_P N)).

Definition inflight (l : Link) : Z := pendingCount (arq_ (txg l)).

Lemma txw_count n t : 0 <= n <= 62 -> txw n t -> pendingCount (arq_ t) = n.
Proof. intros Hn Hw. destruct Hw as [Hw _]. eapply win_bits_count; [done|apply Hw]. Qed.

(** ** Operations on the ARQ tables that leave the window alone *)

Definition same_window (a b : LinkArq) : Prop :=
  ackedPending_ b = ackedPending_ a /\ gbnBase_ b = gbnBase_ a /\ gbnActive_ b = gbnActive_ a /\
  arq_wf b.

Lemma win_arq_upd base n t f :
  ackedPending_ (f (arq_ t)) = ackedPending_ (arq_ t) -> arq_wf (f (arq_ t)) ->
  win base n t -> win base n (rset arq_ f t).
Proof.
  intros Hp Hwf [? ? ? ? ? ? ? ? ?]. split; cbn; unfold pend_window; rewrite ?Hp; done.
Qed.

Lemma txw_same n t f :
  same_window (arq_ t) (f (arq_ t)) -> txw n t -> txw n (rset arq_ f t).
Proof.
  intros (Hp & Hb & Ha' & Hwf) [Hw Ha].
  split; cbn; rewrite ?Hb, ?Ha'; [by apply win_arq_upd|done].
Qed.

Ltac wf_tac H :=
  destruct H; split; cbn; rewrite ?lenZ_wr; try done; unfold bumpNak; repeat case_match;
  rewrite ?lenZ_wr; done.

Lemma same_applyRetx s now rto a : arq_wf a -> same_window a (applyRetx s now rto a).
Proof.
  intros Hw. unfold applyRetx. destruct rto; (split_and!; try done); wf_tac Hw.
Qed.

Lemma same_rearmSlot s now a : arq_wf a -> same_window a (rearmSlot s now a).
Proof. intros Hw. split_and!; try done; wf_tac Hw. Qed.

Lemma same_noteSuppressedNak s a : arq_wf a -> same_window a (noteSuppressedNak s a).
Proof.
  intros Hw. unfold noteSuppressedNak. destruct (negb _); (split_and!; try done); wf_tac Hw.
Qed.

Lemma same_onNaked s now a : arq_wf a -> same_window a (onNaked s now a).
Proof. intros Hw. unfold onNaked. destruct (negb _); (split_and!; try done); wf_tac Hw. Qed.

Lemma same_noteNakWake s a : arq_wf a -> same_window a (noteNakWake s a).
Proof.
  intros Hw. unfold noteNakWake, give. cbn. case_match; (split_and!; try done); wf_tac Hw.
Qed.

(** ** Opening and closing slots *)

Lemma wf_onSent s b t lap a : arq_wf a -> arq_wf (onSent s b t lap a).
Proof. intros []. split; cbn; rewrite ?lenZ_wr; done. Qed.

Lemma wf_onAcked s n a : arq_wf a -> arq_wf (onAcked s n a).
Proof. intros []. unfold onAcked, give. cbn. case_match; split; cbn; rewrite ?lenZ_wr; done. Qed.

Lemma onAcked_fields s n a :
  ackedPending_ (onAcked s n a) = wr (ackedPending_ a) (budgetIdx s) false /\
  gbnBase_ (onAcked s n a) = gbnBase_ a /\ gbnActive_ (onAcked s n a) = gbnActive_ a.
Proof. unfold onAcked, give. cbn. by case_match. Qed.

Lemma is_seq_slot s : is_seq s -> 0 <= s < SLOTS.
Proof. unfold is_seq, SLOTS. lia. Qed.

Lemma seq_at_inj base i j : 0 <= i < 62 -> 0 <= j < 62 -> seq_at base i = seq_at base j -> i = j.
Proof. intros Hi Hj E. eapply budgetIdx_inj; [done|done|by rewrite E]. Qed.

(** An empty window has no base. *)
Lemma win_rebase base base' t : is_seq base' -> win base 0 t -> win base' 0 t.
Proof.
  intros Hb [? ? ? ? Hp ? Hh ? ?]. split; try done.
  - apply win_bits_nil. by apply win_bits_nil in Hp.
  - intros s Hs. rewrite Hh by done. split; intros [i [? _]]; lia.
Qed.

(** A chunk is sent at the end of the window. *)
Lemma win_open base n t b bs now lap seq' lap' :
  win base n t -> 0 <= n < 62 -> (n = 0 -> base = txSeq t) -> b <> [] ->
  storable (txSeq t) b (arqCache_ t) -> seq' = next_seq (txSeq t) ->
  win base (n + 1)
    (mkTxG seq' lap' (onSent (txSeq t) bs now lap (arq_ t)) (insert (txSeq t) b (arqCache_ t))).
Proof.
  intros [Ha Hc Hb Hs Hp Hn Hh Ho Hr] Hlt H0 Hne Hst ->.
  assert (Heq : txSeq t = seq_at base n).
  { destruct (Z.eq_dec n 0) as [->|]; [|apply Hn; lia]. rewrite <- H0 by done.
    by rewrite seq_at_0. }
  destruct (insert_ok _ _ _ Hc (is_seq_slot _ Hs) Hst) as [Hci Hcc].
  assert (Hcd : forall s, 0 <= s < SLOTS ->
    cached (insert (txSeq t) b (arqCache_ t)) s <-> txSeq t = s \/ cached (arqCache_ t) s).
  { intros s Hs'. unfold cached. rewrite Hcc by done. destruct (Z.eqb_spec (txSeq t) s).
    - split; [by left|]. intros _. by exists b.
    - split; [by right|]. by intros [|]. }
  split; cbn.
  - by apply wf_onSent.
  - done.
  - done.
  - rewrite Heq, next_seq_at by done. apply seq_at_range.
  - unfold pend_window. cbn. rewrite Heq. by apply win_bits_snoc.
  - intros _. by rewrite Heq, next_seq_at.
  - intros s Hs'. rewrite Hcd by (by apply is_seq_slot). rewrite Hh by done. split.
    + intros [<- | [i [Hi E]]]; [exists n; split; [lia|done]|exists i; split; [lia|done]].
    + intros [i [Hi E]]. destruct (Z.eq_dec i n) as [->|]; [left; by rewrite Heq|].
      right. exists i. split; [lia|done].
  - intros s Hs'. rewrite Hcd by done. destruct (Z.eqb_spec (txSeq t) s) as [|Hx]; [by right; left|].
    rewrite Hcc by done. apply Z.eqb_neq in Hx. rewrite Hx.
    destruct (Ho s Hs'); [by left|by right; right].
  - intros s Hs'. rewrite Hcc by (unfold SLOTS in *; lia). unfold is_seq in Hs.
    destruct (Z.eqb_spec (txSeq t) s); [lia|]. by apply Hr.
Qed.

(** The chunk at the base is acknowledged. *)
Lemma win_close base n t k cause :
  win base n t -> 0 < n <= 62 ->
  win (seq_at base 1) (n - 1)
    (mkTxG (txSeq t) (txSeqLap_ t) (onAcked base k (arq_ t)) (freeBySeq base cause (arqCache_ t))).
Proof.
  intros [Ha Hc Hb Hs Hp Hn Hh Ho Hr] Hlt.
  destruct (freeBySeq_ok base cause _ Hc (is_seq_slot _ Hb)) as [Hci Hcc].
  destruct (onAcked_fields base k (arq_ t)) as (Hpe & _ & _).
  assert (Hat : forall i, seq_at (seq_at base 1) i = seq_at base (i + 1)).
  { intros i. rewrite seq_at_add. f_equal. lia. }
  assert (Hcd : forall s, 0 <= s < SLOTS ->
    cached (freeBySeq base cause (arqCache_ t)) s <-> base <> s /\ cached (arqCache_ t) s).
  { intros s Hs'. unfold cached. rewrite Hcc by done. destruct (Z.eqb_spec base s).
    - split; [by intros [? [? _]]|]. by intros [].
    - split; [done|]. by intros []. }
  split; cbn.
  - by apply wf_onAcked.
  - done.
  - apply seq_at_range.
  - done.
  - unfold pend_window. rewrite Hpe. rewrite <- (seq_at_0 base Hb) at 2. by apply win_bits_tail.
  - intros Hn1. rewrite Hat. rewrite Hn by lia. f_equal. lia.
  - intros s Hs'. rewrite Hcd by (by apply is_seq_slot). rewrite Hh by done. split.
    + intros [Hbs [i [Hi E]]]. exists (i - 1). rewrite Hat. split; [|rewrite E; f_equal; lia].
      destruct (Z.eq_dec i 0) as [->|]; [|lia]. by rewrite seq_at_0 in E.
    + intros [i [Hi E]]. rewrite Hat in E. split.
      * intros ->. rewrite <- (seq_at_0 s Hb) in E at 1. rewrite (seq_at_0 s Hb) in E at 1.
        rewrite <- (seq_at_0 s Hb) in E at 1. apply seq_at_inj in E; lia.
      * exists (i + 1). split; [lia|done].
  - intros s Hs'. rewrite Hcc by done. destruct (Z.eqb_spec base s) as [|Hx]; [by left|].
    destruct (Ho s Hs') as [E|]; [by left|]. right. by apply Hcd.
  - intros s Hs'. rewrite Hcc by (unfold SLOTS in *; lia). destruct (base =? s); [done|].
    by apply Hr.
Qed.

(** Clearing a slot of an empty window. *)
Lemma win_clear base t s k cause :
  is_seq s -> win base 0 t ->
  win base 0
    (mkTxG (txSeq t) (txSeqLap_ t) (onAcked s k (arq_ t)) (freeBySeq s cause (arqCache_ t))).
Proof.
  intros Hs [Ha Hc Hb Hq Hp Hn Hh Ho Hr].
  destruct (freeBySeq_ok s cause _ Hc (is_seq_slot _ Hs)) as [Hci Hcc].
  destruct (onAcked_fields s k (arq_ t)) as (Hpe & _ & _).
  assert (Hnc : forall x, 0 <= x < SLOTS -> contents (freeBySeq s cause (arqCache_ t)) x = None).
  { intros x Hx. rewrite Hcc by done. destruct (s =? x); [done|].
    destruct (Ho x Hx) as [|Hcx]; [done|]. destruct (decide (x < 254)).
    - apply Hh in Hcx; [|unfold is_seq; lia]. destruct Hcx as [i [? _]]. lia.
    - apply Hr. unfold SLOTS in *. lia. }
  split; cbn; try done.
  - by apply wf_onAcked.
  - unfold pend_window in *. rewrite Hpe. apply win_bits_nil in Hp. rewrite Hp.
    apply win_bits_nil. apply (rd_ext false); [by rewrite length_wr|].
    intros i Hi. rewrite lenZ_wr in Hi. pose proof (budgetIdx_range s).
    rewrite rd_wr by (unfold lenZ in *; rewrite length_replicate in *; lia).
    destruct (_ =? _); [|done]. rewrite (rd_replicate false 64); [done|].
    unfold lenZ in Hi. rewrite length_replicate in Hi. lia.
  - intros x Hx. split.
    + intros [p [Hp' _]]. by rewrite Hnc in Hp' by (by apply is_seq_slot).
    + intros [i [? _]]. lia.
  - intros x Hx. left. by apply Hnc.
  - intros x Hx. apply Hnc. unfold SLOTS in *. lia.
Qed.

(** Everything wiped. *)
Definition idle_arq (a : LinkArq) : Prop :=
  arq_wf a /\ is_seq (gbnBase_ a) /\ pend_window (gbnBase_ a) 0 a /\ gbnActive_ a = false.
Definition arq_idle (t : TxG) : Prop := idle_arq (arq_ t) /\ is_seq (txSeq t).

Lemma txw_empty t :
  arq_idle t -> cache_ok (arqCache_ t) ->
  (forall s, 0 <= s < SLOTS -> contents (arqCache_ t) s = None) -> txw 0 t.
Proof.
  intros [(Hwf & Hb & Hp & Ha) Hs] Hc Hn. split; [|done]. split; try done.
  - intros s Hs'. split.
    + intros [p [E _]]. by rewrite Hn in E by (by apply is_seq_slot).
    + intros [i [? _]]. lia.
  - intros s Hs'. left. by apply Hn.
  - intros s Hs'. apply Hn. unfold SLOTS in *. lia.
Qed.

Lemma win_cleared t :
  arq_idle t -> cache_ok (arqCache_ t) -> txw 0 (rset arqCache_ ArqCache.clearAll t).
Proof.
  intros Hi Hc. apply txw_empty; [done|by apply clearAll_ok|].
  apply (clearAll_spec (arqCache_ t)).
Qed.

Lemma arq_clearAll_idle a : idle_arq (arq_clearAll a).
Proof.
  assert (E : ackedPending_ (arq_clearAll a) = replicate 64 false /\
              gbnBase_ (arq_clearAll a) = 0 /\ gbnActive_ (arq_clearAll a) = false /\
              arq_wf (arq_clearAll a)).
  { unfold arq_clearAll, give. cbn. case_match; done. }
  destruct E as (E1 & E2 & E3 & E4).
  split_and!; unfold pend_window; rewrite ?E1, ?E2, ?E3; try done.
  by apply win_bits_nil.
Qed.

Lemma txw_idle t : txw 0 t -> arq_idle t.
Proof. intros [[] Ha]. by split_and!. Qed.

(** ** Reset and lock *)

(** The stages of a reset: before the tables are wiped ([ended]: a session is
    ending, so they may be in any state), wiped but for the sequence number, and
    idle. *)
Definition stage_a (ended : bool) (t : TxG) (m : Mode) (_ : State) : Prop :=
  is_sync m = false /\ cache_ok (arqCache_ t) /\ (ended = false -> arq_idle t).
Definition stage_s (ended : bool) (t : TxG) (m : Mode) (s : State) : Prop :=
  stage_a ended t m s /\ s = SWP.
Definition stage_c (t : TxG) (m : Mode) (s : State) : Prop :=
  is_sync m = false /\ cache_ok (arqCache_ t) /\ idle_arq (arq_ t) /\ s = SWP.
Definition stage_b (t : TxG) (m : Mode) (s : State) : Prop :=
  is_sync m = false /\ cache_ok (arqCache_ t) /\ arq_idle t /\ s = SWP.

Section Handlers.
Context {H : Type} `{IHal H} (d : Prop) (N : Z) (HN : 0 <= N <= 62).

Lemma resetSeq_idle : moves (H := H) d (txon stage_c) (txon stage_b) resetSeq.
Proof.
  unfold resetSeq. eapply moves_bind.
  { apply (moves_upd d (txon stage_c) (txon stage_b)). intros l (Hm & Hc & Hq & Hs).
    by split_and!. }
  intros _. apply moves_keeps. kt.
Qed.

Lemma reset_session_idle :
  moves (H := H) d (txon (stage_s true)) (txon stage_b) reset_session.
Proof.
  unfold reset_session. apply moves_link. intros l0 Hl0.
  apply (moves_pre d (txon (stage_s true))); [|by intros l <-].
  apply (moves_bind d _ (txon (stage_s true))); [apply moves_keeps; kt|intros _].
  apply (moves_bind d _ (txon stage_c)); [|intros _].
  { apply moves_upd. intros l [(Hm & Hc & _) Hs]. split_and!; [done|done| |done].
    apply arq_clearAll_idle. }
  apply (moves_bind d _ (txon stage_b)); [apply resetSeq_idle|intros _].
  apply moves_keeps. kt.
Qed.

Lemma changeState_moves P Q st :
  (forall t m s, P t m s -> Q t m st) ->
  moves (H := H) d (txon P) (txon Q) (changeState st).
Proof.
  intros Hpq. unfold changeState. apply moves_link. intros l Hl.
  destruct (decide (state l = st)) as [E|E].
  - apply moves_ret. intros l' <-. unfold txon. rewrite E. by eapply Hpq.
  - apply (moves_bind d _ (txon Q)); [|intros _; apply moves_keeps; kt].
    apply moves_upd. intros l' <-. by eapply Hpq.
Qed.

Lemma reset_sender count preserve reason :
  keeps d (on (H := H) (sender_ok N)) (reset count preserve reason).
Proof.
  apply moves_keeps. unfold reset. apply moves_link. intros l0 Hl0.
  set (ended := bool_decide (state l0 = OK)).
  apply (moves_pre d (txon (stage_a ended))).
  2: { intros l <-. destruct Hl0 as (Hm & n & _ & Hn & Hw). split_and!; [done|apply Hw|].
       intros He. apply bool_decide_eq_false in He. apply txw_idle.
       destruct (state l0); [done|]. by rewrite <- Hn. }
  repeat (apply (moves_bind d _ (txon (stage_a ended))); [apply moves_keeps; solve [kt]|intros _]).
  apply (moves_bind d _ (txon (stage_s ended))); [by apply changeState_moves|intros _].
  repeat (apply (moves_bind d _ (txon (stage_s ended))); [apply moves_keeps; solve [kt]|intros _]).
  apply (moves_bind d _ (txon stage_b)); [|intros _].
  { destruct ended; [apply reset_session_idle|].
    apply moves_ret. intros l [(Hm & Hc & Hi) Hs]. split_and!; auto. }
  repeat (apply (moves_bind d _ (txon stage_b)); [apply moves_keeps; solve [kt]|intros _]).
  apply (moves_bind d _ (sender_ok N)); [|intros _; apply moves_keeps; kt].
  apply moves_upd. intros l (Hm & Hc & Hi & Hs). split; [done|]. exists 0.
  split_and!; [lia|lia|done|]. by apply win_cleared.
Qed.
Hint Resolve reset_sender : keeps.

Lemma changeState_OK_sender : keeps d (on (H := H) (sender_ok N)) (changeState OK).
Proof.
  apply moves_keeps, changeState_moves. intros t m s (Hm & n & Hn & _ & Hw).
  split; [done|]. by exists n.
Qed.
Hint Resolve changeState_OK_sender : keeps.

Lemma err_sender c : keeps d (on (H := H) (sender_ok N)) (err_ c).
Proof. unfold err_. kt. Qed.
Hint Resolve err_sender : keeps.

(** ** Resending *)

Lemma upd_arq_sender f :
  (forall a, arq_wf a -> same_window a (f a)) ->
  keeps d (on (H := H) (sender_ok N)) (upd (rset txg (rset arq_ f))).
Proof.
  intros Hf. apply keeps_upd. intros l (Hm & n & Hn & Hs & Hw). split; [done|]. exists n.
  split_and!; try done; try lia. apply txw_same; [|done]. apply Hf, Hw.
Qed.

Lemma retxSeq_frame P s : keeps d (on (H := H) (txon P)) (retxSeq s).
Proof. unfold retxSeq. kt. Qed.
Hint Resolve retxSeq_frame : keeps.

Lemma resend_loop_sender n s now : keeps d (on (H := H) (sender_ok N)) (resend_loop n s now).
Proof.
  revert s. induction n as [|n IH]; intros s; cbn [resend_loop]; kt.
  apply upd_arq_sender. intros ? ?. by apply same_applyRetx.
Qed.
Hint Resolve resend_loop_sender : keeps.

Lemma gbnResendWindow_sender now : keeps d (on (H := H) (sender_ok N)) (gbnResendWindow now).
Proof. unfold gbnResendWindow. kt. Qed.
Hint Resolve gbnResendWindow_sender : keeps.

Lemma gbnRetxBaseAndRearm_sender now :
  keeps d (on (H := H) (sender_ok N)) (gbnRetxBaseAndRearm now).
Proof. unfold gbnRetxBaseAndRearm. kt. Qed.
Hint Resolve gbnRetxBaseAndRearm_sender : keeps.

Lemma sweep_drop_sender now : keeps d (on (H := H) (sender_ok N)) (sweep_drop now).
Proof.
  unfold sweep_drop. kt.
  apply upd_arq_sender. intros ? ?. by apply same_rearmSlot.
Qed.
Hint Resolve sweep_drop_sender : keeps.

Lemma sweepRetx_sender now : keeps d (on (H := H) (sender_ok N)) (sweepRetx now).
Proof. unfold sweepRetx. kt. Qed.
Hint Resolve sweepRetx_sender : keeps.

(** ** The ACK walk *)

(** In the middle of a walk: [m] chunks left from [s] on; the recorded base and
    the active flag still those of the start. *)
Definition walking (b0 s m : Z) (st : State) (t : TxG) (md : Mode) (st' : State) : Prop :=
  win s m t /\ gbnBase_ (arq_ t) = b0 /\ gbnActive_ (arq_ t) = true /\ is_sync md = false /\
  st' = st.

(** One chunk is acknowledged at the front. *)
Lemma walk_close b0 s m st k cause l :
  txon (walking b0 s m st) l -> 0 < m <= 62 ->
  txon (walking b0 (seq_at s 1) (m - 1) st)
    (rset txg (rset arqCache_ (freeBySeq s cause)) (rset txg (rset arq_ (onAcked s k)) l)).
Proof.
  intros (Hw & Hb & Ha & Hm & Hs) Hlt. unfold txon, walking. cbn.
  destruct (onAcked_fields s k (arq_ (txg l))) as (_ & -> & ->). split_and!; try done.
  by apply (win_close s m (txg l) k cause).
Qed.

(** A frame lemma as a weakest-precondition step. *)
Lemma frame_wpd {A} P (m : Act H A) w :
  keeps d (on (txon P)) m -> txon P (lk w) -> wpd d m (fun _ w' => txon P (lk w')) w.
Proof. intros Hm Hw. by apply Hm. Qed.

Lemma ack_walk_ok fuel acked bytes b0 st j : forall s m freed,
  is_seq s -> acked = seq_at s j -> 0 <= j < m -> m <= 62 ->
  freed + j + 1 <= 32 -> (Z.to_nat j < fuel)%nat ->
  forall w : World H, txon (walking b0 s m st) (lk w) ->
  wpd d (ack_walk fuel acked bytes s freed)
    (fun r w' => snd r = true /\ txon (walking b0 (seq_at acked 1) (m - j - 1) st) (lk w')) w.
Proof.
  remember (Z.to_nat j) as k eqn:Ek. revert j Ek fuel.
  induction k as [|k IH]; intros j Ek [|fuel] s m freed Hsq Hac Hj Hm Hf Hfu w Hw; try lia;
    cbn [ack_walk]; unfold AUTOLINK_ARQ_PIPELINE_WINDOW;
    (destruct (Z.ltb_spec 32 (freed + 1)); [lia|]); ws.
  - assert (j = 0) as -> by lia. rewrite seq_at_0 in Hac by done. subst acked.
    apply (walk_close _ _ _ _ bytes CumulativeBackfill) in Hw; [|lia].
    rewrite Z.eqb_refl. replace (m - 0 - 1) with (m - 1) by lia.
    eapply wpd_mono; [apply frame_wpd; [apply fr_forget_nak|exact Hw]|].
    intros ? w' Hw'. ws. by split.
  - assert (Hne : s <> acked).
    { rewrite Hac. rewrite <- (seq_at_0 s) at 1 by done. intros E. apply seq_at_inj in E; lia. }
    destruct (Z.eqb_spec s acked); [done|].
    set (nb := match _ with Some b => _ | None => _ end).
    apply (walk_close _ _ _ _ nb CumulativeBackfill) in Hw; [|lia].
    assert (Hns : next_seq s = seq_at s 1).
    { rewrite <- (seq_at_0 s) at 1 by done. by rewrite next_seq_at. }
    rewrite Hns. replace (m - j - 1) with (m - 1 - (j - 1) - 1) by lia.
    eapply wpd_mono; [apply frame_wpd; [apply fr_forget_nak|exact Hw]|].
    intros ? w' Hw'. apply (IH (j - 1)); try lia; [apply seq_at_range| |done].
    rewrite seq_at_add. rewrite Hac. f_equal. lia.
Qed.

(** [n] chunks in flight, outside SYNC, in state [st]. *)
Definition at_win (n : Z) (st : State) (t : TxG) (m : Mode) (s : State) : Prop :=
  is_sync m = false /\ s = st /\ txw n t.

Lemma at_win_sender n st l :
  0 <= n <= N -> (st = SWP -> n = 0) -> txon (at_win n st) l -> sender_ok N l.
Proof. intros Hn Hs (Hm & E & Hw). split; [done|]. exists n. rewrite E. done. Qed.

(** A pending chunk the window reaches is one of its first 32. *)
Lemma pending_at n t s :
  0 <= n <= 62 -> txw n t -> is_byte s -> isPending s (arq_ t) = true -> 0 <= idxOf s (arq_ t) ->
  exists j, 0 <= j < n /\ j < 32 /\ s = seq_at (gbnBase_ (arq_ t)) j.
Proof.
  intros Hn [[_ _ Hb _ [_ Hp] _ _ _ _] _] Hs Hpe Hi. unfold isPending in Hpe.
  apply Hp in Hpe as (i & Hi' & E); [|apply budgetIdx_range].
  unfold idxOf, COBS_SEQ_SPACE, AUTOLINK_ARQ_PIPELINE_WINDOW in Hi. unfold is_byte, is_seq in *.
  set (base := gbnBase_ (arq_ t)) in *.
  assert (Hj : exists j, 0 <= j < 32 /\ s = base + j \/ 0 <= j < 32 /\ s = base + j - 254).
  { destruct (Z.ltb_spec (s - base) 0); cbn in Hi.
    - exists (s - base + 254). destruct (Z.ltb_spec (s - base + 254) 32); lia.
    - exists (s - base). destruct (Z.ltb_spec (s - base) 32); lia. }
  destruct Hj as [j Hj]. destruct (decide (254 <= s)) as [Hge|Hlt].
  - exfalso. unfold budgetIdx, seq_at, ARQ_CHUNK_BUDGET, AUTOLINK_ARQ_PIPELINE_WINDOW in E. mlia.
  - assert (Hsj : s = seq_at base j) by (unfold seq_at; mlia).
    exists j. split_and!; [lia| |lia|done]. rewrite Hsj in E. apply budgetIdx_inj in E; lia.
Qed.

(** The recorded base follows the walk. *)
Lemma walk_done b0 s n st l :
  is_seq s -> 0 <= n <= 62 -> txon (walking b0 (seq_at s 1) n st) l ->
  txon (at_win n st)
    (rset txg (rset arq_ (fun a => a <| gbnActive_ := (pendingCount a >? 0) |>))
       (rset txg (rset arq_ (fun a => a <| gbnBase_ := next_seq s |>)) l)).
Proof.
  intros Hs Hn (Hw & _ & _ & Hm & E). unfold txon, at_win. cbn. split_and!; [done|done|].
  assert (Hns : next_seq s = seq_at s 1).
  { rewrite <- (seq_at_0 s) at 1 by done. by rewrite next_seq_at. }
  split; cbn; rewrite Hns.
  - apply (win_arq_upd _ _ (rset arq_ (fun a => a <| gbnBase_ := seq_at s 1 |>) (txg l))
             (fun a => a <| gbnActive_ := (pendingCount a >? 0) |>)); [done|by destruct Hw as [[]]|].
    apply (win_arq_upd _ _ (txg l) (fun a => a <| gbnBase_ := seq_at s 1 |>));
      [done|by destruct Hw as [[]]|done].
  - unfold pendingCount. cbn. rewrite (win_bits_count (seq_at s 1) n); [|done|apply Hw].
    destruct (Z.gtb_spec n 0), (Z.ltb_spec 0 n); lia.
Qed.

(** A cumulative ACK of the [j]-th chunk in flight closes exactly the first
    [j + 1]. *)
Lemma ack_window_ok acked b n st j (w : World H) :
  txon (at_win n st) (lk w) -> n <= 62 -> 0 <= j < n -> j < 32 ->
  acked = seq_at (gbnBase_ (arq_ (txg (lk w)))) j ->
  wpd d (ack_window acked b)
    (fun _ w' => txon (at_win (n - j - 1) st) (lk w') /\
                 gbnBase_ (arq_ (txg (lk w'))) = next_seq acked) w.
Proof.
  intros (Hm & Hs & Hw & Ha) Hn Hj H32 Hac. unfold ack_window. ws.
  eapply wpd_mono.
  { apply (ack_walk_ok 33 acked b (gbnBase_ (arq_ (txg (lk w)))) st j _ n); try done; try lia.
    - apply Hw.
    - split_and!; try done. rewrite Ha. apply Z.ltb_lt. lia. }
  intros [fr ok] w' [Hok Hw']. cbn in Hok. subst ok. cbn [snd]. ws.
  split; [|done].
  refine (walk_done _ acked (n - j - 1) st _ _ _ Hw'); [rewrite Hac; apply seq_at_range|lia].
Qed.

(** The link, pinned as far as the sender is concerned. *)
Definition pinned (l : Link) (t : TxG) (m : Mode) (s : State) : Prop :=
  t = txg l /\ m = mode (cfg l) /\ s = state l.

Lemma moves_pin {B} (J K : Link -> Prop) (f : Link -> Act H B) :
  (forall l, J l -> moves d (txon (pinned l)) K (f l)) -> moves d J K (bind link f).
Proof.
  intros Hf. apply moves_link. intros l Hl. apply (moves_pre d (txon (pinned l))); [by apply Hf|].
  by intros ? <-.
Qed.

Lemma pinned_sender l l' : sender_ok N l -> txon (pinned l) l' -> sender_ok N l'.
Proof. intros Hl (E1 & E2 & E3). unfold txon. by rewrite E1, E2, E3. Qed.

(** Steps that leave the pinned part alone. *)
Ltac mv R := repeat (eapply (moves_bind _ _ R); [apply moves_keeps; solve [kt]|intros ?]).

Lemma pinned_ret {A} l (a : A) :
  sender_ok N l -> moves (H := H) d (txon (pinned l)) (sender_ok N) (ret a).
Proof. intros Hl. apply moves_ret. intros l'. by apply pinned_sender. Qed.

Lemma win0_not_pending t s : txw 0 t -> isPending s (arq_ t) = false.
Proof.
  intros [[_ _ _ _ Hp _ _ _ _] _]. unfold isPending. apply win_bits_nil in Hp. rewrite Hp.
  pose proof (budgetIdx_range s). by rewrite (rd_replicate false 64) by lia.
Qed.

Lemma onAck_sender acked b : is_byte acked -> keeps d (on (H := H) (sender_ok N)) (onAck acked b).
Proof.
  intros Hb. apply moves_keeps. unfold onAck. apply moves_pin. intros l0 Hl0.
  destruct (decide _) as [|Hst]; [by apply pinned_ret|].
  mv (txon (pinned l0)). apply moves_link. intros l (E1 & E2 & E3).
  apply (moves_pre d (txon (pinned l0))); [|by intros l' <-].
  destruct (isPending acked (arq_ (txg l))) eqn:Hp; cbn [negb]; [|by apply pinned_ret].
  mv (txon (pinned l0)). apply moves_link. intros l1 (F1 & F2 & F3).
  pose proof Hl0 as (Hm & n & Hn & Hs & Hw). rewrite F2, Hm. cbn [orb].
  rewrite E1 in Hp. destruct (decide (n = 0)) as [->|Hn0].
  { by rewrite (win0_not_pending _ acked Hw) in Hp. }
  assert (Hact : gbnActive_ (arq_ (txg l1)) = true).
  { rewrite F1. destruct Hw as [_ ->]. lia. }
  rewrite Hact. cbn [negb]. destruct (Z.ltb_spec (idxOf acked (arq_ (txg l1))) 0) as [|Hi].
  { apply moves_ret. intros l' <-. by apply (pinned_sender l0). }
  rewrite F1 in Hi. destruct (pending_at n (txg l0) acked) as (j & Hj & H32 & Hac); try done; try lia.
  eapply (moves_bind _ _ (sender_ok N)); [|intros; apply moves_keeps; kt].
  intros w Ew. eapply wpd_mono.
  { apply (ack_window_ok acked b n (state l0) j); try done; try lia; rewrite <- Ew.
    - split_and!; rewrite ?F1, ?F2, ?F3; done.
    - by rewrite F1. }
  intros ? w' [Hw' _]. eapply at_win_sender; [| |exact Hw']; [lia|done].
Qed.

(** ** NAK *)

Lemma at_win_walking n st l :
  0 < n -> txon (at_win n st) l -> txon (walking (gbnBase_ (arq_ (txg l))) (gbnBase_ (arq_ (txg l))) n st) l.
Proof.
  intros Hn (Hm & Hs & Hw & Ha). split_and!; try done. rewrite Ha. apply Z.ltb_lt. lia.
Qed.

(** The base moves on after its chunk was closed. *)
Lemma walk_next b0 n st l :
  is_seq b0 -> 0 < n -> txon (walking b0 (seq_at b0 1) n st) l ->
  txon (at_win n st) (rset txg (rset arq_ (fun a => a <| gbnBase_ := next_seq (gbnBase_ a) |>)) l).
Proof.
  intros Hs Hn (Hw & Hb & Ha & Hm & E). unfold txon, at_win. cbn. split_and!; [done|done|].
  assert (Hns : next_seq b0 = seq_at b0 1).
  { rewrite <- (seq_at_0 b0) at 1 by done. by rewrite next_seq_at. }
  split; cbn; rewrite ?Hb, ?Hns.
  - apply (win_arq_upd _ _ (txg l) (fun a => a <| gbnBase_ := next_seq (gbnBase_ a) |>));
      [done|by destruct Hw as [[]]|done].
  - rewrite Ha. symmetry. apply Z.ltb_lt. lia.
Qed.

(** A walk to the [j]-th chunk closes the [j] before it. *)
Lemma nak_walk_ok fuel missing st j : forall n freed,
  0 <= j < n -> n <= 62 -> freed + j <= 32 -> (Z.to_nat j < fuel)%nat ->
  forall w : World H, txon (at_win n st) (lk w) ->
  missing = seq_at (gbnBase_ (arq_ (txg (lk w)))) j ->
  wpd d (nak_walk fuel missing freed)
    (fun _ w' => txon (at_win (n - j) st) (lk w') /\ gbnBase_ (arq_ (txg (lk w'))) = missing) w.
Proof.
  remember (Z.to_nat j) as k eqn:Ek. revert j Ek fuel.
  induction k as [|k IH]; intros j Ek [|fuel] n freed Hj Hn Hf Hfu w Hw Hmi; try lia;
    cbn [nak_walk]; ws; pose proof Hw as (_ & _ & [[_ _ Hb _ _ _ _ _ _] _]).
  - assert (j = 0) as -> by lia. rewrite seq_at_0 in Hmi by done. rewrite Hmi, Z.eqb_refl. ws.
    split; [by replace (n - 0) with n by lia|done].
  - set (base := gbnBase_ (arq_ (txg (lk w)))) in *.
    destruct (Z.eqb_spec base missing) as [E|_].
    { rewrite <- (seq_at_0 base Hb) in E at 1. rewrite Hmi in E. apply seq_at_inj in E; lia. }
    assert (Hi : idxOf base (arq_ (txg (lk w))) = 0).
    { unfold idxOf. fold base. by rewrite Z.sub_diag. }
    rewrite Hi. unfold AUTOLINK_ARQ_PIPELINE_WINDOW. change (0 <? 0) with false. cbv iota.
    replace (freed + 1 >? 32) with false by lia. ws.
    apply at_win_walking in Hw; [|lia].
    apply (walk_close _ _ _ _ 0 NakCumulative) in Hw; [|lia]. fold base in Hw.
    eapply wpd_mono; [apply (frame_wpd (walking base (seq_at base 1) (n - 1) st)); [apply fr_forget_nak|exact Hw]|].
    intros ? w' Hw'. ws. apply walk_next in Hw' as Hn'; [|done|lia].
    replace (n - j) with (n - 1 - (j - 1)) by lia. apply (IH (j - 1)); try lia; [done|].
    cbn. destruct Hw' as (_ & -> & _).
    assert (Hns : next_seq base = seq_at base 1).
    { rewrite <- (seq_at_0 base) at 1 by done. by rewrite next_seq_at. }
    rewrite Hns, seq_at_add, Hmi. f_equal. lia.
Qed.

Lemma nak_resend_sender missing : keeps d (on (H := H) (sender_ok N)) (nak_resend missing).
Proof.
  unfold nak_resend. kt; apply upd_arq_sender; intros ? ?;
    [by apply same_noteSuppressedNak..|by apply same_onNaked].
Qed.
Hint Resolve nak_resend_sender : keeps.

Lemma onNak_sender missing : is_byte missing -> keeps d (on (H := H) (sender_ok N)) (onNak missing).
Proof.
  intros Hb. apply moves_keeps. unfold onNak. apply moves_pin. intros l0 Hl0.
  destruct (decide _) as [|Hst]; [by apply pinned_ret|].
  mv (txon (pinned l0)). apply moves_link. intros l (E1 & E2 & E3).
  apply (moves_pre d (txon (pinned l0))); [|by intros l' <-].
  destruct (isPending missing (arq_ (txg l))) eqn:Hp; cbn [negb]; [|by apply pinned_ret].
  mv (txon (pinned l0)).
  pose proof Hl0 as (Hm & n & Hn & Hs & Hw). rewrite E2, Hm, E1. rewrite E1 in Hp.
  destruct (decide (n = 0)) as [->|Hn0].
  { by rewrite (win0_not_pending _ missing Hw) in Hp. }
  eapply (moves_bind _ _ (sender_ok N)); [|intros; apply moves_keeps; kt].
  destruct (gbnActive_ _ && _ && _) eqn:Hc; cbn [when]; [|by apply pinned_ret].
  apply andb_true_iff in Hc as [_ Hi]. apply Z.leb_le in Hi.
  destruct (pending_at n (txg l0) missing) as (j & Hj & H32 & Hac); try done; try lia.
  intros w (F1 & F2 & F3). eapply wpd_mono.
  { apply (nak_walk_ok 34 missing (state l0) j n); try lia; [|by rewrite F1].
    split_and!; rewrite ?F1, ?F2, ?F3; done. }
  intros ? w' [Hw' _]. eapply at_win_sender; [| |exact Hw']; [lia|done].
Qed.

(** ** Sending a chunk *)

(** The table a send registers in: the window is opened at [s] if none is. *)
Definition open_at (s : Z) (a : LinkArq) : LinkArq :=
  if gbnActive_ a then a else a <| gbnBase_ := s |> <| gbnActive_ := true |>.

Lemma onSent_base s b t lap a : gbnBase_ (onSent s b t lap a) = gbnBase_ a.
Proof. done. Qed.

Lemma onSent_active s b t lap a : gbnActive_ (onSent s b t lap a) = gbnActive_ a.
Proof. done. Qed.

Lemma open_at_win n t :
  txw n t -> 0 <= n < 62 ->
  let t' := mkTxG (txSeq t) (txSeqLap_ t) (open_at (txSeq t) (arq_ t)) (arqCache_ t) in
  win (gbnBase_ (arq_ t')) n t' /\ gbnActive_ (arq_ t') = true /\
  (n = 0 -> gbnBase_ (arq_ t') = txSeq t').
Proof.
  intros [Hw Ha] Hn t'. unfold t', open_at. cbn. destruct (gbnActive_ (arq_ t)) eqn:E.
  - split_and!; [by destruct t|done|]. intros ->. done.
  - assert (n = 0) as -> by (symmetry in Ha; apply Z.ltb_ge in Ha; lia).
    split_and!; try done. apply win_rebase with (base' := txSeq t) in Hw; [|apply Hw].
    apply (win_arq_upd _ _ t (fun a => a <| gbnBase_ := txSeq t |> <| gbnActive_ := true |>));
      [done|by destruct Hw as [[]]|done].
Qed.

(** The window a send opens or extends. *)
Lemma open_win n t b bs now lap lap' :
  txw n t -> 0 <= n < 62 -> b <> [] -> lenZ b <= POOL_BUF_MAX -> hasRoom (arqCache_ t) = true ->
  txw (n + 1)
    (mkTxG (next_seq (txSeq t)) lap' (onSent (txSeq t) bs now lap (open_at (txSeq t) (arq_ t)))
       (insert (txSeq t) b (arqCache_ t))).
Proof.
  intros Hw Hn Hb Hl Hr.
  assert (Hst : storable (txSeq t) b (arqCache_ t)) by (apply hasRoom_storable; done).
  destruct (open_at_win n t Hw Hn) as (Hw' & Ha & Hz). cbn [arq_ txSeq] in *.
  split; cbn [arq_]; rewrite ?onSent_base, ?onSent_active.
  - exact (win_open _ n _ b bs now lap _ lap' Hw' Hn Hz Hb Hst eq_refl).
  - rewrite Ha. symmetry. apply Z.ltb_lt. lia.
Qed.

(** A frame that is sent takes the next sequence number. *)
Lemma sendCobsFrame_ok b (w : World H) :
  wpd d (sendCobsFrame b)
    (fun ok w' =>
       (exists lap, txg (lk w') =
          if ok then (txg (lk w)) <| txSeq := next_seq (txSeq (txg (lk w))) |> <| txSeqLap_ := lap |>
          else txg (lk w)) /\
       mode (cfg (lk w')) = mode (cfg (lk w)) /\ state (lk w') = state (lk w)) w.
Proof.
  unfold sendCobsFrame. ws.
  eapply wpd_mono; [apply (frame_wpd (pinned (lk w))); [apply fr_buildAndTxCobsFrame|done]|].
  intros ok w' (E1 & E2 & E3). destruct ok; cbn [negb]; ws.
  2: { split; [|done]. by exists 0. }
  unfold next_seq. destruct (_ =? _); ws; (split; [|done]); cbn; rewrite E1; [by eexists|].
  exists (txSeqLap_ (txg (lk w))). by destruct (txg (lk w)).
Qed.

(** What a send does to the sender, exactly. *)
Lemma sendCobsFrameAcked_exact b bs (w : World H) :
  is_sync (mode (cfg (lk w))) = false -> is_seq (txSeq (txg (lk w))) -> b <> [] ->
  wpd d (sendCobsFrameAcked b bs)
    (fun r w' =>
       mode (cfg (lk w')) = mode (cfg (lk w)) /\ state (lk w') = state (lk w) /\
       if r =? 0xFF then txg (lk w') = txg (lk w)
       else r = txSeq (txg (lk w)) /\ hasRoom (arqCache_ (txg (lk w))) = true /\
            exists now lap lap', txg (lk w') =
              mkTxG (next_seq (txSeq (txg (lk w)))) lap'
                (onSent (txSeq (txg (lk w))) bs now lap (open_at (txSeq (txg (lk w))) (arq_ (txg (lk w)))))
                (insert (txSeq (txg (lk w))) b (arqCache_ (txg (lk w))))) w.
Proof.
  intros Hm Hq Hb. unfold sendCobsFrameAcked. ws.
  assert (Hpos : (lenZ b >? 0) = true) by (apply lenZ_nonnil in Hb; lia). rewrite Hpos. cbn [andb].
  destruct (hasRoom (arqCache_ (txg (lk w)))) eqn:Hr; cbn [negb]; ws; [|done].
  eapply wpd_mono; [apply sendCobsFrame_ok|].
  intros ok w' ((lap & E1) & E2 & E3). destruct ok; cbn [negb]; ws; [|done].
  assert (Hne : (txSeq (txg (lk w)) =? 255) = false) by (unfold is_seq in Hq; lia).
  rewrite E2, Hm, E1. cbn [negb andb].
  change (gbnActive_ (arq_ _)) with (gbnActive_ (arq_ (txg (lk w)))). unfold open_at.
  destruct (gbnActive_ (arq_ (txg (lk w)))); cbn [negb]; ws; rewrite Hne;
    cbn -[onSent insert u8] in *; rewrite E1; (split_and!; [done|done|done|done|]);
    exists (fst (nowMs (hal w'))), lap, lap; reflexivity.
Qed.

(** A chunk that is sent becomes the last of the window; one that is refused
    leaves the window alone. *)
Lemma sendCobsFrameAcked_ok n st b bs (w : World H) :
  txon (at_win n st) (lk w) -> 0 <= n < 62 -> b <> [] -> lenZ b <= POOL_BUF_MAX ->
  wpd d (sendCobsFrameAcked b bs)
    (fun r w' => if r =? 0xFF then txon (at_win n st) (lk w')
                 else r = txSeq (txg (lk w)) /\ txon (at_win (n + 1) st) (lk w')) w.
Proof.
  intros Hw0 Hn Hb Hl. pose proof Hw0 as (Hm & Hs & Hw).
  eapply wpd_mono; [apply sendCobsFrameAcked_exact; [done|apply Hw|done]|].
  intros r w' (E2 & E3 & Hr). unfold txon, at_win. rewrite E2, E3. destruct (r =? 0xFF).
  - by rewrite Hr.
  - destruct Hr as (-> & Hroom & now & lap & lap' & ->). split_and!; try done. by apply open_win.
Qed.

(** ** The handlers *)
(** From here on a handler may be stuck: locking on a zero baud divides by it. *)
Context (Hd : d).

Lemma lockOk_sender i : keeps d (on (H := H) (sender_ok N)) (lockOk i).
Proof. unfold lockOk. kt. by apply keeps_stuck. Qed.
Hint Resolve lockOk_sender : keeps.

Lemma handleSwp_sender c p : keeps d (on (H := H) (sender_ok N)) (handleSwp c p).
Proof.
  unfold handleSwp, masterPong, slavePing, applyMasterSwpAction, applyPongSwpAction, updSweep. kt.
Qed.
Hint Resolve handleSwp_sender : keeps.

Lemma onTimerSwp_sender : keeps d (on (H := H) (sender_ok N)) onTimerSwp.
Proof. unfold onTimerSwp, timer_master_p2, timer_master_p3, updSweep. kt. Qed.
Hint Resolve onTimerSwp_sender : keeps.

Lemma applyHealth_sender now : keeps d (on (H := H) (sender_ok N)) (applyHealth now).
Proof. unfold applyHealth. kt. Qed.
Hint Resolve applyHealth_sender : keeps.

Lemma onTimer_sender : keeps d (on (H := H) (sender_ok N)) onTimer.
Proof. unfold onTimer, onTimerOk, timer_upgrade, timer_break. kt. Qed.

Lemma processCtrlFrame_sender s : keeps d (on (H := H) (sender_ok N)) (processCtrlFrame s).
Proof. unfold processCtrlFrame. kt. Qed.
Hint Resolve processCtrlFrame_sender : keeps.

Lemma feed_sender data : keeps d (on (H := H) (sender_ok N)) (feed data).
Proof.
  apply feed_keeps; cbn.
  - intros f w Hw. exact Hw.
  - intros s b. apply fr_onPayload.
  - intros s n. apply onAck_sender, u8_byte.
  - intros s. apply onNak_sender, u8_byte.
  - unfold onFrameError. kt.
Qed.
Hint Resolve feed_sender : keeps.

Lemma ok_scan_sender fuel data : forall start i nb,
  keeps d (on (H := H) (sender_ok N)) (ok_scan fuel data start i nb).
Proof. induction fuel as [|fuel IH]; intros; cbn [ok_scan]; unfold in_ok; kt; apply IH. Qed.
Hint Resolve ok_scan_sender : keeps.

Lemma rx_loop_sender fuel data : forall i nb,
  keeps d (on (H := H) (sender_ok N)) (rx_loop fuel data i nb).
Proof.
  induction fuel as [|fuel IH]; intros; cbn [rx_loop].
  - apply keeps_if; [by apply keeps_stuck|kt].
  - unfold rx_carry, rx_scan, rx_swp_byte, in_ok. kt; apply IH.
Qed.
Hint Resolve rx_loop_sender : keeps.

Lemma onRx_sender data : keeps d (on (H := H) (sender_ok N)) (onRx data).
Proof. unfold onRx. kt. Qed.

End Handlers.

#[export] Hint Resolve reset_sender changeState_OK_sender err_sender lockOk_sender handleSwp_sender
  onTimerSwp_sender applyHealth_sender processCtrlFrame_sender feed_sender : keeps.

End Sender.
