(* ===== verification/Send.v ===== *)
(** * Sending keeps the window

    The blocking calls of the application task. While they wait they release
    the link's lock; the hypothesis on [yield] is what [Sender] proves of every
    handler that may run then: it keeps the window contiguous and never grows
    it. *)
From S2P Require Import Prelude Monad Crc MsgCodec FrameRx Config Decision ArqCache Arq Hal.
From S2P Require Import LinkState Timing Tx Core Sweep Gbn Rx Timers Api Recv Frames Sender.
Import MsgCodec FrameRx Config Decision ArqCache Arq Hal LinkState Timing Tx Core Sweep Gbn Rx
  Timers Api Recv Frames Sender.

Module Send.

(** What other tasks do to the sender while the lock is released. *)
Definition yields_sender {H} (yield : World H -> World H) : Prop :=
  forall n w, 0 <= n <= 62 -> sender_ok n (lk w) -> sender_ok n (lk (yield w)).

Section Waits.
Context {H : Type} `{IHal H} (d : Prop) (Hd : d) (N : Z) (HN : 0 <= N <= 62).
Context (yield : World H -> World H) (fuel : nat) (Hy : yields_sender yield).

Lemma release_sender : keeps d (on (sender_ok N)) (release yield).
Proof. intros w Hw. by apply Hy. Qed.
Hint Resolve release_sender : keeps.

Lemma drain_loop_sender k need t : keeps d (on (sender_ok N)) (drain_loop yield k need t).
Proof. induction k as [|k IH]; cbn [drain_loop]; [by apply keeps_stuck|kt; apply IH]. Qed.
Hint Resolve drain_loop_sender : keeps.

Lemma drainTxRing_sender : keeps d (on (sender_ok N)) (drainTxRing yield fuel).
Proof. unfold drainTxRing. kt. Qed.

Lemma rate_admit_frame P len : keeps d (on (H := H) (txon P)) (rate_admit len).
Proof. unfold rate_admit, rate_refuse, rate_window, set_reason. kt. by apply keeps_stuck. Qed.

Lemma txQuiet_frame P : keeps d (on (H := H) (txon P)) txQuiet.
Proof. unfold txQuiet. kt. Qed.

Lemma note_tx_frame P n : keeps d (on (H := H) (txon P)) (note_tx n).
Proof. unfold note_tx. kt. Qed.

Lemma refuse_pool_frame P : keeps d (on (H := H) (txon P)) refuse_pool.
Proof. unfold refuse_pool, set_reason. kt. Qed.

Lemma send_finish_frame P r : keeps d (on (H := H) (txon P)) (send_finish r).
Proof. unfold send_finish, set_reason. kt. Qed.

Lemma sender_le n : 0 <= n <= N -> forall l, sender_ok n l -> sender_ok N l.
Proof. intros Hn l (Hm & k & Hk & Hr). split; [done|]. exists k. split; [lia|done]. Qed.

(** In a session, a bound on the window is a window. *)
Lemma sender_at l : sender_ok N l -> state l = OK -> exists n, 0 <= n <= N /\ txon (at_win n OK) l.
Proof. intros (Hm & n & Hn & Hs & Hw) E. exists n. split; [lia|]. by unfold txon, at_win. Qed.

End Waits.

#[export] Hint Resolve release_sender drainTxRing_sender rate_admit_frame txQuiet_frame note_tx_frame
  refuse_pool_frame send_finish_frame : keeps.

(** ** The sends *)

(** Data chunks of [b]. *)
Definition nchunks (b : list Z) : Z := (lenZ b + 249) / 250.

Lemma nchunks_step b :
  b <> [] -> nchunks (drop (Z.to_nat MAX_CHUNK) b) + 1 <= nchunks b /\ 0 <= nchunks b.
Proof.
  intros Hb. apply lenZ_nonnil in Hb. unfold nchunks, lenZ in *. rewrite length_drop.
  unfold MAX_CHUNK. mlia.
Qed.

Lemma chunk_take (b : list Z) :
  b <> [] -> take (Z.to_nat MAX_CHUNK) b <> [] /\
             lenZ (take (Z.to_nat MAX_CHUNK) b) <= POOL_BUF_MAX.
Proof.
  intros Hb. split; [by destruct b|]. unfold lenZ, POOL_BUF_MAX, MAX_CHUNK.
  rewrite length_take. lia.
Qed.

Section Sends.
Context {H : Type} `{IHal H} (d : Prop) (Hd : d) (N : Z) (HN : 0 <= N <= 62).
Context (yield : World H -> World H) (fuel : nat) (Hy : yields_sender yield).

(** Sending one chunk takes one place of the window. *)
Lemma sendCobsFrameAcked_moves n b bs :
  0 <= n < N -> b <> [] -> lenZ b <= POOL_BUF_MAX ->
  moves (H := H) d (fun l => sender_ok n l /\ state l = OK)
    (fun l => sender_ok (n + 1) l) (sendCobsFrameAcked b bs).
Proof.
  intros Hn Hb Hl w [Hw Hs]. destruct (sender_at n _ Hw Hs) as (k & Hk & Hat).
  eapply wpd_mono; [apply (sendCobsFrameAcked_ok d k OK b bs w); try done; lia|].
  intros r w' Hr. cbv beta in Hr. destruct (r =? 255).
  - eapply (at_win_sender (n + 1)); [| |exact Hr]; [lia|done].
  - destruct Hr as [_ Hr]. eapply (at_win_sender (n + 1)); [| |exact Hr]; [lia|done].
Qed.

Lemma moves_sender_le {A} n (J : Link -> Prop) (m : Act H A) :
  0 <= n <= N -> moves d J (sender_ok n) m -> moves d J (sender_ok N) m.
Proof. intros Hn Hm. eapply moves_weaken; [exact Hm|done|]. by apply sender_le. Qed.

Lemma moves_stuck {A} (J K : Link -> Prop) : moves (H := H) d J K (stuck (A := A)).
Proof. intros w _. exact Hd. Qed.

Lemma moves_down {A} n (m : Act H A) :
  0 <= n <= N -> keeps d (on (sender_ok n)) m -> moves d (sender_ok n) (sender_ok N) m.
Proof. intros Hn Hm. by apply (moves_sender_le n). Qed.

Lemma async_chunks_sender bs : forall k n b,
  0 <= n -> n + nchunks b <= N ->
  moves d (sender_ok n) (sender_ok N) (async_chunks yield fuel k b bs).
Proof.
  induction k as [|k IH]; intros n [|x b] Hn Hc; cbn [async_chunks].
  1, 3: apply moves_down; [change (nchunks []) with 0 in Hc; lia|kt].
  { apply moves_stuck. }
  assert (Hb : x :: b <> []) by done. set (bb := x :: b) in *.
  pose proof (nchunks_step bb Hb) as [Hst Hnn]. pose proof (chunk_take bb Hb) as [Ht Htl].
  assert (Hr : 0 <= nchunks (drop (Z.to_nat MAX_CHUNK) bb)).
  { unfold nchunks. pose proof (lenZ_nonneg (drop (Z.to_nat MAX_CHUNK) bb)). mlia. }
  assert (Hn1 : 0 <= n <= N) by lia. assert (Hn2 : 0 <= n + 1 <= N) by lia.
  assert (H62 : 0 <= n + 1 <= 62) by lia. assert (H63 : 0 <= n <= 62) by lia.
  apply moves_link. intros l Hl. destruct (bool_decide (state l = OK)) eqn:Hs; cbn [negb].
  2: { apply (moves_pre d (sender_ok n)); [|by intros ? <-]. apply moves_down; [done|kt]. }
  apply bool_decide_eq_true in Hs.
  destruct (hasRoom (arqCache_ (txg l))); cbn [negb].
  2: { apply (moves_pre d (sender_ok n)); [|by intros ? <-]. apply moves_down; [done|kt]. }
  apply (moves_bind d _ (fun l => sender_ok n l /\ state l = OK)).
  { intros w Ew. subst l. by split. }
  intros avail. destruct (avail <? kWorstCaseCobsFrame).
  - apply (moves_pre d (sender_ok n)); [|by intros ? []].
    apply (moves_bind d _ (sender_ok n)); [apply moves_keeps; kt|intros r].
    destruct (negb (fst r)); [|by apply IH]. apply moves_down; [done|unfold set_reason; kt].
  - apply (moves_bind d _ (sender_ok (n + 1))); [apply sendCobsFrameAcked_moves; [lia|done..]|].
    intros seq. destruct (seq =? 255); [apply moves_down; [done|kt]|].
    apply (moves_bind d _ (sender_ok (n + 1))); [apply moves_keeps; kt|intros _].
    apply moves_link. intros l1 Hl1. apply (moves_pre d (sender_ok (n + 1))); [|by intros ? <-].
    cbv zeta. destruct (_ && _); [|apply IH; lia].
    do 2 (apply (moves_bind d _ (sender_ok (n + 1))); [apply moves_keeps; kt|intros _]).
    apply moves_link. intros l2 Hl2. apply (moves_pre d (sender_ok (n + 1))); [|by intros ? <-].
    destruct (negb _); [apply moves_down; [done|kt]|apply IH; lia].
Qed.

Lemma send_async_single_sender n b :
  0 <= n < N -> b <> [] -> lenZ b + MSG_HDR <= MAX_CHUNK ->
  moves d (fun l => sender_ok n l /\ state l = OK) (sender_ok N) (send_async_single (H := H) b).
Proof.
  intros Hn Hb Hl. unfold send_async_single. assert (0 <= n + 1 <= N) by lia.
  apply (moves_bind d _ (sender_ok (n + 1))).
  { apply sendCobsFrameAcked_moves; [done|by destruct b|].
    unfold hdr_of, POOL_BUF_MAX, MAX_CHUNK, MSG_HDR in *. len. change (lenZ (msgHdrEncode _ _)) with 6. lia. }
  intros seq. destruct (seq =? 255); (apply moves_down; [done|kt]).
Qed.

Lemma send_async_multi_sender n b :
  0 <= n -> n + 1 + nchunks b <= N ->
  moves d (fun l => sender_ok n l /\ state l = OK) (sender_ok N) (send_async_multi yield fuel b).
Proof.
  intros Hn Hl. unfold send_async_multi.
  assert (0 <= nchunks b) by (unfold nchunks; pose proof (lenZ_nonneg b); mlia).
  assert (Hn1 : 0 <= n <= N) by lia. assert (Hn2 : 0 <= n + 1 <= N) by lia.
  assert (Hle : forall l, sender_ok n l -> sender_ok N l) by (apply sender_le; lia).
  apply (moves_bind d _ (fun l => sender_ok n l /\ state l = OK)); [by intros w Hw|].
  intros avail. destruct (avail <? kWorstCaseCobsFrame).
  { apply (moves_pre d (sender_ok n)); [|by intros ? []]. apply moves_down; [done|].
    unfold set_reason. kt. }
  apply moves_link. intros l [Hw Hs]. destruct (freeRoom _ <? _).
  { apply (moves_pre d (sender_ok n)); [|by intros ? <-]. apply moves_down; [done|kt]. }
  apply (moves_bind d _ (sender_ok (n + 1))).
  { apply (moves_pre d (fun l => sender_ok n l /\ state l = OK)); [|by intros ? <-].
    apply sendCobsFrameAcked_moves; [lia|done|]. by vm_compute. }
  intros seq. destruct (seq =? 255); [apply moves_down; [done|unfold set_reason; kt]|].
  apply (moves_bind d _ (sender_ok N)); [apply async_chunks_sender; lia|].
  intros r. apply moves_keeps. kt.
Qed.

(** What the admission establishes. *)
Lemma send_admit_ok b (w : World H) :
  is_sync (mode (cfg (lk w))) = false ->
  wpd d (send_admit b)
    (fun r w' => txon (pinned (lk w)) (lk w') /\
       (r = true -> state (lk w) = OK /\
          inflight (lk w) + chunksForMsgLen (lenZ b) <= window_ (arqCache_ (txg (lk w))))) w.
Proof.
  intros Hm. unfold send_admit. ws.
  destruct (bool_decide (state (lk w) = OK)) eqn:Hs; cbn [negb]; unfold set_reason; ws; [|done].
  apply bool_decide_eq_true in Hs.
  eapply wpd_mono; [apply (frame_wpd d (pinned (lk w))); [apply txQuiet_frame|done]|].
  intros q w1 Hw1. destruct q; ws; [done|]. rewrite Hm. cbn [negb andb].
  destruct (Z.ltb_spec (window_ (arqCache_ (txg (lk w))))
              (pendingCount (arq_ (txg (lk w))) + chunksForMsgLen (lenZ b))) as [|Hle]; ws.
  - eapply wpd_mono; [apply (frame_wpd d (pinned (lk w))); [apply fr_noteTxReject|done]|].
    intros ? w2 Hw2. ws. done.
  - eapply wpd_mono; [apply (frame_wpd d (pinned (lk w))); [by apply rate_admit_frame|done]|].
    intros r w2 Hw2. split; [done|]. intros _. split; [done|]. exact Hle.
Qed.

(** In a session with at most [n] chunks in flight. *)
Definition session_P (n : Z) (t : TxG) (m : Mode) (s : State) : Prop := sender_P n t m s /\ s = OK.

Lemma send_body_sender n b :
  0 <= n -> b <> [] -> n + chunksForMsgLen (lenZ b) <= N ->
  moves d (txon (session_P n)) (sender_ok N) (send_body yield fuel b).
Proof.
  intros Hn Hb Hc. unfold send_body. apply moves_link. intros l [Hl Hs].
  rewrite (proj1 Hl). apply (moves_pre d (fun l => sender_ok n l /\ state l = OK)); [|by intros ? <-].
  pose proof (lenZ_nonnil b Hb) as Hp. unfold chunksForMsgLen in Hc.
  destruct (Z.leb_spec (lenZ b) 0); [lia|].
  destruct (Z.leb_spec (lenZ b + MSG_HDR) MAX_CHUNK).
  - apply (send_async_single_sender n); [lia|done|done].
  - apply (send_async_multi_sender n); [lia|]. unfold nchunks. unfold MAX_CHUNK in Hc.
    replace (lenZ b + 249) with (lenZ b + 250 - 1) by lia. lia.
Qed.

(** [sendMsg] keeps the window: it never registers more chunks than the
    admission leaves room for. *)
Lemma sendMsg_sender b (w : World H) :
  sender_ok N (lk w) -> window_ (arqCache_ (txg (lk w))) <= N ->
  wpd d (sendMsg yield fuel b) (fun _ w' => sender_ok N (lk w')) w.
Proof.
  intros Hw HW. unfold sendMsg, set_reason. ws.
  destruct (Z.eqb_spec (lenZ b) 0) as [|Hb]; ws; [exact Hw|].
  destruct (_ <? lenZ b); ws; [exact Hw|]. destruct (_ || _); ws; [exact Hw|].
  pose proof Hw as (Hm & n & Hn & Hs & Hx).
  eapply wpd_mono; [by apply send_admit_ok|]. intros r w1 [Hp Hr].
  assert (Hw1 : sender_ok N (lk w1)) by (by apply (pinned_sender N _ _ Hw)).
  destruct r; cbn [negb]; ws; [|exact Hw1]. destruct (Hr eq_refl) as [Hok Hfit].
  unfold inflight in Hfit. rewrite (txw_count n) in Hfit; [|lia|done].
  assert (Hne : b <> []) by (by intros ->).
  assert (Hses : txon (session_P n) (lk w1)).
  { destruct Hp as (E1 & E2 & E3). unfold txon. rewrite E1, E2, E3. split; [|done].
    split; [done|]. exists n. split; [lia|done]. }
  eapply wpd_mono; [apply (frame_wpd d (session_P n)); [|exact Hses]; kt|].
  intros ? w2 Hw2. apply wpd_bind. eapply wpd_mono.
  { apply (send_body_sender n b); [lia|done|lia|exact Hw2]. }
  intros rr w3 Hw3. by apply send_finish_frame.
Qed.

(** A message of one chunk is sent whole or not at all. *)
Lemma wpd_loose {A} (m : Act H A) (Q : A -> World H -> Prop) w : (forall a w', Q a w') -> wpd d m Q w.
Proof. intros HQ. unfold wpd. by destruct (m w) as [[]|]. Qed.

Lemma send_async_single_whole b (w : World H) :
  wpd d (send_async_single b) (fun r _ => match r with Refused => True | Done ok _ _ => ok = true end) w.
Proof.
  unfold send_async_single. apply wpd_bind, wpd_loose. intros seq w1.
  destruct (seq =? 255); apply wpd_bind, wpd_loose; intros; by ws.
Qed.

Lemma send_finish_whole r (w : World H) : match r with Refused => True | Done ok _ _ => ok = true end ->
  wpd d (send_finish r) (fun x _ => fst (fst x) = true \/ snd x = None) w.
Proof.
  destruct r as [|ok brk base]; cbn [send_finish]; [intros _; ws; by right|]. intros ->.
  repeat (apply wpd_bind, wpd_loose; intros). ws. by left.
Qed.

Lemma single_never_partial b (w : World H) : is_sync (mode (cfg (lk w))) = false -> lenZ b + MSG_HDR <= MAX_CHUNK ->
  wpd d (sendMsg yield fuel b) (fun r _ => fst (fst r) = true \/ snd r = None) w.
Proof.
  intros Hm Hl. unfold sendMsg, set_reason. ws.
  destruct (lenZ b =? 0); ws; [by left|]. destruct (_ <? lenZ b); ws; [by right|]. destruct (_ || _); ws; [by right|].
  eapply wpd_mono; [by apply send_admit_ok|]. intros r w1 [Hp _]. destruct r; cbn [negb]; ws; [|by right].
  eapply wpd_mono; [apply (frame_wpd d (pinned (lk w))); [|exact Hp]; kt|]. intros ? w2 (_ & E & _).
  apply wpd_bind. eapply (wpd_mono _ _ (fun r _ => match r with Refused => True | Done ok _ _ => ok = true end)).
  - unfold send_body. ws. rewrite E, Hm. replace (lenZ b + MSG_HDR <=? MAX_CHUNK) with true by lia. apply send_async_single_whole.
  - intros r w3. apply send_finish_whole.
Qed.
End Sends.

End Send.
