(* ===== verification/SweepInv.v ===== *)
(** * The sweep invariant, and that no handler is ever stuck

    Under a well-formed configuration of [n] bauds every index the sweep works
    with is one of them: the baud in use, the candidate of phase 3, the two
    remembered bauds. So a lock never divides by a zero baud; with the bounds
    of the ACK and NAK walks and the progress of the byte loop, every event
    handler returns. *)
From S2P Require Import Prelude Monad Crc MsgCodec FrameRx Config Decision BaudSweep ArqCache.
From S2P Require Import Arq Hal LinkState Timing Tx Core Sweep Gbn Rx Timers Frames.
Import MsgCodec FrameRx Config Decision BaudSweep ArqCache Arq Hal LinkState Timing Tx Core Sweep Gbn
  Rx Timers Frames.

Module SweepInv.

(** A baud index, and a remembered one. *)
Definition is_idx (n i : Z) : Prop := 0 <= i < n.
Definition is_pref (n p : Z) : Prop := p = NO_PREFERRED_BAUD \/ is_idx n p.

(** What holds throughout: configuration, memory, hit table, and [K] of the
    carried-over bytes of a partial control frame. *)
Definition swp_W (n : Z) (K : AutoLinkConfig -> list Z -> Prop) (c : AutoLinkConfig) (s : SwpG) (carry : list Z) : Prop :=
  cfg_ok c /\ allowedBaudsCount c = n /\ is_pref n (preferredBaud_ s) /\
  is_pref n (bestProvenBaud_ s) /\ numBauds_ (baudSweep s) = n /\ K c carry.

(** The candidate of phase 3. *)
Definition swp_S (n : Z) (K : AutoLinkConfig -> list Z -> Prop) (c : AutoLinkConfig) (s : SwpG) (carry : list Z) : Prop :=
  swp_W n K c s carry /\ (phase_ (sweep_ s) = PHASE3 -> is_idx n (phase3Baud_ (sweep_ s))).

(** Between handlers. *)
Definition swp_P (n : Z) (K : AutoLinkConfig -> list Z -> Prop) (c : AutoLinkConfig) (s : SwpG) (carry : list Z) : Prop :=
  swp_S n K c s carry /\ is_idx n (spdI s).

Definition swpon (P : AutoLinkConfig -> SwpG -> list Z -> Prop) : Link -> Prop :=
  fun l => P (cfg l) (swp l) (okCarry_ (rxg l)).
Abbreviation sweep_ok n K := (swpon (swp_P n K)).

Section Inv.
Context {H : Type} `{IHal H} (d : Prop) (n : Z) (K : AutoLinkConfig -> list Z -> Prop) (HK : forall c k, K c k -> K c []).

Lemma swp_n c s k : swp_W n K c s k -> 1 <= n <= 16.
Proof. intros (Hc & <- & _). apply (cfg_count _ Hc). Qed.

(** ** Clamping is the identity *)

Definition reads_W (P : AutoLinkConfig -> SwpG -> list Z -> Prop) : Prop :=
  forall c s k, P c s k -> swp_W n K c s k.

Lemma wpd_clamp (Q : Z -> World H -> Prop) w :
  swpon (swp_W n K) (lk w) -> Q n w -> wpd d clampBauds Q w.
Proof.
  intros (Hc & Hn & _) HQ. unfold clampBauds. ws. rewrite clamp_id by done. ws. rewrite Hn.
  destruct w as [[] ?]. exact HQ.
Qed.

Lemma moves_clamp {B} P R (f : Z -> Act H B) :
  reads_W P -> moves d (swpon P) R (f n) -> moves d (swpon P) R (bind clampBauds f).
Proof.
  intros HP Hf w Hw. apply wpd_bind, wpd_clamp; [exact (HP _ _ _ Hw)|by apply Hf].
Qed.

End Inv.

(** ** Methods that leave the sweep alone *)

Section SwpFrames.
Context {H : Type} `{IHal H} (d : Prop) (P : AutoLinkConfig -> SwpG -> list Z -> Prop).

Lemma sw_hw_tx b : keeps d (on (H := H) (swpon P)) (hw_tx b).
Proof. unfold hw_tx. kt. Qed.
Hint Resolve sw_hw_tx : keeps.
Lemma sw_noteTxReject : keeps d (on (H := H) (swpon P)) (noteTxReject).
Proof. unfold noteTxReject. kt. Qed.
Hint Resolve sw_noteTxReject : keeps.
Lemma sw_noteValidFrameOk : keeps d (on (H := H) (swpon P)) (noteValidFrameOk).
Proof. unfold noteValidFrameOk. kt. Qed.
Hint Resolve sw_noteValidFrameOk : keeps.
Lemma sw_sendSweepFrame b : keeps d (on (H := H) (swpon P)) (sendSweepFrame b).
Proof. unfold sendSweepFrame. kt. Qed.
Hint Resolve sw_sendSweepFrame : keeps.
Lemma sw_sendPongAck : keeps d (on (H := H) (swpon P)) (sendPongAck).
Proof. unfold sendPongAck. kt. Qed.
Hint Resolve sw_sendPongAck : keeps.
Lemma sw_buildAndTxCobsFrame s b : keeps d (on (H := H) (swpon P)) (buildAndTxCobsFrame s b).
Proof. unfold buildAndTxCobsFrame. kt. Qed.
Hint Resolve sw_buildAndTxCobsFrame : keeps.
Lemma sw_resendCobsFrame s b : keeps d (on (H := H) (swpon P)) (resendCobsFrame s b).
Proof. unfold resendCobsFrame. kt. Qed.
Hint Resolve sw_resendCobsFrame : keeps.
Lemma sw_txSmallCobs b : keeps d (on (H := H) (swpon P)) (txSmallCobs b).
Proof. unfold txSmallCobs. kt. Qed.
Hint Resolve sw_txSmallCobs : keeps.
Lemma sw_sendCtrlCobsFrame a b : keeps d (on (H := H) (swpon P)) (sendCtrlCobsFrame a b).
Proof. unfold sendCtrlCobsFrame. kt. Qed.
Hint Resolve sw_sendCtrlCobsFrame : keeps.
Lemma sw_sendAckFrame a b : keeps d (on (H := H) (swpon P)) (sendAckFrame a b).
Proof. unfold sendAckFrame. kt. Qed.
Hint Resolve sw_sendAckFrame : keeps.
Lemma sw_sendNakFrame a : keeps d (on (H := H) (swpon P)) (sendNakFrame a).
Proof. unfold sendNakFrame. kt. Qed.
Hint Resolve sw_sendNakFrame : keeps.
Lemma sw_setSpdIdx i : keeps d (on (H := H) (swpon P)) (setSpdIdx i).
Proof. unfold setSpdIdx. kt. Qed.
Hint Resolve sw_setSpdIdx : keeps.
Lemma sw_phase1ArmMs : keeps d (on (H := H) (swpon P)) (phase1ArmMs).
Proof. unfold phase1ArmMs. kt. Qed.
Hint Resolve sw_phase1ArmMs : keeps.
Lemma sw_count_cause c : keeps d (on (H := H) (swpon P)) (count_cause c).
Proof. unfold count_cause. kt. Qed.
Hint Resolve sw_count_cause : keeps.
Lemma sw_camp_open : keeps d (on (H := H) (swpon P)) (camp_open).
Proof. unfold camp_open. kt. Qed.
Hint Resolve sw_camp_open : keeps.
Lemma sw_changeState s : keeps d (on (H := H) (swpon P)) (changeState s).
Proof. unfold changeState. kt. Qed.
Hint Resolve sw_changeState : keeps.
Lemma sw_resetSeq : keeps d (on (H := H) (swpon P)) (resetSeq).
Proof. unfold resetSeq. kt. Qed.
Hint Resolve sw_resetSeq : keeps.
Lemma sw_reset_session : keeps d (on (H := H) (swpon P)) (reset_session).
Proof. unfold reset_session. kt. Qed.
Hint Resolve sw_reset_session : keeps.
Lemma sw_retxSeq s : keeps d (on (H := H) (swpon P)) (retxSeq s).
Proof. unfold retxSeq. kt. Qed.
Hint Resolve sw_retxSeq : keeps.
Lemma sw_sweep_clock n : keeps d (on (H := H) (swpon P)) (sweep_clock n).
Proof. unfold sweep_clock. kt. Qed.
Hint Resolve sw_sweep_clock : keeps.
Lemma sw_payload_stale a b c : keeps d (on (H := H) (swpon P)) (payload_stale a b c).
Proof. unfold payload_stale. kt. Qed.
Hint Resolve sw_payload_stale : keeps.
Lemma sw_payload_gap_sync a b c : keeps d (on (H := H) (swpon P)) (payload_gap_sync a b c).
Proof. unfold payload_gap_sync. kt. Qed.
Hint Resolve sw_payload_gap_sync : keeps.
Lemma sw_payload_gap_async : keeps d (on (H := H) (swpon P)) (payload_gap_async).
Proof. unfold payload_gap_async. kt. Qed.
Hint Resolve sw_payload_gap_async : keeps.
Lemma sw_payload_hold a : keeps d (on (H := H) (swpon P)) (payload_hold a).
Proof. unfold payload_hold. kt. Qed.
Hint Resolve sw_payload_hold : keeps.
Lemma sw_clear_errs : keeps d (on (H := H) (swpon P)) (clear_errs).
Proof. unfold clear_errs. kt. Qed.
Hint Resolve sw_clear_errs : keeps.
Lemma sw_advance_rxSeq a : keeps d (on (H := H) (swpon P)) (advance_rxSeq a).
Proof. unfold advance_rxSeq. kt. Qed.
Hint Resolve sw_advance_rxSeq : keeps.
Lemma sw_payload_forward a b : keeps d (on (H := H) (swpon P)) (payload_forward a b).
Proof. unfold payload_forward. kt. Qed.
Hint Resolve sw_payload_forward : keeps.
Lemma sw_onPayload a b : keeps d (on (H := H) (swpon P)) (onPayload a b).
Proof. unfold onPayload. kt. Qed.
Hint Resolve sw_onPayload : keeps.
Lemma sw_peer_response : keeps d (on (H := H) (swpon P)) (peer_response).
Proof. unfold peer_response. kt. Qed.
Hint Resolve sw_peer_response : keeps.
Lemma sw_forget_nak a : keeps d (on (H := H) (swpon P)) (forget_nak a).
Proof. unfold forget_nak. kt. Qed.
Hint Resolve sw_forget_nak : keeps.
Lemma sw_wire_aggregate n : keeps d (on (H := H) (swpon P)) (wire_aggregate n).
Proof. unfold wire_aggregate. kt. Qed.
Hint Resolve sw_wire_aggregate : keeps.
Lemma sw_timer_idle n : keeps d (on (H := H) (swpon P)) (timer_idle n).
Proof. unfold timer_idle. kt. Qed.
Hint Resolve sw_timer_idle : keeps.
Lemma sw_break_suspect n : keeps d (on (H := H) (swpon P)) (break_suspect n).
Proof. unfold break_suspect. kt. Qed.
Hint Resolve sw_break_suspect : keeps.
Lemma sw_onBreak : keeps d (on (H := H) (swpon P)) (onBreak).
Proof. unfold onBreak. kt. Qed.
Hint Resolve sw_onBreak : keeps.
Lemma sw_onBreakStorm : keeps d (on (H := H) (swpon P)) (onBreakStorm).
Proof. unfold onBreakStorm. kt. Qed.
Hint Resolve sw_onBreakStorm : keeps.

Lemma sw_resend_loop k s now : keeps d (on (H := H) (swpon P)) (resend_loop k s now).
Proof. revert s. induction k as [|k IH]; intros s; cbn [resend_loop]; kt. Qed.
Hint Resolve sw_resend_loop : keeps.
Lemma sw_gbnResendWindow now : keeps d (on (H := H) (swpon P)) (gbnResendWindow now).
Proof. unfold gbnResendWindow. kt. Qed.
Hint Resolve sw_gbnResendWindow : keeps.
Lemma sw_gbnRetxBaseAndRearm now : keeps d (on (H := H) (swpon P)) (gbnRetxBaseAndRearm now).
Proof. unfold gbnRetxBaseAndRearm. kt. Qed.
Hint Resolve sw_gbnRetxBaseAndRearm : keeps.

(** The walks stop within the fuel their callers give them. *)
Lemma sw_ack_walk fuel a b : forall s freed,
  freed <= 32 < freed + Z.of_nat fuel ->
  keeps d (on (H := H) (swpon P)) (ack_walk fuel a b s freed).
Proof.
  induction fuel as [|fuel IH]; intros s freed Hf; [lia|]. cbn [ack_walk].
  unfold AUTOLINK_ARQ_PIPELINE_WINDOW. cbv zeta.
  destruct (Z.ltb_spec 32 (freed + 1)); kt. apply IH. lia.
Qed.

Lemma sw_nak_walk fuel m : forall freed,
  freed <= 32 < freed + Z.of_nat fuel ->
  keeps d (on (H := H) (swpon P)) (nak_walk fuel m freed).
Proof.
  induction fuel as [|fuel IH]; intros freed Hf; [lia|]. cbn [nak_walk].
  unfold AUTOLINK_ARQ_PIPELINE_WINDOW. apply keeps_link. intros l Hl. cbv zeta.
  destruct (Z.ltb_spec 32 (freed + 1)); kt. apply IH. lia.
Qed.

Lemma sw_ack_window a b : keeps d (on (H := H) (swpon P)) (ack_window a b).
Proof. unfold ack_window. kt. apply sw_ack_walk. lia. Qed.
Hint Resolve sw_ack_window : keeps.
Lemma sw_onAck a b : keeps d (on (H := H) (swpon P)) (onAck a b).
Proof. unfold onAck. kt. Qed.
Lemma sw_nak_resend m : keeps d (on (H := H) (swpon P)) (nak_resend m).
Proof. unfold nak_resend. kt. Qed.
Hint Resolve sw_nak_resend : keeps.
Lemma sw_onNak m : keeps d (on (H := H) (swpon P)) (onNak m).
Proof. unfold onNak. kt. apply sw_nak_walk. lia. Qed.

End SwpFrames.

#[export] Hint Resolve sw_hw_tx sw_noteTxReject sw_noteValidFrameOk sw_sendSweepFrame
  sw_sendPongAck sw_buildAndTxCobsFrame sw_resendCobsFrame sw_txSmallCobs sw_sendCtrlCobsFrame
  sw_sendAckFrame sw_sendNakFrame sw_setSpdIdx sw_phase1ArmMs sw_count_cause sw_camp_open
  sw_changeState sw_resetSeq sw_reset_session sw_retxSeq sw_sweep_clock sw_payload_stale
  sw_payload_gap_sync sw_payload_gap_async sw_payload_hold sw_clear_errs sw_advance_rxSeq
  sw_payload_forward sw_onPayload sw_peer_response sw_forget_nak sw_wire_aggregate sw_timer_idle
  sw_break_suspect sw_onBreak sw_onBreakStorm   sw_resend_loop sw_gbnResendWindow
  sw_gbnRetxBaseAndRearm  sw_ack_window sw_onAck sw_nak_resend sw_onNak : keeps.

(** ** The phases *)

Section Phases.
Context {H : Type} `{IHal H} (d : Prop) (n : Z) (K : AutoLinkConfig -> list Z -> Prop) (HK : forall c k, K c k -> K c []).

Lemma P_S : forall l, swpon (swp_P n K) l -> swpon (swp_S n K) l.
Proof. by intros l []. Qed.
Lemma S_W : forall l, swpon (swp_S n K) l -> swpon (swp_W n K) l.
Proof. by intros l []. Qed.
Lemma P_W : forall l, swpon (swp_P n K) l -> swpon (swp_W n K) l.
Proof. by intros l [[]]. Qed.

Lemma keeps_clamp {B} P (f : Z -> Act H B) :
  reads_W n K P -> keeps d (on (swpon P)) (f n) -> keeps d (on (swpon P)) (bind clampBauds f).
Proof. intros HP Hf. apply moves_keeps. by apply (moves_clamp d n K). Qed.

Lemma reads_P : reads_W n K (swp_P n K).
Proof. by intros c s k [[]]. Qed.
Lemma reads_S : reads_W n K (swp_S n K).
Proof. by intros c s k []. Qed.
Lemma reads_WW : reads_W n K (swp_W n K).
Proof. by intros c s k. Qed.
Hint Resolve reads_P reads_S reads_WW : keeps.

(** What the context counts is the number of bauds. *)
Lemma ctx_count l : swpon (swp_W n K) l -> ctx_allowedBaudsCount l = n.
Proof.
  intros (Hc & <- & _). pose proof (cfg_count _ Hc) as Hr. unfold ctx_allowedBaudsCount.
  unfold AUTOLINK_MAX_BAUDS in *. 
  replace (allowedBaudsCount (cfg l) <? 0) with false by lia.
  by replace (allowedBaudsCount (cfg l) >? 16) with false by lia.
Qed.

(** A chain of steps that keep [R]. *)
Ltac mvs R := repeat (eapply (moves_bind _ _ R); [apply moves_keeps; solve [kt]|intros ?]).

Lemma enterPhase1_W : moves (H := H) d (swpon (swp_W n K)) (swpon (swp_P n K)) enterPhase1.
Proof.
  unfold enterPhase1, updSweep. eapply (moves_bind _ _ (swpon (swp_S n K))).
  { apply moves_upd. intros l Hl. split; [exact Hl|done]. }
  intros _. mvs (swpon (swp_S n K)). apply moves_link. intros l Hl.
  rewrite ctx_count by (by apply S_W). pose proof (swp_n n K _ _ _ (proj1 Hl)) as Hn.
  eapply (moves_bind _ _ (swpon (swp_P n K))).
  { apply moves_upd. intros l' <-. split; [exact Hl|]. cbn. unfold is_idx. lia. }
  intros _. apply moves_keeps. kt.
Qed.

Lemma enterPhase1_sweep : keeps d (on (H := H) (sweep_ok n K)) enterPhase1.
Proof. apply moves_keeps. eapply moves_pre; [apply enterPhase1_W|apply P_W]. Qed.
Hint Resolve enterPhase1_sweep : keeps.

Lemma enterPhase2_sweep : keeps d (on (H := H) (sweep_ok n K)) enterPhase2.
Proof.
  apply moves_keeps. unfold enterPhase2, updSweep. eapply (moves_bind _ _ (swpon (swp_S n K))).
  { apply moves_upd. intros l Hl. split; [exact (P_W _ Hl)|done]. }
  intros _. eapply (moves_bind _ _ (swpon (swp_P n K))).
  { apply moves_upd. intros l Hl. split; [exact Hl|]. pose proof (swp_n n K _ _ _ (proj1 Hl)).
    cbn. unfold is_idx. lia. }
  intros _. apply moves_keeps. kt.
Qed.
Hint Resolve enterPhase2_sweep : keeps.

Lemma enterPhase3_sweep i : is_idx n i -> keeps d (on (H := H) (sweep_ok n K)) (enterPhase3 i).
Proof.
  intros Hi. unfold enterPhase3, updSweep. kt. apply keeps_upd.
  intros l Hl. split; [split; [exact (P_W _ Hl)|done]|apply Hl].
Qed.

(** Back to the slowest baud. *)
Lemma set_spd_W i : is_idx n i ->
  moves (H := H) d (swpon (swp_S n K)) (swpon (swp_P n K)) (SET swp spdI := i).
Proof. intros Hi. apply moves_upd. intros l Hl. split; [exact Hl|exact Hi]. Qed.

Lemma tune_sweep i : is_idx n i -> moves (H := H) d (swpon (swp_S n K)) (swpon (swp_P n K)) (tune i).
Proof.
  intros Hi. unfold tune. eapply (moves_bind _ _ (swpon (swp_S n K))); [apply moves_keeps; kt|].
  intros _. by apply set_spd_W.
Qed.

Lemma sweep_reset_W :
  moves (H := H) d (swpon (swp_W n K)) (swpon (swp_S n K)) (updSweep sweep_reset).
Proof. apply moves_upd. intros l Hl. split; [exact Hl|done]. Qed.

Lemma sweep_reset_P : keeps d (on (H := H) (sweep_ok n K)) (updSweep sweep_reset).
Proof.
  apply keeps_upd. intros l Hl. split; [split; [exact (P_W _ Hl)|done]|apply Hl].
Qed.
Hint Resolve sweep_reset_P : keeps.

(** ** Reset and lock *)

(** An assignment proved field by field. *)
Ltac sp_upd :=
  apply keeps_upd; intros ? (((?Hc & ?Hn & ?Hp & ?Hb & ?Hs & ?Hk) & ?Hph) & ?Hi);
  split; [split; [split_and!; try done; try (by eapply HK)|try done]|try done].

Lemma reset_count_sweep r : keeps d (on (H := H) (sweep_ok n K)) (reset_count r).
Proof. unfold reset_count. kt. Qed.
Hint Resolve reset_count_sweep : keeps.

Lemma reset_pref_sweep p r : keeps d (on (H := H) (sweep_ok n K)) (reset_pref p r).
Proof. unfold reset_pref. kt; sp_upd; by left. Qed.
Hint Resolve reset_pref_sweep : keeps.

Lemma reset_common_sweep : keeps d (on (H := H) (sweep_ok n K)) reset_common.
Proof. unfold reset_common. kt. sp_upd. Qed.
Hint Resolve reset_common_sweep : keeps.

Lemma lock_clocks_sweep : keeps d (on (H := H) (sweep_ok n K)) lock_clocks.
Proof. unfold lock_clocks. kt. Qed.
Hint Resolve lock_clocks_sweep : keeps.

(** The relock test ensures a remembered baud. *)
Lemma reset_relock_ok p (w : World H) :
  sweep_ok n K (lk w) ->
  wpd d (reset_relock p)
    (fun r w' => sweep_ok n K (lk w') /\ (r = true -> is_idx n (preferredBaud_ (swp (lk w'))))) w.
Proof.
  intros Hw. unfold reset_relock. ws. destruct (_ && _) eqn:E; ws; [|done].
  apply (wpd_clamp d n K); [by apply P_W|]. ws. split; [done|]. intros _. bool_prop.
  destruct Hw as (((Hc & Hn & [Hp|Hp] & _) & _) & _); [congruence|exact Hp].
Qed.

Lemma reset_sweep_sweep p : keeps d (on (H := H) (sweep_ok n K)) (reset_sweep p).
Proof.
  intros w Hw. unfold reset_sweep. ws. eapply wpd_mono; [by apply reset_relock_ok|].
  intros r w1 [Hw1 Hr]. destruct r; ws.
  - specialize (Hr eq_refl). set (i := preferredBaud_ (swp (lk w1))) in *.
    eapply wpd_mono; [apply (enterPhase3_sweep i Hr)|].
    { split; [exact (P_S _ Hw1)|exact Hr]. }
    intros ? w2 Hw2. ws. exact Hw2.
  - eapply wpd_mono; [by apply enterPhase1_sweep|]. intros ? w2 Hw2. ws. exact Hw2.
Qed.
Hint Resolve reset_sweep_sweep : keeps.

Lemma reset_sweep_ok c p r : keeps d (on (H := H) (sweep_ok n K)) (reset c p r).
Proof.
  unfold reset. kt. sp_upd. unfold is_idx in *. cbn. lia.
Qed.
Hint Resolve reset_sweep_ok : keeps.

Lemma err_sweep c : keeps d (on (H := H) (sweep_ok n K)) (err_ c).
Proof. unfold err_. kt. Qed.
Hint Resolve err_sweep : keeps.

Lemma lock_baud_sweep i : is_idx n i ->
  moves (H := H) d (swpon (swp_S n K)) (swpon (swp_P n K)) (lock_baud i).
Proof.
  intros Hi. unfold lock_baud. eapply (moves_bind _ _ (swpon (swp_P n K))); [by apply set_spd_W|].
  intros _. apply moves_keeps.
  assert (Hu : n <= 16 -> is_idx n (u8 i)).
  { intros H16. unfold is_idx in *. rewrite u8_small; [done|]. red. lia. }
  kt; sp_upd; (right; apply Hu; pose proof (cfg_count _ Hc); unfold AUTOLINK_MAX_BAUDS in *; lia).
Qed.

Lemma lockOk_sweep i : is_idx n i ->
  moves (H := H) d (swpon (swp_P n K)) (swpon (swp_P n K)) (lockOk i).
Proof.
  intros Hi. unfold lockOk. apply moves_link. intros l Hl.
  apply (moves_pre d (sweep_ok n K)); [|by intros ? <-].
  destruct (decide _); [apply moves_keeps; kt|].
  eapply (moves_bind _ _ (sweep_ok n K)); [apply moves_keeps; kt|intros _].
  eapply (moves_bind _ _ (sweep_ok n K)).
  { eapply moves_pre; [by apply lock_baud_sweep|apply P_S]. }
  intros _. eapply (moves_bind _ _ (sweep_ok n K)); [apply moves_keeps; kt|intros _].
  destruct (Z.eqb_spec (allowedBaudSafe (cfg l) i) 0) as [E|].
  - exfalso. destruct Hl as (((Hc & Hn & _) & _) & _). subst n.
    pose proof (allowedBaudSafe_ok (cfg l) i Hc Hi). lia.
  - apply moves_keeps. kt.
Qed.

(** ** The handshake *)

Lemma tune_keeps i : is_idx n i -> keeps d (on (H := H) (sweep_ok n K)) (tune i).
Proof. intros Hi. apply moves_keeps. eapply moves_pre; [by apply tune_sweep|apply P_S]. Qed.
Lemma lockOk_keeps i : is_idx n i -> keeps d (on (H := H) (sweep_ok n K)) (lockOk i).
Proof. intros Hi. apply moves_keeps. by apply lockOk_sweep. Qed.
Hint Resolve tune_keeps lockOk_keeps enterPhase3_sweep : keeps.

Lemma spdI_enterPhase3 (m : Act H bool) :
  keeps d (on (sweep_ok n K)) m ->
  keeps d (on (H := H) (sweep_ok n K)) (i <- GET swp spdI;; enterPhase3 i;; m).
Proof.
  intros Hm w Hw. ws. eapply wpd_mono; [apply (enterPhase3_sweep (spdI (swp (lk w))))|].
  - apply Hw.
  - exact Hw.
  - intros ? w' Hw'. by apply Hm.
Qed.

Definition lock_ready (a : SwpPhaseAction) (l : Link) : Prop :=
  sweep_ok n K l /\ (a = Lock -> is_idx n (phase3Baud_ (sweep_ (swp l)))).

Lemma applyMaster_sweep a :
  moves (H := H) d (lock_ready a) (sweep_ok n K) (applyMasterSwpAction a).
Proof.
  destruct a; cbn [applyMasterSwpAction];
    try (apply (moves_pre d (sweep_ok n K)); [apply moves_keeps; solve [kt]|by intros l []]).
  - apply (moves_pre d (sweep_ok n K)); [|by intros l []]. apply spdI_enterPhase3. kt.
  - apply moves_link. intros l [Hl Hi]. apply (moves_pre d (sweep_ok n K)); [|by intros ? <-].
    specialize (Hi eq_refl). apply moves_keeps. kt.
Qed.

Lemma applyPong_sweep a :
  moves (H := H) d (lock_ready a) (sweep_ok n K) (applyPongSwpAction a).
Proof.
  destruct a; cbn [applyPongSwpAction];
    try (apply (moves_pre d (sweep_ok n K)); [apply moves_keeps; solve [kt]|by intros l []]).
  - apply (moves_pre d (sweep_ok n K)); [|by intros l []]. apply spdI_enterPhase3. kt.
  - apply moves_link. intros l [Hl Hi]. apply (moves_pre d (sweep_ok n K)); [|by intros ? <-].
    specialize (Hi eq_refl). apply moves_keeps. kt.
Qed.

Lemma incPhase3_sweep : moves (H := H) d
  (fun l => sweep_ok n K l /\ phase_ (sweep_ (swp l)) = PHASE3)
  (fun l => sweep_ok n K l /\ is_idx n (phase3Baud_ (sweep_ (swp l)))) (updSweep incPhase3Acks).
Proof.
  apply moves_upd. intros l [Hl Hp]. split; [exact Hl|]. destruct Hl as [[_ Hph] _]. by apply Hph.
Qed.

Lemma masterPong_sweep : keeps d (on (H := H) (sweep_ok n K)) masterPong.
Proof.
  unfold masterPong. apply keeps_bind; [kt|intros _]. apply moves_link. intros l Hl.
  destruct (phase_ (sweep_ (swp l))) eqn:Hp.
  - apply (moves_pre d (sweep_ok n K)); [apply moves_keeps; kt|by intros ? <-].
  - eapply moves_pre; [apply applyMaster_sweep|]. intros ? <-. by split.
  - eapply moves_pre; [apply applyMaster_sweep|]. intros ? <-. by split.
  - eapply moves_bind.
    { eapply moves_pre; [apply incPhase3_sweep|]. intros ? <-. by split. }
    intros _. eapply moves_pre; [apply applyMaster_sweep|]. intros l' [? ?]. by split.
Qed.

Lemma slavePing_sweep : keeps d (on (H := H) (sweep_ok n K)) slavePing.
Proof.
  unfold slavePing. apply moves_link. intros l Hl.
  apply (moves_bind d _ (fun l' => sweep_ok n K l' /\ sweep_ (swp l') = sweep_ (swp l))).
  { apply moves_upd. intros ? <-. split; [|done].
    destruct Hl as (((Hc & Hn & Hp & Hb & Hs & Hk) & Hph) & Hi).
    split; [split; [split_and!; try done|done]|done]. cbn. rewrite <- Hs. unfold score.
    by case_match. }
  intros _. destruct (phase_ (sweep_ (swp l))) eqn:Hp.
  - apply (moves_pre d (sweep_ok n K)); [apply moves_keeps; kt|by intros ? []].
  - eapply moves_pre; [apply applyPong_sweep|]. intros ? []. by split.
  - eapply moves_pre; [apply applyPong_sweep|]. intros ? []. by split.
  - eapply moves_bind.
    { eapply moves_pre; [apply incPhase3_sweep|]. intros ? [? E]. split; [done|by rewrite E]. }
    intros _. eapply moves_pre; [apply applyPong_sweep|]. intros l' [? ?]. by split.
Qed.
Hint Resolve masterPong_sweep slavePing_sweep : keeps.

Lemma first_scored_range k : forall j best s,
  0 <= j -> j + Z.of_nat k <= best -> 0 <= first_scored k j best s <= best.
Proof.
  induction k as [|k IH]; intros j best s Hj Hk; cbn [first_scored]; [lia|].
  destruct (_ <? _); [lia|]. apply IH; lia.
Qed.

Lemma bestSpd_range l : sweep_ok n K l -> is_idx n (bestSpd l).
Proof.
  intros (((Hc & Hn & _ & _ & Hs & _) & _) & _). pose proof (cfg_count _ Hc) as Hr. unfold bestSpd.
  pose proof (pickBest_range (baudSweep (swp l))) as Hp. rewrite Hs in Hp.
  destruct (Z.ltb_spec (pickBest (baudSweep (swp l))) 0); [unfold is_idx; lia|].
  pose proof (first_scored_range (Z.to_nat (pickBest (baudSweep (swp l)))) 0
                (pickBest (baudSweep (swp l))) (baudSweep (swp l))) as Hf.
  unfold is_idx. lia.
Qed.

Lemma latch_epoch_sweep c : keeps d (on (H := H) (sweep_ok n K)) (latch_epoch c).
Proof. unfold latch_epoch. kt. Qed.
Hint Resolve latch_epoch_sweep : keeps.

Lemma lock_payload_range p i : isLockPayload p n = Some i -> is_idx n i.
Proof.
  unfold isLockPayload, is_idx. destruct (Z.ltb_spec p 68); [done|].
  destruct (Z.leb_spec n (p - 68)); [done|]. intros [= <-]. lia.
Qed.

Lemma handleSwp_sweep c p : keeps d (on (H := H) (sweep_ok n K)) (handleSwp c p).
Proof.
  unfold handleSwp. apply keeps_bind; [kt|intros _]. apply keeps_clamp; [apply reads_P|].
  apply keeps_link. intros l Hl. destruct (isLockPayload p n) eqn:E.
  - apply lock_payload_range in E. kt.
  - pose proof (bestSpd_range l Hl). kt.
Qed.
Hint Resolve handleSwp_sweep : keeps.

(** ** The sweep timer *)

Lemma timer_master_p1_sweep : keeps d (on (H := H) (sweep_ok n K)) timer_master_p1.
Proof. unfold timer_master_p1. kt. Qed.

(** The slowest baud. *)
Lemma slowest_idx l : sweep_ok n K l -> is_idx n (n - 1).
Proof. intros Hl. pose proof (swp_n n K _ _ _ (P_W _ Hl)). unfold is_idx. lia. Qed.

(** Past the fastest baud but before a fallback the index is checked, not used. *)
Lemma fallback_denied_S : moves (H := H) d (swpon (swp_S n K)) (sweep_ok n K) fallback_denied.
Proof.
  unfold fallback_denied. apply (moves_clamp d n K); [apply reads_S|]. intros w Hw.
  assert (Hi : is_idx n (n - 1)).
  { pose proof (swp_n n K _ _ _ (S_W _ Hw)). unfold is_idx. lia. }
  revert w Hw. change (moves d (swpon (swp_S n K)) (sweep_ok n K)
    (SET swp spdI := n - 1;; setSpdIdx (n - 1);; enterPhase1)).
  eapply moves_bind; [by apply set_spd_W|]. intros _. apply moves_keeps. kt.
Qed.

Lemma lock_slowest_S (m : Act H unit) : is_idx n (n - 1) ->
  keeps d (on (sweep_ok n K)) m ->
  moves d (swpon (swp_S n K)) (sweep_ok n K) (updSweep sweep_reset;; tune (n - 1);; m;; lockOk (n - 1)).
Proof.
  intros Hi Hm. apply (moves_bind d _ (swpon (swp_S n K))).
  { eapply moves_pre; [apply sweep_reset_W|apply S_W]. }
  intros _. apply (moves_bind d _ (sweep_ok n K)); [by apply tune_sweep|intros _].
  apply moves_keeps. kt.
Qed.

Lemma timer_master_p2_sweep : keeps d (on (H := H) (sweep_ok n K)) timer_master_p2.
Proof.
  unfold timer_master_p2. apply keeps_link. intros l Hl. cbv zeta.
  apply keeps_bind; [apply keeps_upd; intros l' Hl'; exact Hl'|intros _].
  pose proof (slowest_idx l Hl) as Hi. destruct (_ <? _); [kt|].
  apply keeps_bind; [apply keeps_upd; intros l' Hl'; exact Hl'|intros _].
  apply moves_keeps.
  apply (moves_bind d _ (fun l => swpon (swp_S n K) l /\ 0 <= spdI (swp l) <= n)).
  { apply moves_upd. intros l' [Hl' Hx]. split; [exact Hl'|]. cbn. unfold is_idx in Hx. lia. }
  intros _ w [Hw Hx]. apply wpd_bind, (wpd_clamp d n K); [by apply S_W|]. ws.
  unfold decideMasterPhase2Timeout. destruct (Z.leb_spec n (spdI (swp (lk w)) + 1)).
  - apply wpd_bind, (wpd_clamp d n K); [by apply S_W|]. ws. destruct (_ <? 1).
    + by apply fallback_denied_S.
    + apply lock_slowest_S; [done|kt|done].
  - assert (Hw' : sweep_ok n K (lk w)) by (split; [done|unfold is_idx; lia]).
    match goal with |- wpd _ ?m _ _ => enough (Hk : keeps d (on (sweep_ok n K)) m) by exact (Hk w Hw') end.
    kt.
Qed.

Lemma timer_master_camp_sweep : keeps d (on (H := H) (sweep_ok n K)) timer_master_camp.
Proof.
  unfold timer_master_camp. apply keeps_bind; [kt|intros []]; [kt|].
  do 4 (apply keeps_bind; [first [apply sweep_reset_P|kt]|intros _]).
  intros w Hw. pose proof (slowest_idx _ Hw) as Hi. revert w Hw. apply keeps_clamp; [apply reads_P|].
  apply keeps_bind; [kt|intros _]. unfold updSweep. apply keeps_bind; [|intros _; kt].
  apply keeps_upd. intros l Hl. split; [split; [exact (P_W _ Hl)|done]|apply Hl].
Qed.
Hint Resolve timer_master_camp_sweep : keeps.

Lemma set_spd_sweep i : is_idx n i -> keeps d (on (H := H) (sweep_ok n K)) (SET swp spdI := i).
Proof. intros Hi. apply moves_keeps. eapply moves_pre; [by apply set_spd_W|apply P_S]. Qed.
Hint Resolve set_spd_sweep : keeps.

Lemma fallback_denied_sweep : keeps d (on (H := H) (sweep_ok n K)) fallback_denied.
Proof. apply moves_keeps. eapply moves_pre; [apply fallback_denied_S|apply P_S]. Qed.
Hint Resolve fallback_denied_sweep : keeps.

Lemma timer_master_p3_sweep : moves (H := H) d
  (fun l => sweep_ok n K l /\ phase_ (sweep_ (swp l)) = PHASE3) (sweep_ok n K) timer_master_p3.
Proof.
  unfold timer_master_p3. apply moves_link. intros l [Hl Hp].
  pose proof (slowest_idx l Hl) as Hi. apply (moves_pre d (sweep_ok n K)); [|by intros ? <-].
  destruct (resweepPrefPending_ (swp l)); [apply moves_keeps; kt|]. cbv zeta.
  apply (moves_clamp d n K); [apply reads_P|]. unfold decideMasterPhase3Timeout.
  assert (Hb : is_idx n (phase3Baud_ (sweep_ (swp l)))) by (destruct Hl as [[_ Hq] _]; by apply Hq).
  apply moves_keeps.
  destruct (Z.leb_spec n (phase3Baud_ (sweep_ (swp l)) + 1)).
  - apply keeps_clamp; [apply reads_P|]. cbv zeta. kt.
  - assert (is_idx n (phase3Baud_ (sweep_ (swp l)) + 1)) by (unfold is_idx in *; lia). kt.
Qed.

Lemma timer_slave_p2_sweep : keeps d (on (H := H) (sweep_ok n K)) timer_slave_p2.
Proof.
  unfold timer_slave_p2. apply moves_keeps, moves_link. intros l Hl.
  pose proof (slowest_idx l Hl) as Hi. destruct (Z.leb_spec (spdI (swp l)) 0).
  - apply (moves_pre d (sweep_ok n K)); [|by intros ? <-]. apply moves_keeps.
    apply keeps_if; [kt|]. apply keeps_clamp; [apply reads_P|]. kt.
  - cbv zeta. apply (moves_bind d _ (sweep_ok n K)).
    { apply moves_upd. intros ? <-. destruct Hl as [Hl Hx]. split; [exact Hl|].
      cbn. unfold is_idx in *. lia. }
    intros _. apply moves_keeps. kt.
Qed.
Hint Resolve timer_master_p1_sweep timer_master_p2_sweep timer_slave_p2_sweep : keeps.

Lemma timer_slave_camp_sweep : keeps d (on (H := H) (sweep_ok n K)) timer_slave_camp.
Proof. unfold timer_slave_camp. kt. sp_upd. by left. Qed.
Hint Resolve timer_slave_camp_sweep : keeps.

Lemma onTimerSwp_sweep : keeps d (on (H := H) (sweep_ok n K)) onTimerSwp.
Proof.
  unfold onTimerSwp. apply moves_keeps, moves_link. intros l Hl.
  destruct (isMaster l), (phase_ (sweep_ (swp l))) eqn:Hp;
    try (apply (moves_pre d (sweep_ok n K)); [apply moves_keeps; solve [kt]|by intros ? <-]).
  eapply moves_pre; [apply timer_master_p3_sweep|]. by intros ? <-.
Qed.
Hint Resolve onTimerSwp_sweep : keeps.

(** ** The events *)

Lemma applyHealth_sweep now : keeps d (on (H := H) (sweep_ok n K)) (applyHealth now).
Proof. unfold applyHealth. kt. sp_upd. by left. Qed.
Hint Resolve applyHealth_sweep : keeps.

Lemma sweepRetx_sweep now : keeps d (on (H := H) (sweep_ok n K)) (sweepRetx now).
Proof. unfold sweepRetx, sweep_drop. kt. Qed.
Hint Resolve sweepRetx_sweep : keeps.

Lemma timer_upgrade_sweep : keeps d (on (H := H) (sweep_ok n K)) timer_upgrade.
Proof.
  unfold timer_upgrade. do 2 (apply keeps_bind; [kt|intros _]). apply moves_keeps, moves_link.
  intros l Hl. apply (moves_bind d _ (sweep_ok n K)).
  - apply moves_upd. intros ? <-. destruct Hl as (((Hc & Hn & Hp & Hb & Hs & Hk) & Hph) & Hi).
    split; [split; [split_and!; try done|done]|done].
  - intros _. apply moves_keeps. kt.
Qed.
Hint Resolve timer_upgrade_sweep : keeps.

Lemma onTimer_sweep : keeps d (on (H := H) (sweep_ok n K)) onTimer.
Proof. unfold onTimer, onTimerOk, timer_break. kt. Qed.

Lemma processCtrlFrame_sweep s : keeps d (on (H := H) (sweep_ok n K)) (processCtrlFrame s).
Proof. unfold processCtrlFrame. kt. Qed.
Hint Resolve processCtrlFrame_sweep : keeps.

Lemma feed_sweep data : keeps d (on (H := H) (sweep_ok n K)) (feed data).
Proof.
  apply feed_keeps; cbn.
  - intros f w Hw. exact Hw.
  - intros s b. apply sw_onPayload.
  - intros s b. apply sw_onAck.
  - intros s. apply sw_onNak.
  - unfold onFrameError. kt.
Qed.
Hint Resolve feed_sweep : keeps.

End Phases.


#[export] Hint Resolve reset_sweep_ok err_sweep enterPhase1_sweep handleSwp_sweep onTimerSwp_sweep
  applyHealth_sweep sweepRetx_sweep processCtrlFrame_sweep feed_sweep : keeps.

(** ** The byte loop *)

(** With a condition [C] on the configuration, which no handler changes. *)
Definition no_carry (C : AutoLinkConfig -> Prop) (c : AutoLinkConfig) (k : list Z) : Prop := C c /\ k = [].
Definition partial (C : AutoLinkConfig -> Prop) (c : AutoLinkConfig) (k : list Z) : Prop := C c /\ lenZ k < CTRL_FRAME_SIZE.

Lemma partial_nil C c k : partial C c k -> partial C c [].
Proof. by intros [? _]. Qed.
Lemma no_carry_nil C c k : no_carry C c k -> no_carry C c [].
Proof. by intros [? _]. Qed.

Lemma no_carry_partial C n : forall l, sweep_ok n (no_carry C) l -> sweep_ok n (partial C) l.
Proof.
  intros l (((Hc & Hn & Hp & Hb & Hs & Hk) & Hph) & Hi).
  split; [split; [split_and!; try done|done]|done]. destruct Hk as [HC ->]. by split.
Qed.

Lemma slice_nonempty data a b : 0 <= a < b -> a < lenZ data -> slice data a b <> [].
Proof.
  intros Hab Ha E. apply (f_equal length) in E. unfold slice, lenZ in *.
  rewrite length_take, length_drop in E. simpl in E. lia.
Qed.

Lemma lenZ_slice data a b : 0 <= a -> a <= b -> b <= lenZ data -> lenZ (slice data a b) = b - a.
Proof. intros. unfold slice, lenZ in *. rewrite length_take, length_drop. lia. Qed.

Section Bytes.
Context {H : Type} `{IHal H} (d : Prop) (n : Z) (C : AutoLinkConfig -> Prop).

Lemma feed_slice data a b (w : World H) :
  sweep_ok n (no_carry C) (lk w) -> 0 <= a < lenZ data ->
  wpd d (if b >? a then feed (slice data a b) else ret 0)
    (fun c w' => sweep_ok n (no_carry C) (lk w') /\ (a < b -> 0 < c)) w.
Proof.
  intros Hw Ha. destruct (Z.ltb_spec a b); [|ws; split; [done|lia]].
  apply wpd_and; [apply feed_sweep; [apply no_carry_nil|done]|].
  eapply wpd_mono; [apply feed_progress|]. intros c w' [_ Hc] _. apply Hc.
  apply slice_nonempty; lia.
Qed.

Lemma ok_scan_sweep data i0 fuel : forall start i nb (w : World H),
  sweep_ok n (no_carry C) (lk w) -> 0 <= i0 < lenZ data -> i0 <= start <= i ->
  i0 < i + Z.of_nat fuel ->
  wpd d (ok_scan fuel data start i nb)
    (fun r w' => sweep_ok n (partial C) (lk w') /\ i0 < fst (fst r) /\ i0 <= snd (fst r)) w.
Proof.
  induction fuel as [|fuel IH]; intros start i nb w Hw Hlen Hs Hf; cbn [ok_scan].
  { ws. split; [by apply no_carry_partial|]. cbn. lia. }
  destruct (Z.leb_spec (lenZ data) i) as [|Hi].
  { ws. split; [by apply no_carry_partial|]. cbn. lia. }
  assert (Hflush : forall k : Z -> Act H (Z * Z * bool),
    (forall c w', sweep_ok n (no_carry C) (lk w') -> wpd d (k c)
       (fun r w' => sweep_ok n (partial C) (lk w') /\ i0 < fst (fst r) /\ i0 <= snd (fst r)) w') ->
    wpd d (c <- (if i >? start then feed (slice data start i) else ret 0);;
           ok <- (if i >? start then in_ok else ret true);;
           if negb ok then ret (start + c, start, nb) else k c)
      (fun r w' => sweep_ok n (partial C) (lk w') /\ i0 < fst (fst r) /\ i0 <= snd (fst r)) w).
  { intros k Hk. ws. eapply wpd_mono; [apply feed_slice; [done|lia]|]. intros c w1 [Hw1 Hc]. ws.
    destruct (Z.ltb_spec start i); unfold in_ok; ws; [|by apply Hk].
    destruct (bool_decide _); cbn [negb]; [by apply Hk|]. ws.
    split; [by apply no_carry_partial|]. cbn. lia. }
  repeat match goal with |- wpd _ (if ?b then _ else _) _ _ => destruct b eqn:? end;
    try (apply IH; try done; lia); apply Hflush; intros c w1 Hw1; ws.
  - eapply wpd_mono; [by apply (processCtrlFrame_sweep d n (no_carry C)); [apply no_carry_nil|]|]. intros r w2 Hw2.
    unfold CTRL_FRAME_SIZE. apply IH; try done; lia.
  - split; [|cbn; lia]. destruct Hw1 as (((Hc & Hn & Hp & Hb & Hq & Hk) & Hph) & Hx).
    split; [split; [split_and!; try done|done]|done]. cbn. destruct Hk as [HC ->]. cbn [app].
    split; [done|]. bool_prop. rewrite lenZ_slice; lia.
Qed.

Lemma sweep_ok_ext (K K' : AutoLinkConfig -> list Z -> Prop) l l' :
  sweep_ok n K l -> cfg l' = cfg l -> swp l' = swp l -> K' (cfg l) (okCarry_ (rxg l')) -> sweep_ok n K' l'.
Proof.
  intros (((Hc & Hn & Hp & Hb & Hs & Hk) & Hph) & Hx) E1 E2 Hk'. unfold swpon.
  rewrite E1, E2. split; [split; [by split_and!|done]|done].
Qed.

Lemma rx_carry_sweep data i nb (w : World H) :
  sweep_ok n (partial C) (lk w) -> 0 <= i < lenZ data ->
  wpd d (rx_carry data i nb) (fun r w' => sweep_ok n (partial C) (lk w') /\ i < fst (fst r)) w.
Proof.
  intros Hw Hi. unfold rx_carry. ws.
  assert (Hk : C (cfg (lk w)) /\ lenZ (okCarry_ (rxg (lk w))) < CTRL_FRAME_SIZE).
  { destruct Hw as (((_ & _ & _ & _ & _ & Hk) & _) & _). exact Hk. }
  destruct Hk as [HC Hk].
  set (have := okCarry_ (rxg (lk w))) in *. cbv zeta.
  set (k := Z.min (CTRL_FRAME_SIZE - lenZ have) (lenZ data - i)).
  assert (Hkp : 0 < k) by (unfold k; lia). ws.
  destruct (Z.ltb_spec (lenZ (have ++ slice data i (i + k))) CTRL_FRAME_SIZE); ws.
  { split; [|cbn; lia]. eapply sweep_ok_ext; [exact Hw|done..|by split]. }
  destruct (_ && _); ws.
  - eapply wpd_mono; [apply (processCtrlFrame_sweep d n (partial C)); [apply partial_nil|]|].
    + eapply sweep_ok_ext; [exact Hw|done..|by split].
    + intros r w1 Hw1. ws. split; [exact Hw1|cbn; lia].
  - eapply wpd_mono; [apply (feed_sweep d n (partial C)); [apply partial_nil|]|].
    + eapply sweep_ok_ext; [exact Hw|done..|by split].
    + intros r w1 Hw1. unfold in_ok. ws. split; [exact Hw1|cbn; lia].
Qed.

Lemma rx_scan_sweep data i nb (w : World H) :
  sweep_ok n (no_carry C) (lk w) -> 0 <= i < lenZ data ->
  wpd d (rx_scan data i nb) (fun r w' => sweep_ok n (partial C) (lk w') /\ i < fst r) w.
Proof.
  intros Hw Hi. unfold rx_scan. ws.
  eapply wpd_mono; [apply (ok_scan_sweep data i); try done; unfold lenZ in *; lia|].
  intros [[i' start] nb'] w1 (Hw1 & Hi1 & Hs1). cbn in Hi1, Hs1. unfold in_ok. ws.
  destruct (Z.ltb_spec start i') as [Hlt|]; cbn [andb]; ws; [|by split].
  destruct (bool_decide _); ws; [|by split].
  eapply wpd_mono.
  { apply (wpd_and d _ (fun _ w' => sweep_ok n (partial C) (lk w'))).
    - apply (feed_sweep d n (partial C)); [apply partial_nil|exact Hw1].
    - apply feed_progress. }
  intros c w2 [Hw2 [Hc0 Hc]]. ws. split; [exact Hw2|]. cbn.
  destruct (Z.ltb_spec start (lenZ data)); [|lia].
  assert (0 < c) by (apply Hc, slice_nonempty; lia). lia.
Qed.

Lemma rx_swp_byte_sweep b : keeps d (on (H := H) (sweep_ok n (partial C))) (rx_swp_byte b).
Proof. pose proof (partial_nil C). unfold rx_swp_byte. kt. Qed.

(** Every round consumes a byte: the fuel is enough. *)
Lemma rx_loop_sweep data fuel : forall i nb (w : World H),
  sweep_ok n (partial C) (lk w) -> 0 <= i -> lenZ data <= i + Z.of_nat fuel ->
  wpd d (rx_loop fuel data i nb) (fun _ w' => sweep_ok n (partial C) (lk w')) w.
Proof.
  induction fuel as [|fuel IH]; intros i nb w Hw Hi Hf; cbn [rx_loop].
  { destruct (Z.ltb_spec i (lenZ data)); [lia|]. by ws. }
  destruct (Z.leb_spec (lenZ data) i); [by ws|]. ws.
  destruct (decide (state (lk w) = OK)).
  - destruct (Z.ltb_spec 0 (lenZ (okCarry_ (rxg (lk w))))) as [|Hz]; ws.
    + eapply wpd_mono; [by apply rx_carry_sweep|]. intros [[i' nb'] stop] w1 [Hw1 Hi1].
      cbn in Hi1. destruct stop; [by ws|]. apply IH; [done|lia|lia].
    + eapply wpd_mono; [apply rx_scan_sweep; [|lia]|].
      * eapply sweep_ok_ext; [exact Hw|done..|]. destruct Hw as (((_ & _ & _ & _ & _ & [HC _]) & _) & _).
        split; [done|]. unfold lenZ in *. destruct (okCarry_ (rxg (lk w))); [done|simpl in Hz; lia].
      * intros r w1 [Hw1 Hi1]. apply IH; [done|lia|lia].
  - ws. eapply wpd_mono; [by apply rx_swp_byte_sweep|]. intros r w1 Hw1. destruct r; [by ws|].
    apply IH; [done|lia|lia].
Qed.

Lemma onRx_sweep data : keeps d (on (H := H) (sweep_ok n (partial C))) (onRx data).
Proof.
  unfold onRx. apply keeps_bind; [kt|intros t]. apply keeps_bind; [kt|intros _].
  apply keeps_bind; [|intros []; kt]. intros w Hw. apply rx_loop_sweep; [done|lia|unfold lenZ; lia].
Qed.

End Bytes.

End SweepInv.
