(* ===== verification/System.v ===== *)
(** * The link as a system

    The events of the other tasks, the application's calls, and what every
    reachable state satisfies: the sweep invariant and the sender's window. *)
From stdpp Require Import relations.
From S2P Require Import Prelude Monad Crc MsgCodec FrameRx Config Decision BaudSweep ArqCache.
From S2P Require Import Arq Hal LinkState Timing Tx Core Sweep Gbn Rx Timers Api Recv Frames.
From S2P Require Import Sender Send SweepInv.
Import MsgCodec FrameRx Config Decision BaudSweep ArqCache Arq Hal LinkState Timing Tx Core Sweep
  Gbn Rx Timers Api Recv Frames Sender Send SweepInv.

Module System.

(** What runs under the lock without releasing it: the UART task's bytes, the
    timer task, the BREAK interrupts, and the application's short calls. *)
Inductive Event :=
  | EvRx (data : list Z) | EvTimer | EvBreak | EvBreakStorm | EvDropLink | EvFlushRx
  | EvPause (p : bool) | EvResetStats | EvResetErrors | EvResetDiag.

(** The application's calls: the first three may release it; the setters take no
    lock. *)
Inductive Call :=
  | CallSend (b : list Z) | CallRecv (max_len : Z) | CallKickoff | CallWrite (b : list Z)
  | CallSetMode (m : Mode) | CallSetMaxMsg (m : Z) | CallSetTxDelayMs (ms : Z).

(** What may be set: a size a configuration may hold. *)
Definition settable (c : Call) : Prop :=
  match c with CallSetMaxMsg m => 1 <= m <= 60000 | _ => True end.

(** The calls of an application that stays in ASYNC mode and sends messages. *)
Definition messages_only (c : Call) : Prop :=
  match c with CallWrite _ => False | CallSetMode m => is_sync m = false | _ => True end.

Definition any_call (c : Call) : Prop := True.

Section System.
Context {H : Type} `{IHal H}.

Definition handle (e : Event) : Act H unit :=
  match e with
  | EvRx data => onRx data
  | EvTimer => onTimer
  | EvBreak => onBreak
  | EvBreakStorm => onBreakStorm
  | EvDropLink => dropLink
  | EvFlushRx => flushRx
  | EvPause p => setLinkPaused p
  | EvResetStats => resetStats
  | EvResetErrors => resetErrors
  | EvResetDiag => resetDiag
  end.

(** A step of the surroundings: an event, or the hardware on its own. *)
Inductive tick (w : World H) : World H -> Prop :=
  | tick_event e w' : handle e w = Some (tt, w') -> tick w w'
  | tick_hal h : tick w (mkWorld (lk w) h).

(** While a call has released the lock, the surroundings run. *)
Definition background (yield : World H -> World H) : Prop := forall w, rtc tick w (yield w).

Definition serve (yield : World H -> World H) (fuel : nat) (c : Call) : Act H unit :=
  match c with
  | CallSend b => _ <- sendMsg yield fuel b;; ret tt
  | CallRecv m => _ <- recvMsg yield fuel m;; ret tt
  | CallKickoff => kickoff yield
  | CallWrite b => _ <- write b;; ret tt
  | CallSetMode m => setMode m
  | CallSetMaxMsg m => setMaxMsg m
  | CallSetTxDelayMs ms => setTxDelayMs ms
  end.

(** A step, the application's calls among those of [ok]. *)
Inductive step (ok : Call -> Prop) (yield : World H -> World H) (fuel : nat) (w : World H) : World H -> Prop :=
  | step_tick w' : tick w w' -> step ok yield fuel w w'
  | step_call c w' : settable c -> ok c -> serve yield fuel c w = Some (tt, w') -> step ok yield fuel w w'.

(** ** The events *)

Section Events.
Context (d : Prop) (n N : Z) (HN : 0 <= N <= 62) (C : AutoLinkConfig -> Prop).

Lemma handle_sweep e : keeps d (on (sweep_ok n (partial C))) (handle e).
Proof.
  pose proof (partial_nil C). destruct e; cbn [handle]; [apply onRx_sweep|by apply onTimer_sweep|..];
    unfold dropLink, flushRx, end_msg, setLinkPaused, resetStats, resetErrors, resetDiag; kt.
Qed.

Lemma handle_sender e : d -> keeps d (on (sender_ok N)) (handle e).
Proof.
  intros Hd. destruct e; cbn [handle]; [by apply onRx_sender|by apply onTimer_sender|..];
    unfold dropLink, flushRx, end_msg, setLinkPaused, resetStats, resetErrors, resetDiag; kt.
Qed.

(** ** The calls *)

Context (yield : World H -> World H) (fuel : nat).

Section CallsSweep.
Context (Hd : d) (Hy : forall w, sweep_ok n (partial C) (lk w) -> sweep_ok n (partial C) (lk (yield w))).

Lemma release_sweep : keeps d (on (sweep_ok n (partial C))) (release yield).
Proof. intros w Hw. by apply Hy. Qed.
Hint Resolve release_sweep : keeps.
Hint Extern 1 (partial _ _ []) => eapply partial_nil; eassumption : keeps.

Lemma drainTxRing_sweep : keeps d (on (sweep_ok n (partial C))) (drainTxRing yield fuel).
Proof.
  assert (Hl : forall k need t, keeps d (on (sweep_ok n (partial C))) (drain_loop yield k need t)).
  { intros k need t. induction k as [|k IH]; cbn [drain_loop]; [by apply keeps_stuck|kt]. }
  unfold drainTxRing. kt.
Qed.
Hint Resolve drainTxRing_sweep : keeps.

Lemma waitForAck_sweep s t : keeps d (on (sweep_ok n (partial C))) (waitForAck yield fuel s t).
Proof.
  unfold waitForAck, ensure_sem. kt. induction fuel as [|k IH]; cbn [wait_loop]; [by apply keeps_stuck|].
  unfold wait_expire. kt. by apply keeps_stuck.
Qed.
Hint Resolve waitForAck_sweep : keeps.

Lemma await_sweep op : keeps d (on (sweep_ok n (partial C))) (syncAwaitAcked yield fuel op).
Proof.
  assert (Hl : forall k op, keeps d (on (sweep_ok n (partial C))) (await_loop yield fuel k op)).
  { induction k as [|k IH]; intros o; cbn [await_loop]; [by apply keeps_stuck|].
    unfold syncRtoStep. kt. }
  apply Hl.
Qed.
Hint Resolve await_sweep : keeps.

Lemma sendCobsFrameAcked_sweep b s : keeps d (on (H := H) (sweep_ok n (partial C))) (sendCobsFrameAcked b s).
Proof. unfold sendCobsFrameAcked, sendCobsFrame. kt. Qed.
Hint Resolve sendCobsFrameAcked_sweep : keeps.

Lemma sync_chunks_sweep k : forall b, keeps d (on (sweep_ok n (partial C))) (sync_chunks yield fuel k b).
Proof.
  induction k as [|k IH]; intros [|x b]; cbn [sync_chunks]; try by apply keeps_stuck.
  1, 2: kt. unfold set_reason, note_tx, sync_sent, sendCobsFrame. kt.
Qed.
Hint Resolve sync_chunks_sweep : keeps.

Lemma async_chunks_sweep k : forall b s,
  keeps d (on (sweep_ok n (partial C))) (async_chunks yield fuel k b s).
Proof.
  induction k as [|k IH]; intros [|x b] s; cbn [async_chunks]; try by apply keeps_stuck.
  1, 2: kt. unfold set_reason, note_tx, refuse_pool. kt.
Qed.
Hint Resolve async_chunks_sweep : keeps.

Lemma sendMsg_sweep b : keeps d (on (sweep_ok n (partial C))) (sendMsg yield fuel b).
Proof.
  unfold sendMsg, send_admit, txQuiet, rate_admit, rate_refuse, rate_window, send_body,
    send_async_single, send_async_multi, send_sync_single, send_sync_multi, send_finish,
    onSyncAckTimeout, set_reason, note_tx, refuse_pool, sync_sent, sendCobsFrame. kt.
  by apply keeps_stuck.
Qed.

Lemma read_loop_frame (J : Link -> Prop) k : forall m, keeps d (on (H := H) J) (read_loop k m).
Proof. induction k as [|k IH]; intros m; cbn [read_loop]; kt. Qed.
Hint Resolve read_loop_frame : keeps.

Lemma discard_loop_frame (J : Link -> Prop) k : forall m, keeps d (on (H := H) J) (discard_loop k m).
Proof.
  induction k as [|k IH]; intros m; cbn [discard_loop]; [destruct (_ <? m); [by apply keeps_stuck|kt]|].
  unfold readStream. kt.
Qed.
Hint Resolve discard_loop_frame : keeps.

Lemma recvMsg_sweep m : keeps d (on (sweep_ok n (partial C))) (recvMsg yield fuel m).
Proof.
  unfold recvMsg, recv_stale, recv_header, recv_body, fail_with, resync, err, note_bad_header,
    end_msg, findMsgHeaderResync, readStream. kt.
Qed.

Lemma kickoff_sweep : keeps d (on (sweep_ok n (partial C))) (kickoff yield).
Proof.
  unfold kickoff. kt. unfold kickoff_slave. apply keeps_bind; [kt|intros _].
  intros w Hw. pose proof (slowest_idx n (partial C) _ Hw). revert w Hw.
  apply (keeps_clamp d n (partial C)); [apply reads_P|]. apply keeps_bind; [by apply set_spd_sweep|intros _].
  unfold updSweep, end_msg. kt.
  apply keeps_upd. intros l' Hl. split; [split; [exact (P_W _ _ _ Hl)|done]|apply Hl].
Qed.
Hint Resolve kickoff_sweep : keeps.

Lemma write_loop_sweep k : forall b o, keeps d (on (H := H) (sweep_ok n (partial C))) (write_loop k b o).
Proof.
  induction k as [|k IH]; intros [|x b] o; cbn [write_loop]; try by apply keeps_stuck.
  1, 2: kt. unfold note_tx, sendCobsFrame. kt.
Qed.
Hint Resolve write_loop_sweep : keeps.

Lemma write_sweep b : keeps d (on (H := H) (sweep_ok n (partial C))) (write b).
Proof. unfold write, txQuiet. kt. Qed.

Lemma begin_sweep : keeps d (on (sweep_ok n (partial C))) (begin yield).
Proof. unfold begin, computeDwells, updSweep. kt. Qed.
End CallsSweep.

Section CallsSender.
Context (Hd : d) (Hy : yields_sender yield).
Hint Resolve release_sender : keeps.
Hint Resolve read_loop_frame discard_loop_frame : keeps.

Lemma recvMsg_sender m : keeps d (on (sender_ok N)) (recvMsg yield fuel m).
Proof.
  unfold recvMsg, recv_stale, recv_header, recv_body, fail_with, resync, err, note_bad_header,
    end_msg, findMsgHeaderResync, readStream. kt.
Qed.

Lemma changeState_idle st : keeps d (on (H := H) (sender_ok 0)) (changeState st).
Proof.
  apply moves_keeps, changeState_moves. intros t m s (Hm & k & Hk & _ & Hw).
  split; [done|]. exists k. split; [done|]. split; [lia|done].
Qed.

(** With nothing in flight the sequence counters are free. *)
Lemma idle_counters l s lap :
  is_seq s -> sender_ok 0 l ->
  sender_ok 0 (rset txg (fun t => mkTxG s lap (arq_ t) (arqCache_ t)) l).
Proof.
  intros Hq (Hm & k & Hk & Hs & [[? ? ? ? ? ? ? ? ?] Ha]). assert (k = 0) as -> by lia.
  split; [done|]. exists 0. split; [lia|]. split; [done|]. split; [|done].
  split; cbn; try done; lia.
Qed.

Lemma resetSeq_idle0 : keeps d (on (H := H) (sender_ok 0)) resetSeq.
Proof.
  unfold resetSeq. kt; apply keeps_upd; intros l Hl.
  - apply (idle_counters l 0 (txSeqLap_ (txg l))); [unfold is_seq; lia|done].
  - apply (idle_counters l (txSeq (txg l)) (u8 (txSeqLap_ (txg l) + 1))); [|done].
    by destruct Hl as (_ & k & _ & _ & [[] _]).
Qed.

(** A start outside a session; on an idle link. *)
Lemma kickoff_idle : keeps d (on (sender_ok 0)) (kickoff yield).
Proof.
  assert (Hz : 0 <= 0 <= 62) by lia. pose proof changeState_idle. pose proof resetSeq_idle0.
  unfold kickoff, kickoff_slave, updSweep, end_msg. kt.
Qed.

Lemma kickoff_sender : keeps d (on (sender_ok N)) (kickoff yield).
Proof.
  intros w Hw. destruct (decide (state (lk w) = OK)) as [E|E].
  - unfold kickoff. ws. rewrite E. destruct (decide _); [|done]. by ws.
  - assert (Hz : sender_ok 0 (lk w)).
    { destruct Hw as (Hm & k & Hk & Hs & Hx). split; [done|].
      assert (k = 0) as -> by (apply Hs; destruct (state (lk w)); congruence).
      exists 0. split; [lia|done]. }
    eapply wpd_mono; [by apply kickoff_idle|]. intros ? w'. apply sender_le. lia.
Qed.

Lemma setWindow_ok z c : cache_ok c -> cache_ok (setWindow z c).
Proof.
  intros [Hi Hw]. apply (setWindow_window z) in Hw. split; [|done].
  destruct Hi, Hw; split; done.
Qed.

Lemma setWindow_idle z l :
  sender_ok 0 l -> sender_ok 0 (rset txg (rset arqCache_ (setWindow z)) l).
Proof.
  intros (Hm & k & Hk & Hs & [[? Hc ? ? ? ? ? ? ?] Ha]). split; [done|]. exists k.
  split; [done|]. split; [done|]. split; [|done].
  pose proof (setWindow_ok z _ Hc). by split.
Qed.

(** [begin] on a link with nothing in flight. *)
Lemma begin_idle : keeps d (on (sender_ok 0)) (begin yield).
Proof.
  assert (Hz : 0 <= 0 <= 62) by lia. pose proof changeState_idle. pose proof kickoff_idle.
  unfold begin, computeDwells, updSweep. kt; apply keeps_upd; intros l' Hl'.
  - by apply setWindow_idle.
  - destruct Hl' as (Hm & k & Hk & Hs & Hx). split; [done|]. exists k. split; [done|].
    split; [lia|done].
Qed.

End CallsSender.
End Events.

(** ** Reachable states *)

(** A link just constructed over a cache of window [cw]. *)
Definition fresh (cw : Z) (isMasterNode : bool) (c : AutoLinkConfig) (h : H) : World H :=
  mkWorld (link_init (cache_init cw) isMasterNode c) h.

(** Constructed, begun, and run with any events and any calls of [ok], in any order. *)
Definition reachable_by (ok : Call -> Prop) (yield : World H -> World H) (fuel : nat) (cw : Z)
    (c : AutoLinkConfig) (w : World H) : Prop :=
  exists m h b w0, begin yield (fresh cw m c h) = Some (b, w0) /\ rtc (step ok yield fuel) w0 w.

Definition reachable := reachable_by any_call.

Lemma fresh_sweep (C : AutoLinkConfig -> Prop) cw m c h :
  cfg_ok c -> C c -> sweep_ok (allowedBaudsCount c) (partial C) (lk (fresh cw m c h)).
Proof.
  intros Hc HC. pose proof (cfg_count _ Hc) as Hn. unfold AUTOLINK_MAX_BAUDS in Hn.
  split; [split; [split_and!|]|]; try done; try (by left).
  - cbn. unfold clampedCount, AUTOLINK_MAX_BAUDS, UTIL_BAUD_SWEEP_MAX_BAUDS.
    replace (allowedBaudsCount c <? 0) with false by lia.
    replace (16 <? allowedBaudsCount c) with false by lia.
    replace (allowedBaudsCount c <? 0) with false by lia.
    by replace (16 <? allowedBaudsCount c) with false by lia.
  - unfold is_idx. cbn. lia.
Qed.

Lemma fresh_sender cw m c h :
  1 <= cw <= 32 -> is_sync (mode c) = false -> sender_ok 0 (lk (fresh cw m c h)).
Proof.
  intros Hw Hm. split; [done|]. exists 0. split; [lia|]. split; [done|].
  apply txw_empty; [split; [apply arq_clearAll_idle|by vm_compute]|by apply init_ok|].
  intros s Hs. unfold contents, slot. cbn [pending_ cache_init arqCache_ txg lk fresh link_init].
  unfold SLOTS in Hs. rewrite (rd_replicate free_slot 256) by lia. done.
Qed.

Lemma tick_sweep n (C : AutoLinkConfig -> Prop) w w' : tick w w' -> sweep_ok n (partial C) (lk w) -> sweep_ok n (partial C) (lk w').
Proof.
  intros [e w1 Hh|h] Hw; [|done]. apply (wpd_run _ _ _ _ _ _ (handle_sweep True n C e w Hw) Hh).
Qed.

Lemma tick_sender N w w' :
  0 <= N <= 62 -> tick w w' -> sender_ok N (lk w) -> sender_ok N (lk w').
Proof.
  intros HN [e w1 Hh|h] Hw; [|done].
  apply (wpd_run _ _ _ _ _ _ (handle_sender True N HN e I w Hw) Hh).
Qed.

Lemma background_sweep n (C : AutoLinkConfig -> Prop) yield :
  background yield -> forall w, sweep_ok n (partial C) (lk w) -> sweep_ok n (partial C) (lk (yield w)).
Proof.
  intros Hb w Hw. specialize (Hb w). revert Hw. induction Hb as [|w w1 w2 Ht _ IH]; [done|].
  intros Hw. by apply IH, (tick_sweep n C w).
Qed.

Lemma background_sender yield : background yield -> yields_sender yield.
Proof.
  intros Hb N w HN Hw. specialize (Hb w). revert Hw. induction Hb as [|w w1 w2 Ht _ IH]; [done|].
  intros Hw. by apply IH, (tick_sender N w).
Qed.

(** No condition on the configuration. *)
Definition any (c : AutoLinkConfig) : Prop := True.

(** The settings are no part of the sweep, the size of a message bounded. *)
Lemma cfg_upd_sweep n f : (forall c, cfg_ok c -> cfg_ok (f c) /\ allowedBaudsCount (f c) = allowedBaudsCount c) ->
  keeps True (on (H := H) (sweep_ok n (partial any))) (upd (rset cfg f)).
Proof.
  intros Hf. apply keeps_upd. intros l (((Hc & Hn & Hp & Hb & Hs & _ & Hk) & Hph) & Hi).
  destruct (Hf _ Hc) as [Hc' En]. split; [split; [split_and!|]|]; try done. cbn. by rewrite En.
Qed.

Lemma step_sweep n ok yield fuel w w' :
  background yield -> step ok yield fuel w w' ->
  sweep_ok n (partial any) (lk w) -> sweep_ok n (partial any) (lk w').
Proof.
  intros Hb [w1 Ht|c w1 Hset _ Hs] Hw; [by apply (tick_sweep n any w)|].
  pose proof (background_sweep n any yield Hb) as Hy.
  assert (Hk : keeps True (on (sweep_ok n (partial any))) (serve yield fuel c)).
  { pose proof (sendMsg_sweep True n any yield fuel I Hy).
    pose proof (recvMsg_sweep True n any yield fuel I Hy). pose proof (kickoff_sweep True n any yield Hy).
    pose proof (write_sweep True n any I).
    destruct c; cbn [serve]; kt; apply cfg_upd_sweep; intros c' [? ? ? ? ? ?]; (split; [by split|done]). }
  apply (wpd_run _ _ _ _ _ _ (Hk w Hw) Hs).
Qed.

(** The admission reads the window the cache was given, at most 32. *)
Lemma sender_window N l : sender_ok N l -> window_ (arqCache_ (txg l)) <= 32.
Proof. intros (_ & k & _ & _ & [[_ [_ Hw] _ _ _ _ _ _ _] _]). destruct Hw. lia. Qed.

(** The settings of an ASYNC link. *)
Lemma cfg_upd_sender N f : (forall c, is_sync (mode c) = false -> is_sync (mode (f c)) = false) ->
  keeps True (on (H := H) (sender_ok N)) (upd (rset cfg f)).
Proof. intros Hf. apply keeps_upd. intros l [Hm Hr]. split; [by apply Hf|done]. Qed.

Lemma step_sender yield fuel w w' :
  background yield -> step messages_only yield fuel w w' -> sender_ok 32 (lk w) -> sender_ok 32 (lk w').
Proof.
  intros Hb [w1 Ht|c w1 _ Hok Hs] Hw; [by apply (tick_sender 32 w)|].
  assert (HN : 0 <= 32 <= 62) by lia. pose proof (background_sender yield Hb) as Hy.
  enough (Hk : wpd True (serve yield fuel c) (fun _ w' => sender_ok 32 (lk w')) w)
    by apply (wpd_run _ _ _ _ _ _ Hk Hs).
  destruct c; cbn [serve].
  - apply wpd_bind. eapply wpd_mono.
    + apply (sendMsg_sender True I 32 HN yield fuel Hy b w Hw). by apply (sender_window 32).
    + intros r w2 Hw2. exact Hw2.
  - apply wpd_bind. eapply wpd_mono; [by apply (recvMsg_sender True 32 HN yield fuel I Hy)|].
    intros r w2 Hw2. exact Hw2.
  - by apply (kickoff_sender True 32 HN yield Hy).
  - destruct Hok.
  - by apply (cfg_upd_sender 32).
  - by apply (cfg_upd_sender 32).
  - by apply (cfg_upd_sender 32).
Qed.

(** C7: In every state an ASYNC link reaches from [begin] by events, the other tasks'
    interference and calls other than the raw [write] and a change to SYNC mode
    (neither keeps to the window: [write] takes sequence numbers for chunks it
    does not register, [raw_write_leaves_window]), at most 32 chunks are in
    flight, none while it sweeps; the chunks pending an acknowledgement are
    those of the window from its base on, exactly they are in the retransmit
    cache, and the next sequence number follows them. *)
Theorem reachable_window yield fuel cw c w :
  1 <= cw <= 32 -> is_sync (mode c) = false -> background yield ->
  reachable_by messages_only yield fuel cw c w ->
  exists n, 0 <= n <= 32 /\ (state (lk w) = SWP -> n = 0) /\ inflight (lk w) = n /\
            txw n (txg (lk w)).
Proof.
  intros Hc Hm Hb (m & h & b & w0 & Hbeg & Hr).
  assert (Hw0 : sender_ok 32 (lk w0)).
  { apply (sender_le 32 0); [lia|]. pose proof (background_sender yield Hb) as Hy.
    apply (wpd_run _ _ _ _ _ _ (begin_idle True yield Hy _ (fresh_sender cw m c h Hc Hm)) Hbeg). }
  clear Hbeg. assert (Hw : sender_ok 32 (lk w)).
  { induction Hr as [|w0 w1 w2 Hs _ IH]; [done|]. by eapply IH, step_sender. }
  destruct Hw as (_ & n & Hn & Hs & Hx). exists n. split_and!; try done; try lia.
  apply txw_count; [lia|done].
Qed.

Lemma reachable_sweep_from yield fuel cw c w m h b w0 :
  cfg_ok c -> background yield -> begin yield (fresh cw m c h) = Some (b, w0) ->
  rtc (step any_call yield fuel) w0 w -> sweep_ok (allowedBaudsCount c) (partial any) (lk w).
Proof.
  intros Hc Hb Hbeg Hr.
  assert (Hw0 : sweep_ok (allowedBaudsCount c) (partial any) (lk w0)).
  { pose proof (background_sweep (allowedBaudsCount c) any yield Hb) as Hy.
    apply (wpd_run _ _ _ _ _ _
      (begin_sweep True (allowedBaudsCount c) any yield Hy _ (fresh_sweep any cw m c h Hc I)) Hbeg). }
  clear Hbeg. induction Hr as [|w0 w1 w2 Hs _ IH]; [done|]. by eapply IH, step_sweep.
Qed.

(** C19: In every state reachable from [begin], whatever frames, timer expiries and
    calls led there, the configuration is the well-formed one, the baud index in
    use, the candidate of phase 3 and the two remembered bauds are entries of its
    table (or the mark of none), and the hit table has its size: no access of
    the sweep is out of range. *)
Theorem reachable_sweep yield fuel cw c w :
  cfg_ok c -> background yield -> reachable yield fuel cw c w ->
  sweep_ok (allowedBaudsCount c) (partial any) (lk w).
Proof. intros Hc Hb (m & h & b & w0 & Hbeg & Hr). by eapply reachable_sweep_from. Qed.

(** An event in a reachable state returns, in a reachable state. *)
Lemma reachable_event yield fuel cw c w e :
  cfg_ok c -> background yield -> reachable yield fuel cw c w ->
  wp (handle e) (fun _ w' => reachable yield fuel cw c w') w.
Proof.
  intros Hc Hb Hr. assert (Hw : sweep_ok (allowedBaudsCount c) (partial any) (lk w)).
  { destruct Hr as (m & h & b & w0 & Hbeg & Hr). by eapply reachable_sweep_from. }
  destruct (wp_run _ _ _ (handle_sweep False (allowedBaudsCount c) any e w Hw)) as ([] & w' & Hh & _).
  unfold wp, wpd. rewrite Hh. destruct Hr as (m & h & b & w0 & Hbeg & Hr).
  exists m, h, b, w0. split; [done|]. eapply rtc_r; [exact Hr|].
  apply step_tick. by apply (tick_event _ e).
Qed.

(** So does the hardware moving on its own. *)
Lemma reachable_hal yield fuel cw c w h :
  reachable yield fuel cw c w -> reachable yield fuel cw c (mkWorld (lk w) h).
Proof.
  intros (m & h0 & b & w0 & Hbeg & Hr). exists m, h0, b, w0. split; [done|].
  eapply rtc_r; [exact Hr|]. apply step_tick, tick_hal.
Qed.

(** C15: Every event, in every reachable state of the link, is handled to the end:
    the handler returns, whatever its loops read, and the state it
    leaves is reachable again, so that the next event is handled as well. *)
Theorem event_total yield fuel cw c w e :
  cfg_ok c -> background yield -> reachable yield fuel cw c w ->
  exists w', handle e w = Some (tt, w') /\ reachable yield fuel cw c w'.
Proof.
  intros Hc Hb Hr. destruct (wp_run _ _ _ (reachable_event _ _ _ _ w e Hc Hb Hr)) as ([] & w' & E & Hw).
  by exists w'.
Qed.

(** ** Running a schedule *)

Fixpoint run_all (yield : World H -> World H) (fuel : nat) (l : list (Event + Call)) (w : World H)
    : option (World H) :=
  match l with
  | [] => Some w
  | a :: l =>
      match match a with inl e => handle e w | inr c => serve yield fuel c w end with
      | Some (_, w') => run_all yield fuel l w'
      | None => None
      end
  end.

Lemma run_all_rtc ok yield fuel l : Forall (fun a => match a with inl _ => True | inr c => settable c /\ ok c end) l ->
  forall w w', run_all yield fuel l w = Some w' -> rtc (step ok yield fuel) w w'.
Proof.
  induction 1 as [|[e|c] l Ha _ IH]; intros w w' E; cbn [run_all] in E.
  - injection E as <-. apply rtc_refl.
  - destruct (handle e w) as [[[] w1]|] eqn:Hh; [|done].
    eapply rtc_l; [apply step_tick, (tick_event _ e), Hh|by apply IH].
  - destruct (serve yield fuel c w) as [[[] w1]|] eqn:Hh; [|done].
    eapply rtc_l; [apply (step_call _ _ _ _ c), Hh; by destruct Ha|by apply IH].
Qed.

Lemma background_id : background (fun w => w).
Proof. intros w. apply rtc_refl. Qed.
End System.

(** A slave on the mock: begun, locked by the master's LOCK frame, one message
    of three bytes sent and not acknowledged yet. *)
Definition demo_cfg : AutoLinkConfig := default_config <| mode := ASYNC |>.
Definition demo_fresh : World MockHal := fresh 32 false demo_cfg (mock_init 4096).
Definition demo_start : World MockHal :=
  match begin (fun w => w) demo_fresh with Some (_, w) => w | None => demo_fresh end.
Definition demo_sched : list (Event + Call) :=
  [inl (EvRx (sealed [0xAA; 0x55; 1; LOCK_CMD])); inr (CallSend [1; 2; 3]); inl EvTimer].
Definition demo_world : World MockHal :=
  match run_all (fun w => w) 10 demo_sched demo_start with Some w => w | None => demo_start end.

Lemma demo_reachable_by ok : ok (CallSend [1; 2; 3]) -> reachable_by ok (fun w => w) 10 32 demo_cfg demo_world.
Proof.
  intros Hok. exists false, (mock_init 4096), true, demo_start. split; [vm_compute; reflexivity|].
  apply (run_all_rtc _ _ _ demo_sched); [by repeat constructor|]. vm_compute. reflexivity.
Qed.

Lemma demo_reachable : reachable (fun w => w) 10 32 demo_cfg demo_world.
Proof. by apply demo_reachable_by. Qed.

(** A raw write takes a sequence number for a chunk that is not in flight: the next
    number no longer follows the window. *)
Lemma raw_write_leaves_window :
  match serve (fun w => w) 10 (CallWrite [9]) demo_world with
  | Some (_, w) =>
      reachable (fun w => w) 10 32 demo_cfg w /\ inflight (lk w) = 1 /\
      txSeq (txg (lk w)) = seq_at (gbnBase_ (arq_ (txg (lk w)))) 2
  | None => False
  end.
Proof.
  destruct (serve (fun w => w) 10 (CallWrite [9]) demo_world) as [[[] w]|] eqn:E; [|by vm_compute in E].
  split.
  - destruct demo_reachable as (m & h & b & w0 & Hb & Hr). exists m, h, b, w0. split; [done|].
    eapply rtc_r; [exact Hr|]. by apply (step_call _ _ _ _ (CallWrite [9])).
  - revert E. vm_compute. by intros [= <-].
Qed.

Lemma demo_cfg_ok : cfg_ok demo_cfg.
Proof. destruct default_config_ok. by split. Qed.

Lemma reachable_window_witness :
  inflight (lk demo_world) = 1 /\
  exists n, 0 <= n <= 32 /\ (state (lk demo_world) = SWP -> n = 0) /\
            inflight (lk demo_world) = n /\ txw n (txg (lk demo_world)).
Proof.
  split; [vm_compute; reflexivity|].
  apply (reachable_window (fun w => w) 10 32 demo_cfg demo_world);
    [lia|reflexivity|apply background_id|by apply demo_reachable_by].
Defined.

Lemma reachable_sweep_witness :
  spdI (swp (lk demo_world)) = 0 /\ sweep_ok 6 (partial any) (lk demo_world).
Proof.
  split; [vm_compute; reflexivity|].
  apply (reachable_sweep (fun w => w) 10 32 demo_cfg demo_world);
    [apply demo_cfg_ok|apply background_id|apply demo_reachable].
Defined.

Lemma event_total_witness :
  exists w', handle (EvRx [1; 2; 0]) demo_world = Some (tt, w') /\
             reachable (fun w => w) 10 32 demo_cfg w'.
Proof.
  apply (event_total (fun w => w) 10 32 demo_cfg demo_world);
    [apply demo_cfg_ok|apply background_id|apply demo_reachable].
Defined.

End System.
