(* ===== verification/UartEvent.v ===== *)
(** * The UART event task ([src/al/hal/EspHalUartEvent.h])

    The task that turns driver events into the link's callbacks. It holds the
    counters of the current BREAK window next to the object, and runs on the
    device's hardware layer under a live link: [Task] is the task's locals and
    the world of the link it calls. The scripts of driver events and the clock
    are the task's input. *)
From Stdlib Require Import Sorted.
From S2P Require Import Prelude Monad Config Hal EspHal LinkState Core Rx Timers Recv System.
Import Config Hal EspHal LinkState Core Rx Timers Recv System.

Module UartEvent.

Inductive uart_event_t :=
  | UART_DATA (size : Z) (data : list Z)  (** [data]: what [uart_read_bytes] finds *)
  | UART_FIFO_OVF (size : Z) | UART_BUFFER_FULL (size : Z)
  | UART_PARITY_ERR | UART_FRAME_ERR | UART_BREAK | UART_OTHER.

Definition BREAK_SUMMARY_MS : Z := 1000.
Definition BREAK_STORM_THRESHOLD : Z := 8.
Definition BREAK_DEBOUNCE_MS : Z := 120.
Definition POST_SETSPD_BREAK_GUARD_MS : Z := 80.
Definition kSingleCoreYieldEvery : Z := 8.

(** The locals of the loop, and the function's static counter. *)
Record Locals := mkLocals {
  rx_cap : Z;
  last_break_ms : Z;
  last_break_summary_ms : Z;
  suppressed_count_window : Z;
  delivered_count_window : Z;
  storm_announced : Z;
  window_epoch_at_open : Z;
  sSingleCoreYieldCounter : Z;
}.
#[export] Instance eta_Locals : Eta Locals := fun r =>
  mkLocals (rx_cap r) (last_break_ms r) (last_break_summary_ms r) (suppressed_count_window r)
    (delivered_count_window r) (storm_announced r) (window_epoch_at_open r) (sSingleCoreYieldCounter r).

(** ** The BREAK window *)

(** [if (suppressed == 0 && delivered == 0) window_epoch_at_open = epoch;] *)
Definition open_window (epoch : Z) (t : Locals) : Locals :=
  if (suppressed_count_window t =? 0) && (delivered_count_window t =? 0)
  then t <| window_epoch_at_open := epoch |> else t.

(** The [UART_BREAK] branch up to the callback: [true] when it is delivered. *)
Definition on_break (now setspd epoch : Z) (t : Locals) : bool * Locals :=
  let t := open_window epoch t in
  if u32 (now - setspd) <? POST_SETSPD_BREAK_GUARD_MS then
    (false, t <| suppressed_count_window ::= (fun n => u32 (n + 1)) |> <| last_break_ms := now |>)
  else if u32 (now - last_break_ms t) <? BREAK_DEBOUNCE_MS then
    (false, t <| suppressed_count_window ::= (fun n => u32 (n + 1)) |>)
  else
    (true, t <| last_break_ms := now |> <| delivered_count_window ::= (fun n => u32 (n + 1)) |>).

(** The window summary: [true] when [onBreakStorm] is called. *)
Definition summary (nowMs epoch : Z) (t : Locals) : bool * Locals :=
  if u32 (nowMs - last_break_summary_ms t) >=? BREAK_SUMMARY_MS then
    let windowStraddledLock := negb (window_epoch_at_open t =? epoch) in
    let storm :=
      negb windowStraddledLock &&
      ((suppressed_count_window t >? 0) || (delivered_count_window t >? 0)) &&
      (suppressed_count_window t >=? BREAK_STORM_THRESHOLD) && (storm_announced t =? 0) in
    let t := if storm then t <| storm_announced := 1 |> else t in
    (storm, t <| suppressed_count_window := 0 |> <| delivered_count_window := 0 |>
              <| last_break_summary_ms := nowMs |> <| storm_announced := 0 |>)
  else (false, t).

(** ** The task *)

Section Task.
Context {D : Type} `{Idf D} (evCore : Z).
#[local] Instance task_hal : IHal (EspHal D) := esp_raw evCore.

Definition Task : Type := Locals * World (EspHal D).
Abbreviation Tk := (M Task).

Definition locals : Tk Locals := gets fst.
Definition set_locals (f : Locals -> Locals) : Tk unit := modify (fun s => (f (fst s), snd s)).
Definition this : Tk (EspHal D) := gets (fun s => hal (snd s)).

(** A method of the object, and a callback of the link. *)
Definition on_hal {A} (m : M (EspHal D) A) : Tk A := fun s =>
  match m (hal (snd s)) with
  | Some (a, h) => Some (a, (fst s, mkWorld (lk (snd s)) h))
  | None => None
  end.
Definition events (e : Event) : Tk unit := fun s =>
  match handle e (snd s) with
  | Some (_, w) => Some (tt, (fst s, w))
  | None => None
  end.

Definition now_ms : Tk Z := on_hal timer_ms.
Definition counted (f : EspHal D -> EspHal D) : Tk unit := on_hal (modify f).

(** The yield after [onRx]. *)
Definition yield_cpu : Tk unit :=
  h <- this;;
  if singleCoreEvTask_ h then
    set_locals (fun t => t <| sSingleCoreYieldCounter ::= (fun n => u32 (n + 1)) |>);;
    t <- locals;;
    if sSingleCoreYieldCounter t mod kSingleCoreYieldEvery =? 0
    then _ <- on_hal (call (vTaskDelay 1));; ret tt
    else _ <- on_hal (call taskYIELD);; ret tt
  else _ <- on_hal (call taskYIELD);; ret tt.

Definition on_data (size : Z) (data : list Z) : Tk unit :=
  t <- locals;;
  let rlen := if size >? rx_cap t then rx_cap t else size in
  let got := take (Z.to_nat rlen) data in
  when (lenZ got >? 0) (events (EvRx got));;
  yield_cpu.

Definition on_overflow : Tk unit :=
  counted (fun h => h <| rxOverflows_ ::= (fun n => u64 (n + 1)) |>);;
  _ <- on_hal (call uart_flush_input);;
  _ <- on_hal (call xQueueReset);;
  ret tt.

Definition on_framing : Tk unit :=
  counted (fun h => h <| rxFrameErrs_ ::= (fun n => u64 (n + 1)) |>).

(** [true] for the [continue] that skips the summary. *)
Definition dispatch (e : uart_event_t) : Tk bool :=
  match e with
  | UART_DATA size data => on_data size data;; ret false
  | UART_FIFO_OVF _ | UART_BUFFER_FULL _ => on_overflow;; ret false
  | UART_PARITY_ERR | UART_FRAME_ERR => on_framing;; ret false
  | UART_BREAK =>
      now <- now_ms;;
      h <- this;;
      t <- locals;;
      let '(deliver, t) := on_break now (last_setspd_ms h) (breakWindowEpoch_ h) t in
      set_locals (fun _ => t);;
      if deliver then events EvBreak;; ret false else ret true
  | UART_OTHER => ret false
  end.

Definition summarize : Tk unit :=
  nowMs <- now_ms;;
  h <- this;;
  t <- locals;;
  let '(storm, t) := summary nowMs (breakWindowEpoch_ h) t in
  when storm (events EvBreakStorm);;
  set_locals (fun _ => t).

(** One round of the loop; [None] is a queue that stayed empty for 100 ms.
    [false] when the task leaves the loop. *)
Definition task_round (e : option uart_event_t) : Tk bool :=
  match e with
  | None => ret true
  | Some e =>
      h <- this;;
      if negb (running h) then ret false
      else
        skip <- dispatch e;;
        (if (skip : bool) then ret tt else summarize);;
        ret true
  end.

(** [while (hal->running)] over the events the queue delivers. *)
Fixpoint task_loop (l : list (option uart_event_t)) : Tk unit :=
  match l with
  | [] => ret tt
  | e :: l =>
      h <- this;;
      if negb (running h) then ret tt
      else
        go <- task_round e;;
        if (go : bool) then task_loop l else ret tt
  end.

(** The body, [ok] telling whether [malloc] found the room for the receive
    buffer. *)
Definition uart_event_task (ok : bool) (l : list (option uart_event_t)) : Tk unit :=
  counted (fun h => h <| running := true |>);;
  h <- this;;
  set_locals (fun t => mkLocals (stream_buf_size_ h) 0 0 0 0 0 0 (sSingleCoreYieldCounter t));;
  if negb ok then ret tt
  else
    task_loop l;;
    h <- this;;
    when (task_exit_sem h) (_ <- on_hal (call xSemaphoreGive);; ret tt).
End Task.

(** ** The task and the link *)

Section Safe.
Context {D : Type} `{Idf D} (evCore : Z).
#[local] Existing Instance task_hal.
Context (yield : World (EspHal D) -> World (EspHal D)) (fuel : nat) (cw : Z) (c : AutoLinkConfig).
Context (Hc : cfg_ok c) (Hy : background (H0 := task_hal evCore) yield).

Definition link_reachable (s : Task (D := D)) : Prop :=
  reachable (H0 := task_hal evCore) yield fuel cw c (snd s).
Abbreviation safe := (keeps False link_reachable).

Lemma events_safe e : safe (events evCore e).
Proof.
  intros [t w] Hw. pose proof (reachable_event yield fuel cw c w e Hc Hy Hw) as He.
  unfold wp, wpd in *. unfold events. cbn [fst snd]. by destruct (handle e w) as [[[] w']|].
Qed.

Lemma on_hal_safe {A} (m : M (EspHal D) A) : (forall h, m h <> None) -> safe (on_hal m).
Proof.
  intros Hm [t w] Hw. unfold wpd, on_hal. cbn [fst snd]. specialize (Hm (hal w)).
  destruct (m (hal w)) as [[a h]|]; [|done]. by apply reachable_hal.
Qed.

Lemma call_safe f : safe (on_hal (call f)).
Proof. apply on_hal_safe. intros h. unfold call. by destruct (idf f (dev h)). Qed.
Lemma now_ms_safe : safe now_ms.
Proof.
  apply on_hal_safe. intros h. unfold timer_ms, bind, call. by destruct (idf _ (dev h)).
Qed.
Lemma counted_safe f : safe (counted f).
Proof. by apply on_hal_safe. Qed.
Lemma set_locals_safe f : safe (set_locals f).
Proof. by intros s Hs. Qed.

Ltac safe_step :=
  lazymatch goal with
  | |- keeps _ _ (events _ _) => apply events_safe
  | |- keeps _ _ (on_hal (call _)) => apply call_safe
  | |- keeps _ _ now_ms => apply now_ms_safe
  | |- keeps _ _ (counted _) => apply counted_safe
  | |- keeps _ _ (set_locals _) => apply set_locals_safe
  | |- keeps _ _ this => apply keeps_gets
  | |- keeps _ _ locals => apply keeps_gets
  | |- _ => keeps_step
  end.

Lemma dispatch_safe e : safe (dispatch evCore e).
Proof.
  destruct e; cbn [dispatch]; unfold on_data, yield_cpu, on_overflow, on_framing; repeat safe_step.
Qed.

Lemma task_round_safe e : safe (task_round evCore e).
Proof.
  unfold task_round. destruct e as [e|]; [|apply keeps_ret]. repeat safe_step.
  - apply dispatch_safe.
  - unfold summarize. repeat safe_step.
Qed.

Lemma task_loop_safe l : safe (task_loop evCore l).
Proof. induction l as [|e l IH]; cbn [task_loop]; [apply keeps_ret|]. repeat safe_step; [|done]. apply task_round_safe. Qed.

End Safe.

(** ** How often a BREAK reaches the link *)

(** A BREAK: when it came, when the baud rate was last set, the epoch, and the
    time the summary reads. *)
Record Brk := mkBrk { at_ms : Z; setspd_ms : Z; epoch : Z; sum_ms : Z }.

(** The times of the BREAKs delivered. *)
Fixpoint break_run (l : list Brk) (t : Locals) : list Z * Locals :=
  match l with
  | [] => ([], t)
  | b :: l =>
      let '(deliver, t) := on_break (u32 (at_ms b)) (setspd_ms b) (epoch b) t in
      let t := if deliver then snd (summary (sum_ms b) (epoch b) t) else t in
      let '(ds, t) := break_run l t in
      (if deliver then at_ms b :: ds else ds, t)
  end.

Lemma summary_keeps_last n e t : last_break_ms (snd (summary n e t)) = last_break_ms t.
Proof. unfold summary. repeat case_match; done. Qed.
Lemma open_keeps_last e t : last_break_ms (open_window e t) = last_break_ms t.
Proof. unfold open_window. by case_match. Qed.

(** After a BREAK at [L] that counted for the debounce. *)
Lemma break_run_after l : forall L hi t,
  last_break_ms t = u32 L -> Forall (fun b => L <= at_ms b <= hi) l ->
  StronglySorted (fun a b => at_ms a <= at_ms b) l -> hi - L < 4294967296 -> L <= hi ->
  120 * lenZ (fst (break_run l t)) <= hi - L.
Proof.
  induction l as [|b l IH]; intros L hi t HL Hin Hs Hhi Hle; cbn [break_run].
  { unfold lenZ. cbn. lia. }
  inversion Hin as [|? ? Hb Hin']; subst. inversion Hs as [|? ? Hs' Hb']; subst.
  assert (Hnext : Forall (fun x => at_ms b <= at_ms x <= hi) l).
  { rewrite List.Forall_forall in *. intros x Hx. specialize (Hin' x Hx). specialize (Hb' x Hx). lia. }
  unfold on_break. destruct (_ <? POST_SETSPD_BREAK_GUARD_MS).
  - specialize (IH (at_ms b) hi).
    match goal with |- context [break_run l ?t'] => specialize (IH t') end.
    destruct (break_run l _) as [ds t'] eqn:E. cbn [fst] in *. cut (120 * lenZ ds <= hi - at_ms b); [lia|].
    apply IH; done || lia.
  - rewrite open_keeps_last, HL. unfold BREAK_DEBOUNCE_MS.
    assert (Ed : u32 (u32 (at_ms b) - u32 L) = at_ms b - L).
    { unfold u32. rewrite <- Zminus_mod. apply Z.mod_small. lia. }
    rewrite Ed. destruct (Z.ltb_spec (at_ms b - L) 120).
    + match goal with |- context [break_run l ?t'] => specialize (IH L hi t') end.
      destruct (break_run l _) as [ds t'] eqn:E. cbn [fst] in *.
      apply IH; try done. cbn. by rewrite open_keeps_last.
    + match goal with |- context [break_run l ?t'] => specialize (IH (at_ms b) hi t') end.
      destruct (break_run l _) as [ds t'] eqn:E. cbn [fst] in *. rewrite lenZ_cons.
      cut (120 * lenZ ds <= hi - at_ms b); [lia|].
      apply IH; try done; try lia. by rewrite summary_keeps_last.
Qed.

(** C12: BREAKs are rate limited: over any stretch of at most 2^32 ms, however
    many BREAKs the wire produces and whatever the state the stretch starts
    in, they reach the link at most once every 120 ms (one more for the first),
    also across the wrap of the millisecond counter. *)
Theorem break_rate_bound l t lo hi :
  Forall (fun b => lo <= at_ms b <= hi) l ->
  StronglySorted (fun a b => at_ms a <= at_ms b) l -> hi - lo < 4294967296 -> lo <= hi ->
  120 * (lenZ (fst (break_run l t)) - 1) <= hi - lo.
Proof.
  revert t. induction l as [|b l IH]; intros t Hin Hs Hhi Hle; [unfold lenZ; cbn; lia|].
  inversion Hin as [|? ? Hb Hin']; subst. inversion Hs as [|? ? Hs' Hb']; subst.
  assert (Hnext : Forall (fun x => at_ms b <= at_ms x <= hi) l).
  { rewrite List.Forall_forall in *. intros x Hx. specialize (Hin' x Hx). specialize (Hb' x Hx). lia. }
  cbn [break_run]. unfold on_break. destruct (_ <? POST_SETSPD_BREAK_GUARD_MS); [|destruct (_ <? BREAK_DEBOUNCE_MS)].
  - match goal with |- context [break_run l ?t'] => pose proof (break_run_after l (at_ms b) hi t') as Hr end.
    destruct (break_run l _) as [ds t']. cbn [fst] in *. cut (120 * lenZ ds <= hi - at_ms b); [lia|].
    apply Hr; done || lia.
  - match goal with |- context [break_run l ?t'] => specialize (IH t') end.
    destruct (break_run l _) as [ds t']. by apply IH.
  - match goal with |- context [break_run l ?t'] => pose proof (break_run_after l (at_ms b) hi t') as Hr end.
    destruct (break_run l _) as [ds t']. cbn [fst] in *. rewrite lenZ_cons.
    cut (120 * lenZ ds <= hi - at_ms b); [lia|].
    apply Hr; try done; try lia. by rewrite summary_keeps_last.
Qed.

(** ** What a storm is *)

(** The BREAKs of one window, and how many of them were held back. *)
Fixpoint window_run (l : list Brk) (t : Locals) : Locals :=
  match l with
  | [] => t
  | b :: l => window_run l (snd (on_break (u32 (at_ms b)) (setspd_ms b) (epoch b) t))
  end.
Fixpoint held_back (l : list Brk) (t : Locals) : Z :=
  match l with
  | [] => 0
  | b :: l =>
      let r := on_break (u32 (at_ms b)) (setspd_ms b) (epoch b) t in
      (if fst r then 0 else 1) + held_back l (snd r)
  end.

Definition fresh_window (t : Locals) : Prop :=
  suppressed_count_window t = 0 /\ delivered_count_window t = 0 /\ storm_announced t = 0.

Lemma on_break_counts now s e t :
  0 <= suppressed_count_window t -> 0 <= delivered_count_window t ->
  suppressed_count_window t + delivered_count_window t < 4294967295 ->
  let r := on_break now s e t in
  suppressed_count_window (snd r) = suppressed_count_window t + (if fst r then 0 else 1) /\
  delivered_count_window (snd r) = delivered_count_window t + (if fst r then 1 else 0) /\
  storm_announced (snd r) = storm_announced t /\ last_break_summary_ms (snd r) = last_break_summary_ms t /\
  window_epoch_at_open (snd r) =
    if suppressed_count_window t + delivered_count_window t =? 0 then e else window_epoch_at_open t.
Proof.
  intros H1 H2 H3 r.
  assert (Ho : suppressed_count_window (open_window e t) = suppressed_count_window t /\
    delivered_count_window (open_window e t) = delivered_count_window t /\
    storm_announced (open_window e t) = storm_announced t /\
    last_break_summary_ms (open_window e t) = last_break_summary_ms t /\
    window_epoch_at_open (open_window e t) =
      if suppressed_count_window t + delivered_count_window t =? 0 then e else window_epoch_at_open t).
  { unfold open_window.
    destruct (Z.eqb_spec (suppressed_count_window t) 0), (Z.eqb_spec (delivered_count_window t) 0); cbn [andb];
      destruct (Z.eqb_spec (suppressed_count_window t + delivered_count_window t) 0); done || lia. }
  destruct Ho as (O1 & O2 & O3 & O4 & O5).
  unfold r, on_break. destruct (_ <? POST_SETSPD_BREAK_GUARD_MS); [|destruct (_ <? BREAK_DEBOUNCE_MS)];
    cbn; rewrite ?O1, ?O2, ?O3, ?O4, ?O5, u32_small by (unfold is_u32; lia); split_and!; done || lia.
Qed.

(** A window that is open. *)
Lemma window_run_open l : forall t,
  0 <= suppressed_count_window t -> 0 <= delivered_count_window t ->
  0 < suppressed_count_window t + delivered_count_window t ->
  suppressed_count_window t + delivered_count_window t + lenZ l < 4294967296 ->
  suppressed_count_window (window_run l t) = suppressed_count_window t + held_back l t /\
  storm_announced (window_run l t) = storm_announced t /\
  last_break_summary_ms (window_run l t) = last_break_summary_ms t /\
  window_epoch_at_open (window_run l t) = window_epoch_at_open t.
Proof.
  induction l as [|b l IH]; intros t H1 H2 H3 H4; cbn [window_run held_back]; [split_and!; done || lia|].
  rewrite lenZ_cons in H4. pose proof (lenZ_nonneg l).
  destruct (on_break_counts (u32 (at_ms b)) (setspd_ms b) (epoch b) t) as (C1 & C2 & C3 & C4 & C5); try lia.
  set (r := on_break _ _ _ t) in *. replace (_ + _ =? 0) with false in C5 by lia.
  destruct (IH (snd r)) as (I1 & I2 & I3 & I4); try (destruct (fst r); lia).
Qed.

(** C13: What a storm is: after the BREAKs [l] of a window that was empty, the
    summary reports a storm exactly when a second has passed since the last
    one, at least eight of them were held back, and no lock has come between
    the first of them and the summary. *)
Theorem storm_verdict l t now e :
  fresh_window t -> lenZ l < 4294967296 ->
  fst (summary now e (window_run l t)) = true <->
    1000 <= u32 (now - last_break_summary_ms t) /\ 8 <= held_back l t /\
    exists b l', l = b :: l' /\ epoch b = e.
Proof.
  intros (F1 & F2 & F3) Hl. unfold summary, BREAK_SUMMARY_MS, BREAK_STORM_THRESHOLD.
  destruct l as [|b l]; cbn [window_run held_back].
  { rewrite F1, F2. cbn [Z.ltb Z.compare orb]. rewrite !andb_false_r. cbn [andb].
    split; [case_match; done|]. intros (_ & ? & _). lia. }
  rewrite lenZ_cons in Hl. pose proof (lenZ_nonneg l).
  destruct (on_break_counts (u32 (at_ms b)) (setspd_ms b) (epoch b) t) as (C1 & C2 & C3 & C4 & C5); try lia.
  set (r := on_break _ _ _ t) in *. rewrite F1, F2 in *. cbn in C5.
  destruct (window_run_open l (snd r)) as (I1 & I2 & I3 & I4); try (destruct (fst r); lia).
  rewrite I1, I2, I3, I4, C1, C3, C4, C5, F3.
  assert (Hh : 0 + (if fst r then 0 else 1) + held_back l (snd r) = (if fst r then 0 else 1) + held_back l (snd r))
    by lia.
  rewrite Hh. set (n := (if fst r then 0 else 1) + held_back l (snd r)).
  destruct (Z.leb_spec 1000 (u32 (now - last_break_summary_ms t))); cbn [fst].
  - rewrite !andb_true_iff, Z.leb_le, negb_true_iff, negb_false_iff, Z.eqb_eq. split.
    + intros (((E & _) & ?) & _). split_and!; try done. by exists b, l.
    + intros (_ & ? & b' & l' & [= <- <-] & E). split_and!; try done. apply orb_true_iff. left.
      apply Z.ltb_lt. lia.
  - split; [done|]. intros (? & _). lia.
Qed.

(** ** On the mock device *)

Definition demo_break (ms : Z) : Brk := mkBrk ms 0 1 ms.
Definition demo_locals : Locals := mkLocals 256 0 0 0 0 0 0 0.

(** A BREAK every 50 ms for two seconds, across the wrap of the clock. *)
Definition demo_noise : list Brk := map (fun k => demo_break (4294966000 + 50 * Z.of_nat k)) (seq 0 40).

Lemma demo_noise_sorted : StronglySorted (fun a b => at_ms a <= at_ms b) demo_noise.
Proof. repeat constructor; cbn; lia. Qed.

Lemma break_rate_bound_witness :
  lenZ (fst (break_run demo_noise demo_locals)) = 13 /\
  120 * (lenZ (fst (break_run demo_noise demo_locals)) - 1) <= 4294967950 - 4294966000.
Proof.
  split; [vm_compute; reflexivity|].
  apply (break_rate_bound demo_noise demo_locals 4294966000 4294967950); [|apply demo_noise_sorted|lia|lia].
  repeat constructor; cbn; lia.
Defined.

Definition demo_burst : list Brk := map (fun k => demo_break (200 + 10 * Z.of_nat k)) (seq 0 9).

Lemma storm_verdict_witness :
  fst (summary 1200 1 (window_run demo_burst demo_locals)) = true <->
    1000 <= u32 (1200 - last_break_summary_ms demo_locals) /\ 8 <= held_back demo_burst demo_locals /\
    exists b l', demo_burst = b :: l' /\ epoch b = 1.
Proof. apply storm_verdict; [done|vm_compute; reflexivity]. Defined.

(** The task on a slave that has just begun. *)
Definition demo_dev : World (EspHal MockIdf) := fresh (H := EspHal MockIdf) 32 false demo_cfg demo_up.
Definition demo_begun : World (EspHal MockIdf) :=
  match begin (H0 := task_hal 0) (fun w => w) demo_dev with Some (_, w) => w | None => demo_dev end.

Lemma demo_begun_reachable : reachable (H0 := task_hal 0) (fun w => w) 10 32 demo_cfg demo_begun.
Proof.
  exists false, demo_up, true, demo_begun. split; [vm_compute; reflexivity|]. apply relations.rtc_refl.
Qed.

End UartEvent.
