(* ===== verification/Receiver.v ===== *)
(** * In-order delivery

    What [onPayload] does to the application's byte queue, branch by branch,
    and what follows for a sequence of frames: in ASYNC mode the queue receives
    exactly the payloads of the accepted frames, whose sequence numbers are
    consecutive; over a burst whose chunks lie within one lap of the sequence
    ring these are the next chunks of the sender's stream, in order, without
    loss, duplicate or reordering. *)
From S2P Require Import Prelude Monad Crc MsgCodec FrameRx Config Decision ArqCache Arq Hal.
From S2P Require Import LinkState Timing Tx Core Sweep Gbn Rx Frames.
Import MsgCodec FrameRx Config Decision ArqCache Arq Hal LinkState Timing Tx Core Sweep Gbn Rx Frames.

Module Receiver.

(** ** Preservation with the queue in view *)

Section Rules.
Context {H : Type} `{HalApp H} (d : Prop) (J : Link -> list Z * Z -> Prop).

Definition onq : World H -> Prop := fun w => J (lk w) (appv (hal w)).

Lemma keepsq_hw {A} (f : H -> A * H) : (forall h, appv (snd (f h)) = appv h) -> keeps d onq (hw f).
Proof. intros Hf w Hw. unfold wpd, hw, onq. cbn. by rewrite Hf. Qed.

Lemma keepsq_hwdo (f : H -> H) : (forall h, appv (f h) = appv h) -> keeps d onq (hwdo f).
Proof. intros Hf w Hw. unfold wpd, hwdo, modify, onq. cbn. by rewrite Hf. Qed.

Lemma keepsq_upd f : (forall l q, J l q -> J (f l) q) -> keeps d onq (upd f).
Proof. intros Hf w Hw. by apply Hf. Qed.

Lemma keepsq_link {A} (f : Link -> Act H A) : (forall l, keeps d onq (f l)) -> keeps d onq (bind link f).
Proof. intros Hf w Hw. by apply (Hf (lk w)). Qed.
End Rules.

(** Walk a method that leaves the queue and what [J] reads alone. *)
Ltac kq_step :=
  lazymatch goal with
  | |- keeps _ _ (bind link _) => apply keepsq_link; intros ?
  | |- keeps _ _ (hw _) => apply keepsq_hw; intros ?;
      first [apply app_of_now | apply app_of_free | apply app_of_tx | apply app_of_txAvail
            | apply app_of_avail]
  | |- keeps _ _ (hwdo _) => apply keepsq_hwdo; intros ?;
      first [apply app_of_timer | apply app_of_break | apply app_of_setSpd | apply app_of_discard
            | apply app_of_flushRx | apply app_of_okState | apply app_of_delay]
  | |- keeps _ _ (upd _) => apply keepsq_upd; let Hl := fresh "Hl" in intros ? ? Hl; exact Hl
  | |- keeps _ _ (let _ := _ in _) => cbv zeta
  | |- _ => keeps_step
  end.
Ltac kq := repeat first [ solve [auto with keeps nocore] | kq_step ].

(** ** The receiver's state *)

(** Last accepted sequence number (if any), queue and capacity, in an ASYNC
    session. *)
Definition rcv_P (s : Z) (set : bool) (q : list Z) (cap : Z) (l : Link) (v : list Z * Z) : Prop :=
  rxSeq (rxg l) = s /\ rxSeqSet (rxg l) = set /\ v = (q, cap) /\ state l = OK /\
  is_sync (mode (cfg l)) = false.

Section Receiver.
Context {H : Type} `{HalApp H} (d : Prop).

Definition rcv (s : Z) (set : bool) (q : list Z) (cap : Z) : World H -> Prop :=
  onq (rcv_P s set q cap).

Section Fixed.
Context (s : Z) (set : bool) (q : list Z) (cap : Z).
Abbreviation same := (keeps d (rcv s set q cap)).

Lemma hw_tx_same b : same (hw_tx b).
Proof. unfold hw_tx, rcv. kq. Qed.
Hint Resolve hw_tx_same : keeps.

Lemma sendAckFrame_same a n : same (sendAckFrame a n).
Proof. unfold sendAckFrame, txSmallCobs, rcv. kq. Qed.
Hint Resolve sendAckFrame_same : keeps.
Lemma sendNakFrame_same a : same (sendNakFrame a).
Proof. unfold sendNakFrame, sendCtrlCobsFrame, txSmallCobs, rcv. kq. Qed.
Hint Resolve sendNakFrame_same : keeps.
Lemma noteValidFrameOk_same : same noteValidFrameOk.
Proof. unfold noteValidFrameOk, rcv. kq. Qed.
Hint Resolve noteValidFrameOk_same : keeps.
Lemma payload_stale_same a b n : same (payload_stale a b n).
Proof. unfold payload_stale, rcv. kq. Qed.
Hint Resolve payload_stale_same : keeps.
Lemma payload_gap_async_same : same payload_gap_async.
Proof. unfold payload_gap_async, rcv. kq. Qed.
Hint Resolve payload_gap_async_same : keeps.
Lemma payload_hold_same a : same (payload_hold a).
Proof. unfold payload_hold, rcv. kq. Qed.
Hint Resolve payload_hold_same : keeps.
Lemma clear_errs_same : same clear_errs.
Proof. unfold clear_errs, rcv. kq. Qed.
Hint Resolve clear_errs_same : keeps.
End Fixed.

(** The classification of [onPayload]. *)
Definition forward (c s : Z) (set : bool) : bool :=
  match fst (classifyGap c s set) with Forward => true | _ => false end.

(** ** [onPayload], branch by branch *)

(** What a method returns, whatever its calls do. *)
Ltac returns := repeat lazymatch goal with
  | |- wpd True (bind _ _) _ _ => apply wpd_bind, wpd_any; intros ? ?
  | |- wpd True (let _ := _ in _) _ _ => cbv zeta
  | |- wpd True (if ?b then _ else _) _ _ => destruct b
  | |- wpd True (ret _) _ _ => apply wpd_ret; reflexivity
  end.

Lemma payload_stale_false a b n (w : World H) :
  wpd True (payload_stale a b n) (fun r _ => r = false) w.
Proof. unfold payload_stale. returns. Qed.
Lemma payload_gap_async_false (w : World H) : wpd True payload_gap_async (fun r _ => r = false) w.
Proof. unfold payload_gap_async. returns. Qed.
Lemma payload_hold_false a (w : World H) : wpd True (payload_hold a) (fun r _ => r = false) w.
Proof. unfold payload_hold. returns. Qed.

Lemma false_same (m : Act H bool) s set q cap w :
  keeps d (rcv s set q cap) m -> (forall w, wpd True m (fun r _ => r = false) w) ->
  rcv s set q cap w -> wpd d m (fun r w' => r = false /\ rcv s set q cap w') w.
Proof.
  intros Hk Hf Hw. eapply wpd_mono; [apply wpd_and; [by apply Hk|by apply Hf]|].
  intros r w' [? ->]. done.
Qed.

Lemma advance_rxSeq_ok c s set q cap w :
  rcv s set q cap w -> wpd d (advance_rxSeq c) (fun _ w' => rcv c true q cap w') w.
Proof.
  intros (E1 & E2 & E3 & E4 & E5). unfold advance_rxSeq. ws.
  destruct (_ && _); ws; by split_and!.
Qed.

(** A delivered frame. *)
Lemma deliver_ok c n s set q cap w :
  rcv s set q cap w ->
  wpd d (l <- link;;
         when (holdNakActive_ (rxg l) && (c =? holdNakSeq_ (rxg l)) &&
               (rxSeqWrap_ (rxg l) =? holdNakWrap_ (rxg l))) (
           SET rxg holdNakActive_ := false;;
           SET rxg holdNakSeq_ := 0xFF;;
           SET rxg holdNakFreeAtSet_ := 0;;
           SET rxg holdNakLastMs_ := 0);;
         advance_rxSeq c;; sendAckFrame c n;; clear_errs;; ret false)
    (fun r w' => r = false /\ rcv c true q cap w') w.
Proof.
  intros Hw. apply wpd_bind, wpd_link, wpd_bind. eapply wpd_mono.
  { assert (Hk : forall b, keeps d (rcv s set q cap) (when b (
           SET rxg holdNakActive_ := false;;
           SET rxg holdNakSeq_ := 0xFF;;
           SET rxg holdNakFreeAtSet_ := 0;;
           SET rxg holdNakLastMs_ := 0))) by (intros b; unfold rcv; kq).
    apply Hk, Hw. }
  intros ? w1 Hw1. apply wpd_bind. eapply wpd_mono; [apply (advance_rxSeq_ok c s set q cap w1 Hw1)|].
  intros ? w2 Hw2. apply wpd_bind. eapply wpd_mono; [apply (sendAckFrame_same c true q cap), Hw2|].
  intros ? w3 Hw3. apply wpd_bind. eapply wpd_mono; [apply (clear_errs_same c true q cap), Hw3|].
  intros ? w4 Hw4. by split.
Qed.

(** The expected frame: delivered whole if it fits, left alone otherwise. *)
Lemma payload_forward_ok c b s set q cap w :
  bytes b -> 0 <= cap -> rcv s set q cap w ->
  wpd d (payload_forward c b)
    (fun r w' => r = false /\
       if (lenZ b =? 0) || (lenZ q + lenZ b <=? cap)
       then rcv c true (q ++ b) cap w' else rcv s set q cap w') w.
Proof.
  intros Hb Hcap Hw. unfold payload_forward. cbv zeta. destruct (Z.eqb_spec (lenZ b) 0) as [E0|E0]; cbn [orb].
  - assert (b = []) as -> by (destruct b; [done|unfold lenZ in E0; simpl in E0; lia]).
    rewrite app_nil_r. ws. eapply wpd_mono; [apply (clear_errs_same c true q cap)|].
    + destruct Hw as (E1 & E2 & E3 & E4 & E5). by split_and!.
    + intros ? w1 Hw1. ws. by split.
  - ws. pose proof Hw as (E1 & E2 & E3 & E4 & E5). pose proof (lenZ_nonneg b) as Hl.
    rewrite app_free by (rewrite ?E3; cbn; lia).
    assert (Hw1 : rcv s set q cap (mkWorld (lk w) (snd (appBufFree (hal w))))).
    { split_and!; try done. cbn. by rewrite app_of_free. }
    rewrite E3. cbn [fst snd]. destruct (Z.ltb_spec (cap - lenZ q) (lenZ b)) as [Hf|Hf].
    + replace (lenZ q + lenZ b <=? cap) with false by lia.
      apply false_same; [apply payload_hold_same|apply payload_hold_false|exact Hw1].
    + replace (lenZ q + lenZ b <=? cap) with true by lia. ws. cbn [hal].
      rewrite app_push_fit by (rewrite app_of_free, E3; cbn; lia).
      rewrite Z.eqb_refl. cbn [negb]. apply wpd_bind, wpd_upd. apply deliver_ok with (s := s) (set := set).
      split_and!; try done. cbn. rewrite app_push by done.
      rewrite app_push_fit by (rewrite app_of_free, E3; cbn; lia). rewrite app_of_free, E3. cbn [fst snd].
      unfold lenZ. by rewrite Nat2Z.id, firstn_all.
Qed.

(** In an ASYNC session: a frame that is not the expected one changes neither
    the queue nor the sequence state. *)
Lemma onPayload_ok c b s set q cap w :
  bytes b -> 0 <= cap -> rcv s set q cap w ->
  wpd d (onPayload c b)
    (fun r w' => r = false /\
       if forward c s set && ((lenZ b =? 0) || (lenZ q + lenZ b <=? cap))
       then rcv c true (q ++ b) cap w' else rcv s set q cap w') w.
Proof.
  intros Hb Hcap Hw. unfold onPayload. apply wpd_bind, wpd_link. pose proof Hw as (_ & _ & _ & Hok & _).
  destruct (decide (state (lk w) = SWP)); [congruence|].
  apply wpd_bind. eapply wpd_mono; [apply (noteValidFrameOk_same s set q cap), Hw|]. intros ? w1 Hw1.
  apply wpd_bind. eapply wpd_mono.
  { apply (keepsq_hw d (rcv_P s set q cap) nowMs); [apply app_of_now|exact Hw1]. }
  intros t w2 Hw2. cbv beta in Hw2. apply wpd_bind, wpd_upd, wpd_bind, wpd_upd, wpd_bind, wpd_link.
  match goal with |- wpd _ _ _ ?x => set (w3 := x) end.
  assert (Hw3 : rcv s set q cap w3) by exact Hw2. clearbody w3. clear Hw2 w2.
  pose proof Hw3 as (E1 & E2 & _ & _ & E5). rewrite E1, E2, E5. unfold forward.
  destruct (classifyGap c s set) as [[] df]; cbn [fst andb].
  - by apply payload_forward_ok.
  - apply false_same; [apply payload_stale_same|apply payload_stale_false|exact Hw3].
  - apply false_same; [apply payload_gap_async_same|apply payload_gap_async_false|exact Hw3].
Qed.

(** ** A burst of frames *)

Fixpoint deliver (l : list (Z * list Z)) : Act H unit :=
  match l with
  | [] => ret tt
  | (c, b) :: l => _ <- onPayload c b;; deliver l
  end.

End Receiver.

(** The abstract receiver sees the chunks [payload k] of the sender's stream by
    their position: it takes the next one if it fits and ignores every other. *)
Fixpoint accept (payload : Z -> list Z) (cap r : Z) (q : list Z) (ks : list Z) : Z * list Z :=
  match ks with
  | [] => (r, q)
  | k :: ks =>
      if (k =? r) && ((lenZ (payload k) =? 0) || (lenZ q + lenZ (payload k) <=? cap))
      then accept payload cap (r + 1) (q ++ payload k) ks
      else accept payload cap r q ks
  end.

(** What it has queued is a contiguous piece of the stream. *)
Lemma accept_stream payload cap ks : forall r q,
  exists n : nat, accept payload cap r q ks =
    (r + Z.of_nat n, q ++ concat (map (fun i => payload (r + Z.of_nat i)) (seq 0 n))).
Proof.
  induction ks as [|k ks IH]; intros r q; cbn [accept].
  { exists 0%nat. cbn. by rewrite Z.add_0_r, app_nil_r. }
  destruct (Z.eqb_spec k r) as [->|]; cbn [andb]; [|apply IH].
  destruct (_ || _); [|apply IH]. destruct (IH (r + 1) (q ++ payload r)) as [n ->]. exists (S n).
  f_equal; [lia|]. cbn [seq map concat]. rewrite Z.add_0_r, <- app_assoc. do 2 f_equal.
  rewrite <- seq_shift, map_map. f_equal. apply map_ext. intros i. f_equal. lia.
Qed.

Lemma seq_at_mod base i j : seq_at base i = seq_at base j <-> (i - j) mod 254 = 0.
Proof. unfold seq_at. split; intros E; mlia. Qed.

(** Within a lap the expected sequence number identifies the next chunk. *)
Lemma forward_next s0 k r :
  -254 < k - r < 254 -> forward (seq_at s0 k) (seq_at s0 (r - 1)) true = (k =? r).
Proof.
  intros Hk. unfold forward, classifyGap. cbn [negb].
  assert (E : (if seq_at s0 (r - 1) =? LD_SEQ_WRAP - 1 then 0 else u8 (seq_at s0 (r - 1) + 1)) = seq_at s0 r).
  { replace r with (r - 1 + 1) at 3 by lia. rewrite seq_at_succ. unfold LD_SEQ_WRAP.
    change (254 - 1) with 253. destruct (Z.eqb_spec (seq_at s0 (r - 1)) 253); [done|].
    pose proof (seq_at_range s0 (r - 1)) as Hr. unfold is_seq in Hr. apply u8_small. red. lia. }
  rewrite E. destruct (Z.eqb_spec (seq_at s0 k) (seq_at s0 r)) as [Es|Es].
  - apply seq_at_mod in Es. cbn. symmetry. apply Z.eqb_eq. mlia.
  - assert (k <> r) by congruence. replace (k =? r) with false by lia. cbv zeta. cbn [fst]. by destruct (_ || _).
Qed.

Section Burst.
Context {H : Type} `{HalApp H}.

(** C6: An ASYNC receiver in a session whose first chunk has come ([rcv _ true]) takes
    its chunks in order: whatever chunks a burst of data frames carries, in whatever
    order, with whatever gaps and however often, as long as all of them lie within
    one lap of 253 sequence numbers around the next expected one, it puts into the
    application buffer exactly the bytes the abstract in-order receiver [accept]
    keeps, and its expected sequence number moves past exactly the chunks it took.
    (A SYNC receiver is not meant: it takes a chunk after a gap, [payload_gap_sync].) *)
Theorem in_order_delivery payload s0 lo ks r q cap (w : World H) :
  0 <= cap -> (forall k, bytes (payload k)) -> (forall k, In k ks -> lo <= k < lo + 253) ->
  lo <= r <= lo + 253 -> rcv (seq_at s0 (r - 1)) true q cap w ->
  exists n w',
    deliver (map (fun k => (seq_at s0 k, payload k)) ks) w = Some (tt, w') /\
    accept payload cap r q ks = (r + Z.of_nat n, appq (hal w')) /\
    appq (hal w') = q ++ concat (map (fun i => payload (r + Z.of_nat i)) (seq 0 n)) /\
    rcv (seq_at s0 (r + Z.of_nat n - 1)) true (appq (hal w')) cap w'.
Proof.
  intros Hcap Hb Hks Hr Hw.
  enough (Hd : wp (deliver (map (fun k => (seq_at s0 k, payload k)) ks))
    (fun _ w' => rcv (seq_at s0 (fst (accept payload cap r q ks) - 1)) true
                   (snd (accept payload cap r q ks)) cap w') w).
  { destruct (wp_run _ _ _ Hd) as ([] & w' & E & Hw').
    destruct (accept_stream payload cap ks r q) as [n En]. rewrite En in Hw'. cbn [fst snd] in Hw'.
    assert (Hq : appq (hal w') = q ++ concat (map (fun i => payload (r + Z.of_nat i)) (seq 0 n))).
    { destruct Hw' as (_ & _ & Hv & _). unfold appq. by rewrite Hv. }
    exists n, w'. rewrite En, Hq. done. }
  revert r q w Hr Hw. induction ks as [|k ks IH]; intros r q w Hr Hw; cbn [map deliver accept].
  { by apply wpd_ret. }
  assert (Hk : lo <= k < lo + 253) by (apply Hks; by left).
  assert (Hks' : forall k, In k ks -> lo <= k < lo + 253) by (intros; apply Hks; by right).
  apply wpd_bind. eapply wpd_mono; [apply (onPayload_ok False _ _ (seq_at s0 (r - 1)) true q cap); [apply Hb|exact Hcap|exact Hw]|].
  intros b w1 [_ Hw1]. rewrite forward_next in Hw1 by lia.
  destruct (Z.eqb_spec k r) as [->|]; cbn [andb] in *; [|by apply IH].
  destruct (_ || _); [|by apply IH]. apply IH; [done|lia|]. by replace (r + 1 - 1) with r by lia.
Qed.
End Burst.

(** A receiver on the mock that expects sequence number 0. *)
Definition demo_rx : World MockHal :=
  let l := link_init (cache_init 32) false (default_config <| mode := ASYNC |>) in
  mkWorld (l <| rxg := (rxg l) <| rxSeqSet := true |> <| rxSeq := 253 |> |>) (mock_init 4096).
Definition demo_payload (k : Z) : list Z := [u8 k; 7].

Lemma in_order_delivery_witness :
  accept demo_payload 65536 0 [] [0; 0; 2; 1; 2] = (3, [0; 7; 1; 7; 2; 7]) /\
  exists n w',
    deliver (map (fun k => (seq_at 0 k, demo_payload k)) [0; 0; 2; 1; 2]) demo_rx = Some (tt, w') /\
    accept demo_payload 65536 0 [] [0; 0; 2; 1; 2] = (0 + Z.of_nat n, appq (hal w')) /\
    appq (hal w') = [] ++ concat (map (fun i => demo_payload (0 + Z.of_nat i)) (seq 0 n)) /\
    rcv (seq_at 0 (0 + Z.of_nat n - 1)) true (appq (hal w')) 65536 w'.
Proof.
  split; [reflexivity|].
  apply (in_order_delivery demo_payload 0 0 [0; 0; 2; 1; 2] 0 [] 65536 demo_rx).
  - lia.
  - intros k. repeat constructor; try apply u8_byte; lia.
  - cbn. intros k Hk. lia.
  - lia.
  - by split_and!.
Defined.

End Receiver.
