(* ===== verification/Wire.v ===== *)
(** * What is transmitted is what is received

    Every kind of COBS frame the link builds, fed to a peer's frame receiver,
    reaches exactly the callback it is meant for, with the same contents. *)
From S2P Require Import Prelude Monad Crc Cobs MsgCodec FrameRx Config Decision ArqCache Arq Hal.
From S2P Require Import LinkState Timing Tx Frames.
Import Crc Cobs MsgCodec FrameRx Config Decision ArqCache Arq Hal LinkState Timing Tx Frames.

Module Wire.

Section Peer.
Context {S : Type} `{FrameListenerLaws S}.

(** A frame of up to 252 sealed bytes, built in a large enough buffer. *)
Lemma feed_cobsFrame cap raw s :
  bytes raw -> raw <> [] -> lenZ raw <= 252 -> encodedMax (lenZ raw) <= Z.of_nat cap - 1 ->
  idx (getRx s) = 0 ->
  feed (cobsFrame cap raw) s = (dispatch (classify raw);; ret (lenZ (cobsFrame cap raw))) s.
Proof.
  intros Hb Hne Hl Hc Hi. rewrite cobsFrame_spec by done.
  pose proof (stuff_bound raw) as Hs. unfold encodedMax in Hs.
  assert (Hfit : lenZ (stuff [] raw) <= BUF_SIZE).
  { unfold BUF_SIZE. pose proof (lenZ_nonneg raw). mlia. }
  etransitivity; [exact (feed_frame raw s Hb Hne Hfit Hi)|].
  apply bind_eq. intros a s' _. f_equal. len. lia.
Qed.

Lemma data_frame_received cap seq b s :
  idx (getRx s) = 0 -> (256 <= cap)%nat -> 0 <= seq <= COBS_SEQ_MAX -> bytes b ->
  lenZ b <= MAX_CHUNK ->
  feed (cobsFrame cap (sealed (seq :: b))) s =
    (FrameRx.onPayload seq b;; ret (lenZ (cobsFrame cap (sealed (seq :: b))))) s.
Proof.
  intros Hi Hc' Hs Hb Hl. unfold COBS_SEQ_MAX, MAX_CHUNK in *.
  assert (Hbb : bytes (seq :: b)) by (constructor; [red; lia|done]).
  rewrite feed_cobsFrame; [|by apply sealed_bytes|done|..|done].
  - unfold sealed. by rewrite classify_payload.
  - unfold sealed. len. lia.
  - unfold sealed, encodedMax. len. pose proof (lenZ_nonneg b). mlia.
Qed.

Lemma ack_frame_received cap seq n s :
  idx (getRx s) = 0 -> (16 <= cap)%nat -> is_byte seq -> is_u16 n ->
  let body := [ACK_TYPE; seq; u8 (Z.land n 0xFF); u8 (Z.land (Z.shiftr n 8) 0xFF)] in
  feed (cobsFrame cap (sealed body)) s =
    (FrameRx.onAck seq n;; ret (lenZ (cobsFrame cap (sealed body)))) s.
Proof.
  intros Hi Hc Hs Hn body.
  assert (Hbb : bytes body).
  { unfold body, ACK_TYPE, bytes.
    do 4 (apply List.Forall_cons; [first [done | apply u8_byte | red; lia]|]). constructor. }
  rewrite feed_cobsFrame; [|by apply sealed_bytes|done|..|done].
  - unfold sealed. change (classify (body ++ [crc8 body])) with (classify (body ++ [Crc.crc8 body])).
    unfold body. by rewrite classify_ack.
  - done.
  - change (encodedMax (lenZ (sealed body))) with 6. lia.
Qed.

Lemma nak_frame_received cap seq s :
  idx (getRx s) = 0 -> (16 <= cap)%nat -> is_byte seq ->
  feed (cobsFrame cap (sealed [NAK_TYPE; seq])) s =
    (FrameRx.onNak seq;; ret (lenZ (cobsFrame cap (sealed [NAK_TYPE; seq])))) s.
Proof.
  intros Hi Hc Hs. rewrite feed_cobsFrame; [|apply sealed_bytes|done|..|done].
  - unfold sealed. by rewrite classify_nak.
  - unfold NAK_TYPE, bytes.
    do 2 (apply List.Forall_cons; [first [done | red; lia]|]). constructor.
  - done.
  - change (encodedMax (lenZ (sealed [NAK_TYPE; seq]))) with 4. lia.
Qed.

(** C18: Every frame the transmitter builds is taken back by the receiver's
    byte-fed state machine: a data frame of at most [MAX_CHUNK] bytes gives one
    call of [onPayload] with its sequence number and bytes, and a control frame
    one call of the control handler with its type, sequence number and length. *)
Theorem frames_are_received cap s :
  idx (getRx s) = 0 -> (16 <= cap)%nat ->
  (forall seq b, (256 <= cap)%nat -> 0 <= seq <= COBS_SEQ_MAX -> bytes b -> lenZ b <= MAX_CHUNK ->
     feed (cobsFrame cap (sealed (seq :: b))) s =
       (FrameRx.onPayload seq b;; ret (lenZ (cobsFrame cap (sealed (seq :: b))))) s) /\
  (forall seq n, is_byte seq -> is_u16 n ->
     let body := [ACK_TYPE; seq; u8 (Z.land n 0xFF); u8 (Z.land (Z.shiftr n 8) 0xFF)] in
     feed (cobsFrame cap (sealed body)) s =
       (FrameRx.onAck seq n;; ret (lenZ (cobsFrame cap (sealed body)))) s) /\
  (forall seq, is_byte seq ->
     feed (cobsFrame cap (sealed [NAK_TYPE; seq])) s =
       (FrameRx.onNak seq;; ret (lenZ (cobsFrame cap (sealed [NAK_TYPE; seq])))) s).
Proof.
  intros Hi Hc. split; [|split].
  - intros seq b Hc' Hs Hb Hl. by apply data_frame_received.
  - intros seq n Hs Hn. by apply ack_frame_received.
  - intros seq Hs. by apply nak_frame_received.
Qed.

(** A chunk crosses the wire. *)
Theorem chunk_transfer {T} `{IHal T} seq b (w : World T) s :
  0 <= seq <= COBS_SEQ_MAX -> bytes b -> lenZ b <= MAX_CHUNK ->
  kWorstCaseCobsFrame <= fst (txAvail (hal w)) -> idx (getRx s) = 0 ->
  exists f w',
    buildAndTxCobsFrame seq b w = Some (true, w') /\
    hal w' = snd (tx f (snd (txAvail (hal w)))) /\
    feed f s = (FrameRx.onPayload seq b;; ret (lenZ f)) s.
Proof.
  intros Hs Hb Hl Hr Hi. exists (cobsFrame 256 (sealed (seq :: b))).
  unfold buildAndTxCobsFrame, hw_tx. unfold bind at 1, hw. cbn [fst snd lk hal].
  destruct (Z.ltb_spec (fst (txAvail (hal w))) kWorstCaseCobsFrame); [lia|]. cbv zeta.
  assert (take (Z.to_nat MAX_CHUNK) b = b) as ->.
  { unfold lenZ in Hl. apply firstn_all2. lia. }
  eexists. split; [reflexivity|]. split; [reflexivity|].
  by apply data_frame_received.
Qed.

End Peer.

(** On the recorder and the mock. *)
Lemma frames_are_received_witness :
  feed (cobsFrame 256 (sealed [5; 0; 9])) (mkRecorder frame_reset []) =
    Some (lenZ (cobsFrame 256 (sealed [5; 0; 9])), mkRecorder frame_reset [Payload 5 [0; 9]]).
Proof.
  destruct (frames_are_received 256 (mkRecorder frame_reset [])) as [Hd _]; [reflexivity|lia|].
  rewrite (Hd 5 [0; 9]); [vm_compute; reflexivity|lia|unfold COBS_SEQ_MAX; lia| |].
  - vm_compute. repeat constructor; discriminate.
  - vm_compute. discriminate.
Defined.

Lemma chunk_transfer_witness :
  let w := mkWorld (link_init (cache_init 32) true default_config) (mock_init 4096) in
  exists f w',
    buildAndTxCobsFrame 3 [1; 2] w = Some (true, w') /\
    hal w' = snd (tx f (snd (txAvail (hal w)))) /\
    feed f (mkRecorder frame_reset []) =
      (FrameRx.onPayload 3 [1; 2];; ret (lenZ f)) (mkRecorder frame_reset []).
Proof.
  intros w. apply (chunk_transfer 3 [1; 2] w (mkRecorder frame_reset [])).
  - unfold COBS_SEQ_MAX. lia.
  - vm_compute. repeat constructor; discriminate.
  - vm_compute. discriminate.
  - vm_compute. discriminate.
  - reflexivity.
Defined.

End Wire.
