(* ===== verification/Acks.v ===== *)
(** * What an ACK and a NAK do to the window

    Exact statements for a session with [n] chunks in flight: an ACK of the
    [j]-th closes the first [j + 1], a NAK of the [j]-th closes the first [j]
    and leaves the missing chunk at the base; any other ACK or NAK leaves the
    window alone. *)
From S2P Require Import Prelude Monad MsgCodec FrameRx Config Decision ArqCache Arq Hal LinkState.
From S2P Require Import Timing Tx Core Sweep Gbn Rx Frames Sender.
Import MsgCodec FrameRx Config Decision ArqCache Arq Hal LinkState Timing Tx Core Sweep Gbn Rx
  Frames Sender.

Module Acks.

Section Acks.
Context {H : Type} `{IHal H}.

(** A chunk of the window is pending and within reach. *)
Lemma window_pending n t j :
  txw n t -> n <= 32 -> 0 <= j < n ->
  isPending (seq_at (gbnBase_ (arq_ t)) j) (arq_ t) = true /\
  idxOf (seq_at (gbnBase_ (arq_ t)) j) (arq_ t) = j.
Proof.
  intros [[_ _ Hb _ [_ Hp] _ _ _ _] _] Hn Hj. split.
  - apply Hp; [apply budgetIdx_range|]. by exists j.
  - unfold idxOf, seq_at, COBS_SEQ_SPACE, AUTOLINK_ARQ_PIPELINE_WINDOW. unfold is_seq in Hb.
    set (base := gbnBase_ (arq_ t)) in *. cbv zeta.
    assert (E : (base + j) mod 254 = base + j \/ (base + j) mod 254 = base + j - 254) by mlia.
    destruct E as [-> | ->].
    + replace (base + j - base) with j by lia. replace (j <? 0) with false by lia.
      by replace (32 >? j) with true by lia.
    + replace (base + j - 254 - base <? 0) with true by lia.
      replace (base + j - 254 - base + 254) with j by lia.
      by replace (32 >? j) with true by lia.
Qed.

(** A step that leaves the pinned part alone. *)
Ltac pin l0 := apply wpd_bind; eapply wpd_mono;
  [apply (frame_wpd False (pinned l0)); [solve [kt]|eassumption]|
   let h := fresh "Hpin" in intros ? ? h; cbv beta in h].

(** What the acknowledged (or missing) sequence number is to the window. *)
Lemma window_cases s n l l0 :
  is_byte s -> 0 <= n <= 32 -> txon (at_win n OK) l0 -> txon (pinned l0) l ->
  (exists j, 0 <= j < n /\ s = seq_at (gbnBase_ (arq_ (txg l0))) j /\
             isPending s (arq_ (txg l)) = true /\ idxOf s (arq_ (txg l)) = j) \/
  ((forall j, 0 <= j < n -> s <> seq_at (gbnBase_ (arq_ (txg l0))) j) /\
   (isPending s (arq_ (txg l)) = false \/ 0 < n /\ idxOf s (arq_ (txg l)) < 0)).
Proof.
  intros Hb Hn (_ & _ & Hx) (E & _). rewrite E.
  destruct (isPending s (arq_ (txg l0))) eqn:Hp.
  2: { right. split; [|by left]. intros j Hj ->. destruct (window_pending n _ j Hx) as [E' _]; [lia|done|].
       congruence. }
  assert (Hn0 : 0 < n).
  { destruct (decide (n = 0)) as [->|]; [|lia].
    by rewrite (win0_not_pending _ s Hx) in Hp. }
  destruct (Z.ltb_spec (idxOf s (arq_ (txg l0))) 0) as [Hi|Hi].
  - right. split; [|by right]. intros j Hj ->. destruct (window_pending n _ j Hx) as [_ E']; lia.
  - left. destruct (pending_at n (txg l0) s) as (j & Hj & _ & Hs); try done; [lia|].
    exists j. destruct (window_pending n _ j Hx) as [_ E']; [lia|done|]. rewrite Hs. rewrite Hs in Hp. done.
Qed.

Lemma onAck_ok acked b n (w : World H) :
  is_byte acked -> 0 <= n <= 32 -> txon (at_win n OK) (lk w) ->
  let base := gbnBase_ (arq_ (txg (lk w))) in
  wp (onAck acked b) (fun r w' => r = false /\
    ((exists j, 0 <= j < n /\ acked = seq_at base j /\ txon (at_win (n - j - 1) OK) (lk w') /\
                (gbnBase_ (arq_ (txg (lk w'))) = seq_at base (j + 1))) \/
     ((forall j, 0 <= j < n -> acked <> seq_at base j) /\ txon (pinned (lk w)) (lk w')))) w.
Proof.
  intros Hb Hn Hw base. set (l0 := lk w) in *.
  assert (Hp0 : txon (pinned l0) (lk w)) by done.
  pose proof Hw as (Hm & Hs & Hx). unfold onAck. apply wpd_bind, wpd_link. fold l0. rewrite Hs.
  destruct (decide (OK = SWP)); [done|]. clearbody l0.
  do 3 pin l0. apply wpd_bind, wpd_link.
  destruct (window_cases acked n _ l0 Hb Hn Hw Hpin1) as [(j & Hj & Hj1 & Hj2 & Hj3)|[Hno Hq]].
  - rewrite Hj2; cbn [negb]. do 5 pin l0. apply wpd_bind, wpd_link.
    pose proof Hpin6 as (E1 & E2 & E3). rewrite E2, Hm, E1. cbn [orb].
    pose proof Hx as [Hxw Hxa]. rewrite Hxa. replace (0 <? n) with true by lia. cbn [negb].
    destruct Hpin1 as (F1 & _ & _). rewrite F1 in Hj3. rewrite Hj3.
    replace (j <? 0) with false by lia.
    apply wpd_bind. eapply wpd_mono.
    { apply (ack_window_ok False acked b n OK j); [|lia|done|lia|by rewrite E1].
      split_and!; [by rewrite E2|by rewrite E3, Hs|by rewrite E1]. }
    intros ? w' [Hw' Hb']. apply wpd_ret. split; [done|]. left. exists j. split_and!; try done; try lia.
    rewrite Hb', Hj1. apply next_seq_at.
  - destruct (isPending acked (arq_ (txg (lk s'1)))) eqn:Hp; cbn [negb].
    2: { apply wpd_ret. split; [done|]. right. split; [done|exact Hpin1]. }
    destruct Hq as [|[Hn0 Hi]]; [done|]. do 5 pin l0. apply wpd_bind, wpd_link.
    pose proof Hpin6 as (E1 & E2 & E3). rewrite E2, Hm, E1. cbn [orb].
    destruct Hx as [_ Hxa]. rewrite Hxa. replace (0 <? n) with true by lia. cbn [negb].
    destruct Hpin1 as (F1 & _ & _). rewrite F1 in Hi. apply Z.ltb_lt in Hi. rewrite Hi.
    apply wpd_ret. split; [done|]. right. by split.
Qed.

(** C16: An ACK of the [j]-th chunk in flight closes the first [j + 1] and moves
    the base past it; an ACK of any other sequence number leaves the window and
    the tables alone. *)
Theorem onAck_cumulative acked b n (w : World H) :
  is_byte acked -> 0 <= n <= 32 -> txon (at_win n OK) (lk w) ->
  let base := gbnBase_ (arq_ (txg (lk w))) in
  exists w', onAck acked b w = Some (false, w') /\
    ((exists j, 0 <= j < n /\ acked = seq_at base j /\ txon (at_win (n - j - 1) OK) (lk w') /\
                (gbnBase_ (arq_ (txg (lk w'))) = seq_at base (j + 1))) \/
     ((forall j, 0 <= j < n -> acked <> seq_at base j) /\ txon (pinned (lk w)) (lk w'))).
Proof.
  intros Hb Hn Hw base. destruct (wp_run _ _ _ (onAck_ok acked b n w Hb Hn Hw)) as (r & w' & E & -> & Hr).
  by exists w'.
Qed.

(** ** NAK *)

(** [n] chunks in flight from sequence number [base] on. *)
Definition at_base (base n : Z) (st : State) (t : TxG) (m : Mode) (s : State) : Prop :=
  at_win n st t m s /\ gbnBase_ (arq_ t) = base.

(** A resend leaves the window where it is. *)
Lemma upd_arq_at base n st f :
  (forall a, arq_wf a -> same_window a (f a)) ->
  keeps False (on (H := H) (txon (at_base base n st))) (upd (rset txg (rset arq_ f))).
Proof.
  intros Hf. apply keeps_upd. intros l [(Hm & Hs & Hw) Hb].
  assert (Hsw : same_window (arq_ (txg l)) (f (arq_ (txg l)))) by apply Hf, Hw.
  split; [|cbn; by rewrite (proj1 (proj2 Hsw))].
  split_and!; [done|done|by apply txw_same].
Qed.

#[local] Hint Resolve retxSeq_frame : keeps.

Lemma resend_loop_at base n st k s now :
  keeps False (on (H := H) (txon (at_base base n st))) (resend_loop k s now).
Proof.
  revert s. induction k as [|k IH]; intros s; cbn [resend_loop]; kt.
  apply upd_arq_at. intros ? ?. by apply same_applyRetx.
Qed.
Hint Resolve resend_loop_at : keeps.

Lemma gbnResendWindow_at base n st now :
  keeps False (on (H := H) (txon (at_base base n st))) (gbnResendWindow now).
Proof. unfold gbnResendWindow. kt. Qed.
Hint Resolve gbnResendWindow_at : keeps.

Lemma nak_resend_at base n st missing :
  keeps False (on (H := H) (txon (at_base base n st))) (nak_resend missing).
Proof.
  unfold nak_resend. kt; apply upd_arq_at; intros ? ?;
    [by apply same_noteSuppressedNak..|by apply same_onNaked].
Qed.
Hint Resolve nak_resend_at : keeps.

(** Closing the chunks before the missing one. *)
Lemma nak_close missing base n st j (w : World H) :
  0 <= j < n -> n <= 32 -> txon (at_base base n st) (lk w) -> missing = seq_at base j ->
  wpd False (when (negb (missing =? base)) (nak_walk 34 missing 0))
    (fun _ w' => txon (at_base missing (n - j) st) (lk w')) w.
Proof.
  intros Hj Hn [Hw Hb] Hmi. destruct (Z.eqb_spec missing base) as [E|Hne]; cbn [negb when].
  - apply wpd_ret. assert (Hs : is_seq base) by (rewrite <- Hb; apply Hw).
    assert (j = 0) as ->.
    { rewrite E in Hmi. rewrite <- (seq_at_0 base Hs) in Hmi at 1. apply seq_at_inj in Hmi; lia. }
    rewrite E, Z.sub_0_r. by split.
  - eapply wpd_mono; [apply (nak_walk_ok False 34 missing st j n); try lia; [done|by rewrite Hb]|].
    intros ? w' [Hw' Hb']. by split.
Qed.

Lemma onNak_ok missing n (w : World H) :
  is_byte missing -> 0 <= n <= 32 -> txon (at_win n OK) (lk w) ->
  let base := gbnBase_ (arq_ (txg (lk w))) in
  wp (onNak missing) (fun r w' => r = false /\
    ((exists j, 0 <= j < n /\ missing = seq_at base j /\
                txon (at_base missing (n - j) OK) (lk w')) \/
     ((forall j, 0 <= j < n -> missing <> seq_at base j) /\ txon (pinned (lk w)) (lk w')))) w.
Proof.
  intros Hb Hn Hw base. set (l0 := lk w) in *.
  assert (Hp0 : txon (pinned l0) (lk w)) by done.
  pose proof Hw as (Hm & Hs & Hx). unfold onNak. apply wpd_bind, wpd_link. fold l0. rewrite Hs.
  destruct (decide (OK = SWP)); [done|]. clearbody l0.
  do 3 pin l0. apply wpd_bind, wpd_link.
  destruct (isPending missing (arq_ (txg (lk s'1)))) eqn:Hp; cbn [negb].
  2: { apply wpd_ret. split; [done|]. right.
       destruct (window_cases missing n _ l0 Hb Hn Hw Hpin1) as [(j & _ & _ & E & _)|[Hno _]];
         [by rewrite Hp in E|]. split; [done|exact Hpin1]. }
  do 2 pin l0. pose proof Hpin1 as (F1 & F2 & _). rewrite F2, Hm. pose proof Hx as [Hxw Hxa].
  destruct (window_cases missing n _ l0 Hb Hn Hw Hpin1) as [(j & Hj & Hj1 & Hj2 & Hj3)|[Hno Hq]].
  - rewrite Hj3, F1, Hxa. replace (0 <? n) with true by lia. replace (0 <=? j) with true by lia.
    rewrite andb_true_r. cbn [andb]. apply wpd_bind. eapply wpd_mono.
    { apply (nak_close missing base n OK j); [lia|lia| |done].
      destruct Hpin3 as (G1 & G2 & G3). split; [|by rewrite G1].
      split_and!; [by rewrite G2|by rewrite G3, Hs|by rewrite G1]. }
    intros ? w1 Hw1. cbv beta in Hw1. apply wpd_bind, wpd_link.
    destruct Hw1 as [(Hm1 & Hs1 & Hx1 & Ha1) Hb1]. rewrite Ha1, Hb1, Z.eqb_refl.
    replace (0 <? n - j) with true by lia. cbn [andb when]. apply wpd_bind. eapply wpd_mono.
    { apply (frame_wpd False (at_base missing (n - j) OK)); [apply nak_resend_at|by split_and!]. }
    intros ? w' Hw'. apply wpd_ret. split; [done|]. left. by exists j.
  - assert (Hne : gbnActive_ (arq_ (txg (lk s'1))) && (missing =? base) = false).
    { rewrite F1, Hxa. destruct (Z.ltb_spec 0 n); [|done]. cbn [andb]. apply Z.eqb_neq.
      rewrite <- (seq_at_0 base) by apply Hxw. apply Hno. lia. }
    destruct Hq as [Hq|[Hn0 Hi]]; [by rewrite Hp in Hq|].
    replace (0 <=? idxOf missing (arq_ (txg (lk s'1)))) with false by lia.
    rewrite andb_false_r. cbn [when]. apply wpd_bind, wpd_ret, wpd_bind, wpd_link.
    pose proof Hpin3 as (G1 & _). rewrite F1 in Hne. rewrite G1. fold base. rewrite Hne. cbn [when].
    apply wpd_bind, wpd_ret, wpd_ret. split; [done|]. right. by split.
Qed.

(** C17: A NAK of the [j]-th chunk in flight acknowledges the [j] before it and
    makes the missing chunk the base of the window; a NAK of any other sequence
    number leaves the window and the tables alone. *)
Theorem onNak_cumulative missing n (w : World H) :
  is_byte missing -> 0 <= n <= 32 -> txon (at_win n OK) (lk w) ->
  let base := gbnBase_ (arq_ (txg (lk w))) in
  exists w', onNak missing w = Some (false, w') /\
    ((exists j, 0 <= j < n /\ missing = seq_at base j /\
                txon (at_base missing (n - j) OK) (lk w')) \/
     ((forall j, 0 <= j < n -> missing <> seq_at base j) /\ txon (pinned (lk w)) (lk w'))).
Proof.
  intros Hb Hn Hw base. destruct (wp_run _ _ _ (onNak_ok missing n w Hb Hn Hw)) as (r & w' & E & -> & Hr).
  by exists w'.
Qed.
End Acks.

(** Two chunks in flight on the mock, numbers 0 and 1. *)
Definition demo_open (b : list Z) (t : TxG) : TxG :=
  mkTxG (next_seq (txSeq t)) (txSeqLap_ t)
    (onSent (txSeq t) (lenZ b) 0 (txSeqLap_ t) (open_at (txSeq t) (arq_ t)))
    (insert (txSeq t) b (arqCache_ t)).
Definition demo_idle : TxG :=
  txg (link_init (cache_init 32) false (default_config <| mode := ASYNC |>)).
Definition demo_two : World MockHal :=
  let l := link_init (cache_init 32) false (default_config <| mode := ASYNC |>) in
  mkWorld (l <| state := OK |> <| txg := demo_open [5; 6] (demo_open [4] demo_idle) |>)
    (mock_init 4096).

Lemma demo_idle_win : txw 0 demo_idle.
Proof.
  apply txw_empty; [split; [apply arq_clearAll_idle|by vm_compute]|by apply init_ok|].
  intros s Hs. unfold contents, slot.
  cbn [pending_ cache_init arqCache_ txg link_init demo_idle]. unfold SLOTS in Hs.
  by rewrite (rd_replicate free_slot 256) by lia.
Qed.

Lemma demo_two_win : txon (at_win 2 OK) (lk demo_two).
Proof.
  split; [done|split; [done|]]. change (txw (1 + 1) (demo_open [5; 6] (demo_open [4] demo_idle))).
  unfold demo_open at 1. apply open_win; [|lia|done|by vm_compute|by vm_compute].
  change 1 with (0 + 1). unfold demo_open.
  apply open_win; [apply demo_idle_win|lia|done|by vm_compute|by vm_compute].
Qed.

(** The second chunk is acknowledged: both are closed. *)
Lemma onAck_cumulative_witness :
  exists w', onAck 1 3 demo_two = Some (false, w') /\
    ((exists j, 0 <= j < 2 /\ 1 = seq_at 0 j /\ txon (at_win (2 - j - 1) OK) (lk w') /\
                (gbnBase_ (arq_ (txg (lk w'))) = seq_at 0 (j + 1))) \/
     ((forall j, 0 <= j < 2 -> 1 <> seq_at 0 j) /\ txon (pinned (lk demo_two)) (lk w'))).
Proof.
  apply (onAck_cumulative 1 3 2 demo_two); [unfold is_byte; lia|lia|apply demo_two_win].
Defined.

(** The second chunk is missing: the first is closed. *)
Lemma onNak_cumulative_witness :
  exists w', onNak 1 demo_two = Some (false, w') /\
    ((exists j, 0 <= j < 2 /\ 1 = seq_at 0 j /\ txon (at_base 1 (2 - j) OK) (lk w')) \/
     ((forall j, 0 <= j < 2 -> 1 <> seq_at 0 j) /\ txon (pinned (lk demo_two)) (lk w'))).
Proof.
  apply (onNak_cumulative 1 2 demo_two); [unfold is_byte; lia|lia|apply demo_two_win].
Defined.

End Acks.
