(* ===== verification/Messages.v ===== *)
(** * Messages over the byte stream

    [recvMsg] against the application's byte queue: a queue that holds whole
    messages (header and payload, as [sendMsg] frames them) yields exactly
    those messages, one per call, and a message that is not complete yet is
    left to arrive. *)
From S2P Require Import Prelude Monad Crc MsgCodec FrameRx Config ArqCache Arq Hal LinkState.
From S2P Require Import Tx Core Rx Frames Api Recv.
Import MsgCodec Config ArqCache Hal LinkState Tx Core Rx Frames Api Recv.

Module Messages.

(** A message as the sender frames it. *)
Definition framed (b : list Z) : list Z := hdr_of b ++ b.

(** A payload a receiver configured for [mx] bytes accepts. *)
Definition msg_ok (mx : Z) (b : list Z) : Prop := bytes b /\ 0 < lenZ b <= mx.

Lemma lenZ_hdr_of b : lenZ (hdr_of b) = 6.
Proof. done. Qed.

Lemma take_exact (a b : list Z) : take (Z.to_nat (lenZ a)) (a ++ b) = a.
Proof. unfold lenZ. by rewrite Nat2Z.id, take_app_length. Qed.
Lemma drop_exact (a b : list Z) : drop (Z.to_nat (lenZ a)) (a ++ b) = b.
Proof. unfold lenZ. by rewrite Nat2Z.id, drop_app_length. Qed.

(** What reading the stream leaves alone: a property of the world that neither
    the reads of the buffer, nor the clock, nor the message cursor matter to. *)
Class Unread {H : Type} `{IHal H} (K : World H -> Prop) : Prop := {
  unread_pop : forall n w, K w -> K (mkWorld (lk w) (snd (popAppBuf n (hal w))));
  unread_avail : forall w, K w -> K (mkWorld (lk w) (snd (appBufAvailable (hal w))));
  unread_now : forall w, K w -> K (mkWorld (lk w) (snd (nowMs (hal w))));
  unread_cursor : forall f w, K w -> K (mkWorld (rset rxg (rset msgRx_ f) (lk w)) (hal w));
  unread_started : forall f w, K w -> K (mkWorld (rset rxg (rset msgRxStartedMs_ f) (lk w)) (hal w));
  unread_ses : forall f w, K w -> K (mkWorld (rset ses f (lk w)) (hal w));
}.
#[export] Instance unread_any {H} `{IHal H} : Unread (H := H) (fun _ => True).
Proof. by split. Qed.

(** A prefix of [a ++ b] at least as long as [a] starts with [a]. *)
Lemma prefix_split (q f a b : list Z) :
  q ++ f = a ++ b -> lenZ a <= lenZ q -> exists q', q = a ++ q' /\ q' ++ f = b.
Proof.
  intros E Hl. assert (Hq : q = a ++ drop (length a) q).
  { rewrite <- (take_drop (length a) q) at 1. f_equal.
    assert (Et : take (length a) (q ++ f) = a) by (by rewrite E, take_app_length).
    by rewrite take_app_le in Et by (unfold lenZ in Hl; lia). }
  exists (drop (length a) q). split; [done|]. rewrite Hq in E. rewrite <- app_assoc in E.
  by apply app_inv_head in E.
Qed.

(** The messages a stream still owes, and its bytes. *)
Definition pend (m : option (list Z)) (ms : list (list Z)) : list (list Z) :=
  match m with None => ms | Some b => b :: ms end.
Definition owed (m : option (list Z)) (ms : list (list Z)) : list Z :=
  match m with None => concat (map framed ms) | Some b => b ++ concat (map framed ms) end.

(** How many bytes must be queued for the next message to be returned. *)
Definition needed (m : option (list Z)) (ms : list (list Z)) : Z :=
  match m, ms with
  | Some b, _ => lenZ b
  | None, b :: _ => MSG_HDR + lenZ b
  | None, [] => 1
  end.

(** The partial message has been waiting too long: [recvMsg] gives it up. *)
Definition stale_now {H} `{IHal H} (w : World H) : bool :=
  inMsg (msgRx_ (rxg (lk w))) && negb (msgRxStartedMs_ (rxg (lk w)) =? 0) &&
  (u32 (fst (nowMs (hal w)) - msgRxStartedMs_ (rxg (lk w))) >? stale_limit (lk w)).

Section Reads.
Context {H : Type} `{HalApp H} (yield : World H -> World H) (fuel : nat).
Context (mx : Z) (Hmx : mx < 2 ^ 31) (K : World H -> Prop) `{!Unread K}.

(** The queue, and the part of the link that decides what a read of it does:
    between messages, or inside the message [m] (its header was read). *)
Definition stream (q : list Z) (m : option (list Z)) (w : World H) : Prop :=
  K w /\ appq (hal w) = q /\ maxMsg (cfg (lk w)) = mx /\
  match m with
  | None => inMsg (msgRx_ (rxg (lk w))) = false
  | Some b => msgRx_ (rxg (lk w)) = mkLinkMsgCodec (lenZ b) (Crc.crc16 b)
  end.

Lemma readStream_ok n q (w : World H) :
  0 <= n <= lenZ q -> appq (hal w) = q -> K w ->
  wp (readStream n)
    (fun r w' => r = take (Z.to_nat n) q /\ lk w' = lk w /\
                 appq (hal w') = drop (Z.to_nat n) q /\ K w') w.
Proof.
  intros Hn Hq HK. unfold readStream. destruct (Z.to_nat n) as [|k] eqn:Ek; cbn [read_loop].
  { wp_tac. by split_and!. }
  assert (Hn0 : 0 < n) by lia. replace (n <=? 0) with false by lia.
  apply wpd_bind. unfold wpd, hw. destruct (appq_pop n (hal w)) as [E1 E2].
  pose proof (unread_pop n w HK) as HK'.
  rewrite E1, Hq. rewrite Hq, Ek in *.
  destruct (take (S k) q) as [|x r] eqn:Et.
  { destruct q; [unfold lenZ in Hn; simpl in Hn; lia|done]. }
  assert (El : lenZ (x :: r) = n).
  { rewrite <- Et. unfold lenZ in *. rewrite length_take. lia. }
  rewrite El, Z.sub_diag. assert (Er : forall j, read_loop (H := H) j 0 = ret []) by (by intros []).
  rewrite Er. cbn. rewrite app_nil_r. by split_and!.
Qed.

Lemma hdr_decode b rest c : 0 < lenZ b <= mx ->
  beginMsg (hdr_of b ++ rest) mx c = (true, mkLinkMsgCodec (lenZ b) (Crc.crc16 b)).
Proof.
  intros Hb. unfold beginMsg, hdr_of.
  rewrite hdr_decode_encode by (apply Crc.Crc.crc16_u16 || (unfold is_u32; lia)). cbn [hlen hcrc].
  replace (lenZ b =? 0) with false by lia. replace (mx <? lenZ b) with false by lia. cbn [orb].
  by rewrite i32_small by lia.
Qed.

(** Between messages with the next header whole: it is consumed. *)
Lemma recv_header_ok b q (w : World H) :
  0 < lenZ b <= mx -> stream (hdr_of b ++ q) None w ->
  wp (recv_header yield) (fun r w' => r = None /\ stream q (Some b) w') w.
Proof.
  intros Hb (HK & Hq & Hm & Hi). unfold recv_header. ws. rewrite Hi. ws. rewrite appq_avail, Hq.
  assert (Hl : (lenZ (hdr_of b ++ q) <? MSG_HDR) = false).
  { rewrite lenZ_app, lenZ_hdr_of. unfold MSG_HDR. pose proof (lenZ_nonneg q). lia. }
  rewrite Hl. apply wpd_bind. eapply wpd_mono.
  { apply (readStream_ok MSG_HDR (hdr_of b ++ q)).
    - apply Z.ltb_ge in Hl. unfold MSG_HDR in *. lia.
    - cbn [hal]. by rewrite appq_of_avail.
    - by apply unread_avail. }
  intros h w1 (-> & El & Eq & HK1). ws. rewrite El. cbn [lk].
  change MSG_HDR with (lenZ (hdr_of b)). rewrite take_exact. change (lenZ (hdr_of b)) with MSG_HDR in Eq.
  change MSG_HDR with (lenZ (hdr_of b)) in Eq. rewrite drop_exact in Eq.
  rewrite Hm. rewrite <- (app_nil_r (hdr_of b)). rewrite hdr_decode by done. cbn [negb]. ws.
  split; [done|]. split_and!; cbn; [|by rewrite appq_of_now|by rewrite El|done].
  apply (unread_started _ (mkWorld _ _)), (unread_now (mkWorld _ _)). exact (unread_cursor _ w1 HK1).
Qed.

(** Inside a message whose payload is whole: it is returned. *)
Lemma recv_body_ok b q max_len (w : World H) :
  0 < lenZ b <= mx -> lenZ b <= max_len -> stream (b ++ q) (Some b) w ->
  wp (recv_body yield fuel max_len) (fun r w' => r = Message b /\ stream q None w') w.
Proof.
  intros Hb Hl (HK & Hq & Hm & Hi). unfold recv_body. ws. rewrite Hi. cbn [len_ crc_]. rewrite appq_avail, Hq.
  cbn [fst]. rewrite lenZ_app. replace (lenZ b + lenZ q <? lenZ b) with false
    by (pose proof (lenZ_nonneg q); lia).
  unfold end_msg. ws. replace (max_len <? lenZ b) with false by lia. apply wpd_bind. eapply wpd_mono.
  { apply (readStream_ok (lenZ b) (b ++ q)).
    - rewrite lenZ_app. pose proof (lenZ_nonneg q). lia.
    - cbn [hal]. by rewrite appq_of_avail.
    - apply (unread_started _ (mkWorld _ _)), (unread_cursor _ (mkWorld _ _)). exact (unread_avail w HK). }
  intros h w1 (-> & El & Eq & HK1). rewrite take_exact, Z.eqb_refl. rewrite drop_exact in Eq. ws.
  split; [done|]. split_and!; cbn; [|done|by rewrite El|by rewrite El].
  apply (unread_ses _ (mkWorld _ _)). exact (unread_ses _ w1 HK1).
Qed.

Lemma recv_stale_ok q m (w : World H) :
  stale_now w = false -> stream q m w ->
  wp recv_stale (fun r w' => r = false /\ stream q m w') w.
Proof.
  intros Hs Hw. unfold recv_stale. ws. unfold stale_now in Hs.
  destruct (inMsg _ && negb _); cbn [andb] in Hs; ws; [|by split].
  split; [done|]. destruct Hw as (HK & Hq & Hm & Hi).
  split_and!; cbn; [by apply unread_now|by rewrite appq_of_now|done|done].
Qed.

(** Nothing to return: the header may have been read. *)
Definition none_yet (m : option (list Z)) (ms : list (list Z)) (q f : list Z) (w' : World H) : Prop :=
  exists m' ms' c q', pend m' ms' = pend m ms /\ stream q' m' w' /\ q = c ++ q' /\ q' ++ f = owed m' ms'.
(** The message [b] is returned. *)
Definition one_read (b : list Z) (ms : list (list Z)) (q f : list Z) (w' : World H) : Prop :=
  exists c q', stream q' None w' /\ q = c ++ q' /\ q' ++ f = owed None ms.

Lemma none_yet_app a m ms q f w' m0 ms0 :
  pend m ms = pend m0 ms0 -> none_yet m ms q f w' -> none_yet m0 ms0 (a ++ q) f w'.
Proof.
  intros Ep (m' & ms' & c & q' & E & Hw & -> & E'). exists m', ms', (a ++ c), q'.
  by rewrite E, <- app_assoc.
Qed.
Lemma one_read_app a b ms q f w' : one_read b ms q f w' -> one_read b ms (a ++ q) f w'.
Proof. intros (c & q' & Hw & -> & E). exists (a ++ c), q'. by rewrite <- app_assoc. Qed.

(** The body, whole or not. *)
Lemma recv_body_any b ms q f max_len (w : World H) :
  0 < lenZ b <= mx -> lenZ b <= max_len -> stream q (Some b) w ->
  q ++ f = owed (Some b) ms ->
  wp (recv_body yield fuel max_len)
    (fun r w' => if lenZ q <? lenZ b then r = Nothing /\ none_yet (Some b) ms q f w'
                 else r = Message b /\ one_read b ms q f w') w.
Proof.
  intros Hb Hl Hw E. destruct (Z.ltb_spec (lenZ q) (lenZ b)) as [Hs|Hs].
  - destruct Hw as (HK & Hq & Hm & Hi). unfold recv_body. ws. rewrite Hi. cbn [len_].
    rewrite appq_avail, Hq. replace (lenZ q <? lenZ b) with true by lia. ws.
    split; [done|]. exists (Some b), ms, [], q. split; [done|]. split; [|done].
    split_and!; cbn; [by apply unread_avail|by rewrite appq_of_avail|done|done].
  - destruct (prefix_split q f b _ E Hs) as (q' & -> & E').
    eapply wpd_mono; [by apply recv_body_ok|]. intros r w' [-> Hw']. split; [done|]. by exists b, q'.
Qed.

(** One call. *)
Lemma recvMsg_ok m ms q f max_len (w : World H) :
  Forall (fun b => 0 < lenZ b <= mx /\ lenZ b <= max_len) (pend m ms) ->
  stale_now w = false -> stream q m w -> q ++ f = owed m ms ->
  wp (recvMsg yield fuel max_len)
    (fun r w' =>
       if lenZ q <? needed m ms then r = Nothing /\ none_yet m ms q f w'
       else exists b ms', r = Message b /\ pend m ms = b :: ms' /\ one_read b ms' q f w') w.
Proof.
  intros Hok Hs Hw E. unfold recvMsg. apply wpd_bind. eapply wpd_mono; [by apply recv_stale_ok|].
  intros st w1 [-> Hw1]. clear w Hs Hw. apply wpd_bind. destruct m as [b|]; cbn [pend needed] in *.
  - unfold recv_header. ws. pose proof Hw1 as (_ & _ & _ & ->). unfold inMsg. cbn [len_].
    replace (0 <=? lenZ b) with true by (pose proof (lenZ_nonneg b); lia). ws.
    apply Forall_cons_1 in Hok as [[Hb Hb'] _].
    eapply wpd_mono; [by apply (recv_body_any b ms q f)|]. intros r w' Hr. cbv beta in Hr.
    destruct (lenZ q <? lenZ b); destruct Hr as [-> Hr]; [done|]. by exists b, ms.
  - destruct (Z.ltb_spec (lenZ q) MSG_HDR) as [Hlt|Hge].
    + unfold recv_header. ws. pose proof Hw1 as (HK & Hq & Hm & Hi). rewrite Hi. ws. rewrite appq_avail, Hq.
      cbn [fst]. replace (lenZ q <? MSG_HDR) with true by lia. ws.
      assert (Hn : (lenZ q <? needed None ms) = true).
      { unfold needed. destruct ms as [|b ms]; [|pose proof (lenZ_nonneg b); lia].
        cbn in E. apply app_eq_nil in E as [-> _]. done. }
      unfold needed in Hn. rewrite Hn. split; [done|]. exists None, ms, [], q. split; [done|]. split; [|done].
      split_and!; cbn; [by apply unread_avail|by rewrite appq_of_avail|done|done].
    + destruct ms as [|b ms].
      { cbn in E. apply app_eq_nil in E as [-> _]. unfold MSG_HDR, lenZ in Hge. simpl in Hge. lia. }
      cbn [owed map concat] in E. unfold framed at 1 in E. rewrite <- app_assoc in E.
      destruct (prefix_split q f (hdr_of b) _ E) as (q1 & -> & E1); [by rewrite lenZ_hdr_of|].
      apply Forall_cons_1 in Hok as [[Hb Hb'] _].
      eapply wpd_mono; [by apply (recv_header_ok b q1)|]. intros r w2 [-> Hw2].
      eapply wpd_mono; [by apply (recv_body_any b ms q1 f)|]. intros r w' Hr. cbv beta in Hr.
      rewrite lenZ_app, lenZ_hdr_of. unfold MSG_HDR.
      destruct (Z.ltb_spec (lenZ q1) (lenZ b)).
      * replace (6 + lenZ q1 <? 6 + lenZ b) with true by lia. destruct Hr as [-> Hr].
        split; [done|]. by apply (none_yet_app _ (Some b) ms).
      * replace (6 + lenZ q1 <? 6 + lenZ b) with false by lia. destruct Hr as [-> Hr].
        exists b, ms. split_and!; [done|done|]. by apply one_read_app.
Qed.
End Reads.

(** ** A session of arrivals and reads *)

Section Messages.
Context {H : Type} `{HalApp H} (yield : World H -> World H) (fuel : nat).
Context (mx : Z) (Hmx : mx < 2 ^ 31).
Abbreviation stream := (stream mx (fun _ : World H => True)).

(** The bytes [a] have arrived and the messages [ms] have been returned: the
    receive path appends to the queue at any moment, without touching the
    message cursor, and the application reads before a partial message goes
    stale. *)
Inductive talk (max_len : Z) : list (list Z) -> list Z -> World H -> Prop :=
  | talk_start w : stream [] None w -> talk max_len [] [] w
  | talk_arrive ms a b w w' :
      talk max_len ms a w -> appq (hal w') = appq (hal w) ++ b ->
      msgRx_ (rxg (lk w')) = msgRx_ (rxg (lk w)) -> maxMsg (cfg (lk w')) = maxMsg (cfg (lk w)) ->
      talk max_len ms (a ++ b) w'
  | talk_read ms a w r w' :
      talk max_len ms a w -> stale_now w = false -> recvMsg yield fuel max_len w = Some (r, w') ->
      talk max_len (ms ++ match r with Message b => [b] | _ => [] end) a w'.

Lemma talk_stream max_len all ms a w : talk max_len ms a w -> forall f,
  Forall (fun b => 0 < lenZ b <= mx /\ lenZ b <= max_len) all ->
  a ++ f = concat (map framed all) ->
  exists m rest q, all = ms ++ pend m rest /\ stream q m w /\ q ++ f = owed m rest.
Proof.
  induction 1 as [w Hw|ms a b w w' _ IH Hq Hc Hm|ms a w r w' _ IH Hs Hr]; intros f Hok E.
  - by exists None, all, [].
  - rewrite <- app_assoc in E. destruct (IH _ Hok E) as (m & rest & q & Ha & (_ & Hq' & Hm' & Hc') & E').
    exists m, rest, (q ++ b). rewrite <- app_assoc. split; [done|]. split; [|done].
    rewrite Hq' in Hq. split_and!; [done|done|congruence|by rewrite Hc].
  - destruct (IH _ Hok E) as (m & rest & q & Ha & Hw & E').
    assert (Hp : Forall (fun b => 0 < lenZ b <= mx /\ lenZ b <= max_len) (pend m rest)).
    { rewrite Ha in Hok. by apply Forall_app in Hok as [_ ?]. }
    pose proof (wpd_run _ _ _ _ _ _ (recvMsg_ok yield fuel mx Hmx _ m rest q f max_len w Hp Hs Hw E') Hr) as Hn.
    cbv beta in Hn. destruct (lenZ q <? needed m rest).
    + destruct Hn as (-> & m' & rest' & c & q' & Hp' & ? & _ & ?). exists m', rest', q'.
      by rewrite app_nil_r, Hp'.
    + destruct Hn as (b & rest' & -> & Hp' & c & q' & ? & _ & ?). exists None, rest', q'.
      by rewrite <- app_assoc, Ha, Hp'.
Qed.

(** Everything that is owed is enough for the next message. *)
Lemma owed_enough m ms : pend m ms <> [] -> needed m ms <= lenZ (owed m ms).
Proof.
  destruct m as [b|]; cbn [pend needed owed].
  - intros _. rewrite lenZ_app. pose proof (lenZ_nonneg (concat (map framed ms))). lia.
  - destruct ms as [|b ms]; [done|]. intros _. cbn [map concat]. unfold framed at 1.
    rewrite !lenZ_app, lenZ_hdr_of. unfold MSG_HDR. pose proof (lenZ_nonneg (concat (map framed ms))). lia.
Qed.

(** C8: [recvMsg] inverts the framing of [sendMsg], as long as no partial message goes
    stale: whatever the pieces in which the bytes of a sequence of messages arrive,
    and whenever it is called in between, each time before the message it is inside
    of has been incomplete for [stale_limit] milliseconds ([stale_now] is [false]: the
    code abandons a message that is), it returns a prefix of those messages,
    unaltered and in order; and once all the bytes are there, every such call returns
    the next one. *)
Theorem message_stream max_len all ms a f (w : World H) :
  Forall (fun b => 0 < lenZ b <= mx /\ lenZ b <= max_len) all ->
  talk max_len ms a w -> a ++ f = concat (map framed all) ->
  exists rest, all = ms ++ rest /\
    (f = [] -> rest <> [] -> stale_now w = false ->
     exists b rest' w', rest = b :: rest' /\ recvMsg yield fuel max_len w = Some (Message b, w') /\
                        talk max_len (ms ++ [b]) a w').
Proof.
  intros Hok Ht E. destruct (talk_stream _ _ _ _ _ Ht f Hok E) as (m & rest & q & Ha & Hw & E').
  exists (pend m rest). split; [done|]. intros -> Hr Hs. rewrite app_nil_r in E'.
  assert (Hp : Forall (fun b => 0 < lenZ b <= mx /\ lenZ b <= max_len) (pend m rest)).
  { rewrite Ha in Hok. by apply Forall_app in Hok as [_ ?]. }
  assert (Hq : q ++ [] = owed m rest) by (by rewrite app_nil_r).
  destruct (wp_run _ _ _ (recvMsg_ok yield fuel mx Hmx _ m rest q [] max_len w Hp Hs Hw Hq)) as (r & w' & Er & Hn).
  apply owed_enough in Hr. rewrite <- E' in Hr.
  replace (lenZ q <? needed m rest) with false in Hn by lia.
  destruct Hn as (b & rest' & -> & Hp' & _). exists b, rest', w'. split_and!; [done|done|].
  by apply (talk_read max_len ms a w (Message b) w').
Qed.
End Messages.

(** Two messages whose bytes arrive in two pieces on the mock. *)
Definition demo_msgs : list (list Z) := [[1; 2; 3]; [4]].
Definition demo_bytes : list Z := concat (map framed demo_msgs).
Definition demo_arrive (b : list Z) (w : World MockHal) : World MockHal :=
  mkWorld (lk w) ((hal w) <| m_appBuf ::= (fun q => q ++ b) |>).
Definition demo_read (w : World MockHal) : World MockHal :=
  match recvMsg id 0 100 w with Some (_, w') => w' | None => w end.
Definition demo_0 : World MockHal :=
  mkWorld (link_init (cache_init 32) false default_config) (mock_init 4096).
Definition demo_1 : World MockHal := demo_read (demo_arrive (take 8 demo_bytes) demo_0).
Definition demo_2 : World MockHal := demo_arrive (drop 8 demo_bytes) demo_1.

Definition demo_mx : Z := maxMsg default_config.

Lemma demo_talk :
  talk id 0 demo_mx 100 [] (([] ++ take 8 demo_bytes) ++ drop 8 demo_bytes) demo_2.
Proof.
  apply (talk_arrive id 0 demo_mx 100 [] _ _ demo_1); try reflexivity.
  apply (talk_read id 0 demo_mx 100 [] _ (demo_arrive (take 8 demo_bytes) demo_0) Nothing);
    [|reflexivity|vm_compute; reflexivity].
  apply (talk_arrive id 0 demo_mx 100 [] _ _ demo_0); try reflexivity.
  apply talk_start. split_and!; reflexivity.
Qed.

Lemma message_stream_witness :
  exists rest, demo_msgs = [] ++ rest /\
    ([] = [] :> list Z -> rest <> [] -> stale_now demo_2 = false ->
     exists b rest' w', rest = b :: rest' /\ recvMsg id 0 100 demo_2 = Some (Message b, w') /\
       talk id 0 demo_mx 100 ([] ++ [b]) (([] ++ take 8 demo_bytes) ++ drop 8 demo_bytes) w').
Proof.
  apply (message_stream id 0 demo_mx ltac:(vm_compute; reflexivity) 100 demo_msgs []
           (([] ++ take 8 demo_bytes) ++ drop 8 demo_bytes) [] demo_2);
    [repeat constructor; vm_compute; congruence|apply demo_talk|reflexivity].
Defined.

(** The run itself: both messages come out. *)
Example demo_talk_run :
  match recvMsg id 0 100 demo_2 with
  | Some (Message b, w) => match recvMsg id 0 100 w with Some (Message b', _) => [b; b'] | _ => [] end
  | _ => []
  end = demo_msgs.
Proof. vm_compute. reflexivity. Qed.
End Messages.
