(* ===== verification/Trace.v ===== *)
(** * What a method writes to the wire

    [HalLog] is a hardware whose writes can be observed: the list of byte
    strings handed to [tx], in order. Any hardware becomes one by logging its
    calls ([Logged]). [writes P m]: whatever [m] does, every write it makes
    satisfies [P]. *)
From S2P Require Import Prelude Monad FrameRx Config Decision ArqCache Arq Hal LinkState.
From S2P Require Import Timing Tx Core Sweep Gbn Rx Frames.
Import FrameRx Config Decision ArqCache Arq Hal LinkState Timing Tx Core Sweep Gbn Rx Frames.

Module Trace.

(** ** Observed hardware *)

Class HalLog (H : Type) `{IHal H} := {
  written : H -> list (list Z);
  log_tx : forall b h, written (snd (tx b h)) = written h ++ [b];
  log_of_txAvail : forall h, written (snd (txAvail h)) = written h;
  log_of_now : forall h, written (snd (nowMs h)) = written h;
  log_of_push : forall b h, written (snd (pushAppBuf b h)) = written h;
  log_of_pop : forall n h, written (snd (popAppBuf n h)) = written h;
  log_of_avail : forall h, written (snd (appBufAvailable h)) = written h;
  log_of_free : forall h, written (snd (appBufFree h)) = written h;
  log_of_lock : forall n h, written (snd (tryLock n h)) = written h;
  log_of_begin : forall c h, written (hal_begin c h) = written h;
  log_of_setSpd : forall s h, written (setSpd s h) = written h;
  log_of_break : forall h, written (sendBreak h) = written h;
  log_of_flush : forall h, written (flushTx h) = written h;
  log_of_discard : forall h, written (discardTx h) = written h;
  log_of_timer : forall ms h, written (startTimer ms h) = written h;
  log_of_delay : forall ms h, written (delayMs ms h) = written h;
  log_of_delayUs : forall us h, written (delayUs us h) = written h;
  log_of_clear : forall h, written (clearAppBuf h) = written h;
  log_of_flushRx : forall h, written (flushRxHw h) = written h;
  log_of_okState : forall b h, written (setOkState b h) = written h;
  log_of_sem : forall ms h, written (semWait ms h) = written h;
  log_of_malloc : forall n h, written (snd (malloc n h)) = written h;
  log_of_semCreate : forall h, written (snd (semCreate h)) = written h;
}.
Create Rewrite HintDb wire_log.
#[export] Hint Rewrite @log_tx @log_of_txAvail @log_of_now @log_of_push @log_of_pop @log_of_avail
  @log_of_free @log_of_lock @log_of_begin @log_of_setSpd @log_of_break @log_of_flush
  @log_of_discard @log_of_timer @log_of_delay @log_of_delayUs @log_of_clear @log_of_flushRx
  @log_of_okState @log_of_sem @log_of_malloc @log_of_semCreate : wire_log.

(** A hardware and the log of its writes. *)
Record Logged (H : Type) := mkLogged { under : H; wlog : list (list Z) }.
#[global] Arguments mkLogged {H} under wlog.
#[global] Arguments under {H} l : rename.
#[global] Arguments wlog {H} l : rename.

Section Logged.
Context {H : Type} `{IHal H}.

Definition ask {A} (f : H -> A * H) (h : Logged H) : A * Logged H :=
  (fst (f (under h)), mkLogged (snd (f (under h))) (wlog h)).
Definition act (f : H -> H) (h : Logged H) : Logged H := mkLogged (f (under h)) (wlog h).

#[export] Instance logged_hal : IHal (Logged H) := {
  hal_begin := fun c => act (hal_begin c);
  setSpd := fun s => act (setSpd s);
  sendBreak := act sendBreak;
  tx := fun b h => (fst (tx b (under h)), mkLogged (snd (tx b (under h))) (wlog h ++ [b]));
  txAvail := ask txAvail;
  txRingSize := fun h => txRingSize (under h);
  rxRingSize := fun h => rxRingSize (under h);
  flushTx := act flushTx;
  discardTx := act discardTx;
  startTimer := fun ms => act (startTimer ms);
  delayMs := fun ms => act (delayMs ms);
  delayUs := fun us => act (delayUs us);
  nowMs := ask nowMs;
  tryLock := fun n => ask (tryLock n);
  pushAppBuf := fun b => ask (pushAppBuf b);
  popAppBuf := fun n => ask (popAppBuf n);
  peekAppBuf := ask peekAppBuf;
  appBufAvailable := ask appBufAvailable;
  appBufFree := ask appBufFree;
  clearAppBuf := act clearAppBuf;
  flushRxHw := act flushRxHw;
  setOkState := fun b => act (setOkState b);
  semWait := fun ms => act (semWait ms);
  malloc := fun n => ask (malloc n);
  semCreate := ask semCreate;
}.

#[export] Instance logged_log : HalLog (Logged H).
Proof. by refine {| written := wlog |}. Defined.

#[export] Instance logged_app `{!HalApp H} : HalApp (Logged H).
Proof.
  refine {| appv := fun h => appv (under h) |}; intros; cbn;
    first [by apply app_push | by apply app_push_fit | by apply app_free | apply app_pop
          | by apply app_pop_cap | apply app_avail | apply app_clear | apply app_of_avail | apply app_of_free | apply app_of_tx
          | apply app_of_txAvail | apply app_of_now | apply app_of_timer | apply app_of_break
          | apply app_of_setSpd | apply app_of_discard | apply app_of_flush | apply app_of_flushRx
          | apply app_of_okState | apply app_of_delay | apply app_of_delayUs | apply app_of_malloc | apply app_of_semCreate].
Defined.
End Logged.

(** ** The writes of a method *)

Section Writes.
Context {H : Type} `{HalLog H} (I : Link -> Prop) (P : list Z -> Prop).

(** The log has grown by writes that satisfy [P]. *)
Definition grown (L L' : list (list Z)) : Prop := exists es, L' = L ++ es /\ Forall P es.

(** From a link that satisfies [I], [m] keeps [I] and writes only such strings. *)
Definition writes {A} (m : Act H A) : Prop :=
  forall w, I (lk w) ->
    wpd True m (fun _ w' => I (lk w') /\ grown (written (hal w)) (written (hal w'))) w.

Lemma grown_refl L : grown L L.
Proof. exists []. by rewrite app_nil_r. Qed.

Lemma grown_trans L1 L2 L3 : grown L1 L2 -> grown L2 L3 -> grown L1 L3.
Proof.
  intros (a & -> & Ha) (b & -> & Hb). exists (a ++ b). rewrite app_assoc. split; [done|].
  by apply Forall_app.
Qed.

Lemma writes_bind {A B} (m : Act H A) (f : A -> Act H B) :
  writes m -> (forall a, writes (f a)) -> writes (bind m f).
Proof.
  intros Hm Hf w Hw. apply wpd_bind. eapply wpd_mono; [by apply Hm|]. intros a w1 [Hw1 Hg].
  eapply wpd_mono; [by apply Hf|]. intros b w2 [Hw2 Hg']. split; [done|].
  by apply (grown_trans _ (written (hal w1))).
Qed.

Lemma writes_link {B} (f : Link -> Act H B) : (forall l, I l -> writes (f l)) -> writes (bind link f).
Proof. intros Hf w Hw. by apply (Hf (lk w)). Qed.

Lemma writes_ret {A} (a : A) : writes (ret a).
Proof. intros w Hw. split; [done|apply grown_refl]. Qed.
Lemma writes_stuck {A} : writes (A := A) stuck.
Proof. done. Qed.
Lemma writes_gets {A} (f : World H -> A) : writes (gets f).
Proof. intros w Hw. split; [done|apply grown_refl]. Qed.
Lemma writes_upd f : (forall l, I l -> I (f l)) -> writes (upd f).
Proof. intros Hf w Hw. split; [by apply Hf|apply grown_refl]. Qed.
Lemma writes_hw {A} (f : H -> A * H) : (forall h, written (snd (f h)) = written h) -> writes (hw f).
Proof. intros Hf w Hw. split; [done|]. cbn. rewrite Hf. apply grown_refl. Qed.
Lemma writes_hwdo (f : H -> H) : (forall h, written (f h) = written h) -> writes (hwdo f).
Proof. intros Hf w Hw. split; [done|]. cbn. rewrite Hf. apply grown_refl. Qed.
Lemma writes_when b m : (b = true -> writes m) -> writes (when b m).
Proof. destruct b; [by intros Hm; apply Hm|intros _; apply writes_ret]. Qed.

Lemma writes_tx b :
  P b -> (forall l n, I l -> I (rset cnt (rset txBlockedMs_ (add64 n)) l)) -> writes (hw_tx b).
Proof.
  intros Hb Hi w Hw. unfold hw_tx. ws. split; [by apply Hi|]. cbn. rewrite log_tx. exists [b].
  split; [done|]. by repeat constructor.
Qed.
End Writes.

Lemma grown_mono (P Q : list Z -> Prop) L L' : (forall f, P f -> Q f) -> grown P L L' -> grown Q L L'.
Proof.
  intros HPQ (es & E & He). exists es. split; [done|]. eapply Forall_impl; [exact HPQ|exact He].
Qed.

Lemma grown_none L L' : grown (fun _ => False) L L' -> L' = L.
Proof. intros ([|f es] & -> & He); [by rewrite app_nil_r|]. by inversion He. Qed.

(** What is written may be weakened. *)
Lemma writes_mono {H A} `{HalLog H} I (P Q : list Z -> Prop) (m : Act H A) :
  (forall f, P f -> Q f) -> writes I P m -> writes I Q m.
Proof.
  intros HPQ Hm w Hw. eapply wpd_mono; [by apply Hm|]. intros ? w' [Hi (es & E & He)].
  split; [done|]. apply (grown_mono P); [done|]. by exists es.
Qed.

Create HintDb writes discriminated.
#[export] Hint Resolve writes_ret writes_gets writes_stuck : writes.

(** Walk a method; the writes themselves are left, and the assignments that
    touch what [I] is about. *)
Ltac wr_step :=
  lazymatch goal with
  | |- writes _ _ (ret _) => apply writes_ret
  | |- writes _ _ (gets _) => apply writes_gets
  | |- writes _ _ (upd _) => apply writes_upd; let Hl := fresh "Hl" in intros ? Hl; first [exact Hl | by auto]
  | |- writes _ _ link => apply writes_gets
  | |- writes _ _ (hw _) => apply writes_hw; intros; by autorewrite with wire_log
  | |- writes _ _ (hwdo _) => apply writes_hwdo; intros; by autorewrite with wire_log
  | |- writes _ _ (hw_tx _) => apply writes_tx; [|let Hl := fresh "Hl" in intros ? ? Hl; first [exact Hl | by auto]]
  | |- writes _ _ (bind link _) => apply writes_link; intros ? ?
  | |- writes _ _ (bind _ _) => apply writes_bind; [|intros ?]
  | |- writes _ _ (when _ _) => apply writes_when; intros ?
  | |- writes _ _ (let _ := _ in _) => cbv zeta
  | |- writes _ _ (match ?x with _ => _ end) => destruct x eqn:?
  end.
Ltac wr := repeat first [ solve [auto with writes nocore] | wr_step ].
End Trace.
