(* ===== verification/Emits.v ===== *)
(** * The frames each method writes

    The receive path answers a data frame with at most an ACK or a NAK, named
    exactly; the send path writes the data frame of the chunk it was given, and
    a NAK makes it write frames of chunks the cache holds. *)
From S2P Require Import Prelude Monad Crc MsgCodec FrameRx Config Decision ArqCache Arq Hal.
From S2P Require Import LinkState Timing Tx Core Sweep Gbn Rx Frames Receiver Trace.
Import MsgCodec FrameRx Config Decision ArqCache Arq Hal LinkState Timing Tx Core Sweep Gbn Rx
  Frames Receiver Trace.

Module Emits.

(** ** Frames *)

Definition data_frame (seq : Z) (b : list Z) : list Z := cobsFrame 256 (sealed (seq :: b)).
Definition ack_frame (c n : Z) : list Z :=
  cobsFrame 16 (sealed [ACK_TYPE; c; u8 (Z.land n 0xFF); u8 (Z.land (Z.shiftr n 8) 0xFF)]).
Definition nak_frame (c : Z) : list Z := cobsFrame 16 (sealed [NAK_TYPE; c]).

(** The number after [s] in the receiver's count. *)
Definition expected (s : Z) : Z := u8 (if s =? COBS_SEQ_MAX then 0 else s + 1).

(** What a data frame is answered with: [fits] tells whether its payload was
    taken. *)
Definition answer (c n s : Z) (set fits : bool) (f : list Z) : Prop :=
  match fst (classifyGap c s set) with
  | Stale => f = ack_frame c (u16 n)
  | Gap => f = nak_frame (expected s)
  | Forward => if fits then f = ack_frame c (u16 n) else f = nak_frame c
  end.

Section Emits.
Context {H : Type} `{HalLog H}.

Definition anyway : Link -> Prop := fun _ => True.

Lemma sendAckFrame_writes I c n :
  (forall l f, I l -> I (rset cnt f l)) -> (forall l f, I l -> I (rset tim f l)) ->
  writes I (eq (ack_frame c n)) (sendAckFrame c n).
Proof.
  intros Hc Ht. unfold sendAckFrame, txSmallCobs. wr; done.
Qed.

Lemma sendNakFrame_writes I c :
  (forall l f, I l -> I (rset cnt f l)) -> (forall l f, I l -> I (rset tim f l)) ->
  writes I (eq (nak_frame c)) (sendNakFrame c).
Proof.
  intros Hc Ht. unfold sendNakFrame, sendCtrlCobsFrame, txSmallCobs. wr; done.
Qed.

Lemma noteValidFrameOk_writes P : writes (H := H) anyway P noteValidFrameOk.
Proof. unfold noteValidFrameOk. wr. Qed.
Lemma clear_errs_writes P : writes (H := H) anyway P clear_errs.
Proof. unfold clear_errs. wr. Qed.
Hint Resolve noteValidFrameOk_writes clear_errs_writes : writes.

Lemma payload_stale_writes c df n :
  writes anyway (eq (ack_frame c (u16 n))) (payload_stale c df n).
Proof. unfold payload_stale. wr; by apply sendAckFrame_writes. Qed.

Lemma payload_hold_writes c : writes anyway (eq (nak_frame c)) (payload_hold c).
Proof. unfold payload_hold. wr; by apply sendNakFrame_writes. Qed.

Lemma payload_gap_writes s :
  writes (fun l => rxSeq (rxg l) = s) (eq (nak_frame (expected s))) payload_gap_async.
Proof.
  unfold payload_gap_async. wr.
  match goal with E : rxSeq _ = s |- _ => rewrite <- E end. by apply sendNakFrame_writes.
Qed.

(** What follows the push of a payload that was taken whole. *)
Lemma delivered_writes c n :
  writes anyway (eq (ack_frame c n))
    (l <- link;;
     when (holdNakActive_ (rxg l) && (c =? holdNakSeq_ (rxg l)) &&
           (rxSeqWrap_ (rxg l) =? holdNakWrap_ (rxg l))) (
       SET rxg holdNakActive_ := false;;
       SET rxg holdNakSeq_ := 0xFF;;
       SET rxg holdNakFreeAtSet_ := 0;;
       SET rxg holdNakLastMs_ := 0);;
     advance_rxSeq c;; sendAckFrame c n;; clear_errs;; ret false).
Proof. unfold advance_rxSeq. wr; by apply sendAckFrame_writes. Qed.

End Emits.

Section Answers.
Context {H : Type} `{HalApp H} `{!HalLog H}.

Lemma payload_forward_writes c b s set q cap w :
  bytes b -> 0 <= cap -> rcv s set q cap w ->
  wpd True (payload_forward c b)
    (fun _ w' => grown
       (fun f => if (lenZ b =? 0) || (lenZ q + lenZ b <=? cap)
                 then f = ack_frame c (u16 (lenZ b)) else f = nak_frame c)
       (written (hal w)) (written (hal w'))) w.
Proof.
  intros Hb Hcap (_ & _ & E3 & _ & _). unfold payload_forward. cbv zeta.
  destruct (Z.eqb_spec (lenZ b) 0) as [E0|E0]; cbn [orb].
  { assert (Hq : writes anyway (fun f => f = ack_frame c (u16 (lenZ b)))
      (SET rxg rxSeq := c;; SET rxg rxSeqSet := true;; clear_errs;; ret false))
      by (unfold clear_errs; wr).
    eapply wpd_mono; [by apply Hq|]. by intros ? w' [_ Hg]. }
  pose proof (lenZ_nonneg b) as Hl. ws. rewrite app_free by (rewrite ?E3; cbn; lia). rewrite E3. cbn [fst snd]. destruct (Z.ltb_spec (cap - lenZ q) (lenZ b)) as [Hf|Hf].
  - replace (lenZ q + lenZ b <=? cap) with false by lia.
    eapply wpd_mono; [by apply (payload_hold_writes c)|]. intros ? w' [_ Hg]. cbn in Hg.
    rewrite log_of_free in Hg. eapply grown_mono; [|exact Hg]. by intros ? <-.
  - replace (lenZ q + lenZ b <=? cap) with true by lia. ws. cbn [hal].
    rewrite app_push_fit by (rewrite app_of_free, E3; cbn; lia).
    rewrite Z.eqb_refl. cbn [negb]. apply wpd_bind, wpd_upd.
    eapply wpd_mono; [by apply (delivered_writes c (u16 (lenZ b)))|]. intros ? w' [_ Hg]. cbn in Hg.
    rewrite log_of_push, log_of_free in Hg. eapply grown_mono; [|exact Hg]. by intros ? <-.
Qed.

(** The answer to a data frame. *)
Lemma onPayload_writes c b s set q cap w :
  bytes b -> 0 <= cap -> rcv s set q cap w ->
  wpd True (onPayload c b)
    (fun _ w' => grown (answer c (lenZ b) s set ((lenZ b =? 0) || (lenZ q + lenZ b <=? cap)))
                   (written (hal w)) (written (hal w'))) w.
Proof.
  intros Hb Hcap Hw. unfold onPayload. apply wpd_bind, wpd_link. pose proof Hw as (_ & _ & _ & Hok & _).
  destruct (decide (state (lk w) = SWP)); [congruence|].
  apply wpd_bind. eapply wpd_mono.
  { apply wpd_conj; [apply (noteValidFrameOk_same True s set q cap), Hw|].
    apply (noteValidFrameOk_writes (fun _ => False)). done. }
  intros ? w1 [Hw1 [_ Hg1]]. apply grown_none in Hg1. rewrite <- Hg1. clear Hg1.
  apply wpd_bind, wpd_hw, wpd_bind, wpd_upd, wpd_bind, wpd_upd, wpd_bind, wpd_link.
  match goal with |- wpd _ _ _ ?x => set (w3 := x) end.
  assert (Hw3 : rcv s set q cap w3).
  { destruct Hw1 as (? & ? & Hv & ? & ?). split_and!; try done. cbn. by rewrite app_of_now. }
  assert (Hl : written (hal w3) = written (hal w1)) by (cbn; by rewrite log_of_now).
  rewrite <- Hl. clearbody w3. clear Hw1 Hl w1. pose proof Hw3 as (E1 & E2 & _ & _ & E5).
  rewrite E1, E2, E5. unfold answer. destruct (classifyGap c s set) as [[] df]; cbn [fst].
  - eapply wpd_mono; [by apply (payload_forward_writes c b s set q cap)|]. intros ? w' Hg. exact Hg.
  - eapply wpd_mono; [by apply (payload_stale_writes c df (lenZ b))|]. intros ? w' [_ Hg].
    eapply grown_mono; [|exact Hg]. by intros ? <-.
  - eapply wpd_mono; [by apply (payload_gap_writes s)|]. intros ? w' [_ Hg].
    eapply grown_mono; [|exact Hg]. by intros ? <-.
Qed.
End Answers.

(** ** The sender *)

(** The frames of chunks the cache [c] holds. *)
Definition held_frame (c : ArqCache) (f : list Z) : Prop :=
  exists s p, 0 <= s < SLOTS /\ contents c s = Some p /\
              f = data_frame s (take (Z.to_nat MAX_CHUNK) p).

Section Sender.
Context {H : Type} `{HalLog H}.

Lemma build_writes I seq b :
  (forall l f, I l -> I (rset cnt f l)) -> (forall l f, I l -> I (rset tim f l)) ->
  writes (H := H) I (eq (data_frame seq (take (Z.to_nat MAX_CHUNK) b))) (buildAndTxCobsFrame seq b).
Proof. intros Hc Ht. unfold buildAndTxCobsFrame, noteTxReject. wr; done. Qed.

Lemma take_chunk (b : list Z) : lenZ b <= MAX_CHUNK -> take (Z.to_nat MAX_CHUNK) b = b.
Proof. intros Hl. apply take_ge. unfold lenZ, MAX_CHUNK in *. lia. Qed.

(** A send writes the frame of its chunk under the next sequence number, or
    nothing. *)
Lemma sendCobsFrame_writes b (w : World H) :
  lenZ b <= MAX_CHUNK ->
  wpd True (sendCobsFrame b)
    (fun _ w' => grown (eq (data_frame (txSeq (txg (lk w))) b)) (written (hal w)) (written (hal w'))) w.
Proof.
  intros Hl. unfold sendCobsFrame. apply wpd_bind, wpd_gets.
  set (s := txSeq (txg (lk w))).
  replace (data_frame s b) with (data_frame s (take (Z.to_nat MAX_CHUNK) b)) by (by rewrite take_chunk).
  assert (Hw : writes (H := H) anyway (eq (data_frame s (take (Z.to_nat MAX_CHUNK) b)))
    (ok <- buildAndTxCobsFrame s b;;
     if negb ok then ret false
     else
       (if s =? COBS_SEQ_MAX then
          SET txg txSeq := 0;; UPD txg txSeqLap_ := (fun lap => u8 (lap + 1))
        else SET txg txSeq := u8 (s + 1));;
       ret true)).
  { apply writes_bind; [by apply build_writes|intros ?]. wr. }
  eapply wpd_mono; [by apply Hw|]. by intros ? w' [_ Hg].
Qed.

Lemma sendCobsFrameAcked_writes b base (w : World H) :
  lenZ b <= MAX_CHUNK ->
  wpd True (sendCobsFrameAcked b base)
    (fun _ w' => grown (eq (data_frame (txSeq (txg (lk w))) b)) (written (hal w)) (written (hal w'))) w.
Proof.
  intros Hl. unfold sendCobsFrameAcked. apply wpd_bind, wpd_link. set (P := eq _).
  destruct (_ && _).
  { eapply wpd_mono; [apply (writes_bind (H := H) anyway P); [wr|intros ?; wr|done]|]. by intros ? w' [_ Hg]. }
  apply wpd_bind. eapply wpd_mono; [by apply sendCobsFrame_writes|]. intros ok w1 Hg1. cbv beta in Hg1.
  fold P in Hg1.
  eapply wpd_mono.
  { match goal with |- wpd _ ?m _ _ => assert (Hm : writes anyway P m) by wr end. by apply Hm. }
  intros ? w2 [_ Hg2]. by apply (grown_trans _ _ (written (hal w1))).
Qed.

(** A refused send writes nothing. *)
Lemma build_refused seq b (w : World H) :
  wpd True (buildAndTxCobsFrame seq b)
    (fun ok w' => ok = false -> written (hal w') = written (hal w)) w.
Proof.
  unfold buildAndTxCobsFrame, noteTxReject. ws. destruct (_ <? _); ws; [|done].
  destruct (_ =? 0); ws; intros _; cbn; by autorewrite with wire_log.
Qed.

Lemma sendCobsFrameAcked_refused b base (w : World H) :
  is_seq (txSeq (txg (lk w))) ->
  wpd True (sendCobsFrameAcked b base)
    (fun r w' => r = 0xFF -> written (hal w') = written (hal w)) w.
Proof.
  intros Hs. unfold sendCobsFrameAcked, sendCobsFrame. ws. destruct (_ && _); ws; [done|].
  eapply wpd_mono; [apply build_refused|]. intros [] w1 Hw1; cbn [negb];
    [|ws; cbn [negb]; ws; by auto].
  assert (Hne : txSeq (txg (lk w)) <> 0xFF) by (unfold is_seq in Hs; lia).
  destruct (_ =? _); ws; cbn [negb]; ws; destruct (negb _ && negb _); ws;
    destruct (_ >? 0); ws; intros ?; by destruct Hne.
Qed.

(** A retransmission writes frames of the cache; it leaves the cache and the
    window base alone. *)
Definition holds (c : ArqCache) (base : Z) : Link -> Prop :=
  fun l => arqCache_ (txg l) = c /\ gbnBase_ (arq_ (txg l)) = base.

Lemma holds_arq c base f l :
  (forall a, gbnBase_ (f a) = gbnBase_ a) -> holds c base l -> holds c base (rset txg (rset arq_ f) l).
Proof. intros Hf [Hc Hb]. split; [done|]. cbn. by rewrite Hf. Qed.

Lemma retxSeq_writes c base s :
  cache_inv c -> 0 <= s < SLOTS -> writes (H := H) (holds c base) (held_frame c) (retxSeq s).
Proof.
  intros Hc Hs. unfold retxSeq. apply writes_link. intros l [Hl _]. rewrite Hl.
  rewrite slotInUse_spec, peek_spec by done.
  assert (Hr : forall p, contents c s = Some p ->
    writes (holds c base) (held_frame c) (resendCobsFrame s p)).
  { intros p Hp. unfold resendCobsFrame. apply writes_bind.
    - eapply writes_mono; [|by apply build_writes]. intros ? <-. by exists s, p.
    - intros ?. wr. }
  destruct (contents c s) as [[|x p]|]; cbn [negb]; [by apply Hr|by apply Hr|apply writes_ret].
Qed.

Lemma resend_loop_writes c base n s now :
  cache_inv c -> is_byte s -> writes (H := H) (holds c base) (held_frame c) (resend_loop n s now).
Proof.
  intros Hc. revert s. induction n as [|n IH]; intros s Hs; cbn [resend_loop]; [wr|].
  assert (Hn : is_byte (next_seq s)).
  { unfold next_seq. destruct (_ =? _); [red; lia|apply u8_byte]. }
  wr; [apply retxSeq_writes; [done|unfold SLOTS; exact Hs]|].
  apply writes_upd. intros l. apply holds_arq. intros a'. unfold applyRetx. by destruct (bool_decide _).
Qed.

Lemma gbnResendWindow_writes c base now :
  cache_inv c -> is_byte base -> writes (H := H) (holds c base) (held_frame c) (gbnResendWindow now).
Proof.
  intros Hc Hb. unfold gbnResendWindow. wr.
  match goal with Hl : holds c base _ |- _ => destruct Hl as [_ ->] end. by apply resend_loop_writes.
Qed.

Lemma nak_resend_writes c base missing :
  cache_inv c -> is_byte base -> writes (H := H) (holds c base) (held_frame c) (nak_resend missing).
Proof.
  intros Hc Hb. unfold nak_resend. wr; try by apply gbnResendWindow_writes.
  all: apply writes_upd; intros l'; apply holds_arq; intros a';
    unfold noteSuppressedNak, onNaked; destruct (negb _); reflexivity.
Qed.

(** An ACK is not answered. *)
Lemma ack_walk_writes P fuel acked n s freed :
  writes (H := H) anyway P (ack_walk fuel acked n s freed).
Proof.
  revert s freed. induction fuel as [|fuel IH]; intros s freed; cbn [ack_walk]; unfold forget_nak; wr.
Qed.

Lemma onAck_writes P acked n : writes (H := H) anyway P (onAck acked n).
Proof.
  unfold onAck, peer_response, forget_nak, noteValidFrameOk, ack_window.
  pose proof (ack_walk_writes P). wr.
Qed.

(** A NAK is answered with frames the cache holds when it is answered. *)
Lemma nak_walk_writes P fuel missing freed :
  writes (H := H) anyway P (nak_walk fuel missing freed).
Proof.
  revert freed. induction fuel as [|fuel IH]; intros freed; cbn [nak_walk]; unfold forget_nak; wr.
Qed.
End Sender.
End Emits.
