(* ===== verification/Flow.v ===== *)
(** * The sender's stream

    [flow s0 B sent]: the sender has sent the chunks [sent], numbered from
    [s0] on; the first [B] are acknowledged and the others are in flight, each
    held under its own number. A send appends a chunk; an ACK or a NAK of a
    chunk moves [B] and nothing else, whatever is retransmitted. *)
From S2P Require Import Prelude Monad Crc MsgCodec FrameRx Config Decision ArqCache Arq Hal.
From S2P Require Import LinkState Timing Tx Core Sweep Gbn Rx Frames Sender Acks Trace Emits.
Import MsgCodec FrameRx Config Decision ArqCache Arq Hal LinkState Timing Tx Core Sweep Gbn Rx
  Frames Sender Acks Trace Emits.

Module Flow.

(** A chunk a frame can carry. *)
Definition chunk_ok (b : list Z) : Prop := bytes b /\ b <> [] /\ lenZ b <= MAX_CHUNK.

Definition nthZ (l : list (list Z)) (k : Z) : list Z := rd [] l k.

Record flow (s0 B : Z) (sent : list (list Z)) (l : Link) : Prop := mkFlow {
  flow_win : txon (at_win (lenZ sent - B) OK) l;
  flow_B : 0 <= B <= lenZ sent;
  flow_cap : lenZ sent - B <= 32;
  flow_base : B < lenZ sent -> gbnBase_ (arq_ (txg l)) = seq_at s0 B;
  flow_next : txSeq (txg l) = seq_at s0 (lenZ sent);
  flow_held : forall k, B <= k < lenZ sent ->
    contents (arqCache_ (txg l)) (seq_at s0 k) = Some (nthZ sent k);
  flow_chunks : Forall chunk_ok sent;
}.

(** ** What an ACK or a NAK never does *)

(** The cache has only lost slots since it was [c0], and the next sequence
    number is still [ts]. *)
Definition shrunk (c0 : ArqCache) (ts : Z) (t : TxG) (_ : Mode) (_ : State) : Prop :=
  cache_ok (arqCache_ t) /\ is_byte (gbnBase_ (arq_ t)) /\ txSeq t = ts /\
  forall s, 0 <= s < SLOTS ->
    contents (arqCache_ t) s = None \/ contents (arqCache_ t) s = contents c0 s.

Section Shrunk.
Context {H : Type} `{IHal H} (c0 : ArqCache) (ts : Z).
Abbreviation kept := (keeps True (on (H := H) (txon (shrunk c0 ts)))).

Lemma next_seq_byte s : is_byte (next_seq s).
Proof. unfold next_seq. destruct (_ =? _); [red; lia|apply u8_byte]. Qed.

Lemma upd_arq_kept f : (forall a, gbnBase_ (f a) = gbnBase_ a) -> kept (upd (rset txg (rset arq_ f))).
Proof.
  intros Hf. apply keeps_upd. intros l (Hc & Hb & Ht & Hs). split_and!; try done. cbn. by rewrite Hf.
Qed.

Lemma upd_base_kept f :
  (forall a, is_byte (gbnBase_ (f a))) -> kept (upd (rset txg (rset arq_ f))).
Proof. intros Hf. apply keeps_upd. intros l (Hc & Hb & Ht & Hs). split_and!; try done. apply Hf. Qed.

Lemma free_kept s cause :
  is_byte s -> kept (upd (rset txg (rset arqCache_ (freeBySeq s cause)))).
Proof.
  intros Hb. apply keeps_upd. intros l (Hc & Hbb & Ht & Hs).
  destruct (freeBySeq_ok s cause _ Hc) as [Hc' Hk]; [unfold SLOTS; exact Hb|].
  split_and!; try done. intros x Hx. cbn. rewrite Hk by done. destruct (s =? x); [by left|by apply Hs].
Qed.

Lemma onAcked_kept s n : kept (upd (rset txg (rset arq_ (onAcked s n)))).
Proof. apply upd_arq_kept. intros a. apply (onAcked_fields s n a). Qed.
Hint Resolve onAcked_kept : keeps.

Lemma ack_walk_kept fuel acked n s freed :
  is_byte s -> kept (ack_walk fuel acked n s freed).
Proof.
  revert s freed. induction fuel as [|fuel IH]; intros s freed Hs; cbn [ack_walk]; [by apply keeps_stuck|].
  pose proof (next_seq_byte s). pose proof (free_kept s CumulativeBackfill Hs). kt.
Qed.

Lemma ack_window_kept acked n : kept (ack_window acked n).
Proof.
  unfold ack_window. apply keeps_link. intros l (Hc & Hb & Ht & Hs). kt.
  - by apply ack_walk_kept.
  - apply upd_base_kept. intros ?. apply next_seq_byte.
Qed.
Hint Resolve ack_window_kept : keeps.

Lemma onAck_kept acked n : is_byte acked -> kept (onAck acked n).
Proof. intros Hb. pose proof (free_kept acked SingleAck Hb). unfold onAck. kt. Qed.

Lemma nak_walk_kept fuel missing freed : kept (nak_walk fuel missing freed).
Proof.
  revert freed. induction fuel as [|fuel IH]; intros freed; cbn [nak_walk]; [by apply keeps_stuck|].
  apply keeps_link. intros l (Hc & Hb & Ht & Hs). pose proof (free_kept _ NakCumulative Hb). kt.
  apply upd_base_kept. intros ?. apply next_seq_byte.
Qed.
Hint Resolve nak_walk_kept : keeps.

Lemma resend_loop_kept n s now : kept (resend_loop n s now).
Proof.
  pose proof (retxSeq_frame (H := H) True (shrunk c0 ts)).
  revert s. induction n as [|n IH]; intros s; cbn [resend_loop]; kt.
  apply upd_arq_kept. intros a'. unfold applyRetx. by destruct (bool_decide _).
Qed.
Hint Resolve resend_loop_kept : keeps.

Lemma gbnResendWindow_kept now : kept (gbnResendWindow now).
Proof. unfold gbnResendWindow. kt. Qed.
Hint Resolve gbnResendWindow_kept : keeps.

Lemma nak_resend_kept missing : kept (nak_resend missing).
Proof.
  unfold nak_resend. kt; apply upd_arq_kept; intros a';
    unfold noteSuppressedNak, onNaked; destruct (negb _); reflexivity.
Qed.
Hint Resolve nak_resend_kept : keeps.

Lemma onNak_kept missing : kept (onNak missing).
Proof.
  unfold onNak. kt. apply upd_arq_kept. intros a'. unfold noteNakWake, give. cbn. by case_match.
Qed.
End Shrunk.

(** ** Moving the acknowledged count *)

Lemma seq_at_close s0 i j : -254 < i - j < 254 -> seq_at s0 i = seq_at s0 j -> i = j.
Proof. unfold seq_at. intros. mlia. Qed.

(** The sender before an ACK or a NAK. *)
Lemma flow_shrunk s0 B sent l :
  flow s0 B sent l -> txon (shrunk (arqCache_ (txg l)) (txSeq (txg l))) l.
Proof.
  intros [Hw _ _ _ _ _ _]. destruct Hw as (_ & _ & [[_ Hc Hb _ _ _ _ _ _] _]).
  split_and!; try done; [unfold is_seq, is_byte in *; lia|by right].
Qed.

(** After it, [B'] chunks are acknowledged. *)
Lemma flow_advance s0 B B' sent l l' :
  flow s0 B sent l -> B <= B' <= lenZ sent ->
  txon (at_win (lenZ sent - B') OK) l' ->
  (B' < lenZ sent -> gbnBase_ (arq_ (txg l')) = seq_at s0 B') ->
  txon (shrunk (arqCache_ (txg l)) (txSeq (txg l))) l' ->
  flow s0 B' sent l'.
Proof.
  intros [Hw HB Hc Hb Hn Hh Hk] HB' Hw' Hb' (_ & _ & Hts & Hs). split; try done; try lia.
  intros k Hk'. pose proof Hw' as (_ & _ & [[_ _ _ _ _ _ Hheld _ _] _]).
  assert (Hq : is_seq (seq_at s0 k)) by apply seq_at_range.
  destruct (proj2 (Hheld _ Hq)) as (p & Hp & _).
  { exists (k - B'). split; [lia|]. rewrite Hb', seq_at_add by lia. f_equal. lia. }
  assert (Hin : 0 <= seq_at s0 k < SLOTS) by (unfold is_seq, SLOTS in *; lia).
  destruct (Hs _ Hin) as [E|E]; [congruence|]. rewrite E. apply Hh. lia.
Qed.

(** Everything a step of the sender's control part leaves alone. *)
Lemma flow_pinned s0 B sent l l' : flow s0 B sent l -> txon (pinned l) l' -> flow s0 B sent l'.
Proof.
  intros [Hw HB Hc Hb Hn Hh Hk] (E1 & E2 & E3).
  split; rewrite ?E1; try done. unfold txon, at_win in *. by rewrite E1, E2, E3.
Qed.

Section Replies.
Context {H : Type} `{IHal H} (s0 B : Z) (sent : list (list Z)).

(** An ACK of chunk [a], recent enough for its number to be unambiguous. *)
Lemma flow_ack a n (w : World H) :
  flow s0 B sent (lk w) -> B - 64 <= a < lenZ sent ->
  wp (onAck (seq_at s0 a) n) (fun r w' => r = false /\ flow s0 (Z.max B (a + 1)) sent (lk w')) w.
Proof.
  intros Hf Ha. pose proof Hf as [Hw HB Hc Hb _ _ _].
  assert (Hq : is_byte (seq_at s0 a)) by (pose proof (seq_at_range s0 a); unfold is_seq, is_byte in *; lia).
  unfold wp. eapply wpd_mono.
  { apply wpd_and; [apply (onAck_ok _ n (lenZ sent - B) w Hq); [lia|done]|].
    apply (onAck_kept (arqCache_ (txg (lk w))) (txSeq (txg (lk w))) (seq_at s0 a) n Hq w). by apply (flow_shrunk s0 B sent). }
  intros r w' [[-> Hr] Hs]. split; [done|].
  destruct Hr as [(j & Hj & E & Hw' & Hb')|[Hno Hp]].
  - rewrite Hb, seq_at_add in E by lia. apply seq_at_close in E; [|lia].
    replace (Z.max B (a + 1)) with (a + 1) by lia. apply (flow_advance s0 B _ _ (lk w)); try done; try lia.
    + by replace (lenZ sent - (a + 1)) with (lenZ sent - B - j - 1) by lia.
    + intros _. rewrite Hb', Hb, seq_at_add by lia. f_equal. lia.
  - destruct (Z.leb_spec B a) as [Hge|Hlt].
    + exfalso. apply (Hno (a - B)); [lia|]. rewrite Hb, seq_at_add by lia. f_equal. lia.
    + replace (Z.max B (a + 1)) with B by lia. by apply (flow_pinned s0 B sent (lk w)).
Qed.

(** A NAK of chunk [a] (or of the next chunk to send). *)
Lemma flow_nak a (w : World H) :
  flow s0 B sent (lk w) -> B - 64 <= a <= lenZ sent ->
  wp (onNak (seq_at s0 a)) (fun r w' => r = false /\ exists B', flow s0 B' sent (lk w') /\
        (B' = B \/ B' = a /\ B <= a)) w.
Proof.
  intros Hf Ha. pose proof Hf as [Hw HB Hc Hb _ _ _].
  assert (Hq : is_byte (seq_at s0 a)) by (pose proof (seq_at_range s0 a); unfold is_seq, is_byte in *; lia).
  unfold wp. eapply wpd_mono.
  { apply wpd_and; [apply (onNak_ok _ (lenZ sent - B) w Hq); [lia|done]|].
    apply (onNak_kept (arqCache_ (txg (lk w))) (txSeq (txg (lk w))) (seq_at s0 a) w). by apply (flow_shrunk s0 B sent). }
  intros r w' [[-> Hr] Hs]. split; [done|].
  destruct Hr as [(j & Hj & E & [Hw' Hb'])|[Hno Hp]].
  - rewrite Hb, seq_at_add in E by lia. apply seq_at_close in E; [|lia].
    exists a. split; [|right; lia]. apply (flow_advance s0 B _ _ (lk w)); try done; try lia.
    by replace (lenZ sent - a) with (lenZ sent - B - j) by lia.
  - exists B. split; [|by left]. by apply (flow_pinned s0 B sent (lk w)).
Qed.
End Replies.

(** ** What the sender writes *)

(** A frame of a chunk in flight. *)
Definition flight_frame (s0 B : Z) (sent : list (list Z)) (f : list Z) : Prop :=
  exists k, B <= k < lenZ sent /\ f = data_frame (seq_at s0 k) (nthZ sent k).

Section FlowWrites.
Context {H : Type} `{HalLog H}.

Lemma writes_keeps {A} I P (m : Act H A) : keeps True (on I) m -> writes anyway P m -> writes I P m.
Proof.
  intros Hk Hw w Hi. eapply wpd_mono; [apply wpd_and; [by apply Hk|by apply Hw]|].
  by intros ? w' [? [_ ?]].
Qed.

Lemma held_shrunk c c0 f :
  (forall s, 0 <= s < SLOTS -> contents c s = None \/ contents c s = contents c0 s) ->
  held_frame c f -> held_frame c0 f.
Proof.
  intros Hs (s & p & Hr & E & ->). exists s, p. destruct (Hs s Hr) as [E'|E']; [congruence|].
  by rewrite <- E'.
Qed.

Section Shrunk.
Context (c0 : ArqCache) (ts : Z).
Abbreviation sends := (writes (H := H) (txon (shrunk c0 ts)) (held_frame c0)).

Lemma resends {A} (m : Act H A) :
  keeps True (on (txon (shrunk c0 ts))) m ->
  (forall c base, cache_inv c -> is_byte base -> writes (holds c base) (held_frame c) m) -> sends m.
Proof.
  intros Hk Hm w Hw. pose proof Hw as (Hc & Hb & _ & Hs).
  eapply wpd_mono.
  { apply wpd_and; [by apply Hk|].
    by apply (Hm (arqCache_ (txg (lk w))) (gbnBase_ (arq_ (txg (lk w)))) (proj1 Hc) Hb w). }
  intros ? w' [Hw' [_ Hg]]. split; [done|]. eapply grown_mono; [|exact Hg].
  intros f. by apply held_shrunk.
Qed.

Lemma gbnResendWindow_sends now : sends (gbnResendWindow now).
Proof.
  apply resends; [apply gbnResendWindow_kept|]. intros. by apply gbnResendWindow_writes.
Qed.

Lemma nak_resend_sends missing : sends (nak_resend missing).
Proof. apply resends; [apply nak_resend_kept|]. intros. by apply nak_resend_writes. Qed.
Hint Resolve nak_resend_sends : writes.

Lemma nak_walk_sends fuel missing freed : sends (nak_walk fuel missing freed).
Proof. apply writes_keeps; [apply nak_walk_kept|apply nak_walk_writes]. Qed.
Hint Resolve nak_walk_sends : writes.

Lemma onNak_sends missing : sends (onNak missing).
Proof.
  unfold onNak, peer_response. wr. apply writes_upd.
  intros l' (Hc & Hb & Ht & Hs). split_and!; try done. cbn. unfold noteNakWake, give. cbn. by case_match.
Qed.
End Shrunk.

(** What the cache of a flow holds is what is in flight. *)
Lemma flow_held_frame s0 B sent l f :
  flow s0 B sent l -> held_frame (arqCache_ (txg l)) f -> flight_frame s0 B sent f.
Proof.
  intros [Hw HB Hc Hb Hn Hh Hk] (s & p & Hs & E & ->).
  destruct Hw as (_ & _ & [[_ _ _ _ _ _ Hheld Honly Hrange] _]).
  assert (Hq : is_seq s).
  { unfold is_seq. destruct (Z.ltb_spec s 254); [lia|]. rewrite Hrange in E by lia. congruence. }
  destruct (Honly s Hs) as [E'|Hcd]; [congruence|]. apply Hheld in Hcd as (i & Hi & ->); [|done].
  rewrite Hb, seq_at_add in * by lia. exists (B + i). split; [lia|].
  rewrite Hh in E by lia. injection E as <-. rewrite take_chunk; [done|].
  assert (Hin : In (nthZ sent (B + i)) sent).
  { unfold nthZ, rd. apply nth_In. unfold lenZ in *. lia. }
  rewrite List.Forall_forall in Hk. by apply Hk in Hin as (_ & _ & ?).
Qed.

Lemma flow_writes {A} s0 B sent (m : Act H A) (w : World H) :
  flow s0 B sent (lk w) ->
  (forall c0 ts, writes (txon (shrunk c0 ts)) (held_frame c0) m) ->
  wpd True m (fun _ w' => grown (flight_frame s0 B sent) (written (hal w)) (written (hal w'))) w.
Proof.
  intros Hf Hm. eapply wpd_mono.
  { apply (Hm (arqCache_ (txg (lk w))) (txSeq (txg (lk w)))). by apply (flow_shrunk s0 B sent). }
  intros ? w' [_ Hg]. eapply grown_mono; [|exact Hg]. intros f. by apply flow_held_frame.
Qed.
End FlowWrites.

(** ** Sending *)

Section Send.
Context {H : Type} `{IHal H} (s0 B : Z) (sent : list (list Z)).

Lemma nthZ_snoc b k :
  0 <= k <= lenZ sent -> nthZ (sent ++ [b]) k = if k =? lenZ sent then b else nthZ sent k.
Proof.
  intros Hk. unfold nthZ, rd, lenZ in *. destruct (Z.eqb_spec k (Z.of_nat (length sent))) as [->|Hne].
  - rewrite Nat2Z.id, app_nth2 by lia. by rewrite Nat.sub_diag.
  - rewrite app_nth1 by lia. done.
Qed.

(** A chunk that is sent is the next of the stream; one that is refused leaves
    it alone. *)
Lemma flow_send b bs (w : World H) :
  flow s0 B sent (lk w) -> chunk_ok b -> lenZ sent - B < 32 ->
  wp (sendCobsFrameAcked b bs)
    (fun r w' => if r =? 0xFF then flow s0 B sent (lk w')
                 else r = seq_at s0 (lenZ sent) /\ flow s0 B (sent ++ [b]) (lk w')) w.
Proof.
  intros Hf (Hbb & Hne & Hl) Hr. pose proof Hf as [Hw HB Hc Hb Hn Hh Hk].
  pose proof Hw as (Hm & Hs & Hx). pose proof Hx as [[_ Hcache _ _ _ _ _ _ _] _].
  assert (Hq : is_seq (txSeq (txg (lk w)))) by (rewrite Hn; apply seq_at_range).
  unfold wp. eapply wpd_mono; [by apply sendCobsFrameAcked_exact|].
  intros r w' (E2 & E3 & Hr'). destruct (r =? 0xFF).
  { apply (flow_pinned s0 B sent (lk w)); [done|]. by split_and!. }
  destruct Hr' as (-> & Hroom & now & lap & lap' & E1). split; [done|].
  assert (Hl' : lenZ b <= POOL_BUF_MAX) by (unfold MAX_CHUNK, POOL_BUF_MAX in *; lia).
  assert (Hlen : lenZ (sent ++ [b]) = lenZ sent + 1) by (rewrite lenZ_app; done).
  set (n := lenZ sent - B) in *.
  assert (Ho : txw (n + 1) (txg (lk w'))) by (rewrite E1; apply open_win; [done|lia|done..]).
  destruct (open_at_win n (txg (lk w)) Hx) as (_ & _ & Hz); [lia|].
  assert (Hbase : gbnBase_ (arq_ (txg (lk w'))) = seq_at s0 B).
  { rewrite E1. cbn [arq_]. rewrite onSent_base. destruct (Z.eq_dec n 0) as [E|E].
    - etransitivity; [exact (Hz E)|]. cbn [txSeq]. rewrite Hn. f_equal. lia.
    - destruct Hx as [_ Ha]. unfold open_at. rewrite Ha. replace (0 <? n) with true by lia.
      apply Hb. lia. }
  split; rewrite ?Hlen; try lia.
  - split_and!; [by rewrite E2|by rewrite E3|]. by replace (lenZ sent + 1 - B) with (n + 1) by lia.
  - rewrite E1. cbn [txSeq]. rewrite Hn. apply next_seq_at.
  - intros k Hk'. rewrite E1. cbn [arqCache_]. rewrite Hn.
    assert (Hst : storable (seq_at s0 (lenZ sent)) b (arqCache_ (txg (lk w))))
      by (apply hasRoom_storable; done || apply Hcache).
    destruct (insert_ok _ _ _ Hcache (is_seq_slot _ (seq_at_range s0 (lenZ sent))) Hst) as [_ ->];
      [|apply is_seq_slot, seq_at_range].
    rewrite nthZ_snoc by lia. destruct (Z.eqb_spec k (lenZ sent)) as [->|Hkn].
    + by rewrite Z.eqb_refl.
    + destruct (Z.eqb_spec (seq_at s0 (lenZ sent)) (seq_at s0 k)) as [E|E].
      * apply seq_at_close in E; lia.
      * apply Hh. lia.
  - apply Forall_app. split; [done|]. by repeat constructor.
Qed.

(** A retransmission of the window leaves the stream alone. *)
Lemma flow_resend now (w : World H) :
  flow s0 B sent (lk w) -> wp (gbnResendWindow now) (fun _ w' => flow s0 B sent (lk w')) w.
Proof.
  intros Hf. pose proof Hf as [Hw HB Hc Hb _ _ _]. unfold wp. eapply wpd_mono.
  { apply wpd_and.
    - apply (gbnResendWindow_at (gbnBase_ (arq_ (txg (lk w)))) (lenZ sent - B) OK now w). by split.
    - apply (gbnResendWindow_kept (arqCache_ (txg (lk w))) (txSeq (txg (lk w))) now w).
      by apply (flow_shrunk s0 B sent). }
  intros ? w' [[Hw' Hb'] Hs]. apply (flow_advance s0 B B sent (lk w)); try done; lia.
Qed.
End Send.
End Flow.
