(* ===== verification/Recovery.v ===== *)
(** * No reachable state is a dead end

    From every state two linked ends can reach over the lossy wire there is a way
    on in which everything sent so far is delivered and acknowledged: the hardware
    sends what is queued, the sender resends its window, the frame of the oldest
    chunk and its ACK come through, and the application reads. *)
From stdpp Require Import relations.
From S2P Require Import Prelude Monad Crc MsgCodec FrameRx Config Decision ArqCache Arq Hal.
From S2P Require Import LinkState Timing Tx Core Sweep Gbn Rx Frames Sender Receiver Wire.
From S2P Require Import Acks Trace Emits Flow EndToEnd.
Import MsgCodec FrameRx Config Decision ArqCache Arq Hal LinkState Timing Tx Core Sweep Gbn Rx
  Frames Sender Receiver Wire Acks Trace Emits Flow EndToEnd.

Module Recovery.

(** ** Hardware that sends what it is given *)

(** [sized]: the buffers are as large as [begin] makes them; [drain]: the UART has
    sent what was queued, which leaves room for a frame ([roomy]) until one is
    written. *)
Class Drains (H : Type) `{HalLog H} := {
  sized : H -> Prop;
  roomy : H -> Prop;
  drain : H -> H;
  drained : forall h, sized h -> sized (drain h) /\ roomy (drain h);
  roomy_avail : forall h, roomy h -> kWorstCaseCobsFrame <= fst (txAvail h);
  roomy_txAvail : forall h, roomy h -> roomy (snd (txAvail h));
  roomy_now : forall h, roomy h -> roomy (snd (nowMs h));
  roomy_free : forall h, roomy h -> roomy (snd (appBufFree h));
  roomy_push : forall b h, roomy h -> roomy (snd (pushAppBuf b h));
  sized_tx : forall b h, sized h -> sized (snd (tx b h));
  sized_txAvail : forall h, sized h -> sized (snd (txAvail h));
  sized_now : forall h, sized h -> sized (snd (nowMs h));
  sized_free : forall h, sized h -> sized (snd (appBufFree h));
  sized_push : forall b h, sized h -> sized (snd (pushAppBuf b h));
  sized_pop : forall n h, sized h -> sized (snd (popAppBuf n h));
}.

(** An empty application buffer has room for a chunk. *)
Class HoldsChunk (H : Type) `{HalApp H} `{!HalLog H} `{!Drains H} := {
  drain_app : forall h, appv (drain h) = appv h;
  sized_room : forall h, sized h -> 0 <= snd (appv h) -> fst (appv h) = [] -> MAX_CHUNK <= snd (appv h);
}.

(** ** What stays in place *)

Section Sized.
Context {H : Type} `{Drains H} (C : AutoLinkConfig -> Prop).

Definition fit (w : World H) : Prop := sized (hal w) /\ C (cfg (lk w)).
Abbreviation fits := (keeps True fit).

Lemma fit_hw {A} (f : H -> A * H) : (forall h, sized h -> sized (snd (f h))) -> fits (hw f).
Proof. intros Hf w [Hs Hc]. split; [by apply Hf|done]. Qed.

Lemma fit_upd f : (forall l, cfg (f l) = cfg l) -> fits (upd f).
Proof. intros Hf w [Hs Hc]. split; [done|]. cbn. by rewrite Hf. Qed.

Lemma fit_link {A} (f : Link -> Act H A) : (forall l, fits (f l)) -> fits (bind link f).
Proof. intros Hf w Hw. by apply (Hf (lk w)). Qed.

Ltac kf_step :=
  lazymatch goal with
  | |- keeps _ _ (bind link _) => apply fit_link; intros ?
  | |- keeps _ _ (hw _) => apply fit_hw; intros ?;
      first [apply sized_tx | apply sized_txAvail | apply sized_now | apply sized_free | apply sized_push]
  | |- keeps _ _ (upd _) => apply fit_upd; intros ?; reflexivity
  | |- keeps _ _ (let _ := _ in _) => cbv zeta
  | |- _ => keeps_step
  end.
Ltac kf := repeat first [ solve [auto with keeps nocore] | kf_step ].

Lemma fit_tx b : fits (hw_tx b).
Proof. unfold hw_tx. kf. Qed.
Hint Resolve fit_tx : keeps.

Lemma fit_valid : fits noteValidFrameOk.
Proof. unfold noteValidFrameOk. kf. Qed.
Hint Resolve fit_valid : keeps.

Lemma fit_onPayload c b : fits (onPayload c b).
Proof.
  unfold onPayload, payload_stale, payload_gap_sync, payload_gap_async, payload_forward,
    payload_hold, advance_rxSeq, clear_errs, sendAckFrame, sendNakFrame, sendCtrlCobsFrame, txSmallCobs. kf.
Qed.

Lemma fit_ack_walk fuel a n s f : fits (ack_walk fuel a n s f).
Proof.
  revert s f. induction fuel as [|fuel IH]; intros s f; cbn [ack_walk]; [by apply keeps_stuck|].
  unfold forget_nak. kf.
Qed.
Hint Resolve fit_ack_walk : keeps.

Lemma fit_onAck a n : fits (onAck a n).
Proof. unfold onAck, peer_response, forget_nak, ack_window. kf. Qed.

Lemma fit_resend_loop n s now : fits (resend_loop n s now).
Proof.
  revert s. induction n as [|n IH]; intros s; cbn [resend_loop];
    unfold retxSeq, resendCobsFrame, buildAndTxCobsFrame, noteTxReject; kf.
Qed.
Hint Resolve fit_resend_loop : keeps.

Lemma fit_resend now : fits (gbnResendWindow now).
Proof. unfold gbnResendWindow. kf. Qed.
End Sized.

(** ** Something is written *)

Section Talks.
Context {H : Type} `{Drains H}.

Lemma ack_frame_fits c n : lenZ (ack_frame c n) <= kWorstCaseCobsFrame.
Proof.
  unfold ack_frame. set (b := sealed _). assert (Hb : lenZ b = 5) by done.
  rewrite cobsFrame_spec by (rewrite Hb; by vm_compute).
  pose proof (Cobs.Cobs.stuff_bound b) as [_ Hs]. rewrite Hb in Hs.
  change (Cobs.Cobs.encodedMax 5) with 6 in Hs. rewrite lenZ_cons, lenZ_app. change (lenZ [0]) with 1.
  change kWorstCaseCobsFrame with 262. lia.
Qed.

Lemma ack_talks c n (w : World H) :
  roomy (hal w) -> wpd True (sendAckFrame c n) (fun _ w' => written (hal w') = written (hal w) ++ [ack_frame c n]) w.
Proof.
  intros Hr. unfold sendAckFrame, txSmallCobs. pose proof (roomy_avail _ Hr) as Ha.
  pose proof (ack_frame_fits c n) as Hf. unfold ack_frame in *. set (f := cobsFrame _ _) in *.
  ws. replace (fst (txAvail (hal w)) <? lenZ f) with false by lia.
  unfold hw_tx. ws. cbn [hal]. by rewrite log_of_now, log_tx, log_of_txAvail.
Qed.

(** The resend of a chunk the cache holds. *)
Lemma retx_talks s p (w : World H) :
  cache_inv (arqCache_ (txg (lk w))) -> 0 <= s < SLOTS -> contents (arqCache_ (txg (lk w))) s = Some p ->
  p <> [] -> lenZ p <= MAX_CHUNK -> roomy (hal w) ->
  wpd True (retxSeq s) (fun r w' => r = true /\ written (hal w') = written (hal w) ++ [data_frame s p]) w.
Proof.
  intros Hc Hs Hp Hne Hl Hr. unfold retxSeq. ws. rewrite slotInUse_spec, peek_spec, Hp by done. cbn [negb].
  destruct p as [|x p]; [done|]. unfold resendCobsFrame, buildAndTxCobsFrame.
  pose proof (roomy_avail _ Hr) as Ha. ws. replace (_ <? _) with false by lia. unfold hw_tx. ws. cbn [negb].
  rewrite take_chunk by done. destruct (lenZ (x :: p) >? 0); ws; cbn [hal];
    by rewrite log_of_now, log_tx, log_of_txAvail.
Qed.

Lemma resend_loop_grows n s now : writes (H := H) anyway (fun _ => True) (resend_loop n s now).
Proof.
  revert s. induction n as [|n IH]; intros s; cbn [resend_loop];
    unfold retxSeq, resendCobsFrame, buildAndTxCobsFrame, noteTxReject; wr.
Qed.

(** A resend of the window starts with the frame of its oldest chunk. *)
Lemma resend_talks s0 B sent now (w : World H) :
  flow s0 B sent (lk w) -> B < lenZ sent -> 1 <= gbnResendBurstMax (cfg (lk w)) -> roomy (hal w) ->
  wpd True (gbnResendWindow now)
    (fun _ w' => exists es, written (hal w') = written (hal w) ++ data_frame (seq_at s0 B) (nthZ sent B) :: es) w.
Proof.
  intros Hf HB Hm Hr. pose proof (nth_chunk _ _ _ _ B Hf) as Hch. destruct Hf as [Hw HB0 Hcap Hbase _ Hheld _].
  destruct Hw as (_ & _ & Hx). pose proof (txw_count (lenZ sent - B) _ ltac:(lia) Hx) as Hn.
  destruct Hx as [[_ Hcache _ _ _ _ _ _ _] Hact]. destruct Hch as (_ & Hne & Hl); [lia|].
  unfold gbnResendWindow. ws. rewrite Hact. replace (0 <? lenZ sent - B) with true by lia. cbn [negb]. ws.
  rewrite Hbase by done. rewrite Hn. set (burst := decideGbnResendCap _ _).
  assert (Hb : 1 <= burst) by (unfold burst, decideGbnResendCap; repeat case_match; bool_prop; lia).
  destruct (Z.to_nat burst) as [|k] eqn:Ek; [lia|]. clearbody burst. cbn [resend_loop].
  match goal with |- wpd _ _ _ ?x => set (w1 := x) end.
  assert (Hr1 : roomy (hal w1)) by exact Hr. pose proof (roomy_avail _ Hr1) as Ha.
  ws. replace (_ <? _) with false by lia. ws. eapply wpd_mono.
  { apply (retx_talks (seq_at s0 B) (nthZ sent B)); cbn; try done.
    - apply Hcache.
    - apply is_seq_slot, seq_at_range.
    - apply Hheld. lia.
    - by apply roomy_txAvail. }
  intros r w2 [-> E]. cbn [negb]. ws. eapply wpd_mono; [by apply resend_loop_grows|].
  intros ? w3 [_ (es & E3 & _)]. cbn [hal] in E3, E. exists es. rewrite E3, E, log_of_txAvail. cbn [hal w1].
  by rewrite <- app_assoc.
Qed.
End Talks.

(** ** A chunk the receiver has, or takes, is acknowledged *)

Lemma classify_have s0 k r :
  r - 64 <= k < r ->
  classifyGap (seq_at s0 k) (seq_at s0 (r - 1)) true = (Stale, if k =? r - 1 then 0 else k - r + 1 + 254).
Proof.
  intros Hk. pose proof (seq_at_range s0 k) as H1. pose proof (seq_at_range s0 (r - 1)) as H2.
  unfold is_seq in *. rewrite classify_arcs by lia.
  assert (Ed : seq_dist (seq_at s0 k) (seq_at s0 (r - 1)) = if k =? r - 1 then 0 else k - r + 1 + 254).
  { unfold seq_dist, seq_at. rewrite <- Zminus_mod. replace (s0 + k - (s0 + (r - 1))) with (k - r + 1) by lia.
    destruct (Z.eqb_spec k (r - 1)); mlia. }
  rewrite Ed. destruct (Z.eqb_spec k (r - 1)); [done|].
  replace (_ =? 1) with false by lia. by replace (k - r + 1 + 254 <=? 127) with false by lia; rewrite andb_false_r.
Qed.

Section Answers.
Context {H : Type} `{HoldsChunk H}.

(** The receiver, its hardware and what it has written so far. *)
Definition calm (s cap : Z) (L : list (list Z)) (w : World H) : Prop :=
  rcv s true [] cap w /\ roomy (hal w) /\ written (hal w) = L.

Lemma calm_hw {A} s cap L (f : H -> A * H) :
  (forall h, appv (snd (f h)) = appv h) -> (forall h, roomy h -> roomy (snd (f h))) ->
  (forall h, written (snd (f h)) = written h) -> keeps True (calm s cap L) (hw f).
Proof.
  intros Ha Hm Hl w ((E1 & E2 & E3 & E4 & E5) & Hr & Hw). split; [split_and!; try done; cbn; by rewrite Ha|].
  split; [by apply Hm|]. cbn. by rewrite Hl.
Qed.

Lemma calm_upd s cap L f : (forall l v, rcv_P s true [] cap l v -> rcv_P s true [] cap (f l) v) -> keeps True (calm s cap L) (upd f).
Proof. intros Hf w [Hr Hw]. split; [by apply Hf|done]. Qed.

Lemma calm_valid s cap L : keeps True (calm s cap L) noteValidFrameOk.
Proof.
  intros w (Hr & Hm & Hl). unfold noteValidFrameOk. ws. destruct (_ =? 0); ws; [by split_and!|].
  assert (Hc : calm s cap L (mkWorld (lk w) (snd (nowMs (hal w))))).
  { apply (calm_hw s cap L nowMs app_of_now roomy_now log_of_now w). by split_and!. }
  destruct (_ <? _); ws; [done|]. destruct (_ =? 0); ws; exact Hc.
Qed.

(** ... and after it has answered. *)
Definition answered (L : list (list Z)) (w : World H) : Prop := written (hal w) <> L.

Lemma stale_talks s cap L c df n w :
  (df =? 0) || (LD_SEQ_WRAP - df <=? 2 * AUTOLINK_ARQ_PIPELINE_WINDOW) = true ->
  calm s cap L w -> wpd True (payload_stale c df n) (fun _ => answered L) w.
Proof.
  intros Hd (Hr & Hm & Hl). unfold payload_stale. ws. rewrite Hd. cbn [negb]. ws.
  eapply wpd_mono; [by apply ack_talks|]. cbv beta. intros ? w1 E. ws. unfold answered. rewrite E. cbn [hal].
  rewrite Hl. intros X. apply (f_equal (@length _)) in X. rewrite length_app in X. cbn in X. lia.
Qed.

Lemma forward_talks s cap L c b w :
  bytes b -> b <> [] -> 0 <= cap -> lenZ b <= cap -> calm s cap L w ->
  wpd True (payload_forward c b) (fun _ => answered L) w.
Proof.
  intros Hb Hne Hcap Hl ((E1 & E2 & E3 & E4 & E5) & Hm & HL). unfold payload_forward. cbv zeta.
  assert (Hpos : 0 < lenZ b) by (destruct b; [done|rewrite lenZ_cons; pose proof (lenZ_nonneg b); lia]).
  replace (lenZ b =? 0) with false by lia. ws. rewrite app_free by (rewrite ?E3; cbn; lia). rewrite E3. cbn [fst snd].
  rewrite lenZ_nil. replace (cap - 0 <? lenZ b) with false by lia. ws. cbn [hal].
  rewrite app_push_fit by (rewrite app_of_free, E3; cbn [fst snd]; rewrite ?lenZ_nil; lia).
  rewrite Z.eqb_refl. cbn [negb]. ws.
  match goal with |- wpd _ _ _ ?x => set (w1 := x) end.
  assert (Hw1 : roomy (hal w1) /\ written (hal w1) = L).
  { split; [by apply roomy_push, roomy_free|]. cbn. by rewrite log_of_push, log_of_free. }
  clearbody w1. eapply wpd_mono with (Q := fun _ w => roomy (hal w) /\ written (hal w) = L); [destruct (_ && _); ws; done|].
  intros ? w2 Hw2. ws. eapply wpd_mono with (Q := fun _ w => roomy (hal w) /\ written (hal w) = L).
  { unfold advance_rxSeq. ws. destruct (_ && _); ws; exact Hw2. }
  intros ? w3 [Hr3 Hl3]. ws. eapply wpd_mono; [by apply ack_talks|]. cbv beta. intros ? w4 E. ws.
  assert (Ha : answered L w4).
  { unfold answered. rewrite E, Hl3. intros X. apply (f_equal (@length _)) in X. rewrite length_app in X. cbn in X. lia. }
  unfold clear_errs. ws. destruct (_ >? 0); ws; exact Ha.
Qed.

Lemma payload_talks s0 k r cap b L w :
  chunk_ok b -> 0 <= cap -> lenZ b <= cap -> r - 32 <= k <= r -> calm (seq_at s0 (r - 1)) cap L w ->
  wpd True (onPayload (seq_at s0 k) b) (fun _ => answered L) w.
Proof.
  intros (Hb & Hne & _) Hcap Hl Hk Hw. unfold onPayload. pose proof Hw as ((_ & _ & _ & Hok & _) & _).
  ws. destruct (decide (state (lk w) = SWP)); [congruence|]. ws.
  eapply wpd_mono; [by apply (calm_valid (seq_at s0 (r - 1)) cap L)|]. intros ? w1 Hw1.
  apply wpd_bind. eapply wpd_mono; [apply (calm_hw (seq_at s0 (r - 1)) cap L nowMs app_of_now roomy_now log_of_now), Hw1|].
  intros t w2 Hw2. cbv beta in Hw2. ws.
  match goal with |- wpd _ _ _ ?x => set (w3 := x) end.
  assert (Hw3 : calm (seq_at s0 (r - 1)) cap L w3) by exact Hw2. clearbody w3. clear Hw2 w2.
  pose proof Hw3 as ((E1 & E2 & _ & _ & E5) & _). rewrite E1, E2, E5.
  destruct (Z.eq_dec k r) as [->|Hne2].
  - pose proof (classify_near s0 r r ltac:(lia)) as Hc. rewrite Z.eqb_refl in Hc.
    destruct (classifyGap _ _ _) as [cls df]. cbn in Hc. subst cls. by eapply forward_talks.
  - rewrite classify_have by lia. eapply stale_talks; [|exact Hw3].
    unfold LD_SEQ_WRAP, AUTOLINK_ARQ_PIPELINE_WINDOW. destruct (Z.eqb_spec k (r - 1)); [done|]. apply orb_true_iff. right. lia.
Qed.
End Answers.

(** ** The way on *)

Section Way.
Context {S R : Type} `{DS : Drains S} `{HR : HoldsChunk R}.
Implicit Types n : Net (S := S) (R := R).

Definition able n : Prop :=
  fit (fun c => 1 <= gbnResendBurstMax c) (ws n) /\ fit (fun _ => True) (wr n).

Definition with_dch n d := mkNet (ws n) (wr n) d (ach n) (sent n) (got n).
Definition with_ach n a := mkNet (ws n) (wr n) (dch n) a (sent n) (got n).

Lemma lose_data e : forall n d, dch n = d ++ e -> rtc net_step n (with_dch n d).
Proof.
  induction e as [|f e IH]; intros n d Hd.
  - rewrite app_nil_r in Hd. rewrite <- Hd. destruct n. apply rtc_refl.
  - eapply rtc_l; [by apply (net_lose_data n d f e)|]. by apply (IH (mkNet _ _ (d ++ e) _ _ _) d).
Qed.

Lemma lose_replies e : forall n a, ach n = a ++ e -> rtc net_step n (with_ach n a).
Proof.
  induction e as [|f e IH]; intros n a Ha.
  - rewrite app_nil_r in Ha. rewrite <- Ha. destruct n. apply rtc_refl.
  - eapply rtc_l; [by apply (net_lose_reply n a f e)|]. by apply (IH (mkNet _ _ _ (a ++ e) _ _) a).
Qed.

(** Everything on the wire is lost. *)
Lemma way_lose s0 B r D A q n :
  net_inv s0 B r D A q n ->
  let n' := mkNet (ws n) (wr n) [] [] (sent n) (got n) in
  rtc net_step n n' /\ net_inv s0 B r [] [] q n'.
Proof.
  intros Hi n'. split.
  - etransitivity; [by apply (lose_data (dch n) n [])|]. by apply (lose_replies (ach n) (with_dch n []) []).
  - destruct Hi. split; cbn [ws wr dch ach sent got]; done || apply List.Forall2_nil.
Qed.

(** The application reads, and the hardware sends what is queued. *)
Lemma way_read s0 B r q n :
  net_inv s0 B r [] [] q n -> able n ->
  exists n', rtc net_step n n' /\ net_inv s0 B r [] [] [] n' /\ able n' /\ sent n' = sent n /\
    roomy (hal (ws n')) /\ roomy (hal (wr n')).
Proof.
  intros Hi [[Hs Hb] [Hr _]]. pose proof Hi as [Hf Hrs (cap & Hc & E1 & E2 & E3 & E4 & E5) Hrr Hrb Hg Hd HD HnD Ha HA HnA].
  set (h1 := snd (popAppBuf (lenZ q) (hal (wr n)))). destruct (app_pop (lenZ q) (hal (wr n))) as [P1 P2].
  pose proof (app_pop_cap (lenZ q) (hal (wr n))) as P3. rewrite E3 in P1, P2, P3. cbn [fst snd] in P1, P2, P3. specialize (P3 Hc).
  assert (Eq : drop (Z.to_nat (lenZ q)) q = []) by (unfold lenZ; by rewrite Nat2Z.id, drop_all).
  assert (Et : take (Z.to_nat (lenZ q)) q = q) by (unfold lenZ; by rewrite Nat2Z.id, take_ge).
  rewrite Et in P1. rewrite Eq in P2.
  destruct (drained (hal (ws n)) Hs) as [Hs1 Hs2]. destruct (drained h1 (sized_pop _ _ Hr)) as [Hr1 Hr2].
  exists (mkNet (mkWorld (lk (ws n)) (drain (hal (ws n)))) (mkWorld (lk (wr n)) (drain h1)) [] [] (sent n) (got n ++ q)).
  split; [|split; [|by split_and!]].
  - eapply rtc_l; [apply (net_read n (lenZ q))|]. rewrite P1, Hd. inversion Ha.
    eapply rtc_l; [apply (net_other_s _ (mkWorld (lk (ws n)) (drain (hal (ws n)))))|].
    { split; [|done]. by split_and!. }
    apply rtc_once. apply (net_other_r (mkNet _ _ _ _ _ _)). split_and!; try done. cbn. by rewrite drain_app.
  - split; cbn [ws wr dch ach sent got]; try done; [|by rewrite app_nil_r, Hg].
    exists (snd (appv h1)). split; [done|]. split_and!; try done. cbn. rewrite drain_app. by rewrite <- P2, <- surjective_pairing.
Qed.

(** The sender resends, and all but the frame of the oldest chunk is lost. *)
Lemma way_resend s0 B r n :
  net_inv s0 B r [] [] [] n -> able n -> roomy (hal (ws n)) -> B < lenZ (sent n) ->
  exists n', rtc net_step n n' /\ net_inv s0 B r [B] [] [] n' /\ able n' /\ sent n' = sent n /\ wr n' = wr n.
Proof.
  intros Hi [Hs Hr] Hm HB. pose proof (inv_bounds _ _ _ _ _ _ _ Hi) as Hbd.
  pose proof Hi as [Hf Hrs Hrcv Hrr Hrb Hg Hd HD HnD Ha HA HnA].
  assert (Hpost : wpd False (gbnResendWindow 0) (fun _ w' => flow s0 B (sent n) (lk w') /\
    ((at_rest (lk w') /\ fit (fun c => 1 <= gbnResendBurstMax c) w') /\
     exists es, written (hal w') = written (hal (ws n)) ++ data_frame (seq_at s0 B) (nthZ (sent n) B) :: es)) (ws n)).
  { apply wpd_and; [by apply (flow_resend s0 B (sent n))|]. apply wpd_and; [|by apply resend_talks, Hm; [exact Hf|done|apply Hs]].
    apply wpd_and; [by apply (gbnResendWindow_rest 0 (ws n) Hrs)|by apply fit_resend]. }
  destruct (wp_run _ _ _ Hpost) as ([] & w' & E & Hfl & [Hre Hfit] & es & Ew).
  exists (mkNet w' (wr n) [data_frame (seq_at s0 B) (nthZ (sent n) B)] [] (sent n) (got n)).
  split; [|split; [|done]].
  - eapply rtc_l; [by apply (net_resend n 0 w')|]. rewrite Hd. inversion Ha. unfold news. rewrite Ew, drop_app_length.
    by apply (lose_data es (mkNet _ _ _ _ _ _) [_]).
  - split; cbn [ws wr dch ach sent got]; try done.
    intros k [<-|[]]. lia.
Qed.

(** The receiver that gets the frame of a chunk it has, or waits for and has room
    for, answers it with ACKs, with one at least. *)
Lemma chunk_acked s0 k r cap b (w : World R) :
  chunk_ok b -> r - 32 <= k <= r -> 0 <= cap -> lenZ b <= cap -> rcv (seq_at s0 (r - 1)) true [] cap w ->
  at_rest (lk w) -> sized (hal w) -> roomy (hal w) ->
  exists w' es, feed (data_frame (seq_at s0 k) b) w = Some (lenZ (data_frame (seq_at s0 k) b), w') /\
    (if k =? r then rcv (seq_at s0 k) true b cap w' else rcv (seq_at s0 (r - 1)) true [] cap w') /\
    at_rest (lk w') /\ sized (hal w') /\
    news (written (hal w)) (written (hal w')) = ack_frame (seq_at s0 k) (u16 (lenZ b)) :: es /\
    Forall (eq (ack_frame (seq_at s0 k) (u16 (lenZ b)))) es.
Proof.
  intros Hch Hk Hcap Hl Hrcv Hrest Hz Hm. pose proof Hch as (Hbb & Hne & _).
  assert (Hpost : wpd False (onPayload (seq_at s0 k) b) (fun _ w' =>
    (if forward (seq_at s0 k) (seq_at s0 (r - 1)) true && ((lenZ b =? 0) || (lenZ (@nil Z) + lenZ b <=? cap))
     then rcv (seq_at s0 k) true ([] ++ b) cap w' else rcv (seq_at s0 (r - 1)) true [] cap w') /\
    ((at_rest (lk w') /\ fit (fun _ => True) w') /\
     (grown (answer (seq_at s0 k) (lenZ b) (seq_at s0 (r - 1)) true ((lenZ b =? 0) || (lenZ (@nil Z) + lenZ b <=? cap)))
       (written (hal w)) (written (hal w')) /\ answered (written (hal w)) w'))) w).
  { apply wpd_and.
    - eapply wpd_mono; [by apply (onPayload_ok False _ _ (seq_at s0 (r - 1)) true [] cap)|]. by intros ? ? [_ ?].
    - apply wpd_and; [apply wpd_and; [by apply (onPayload_rest _ _ w Hrest)|by apply fit_onPayload]|].
      apply wpd_and; [by apply onPayload_writes|]. apply (payload_talks s0 k r cap); first [done | lia | by split_and!]. }
  destruct (wp_run _ _ _ Hpost) as (x & w' & E & Hq & [Hre [Hfit _]] & Hgr & Han).
  change (lenZ []) with 0 in *.
  replace ((lenZ b =? 0) || (0 + lenZ b <=? cap)) with true in * by (symmetry; apply orb_true_iff; right; lia).
  rewrite forward_next, andb_true_r in Hq by lia. destruct Hgr as (es0 & Ew & Hgr).
  assert (Hack : Forall (eq (ack_frame (seq_at s0 k) (u16 (lenZ b)))) es0).
  { eapply List.Forall_impl; [|exact Hgr]. intros g. unfold answer. rewrite classify_near by lia.
    destruct (Z.eqb_spec k r); [done|]. by replace (k <? r) with true by lia. }
  destruct es0 as [|g es]; [exfalso; apply Han; by rewrite app_nil_r in Ew|].
  inversion Hack; subst. exists w', es. split_and!; try done; [|by unfold news; rewrite Ew, drop_app_length].
  rewrite (deliver_data _ Hrest s0 k b Hch). unfold bind. by rewrite E.
Qed.

(** The frame arrives; one ACK of it stays on the wire. *)
Lemma way_data s0 B r n :
  net_inv s0 B r [B] [] [] n -> able n -> roomy (hal (wr n)) ->
  exists n' r' q' m, rtc net_step n n' /\ net_inv s0 B r' [] [B + 1] q' n' /\ able n' /\ sent n' = sent n /\
    is_u16 m /\ ach n' = [ack_frame (seq_at s0 B) m].
Proof.
  intros Hi [Hs [Hz _]] Hm. pose proof (inv_bounds _ _ _ _ _ _ _ Hi) as Hbd.
  pose proof Hi as [Hf _ (cap & Hcap & Hrcv) Hrr _ Hg Hd HD _ Ha _ _].
  destruct (HD B) as [HB _]; [by left|]. pose proof (nth_chunk _ _ _ _ B Hf HB) as Hch.
  cbn [map] in Hd. set (b := nthZ (sent n) B) in *.
  assert (Hfits : lenZ b <= cap).
  { pose proof Hrcv as (_ & _ & E3 & _). pose proof (sized_room _ Hz) as X. rewrite E3 in X.
    specialize (X Hcap eq_refl). destruct Hch as (_ & _ & Hl). cbn [snd] in X. lia. }
  destruct (chunk_acked s0 B r cap b (wr n) Hch ltac:(lia) Hcap Hfits Hrcv Hrr Hz Hm)
    as (w' & es & Ef & Hq & Hre & Hz' & Enews & Hes).
  assert (E0 : ach n = []) by (by inversion Ha).
  assert (Hrep : Forall (reply s0 (B + 1)) (news (written (hal (wr n))) (written (hal w')))).
  { rewrite Enews. constructor; [|eapply List.Forall_impl; [|exact Hes]; intros g <-];
      (left; exists (u16 (lenZ b)); split; [apply u16_range|]; do 2 f_equal; lia). }
  set (r' := if B =? r then r + 1 else r). set (q' := if B =? r then b else []).
  assert (Hi2 : net_inv s0 B r' [] ([] ++ replicate (length (news (written (hal (wr n))) (written (hal w')))) (B + 1)) q'
    (mkNet (ws n) w' [] (ach n ++ news (written (hal (wr n))) (written (hal w'))) (sent n) (got n))).
  { apply (inv_answered_at s0 B r [] [] [] n B); unfold r', q'; try done; destruct (Z.eqb_spec B r) as [->|]; try lia; try done.
    - replace (r + 1 - 1) with r by lia. by exists cap.
    - by exists cap.
    - rewrite take_nth by lia. by rewrite <- Hg, app_nil_r. }
  pose proof (net_data n _ [] _ w' Hd Ef) as Hst. rewrite E0, Enews in Hst, Hi2. cbn [app length replicate] in Hst, Hi2.
  exists (mkNet (ws n) w' [] [ack_frame (seq_at s0 B) (u16 (lenZ b))] (sent n) (got n)), r', q', (u16 (lenZ b)).
  split; [|split; [|split; [by split|split; [done|split; [apply u16_range|done]]]]].
  - eapply rtc_l; [exact Hst|]. by apply (lose_replies es (mkNet _ _ _ (_ :: es) _ _) [_]).
  - destruct Hi2 as [? ? ? ? ? ? ? ? ? G10 G11 ?]. cbn [ws wr dch ach sent got] in *.
    split; cbn [ws wr dch ach sent got]; try done.
    + inversion G10; subst. by apply List.Forall2_cons.
    + intros v [<-|[]]. apply G11. by left.
Qed.

(** The ACK arrives. *)
Lemma way_ack s0 B r q m n :
  net_inv s0 B r [] [B + 1] q n -> able n -> is_u16 m -> ach n = [ack_frame (seq_at s0 B) m] ->
  exists n', rtc net_step n n' /\ net_inv s0 (B + 1) r [] [] q n' /\ able n' /\ sent n' = sent n.
Proof.
  intros Hi [Hs Hr] Hmu Hach. pose proof (inv_bounds _ _ _ _ _ _ _ Hi) as Hbd.
  pose proof Hi as [Hf Hrs Hrcv Hrr Hrb Hg Hd HD HnD Ha HA HnA]. destruct (HA (B + 1)) as [HA1 _]; [by left|].
  assert (Hpost : wpd False (onAck (seq_at s0 B) m) (fun _ w' => flow s0 (B + 1) (sent n) (lk w') /\
    ((at_rest (lk w') /\ fit (fun c => 1 <= gbnResendBurstMax c) w') /\
      written (hal w') = written (hal (ws n)))) (ws n)).
  { apply wpd_and.
    - eapply wpd_mono; [apply (flow_ack s0 B (sent n) B m _ Hf); lia|]. intros ? w' [_ Hx].
      by replace (Z.max B (B + 1)) with (B + 1) in Hx by lia.
    - apply wpd_and; [apply wpd_and; [by apply (onAck_rest _ _ (ws n) Hrs)|by apply fit_onAck]|].
      eapply wpd_mono; [by apply (onAck_writes (fun _ => False))|]. intros ? w' [_ Hx]. by apply grown_none in Hx. }
  destruct (wp_run _ _ _ Hpost) as (x & w' & E & Hfl & [Hre Hfit] & Ew).
  exists (mkNet w' (wr n) [] [] (sent n) (got n)). split; [|split; [|by split]].
  - apply rtc_once. assert (Ef : feed (ack_frame (seq_at s0 B) m) (ws n) = Some (lenZ (ack_frame (seq_at s0 B) m), w')).
    { rewrite (deliver_ack _ Hrs s0 B m Hmu). unfold bind. by rewrite E. }
    pose proof (net_reply n _ [] _ w' Hach Ef) as Hst. unfold news in Hst. by rewrite Ew, drop_all, Hd in Hst.
  - split; cbn [ws wr dch ach sent got]; done || lia || apply List.Forall2_nil.
Qed.

(** A round for each chunk in flight. *)
Lemma way_rounds k : forall s0 B r q n,
  lenZ (sent n) - B = Z.of_nat k -> net_inv s0 B r [] [] q n -> able n ->
  exists n', rtc net_step n n' /\ net_inv s0 (lenZ (sent n)) (lenZ (sent n)) [] [] [] n' /\ sent n' = sent n.
Proof.
  induction k as [|k IH]; intros s0 B r q n Hk Hi Ha;
    destruct (way_read _ _ _ _ _ Hi Ha) as (n1 & T1 & I1 & A1 & S1 & M1 & M2).
  - exists n1. split; [exact T1|]. pose proof (inv_bounds _ _ _ _ _ _ _ I1) as Hbd. rewrite S1 in Hbd.
    replace B with (lenZ (sent n)) in I1 by lia. by replace r with (lenZ (sent n)) in I1 by lia.
  - destruct (way_resend _ _ _ _ I1 A1 M1) as (n2 & T2 & I2 & A2 & S2 & E2); [rewrite S1; lia|].
    rewrite <- E2 in M2. destruct (way_data _ _ _ _ I2 A2 M2) as (n3 & r3 & q3 & m & T3 & I3 & A3 & S3 & Hm & Ea).
    destruct (way_ack _ _ _ _ _ _ I3 A3 Hm Ea) as (n4 & T4 & I4 & A4 & S4).
    assert (E4 : sent n4 = sent n) by congruence.
    destruct (IH s0 (B + 1) r3 q3 n4) as (n5 & T5 & I5 & S5); [rewrite E4; lia|done|done|].
    rewrite E4 in I5, S5. exists n5. split; [|by split].
    do 4 (etransitivity; [eassumption|]). exact T5.
Qed.

End Way.

(** ** The desktop mock *)

#[export] Instance mock_drains : Drains (Logged MockHal).
Proof.
  refine {| sized := fun h => kWorstCaseCobsFrame <= m_txCap (under h) /\ MAX_CHUNK <= m_appBufCap (under h);
    roomy := fun h => kWorstCaseCobsFrame <= mock_room (under h);
    drain := fun h => mkLogged ((under h) <| m_txBuf := [] |>) (wlog h) |}; try done.
  intros h [Ht Ha]. split; [done|]. unfold mock_room. cbn. change (lenZ []) with 0.
  replace (m_txCap (under h) - 0 <? 0) with false; lia || (change kWorstCaseCobsFrame with 262 in *; lia).
Defined.

#[export] Instance mock_holds : HoldsChunk (Logged MockHal).
Proof. split; [done|]. intros h [_ Ha] _ _. exact Ha. Qed.

End Recovery.
