(* ===== verification/Dispatch.v ===== *)
(** * A send puts the message on the wire, chunk by chunk

    [sendMsg] seen from the network of [EndToEnd]: a call is a run of its steps.
    It sends the chunks of the framed message one after another; where it
    releases the link's lock the other tasks take any steps of their own, the
    replies of the peer among them. *)
From stdpp Require Import relations.
From S2P Require Import Prelude Monad Crc MsgCodec FrameRx Config Decision ArqCache Arq Hal.
From S2P Require Import LinkState Timing Tx Core Sweep Gbn Rx Timers Api Recv Frames Sender Send.
From S2P Require Import Receiver Trace Emits Flow EndToEnd Messages.
Import MsgCodec FrameRx Config Decision ArqCache Arq Hal LinkState Timing Tx Core Sweep Gbn Rx
  Timers Api Recv Frames Sender Send Receiver Trace Emits Flow EndToEnd Messages.

Module Dispatch.

(** ** The chunks of a message *)

Fixpoint pieces (k : nat) (b : list Z) : list (list Z) :=
  match k, b with
  | _, [] | O, _ => []
  | S k, _ => take (Z.to_nat MAX_CHUNK) b :: pieces k (drop (Z.to_nat MAX_CHUNK) b)
  end.
Definition split_chunks (b : list Z) : list (list Z) := pieces (length b) b.

(** A message that fits goes in one chunk with its header; otherwise the header
    has a chunk of its own. *)
Definition chunked (b : list Z) : list (list Z) :=
  if lenZ b + MSG_HDR <=? MAX_CHUNK then [framed b] else hdr_of b :: split_chunks b.

Lemma pieces_enough k j b : (length b <= k)%nat -> (length b <= j)%nat -> pieces k b = pieces j b.
Proof.
  revert j b. induction k as [|k IH]; intros [|j] [|x b] Hk Hj; cbn [pieces length] in *; try done; try lia.
  f_equal. apply IH; rewrite length_drop; cbn [length]; unfold MAX_CHUNK; lia.
Qed.

Lemma split_chunks_step b :
  b <> [] -> split_chunks b = take (Z.to_nat MAX_CHUNK) b :: split_chunks (drop (Z.to_nat MAX_CHUNK) b).
Proof.
  intros Hb. unfold split_chunks. destruct b as [|x b]; [done|]. set (bb := x :: b).
  change (length bb) with (Datatypes.S (length b)). cbn [pieces]. f_equal.
  apply pieces_enough; [|done]. rewrite length_drop. unfold bb. cbn [length]. unfold MAX_CHUNK. lia.
Qed.

Lemma concat_pieces k b : (length b <= k)%nat -> concat (pieces k b) = b.
Proof.
  revert b. induction k as [|k IH]; intros [|x b] Hk; cbn [pieces length concat] in *; try done; try lia.
  rewrite IH; [apply take_drop|]. rewrite length_drop. cbn [length]. unfold MAX_CHUNK. lia.
Qed.

Lemma hdr_of_bytes b : bytes (hdr_of b).
Proof. repeat constructor; try apply u8_byte. Qed.

(** The chunks are the framed message. *)
Lemma concat_chunked b : concat (chunked b) = framed b.
Proof.
  unfold chunked, split_chunks. destruct (_ <=? _); cbn [concat]; [apply app_nil_r|].
  by rewrite concat_pieces.
Qed.

(** ** A call as seen from the network *)

Section Call.
Context {S R : Type} `{HalLog S} `{HalApp R} `{!HalLog R}.
Abbreviation Net := (Net (S := S) (R := R)).

(** The network while the sender is in a call that began at [n]: its world is
    [w], the replies not yet taken are [inb], the chunks [cs] are sent. *)
Definition after (n : Net) (inb cs : list (list Z)) (w : World S) : Net :=
  mkNet w (wr n) (dch n ++ news (written (hal (ws n))) (written (hal w))) inb (sent n ++ cs) (got n).

(** The sender's other tasks. [inbox]: the replies that have arrived, which the
    calls on the hardware leave alone. Each time the lock is released the tasks
    take some steps of the network, none of which sends a new chunk. *)
Class Background := {
  inbox : S -> list (list Z);
  yield : World S -> World S;
  in_tx : forall b h, inbox (snd (tx b h)) = inbox h;
  in_txAvail : forall h, inbox (snd (txAvail h)) = inbox h;
  in_now : forall h, inbox (snd (nowMs h)) = inbox h;
  in_delay : forall ms h, inbox (delayMs ms h) = inbox h;
  in_delayUs : forall us h, inbox (delayUs us h) = inbox h;
  in_break : forall h, inbox (sendBreak h) = inbox h;
  bg_runs : forall n, net_ok n -> ach n = inbox (hal (ws n)) ->
    rtc net_step n (after n (inbox (hal (yield (ws n)))) [] (yield (ws n))) /\
    exists es, written (hal (yield (ws n))) = written (hal (ws n)) ++ es;
}.

(** No other task runs. *)
Definition alone (a : list (list Z)) : Background.
Proof.
  refine {| inbox := fun _ => a; yield := id |}; try done.
  intros n _ E. split; [|exists []; by rewrite app_nil_r]. unfold after, id. rewrite <- E. unfold news. rewrite drop_all, !app_nil_r.
  destruct n. apply rtc_refl.
Defined.

Context {Bg : Background} (n : Net) (Hn : net_ok n) (Hin : ach n = inbox (hal (ws n))) (fuel : nat).

(** The call has come to [w] with [cs] sent. *)
Definition called (cs : list (list Z)) (w : World S) : Prop :=
  rtc net_step n (after n (inbox (hal w)) cs w) /\
  exists es, written (hal w) = written (hal (ws n)) ++ es.

Lemma news_app (L L1 L2 : list (list Z)) :
  (exists es, L1 = L ++ es) -> (exists es, L2 = L1 ++ es) -> news L L1 ++ news L1 L2 = news L L2.
Proof.
  intros [a ->] [b ->]. unfold news. rewrite !drop_app_length, <- app_assoc. by rewrite drop_app_length.
Qed.

Lemma called_start : called [] (ws n).
Proof.
  split; [|exists []; by rewrite app_nil_r]. unfold after, news. rewrite <- Hin, drop_all, !app_nil_r.
  destruct n. apply rtc_refl.
Qed.

Lemma called_other cs w w' :
  called cs w -> other_s w w' -> written (hal w') = written (hal w) -> inbox (hal w') = inbox (hal w) ->
  called cs w'.
Proof.
  intros [Hr He] Ho Ew Ei. split; [|by rewrite Ew]. eapply rtc_r; [exact Hr|].
  unfold after in *. rewrite Ew, Ei. exact (net_other_s (after n (inbox (hal w)) cs w) w' Ho).
Qed.

Lemma called_net cs w : called cs w -> net_ok (after n (inbox (hal w)) cs w) /\
  inflight (lk w) <= inflight (lk (ws n)) + lenZ cs.
Proof.
  intros [Hr _]. destruct (reach_closed _ _ Hn Hr) as [Ho Hc]. split; [done|].
  unfold closed, after in Hc. cbn [ws sent] in Hc. rewrite lenZ_app in Hc. lia.
Qed.
Lemma called_yield cs w : called cs w -> called cs (yield w).
Proof.
  intros Hc. destruct (called_net cs w Hc) as [Ho _]. destruct Hc as [Hr He].
  destruct (bg_runs (after n (inbox (hal w)) cs w) Ho eq_refl) as [Hb Hy]. split.
  - etransitivity; [exact Hr|]. unfold after in *. cbn [ws wr dch ach sent got] in Hb, Hy.
    by rewrite <- app_assoc, news_app, app_nil_r in Hb.
  - destruct He as [a Ea], Hy as [b Eb]. exists (a ++ b). unfold after in Eb. cbn [ws] in Eb.
    by rewrite Eb, Ea, app_assoc.
Qed.

(** *** What sends nothing *)

Abbreviation stays cs := (keeps True (called cs)).

Section Stays.
Context (cs : list (list Z)).

Lemma stays_hw {A} (f : S -> A * S) :
  (forall h, written (snd (f h)) = written h) -> (forall h, inbox (snd (f h)) = inbox h) -> stays cs (hw f).
Proof.
  intros Hw Hi w Hc. apply wpd_hw. apply (called_other cs w); cbn; rewrite ?Hw, ?Hi; try done.
Qed.
Lemma stays_hwdo (f : S -> S) :
  (forall h, written (f h) = written h) -> (forall h, inbox (f h) = inbox h) -> stays cs (hwdo f).
Proof.
  intros Hw Hi w Hc. apply wpd_hwdo. apply (called_other cs w); cbn; rewrite ?Hw, ?Hi; try done.
Qed.
Lemma stays_upd f :
  (forall l, txg (f l) = txg l) -> (forall l, mode (cfg (f l)) = mode (cfg l)) ->
  (forall l, state (f l) = state l) -> (forall l, frameRx (rxg (f l)) = frameRx (rxg l)) -> stays cs (upd f).
Proof.
  intros H1' H2' H3' H4' w Hc. apply wpd_upd. apply (called_other cs w); try done.
  split; [|cbn; by rewrite H4']. split_and!; cbn; by rewrite ?H1', ?H2', ?H3'.
Qed.
Lemma stays_link {A} (f : Link -> Act S A) : (forall l, stays cs (f l)) -> stays cs (bind link f).
Proof. intros Hf w Hw. by apply (Hf (lk w)). Qed.
Lemma stays_release : stays cs (release yield).
Proof. intros w Hw. by apply called_yield. Qed.
End Stays.

Lemma stays_bind {A B} cs (m : Act S A) (f : A -> Act S B) Q (w : World S) :
  stays cs m -> called cs w -> (forall a w', called cs w' -> wpd True (f a) Q w') -> wpd True (bind m f) Q w.
Proof. intros Hm Hw Hf. apply wpd_bind. eapply wpd_mono; [by apply Hm|]. auto. Qed.

Ltac ks_step :=
  lazymatch goal with
  | |- keeps _ _ (bind link _) => apply stays_link; intros ?
  | |- keeps _ _ (release _) => apply stays_release
  | |- keeps _ _ stuck => by apply keeps_stuck
  | |- keeps _ _ (hw _) => apply stays_hw; intros ?; [by autorewrite with wire_log|];
      first [apply in_tx | apply in_txAvail | apply in_now]
  | |- keeps _ _ (hwdo _) => apply stays_hwdo; intros ?; [by autorewrite with wire_log|];
      first [apply in_delay | apply in_delayUs | apply in_break]
  | |- keeps _ _ (upd _) => apply stays_upd; intros ?; reflexivity
  | |- keeps _ _ (let _ := _ in _) => cbv zeta
  | |- _ => keeps_step
  end.
Ltac ks := repeat first [ solve [auto with keeps nocore] | ks_step ].

(** Past the first call of a method, which sends nothing. *)
Ltac stay cs w' Hw' := apply (stays_bind cs); [by ks|assumption|intros ? w' Hw'].
Ltac past cs := apply (stays_bind cs); [by ks|assumption|intros ? ? ?].

Lemma reject_stays cs : stays cs noteTxReject.
Proof. unfold noteTxReject. ks. Qed.
Hint Resolve reject_stays : keeps.

Lemma refuse_stays cs : stays cs refuse_pool.
Proof. unfold refuse_pool, set_reason. ks. Qed.

Lemma note_stays cs k : stays cs (note_tx k).
Proof. unfold note_tx. ks. Qed.

Hint Resolve refuse_stays note_stays : keeps.

Lemma admit_stays cs b : stays cs (send_admit b).
Proof. unfold send_admit, txQuiet, rate_admit, rate_refuse, rate_window, set_reason. ks. Qed.

Lemma finish_stays cs r : stays cs (send_finish r).
Proof. unfold send_finish, set_reason. ks. Qed.

Hint Resolve admit_stays finish_stays : keeps.

Lemma drain_loop_stays cs k need t : stays cs (drain_loop yield k need t).
Proof. induction k as [|k IH]; cbn [drain_loop]; ks; apply IH. Qed.
Hint Resolve drain_loop_stays : keeps.

Lemma drain_stays cs : stays cs (drainTxRing yield fuel).
Proof. unfold drainTxRing. ks. Qed.
Hint Resolve drain_stays : keeps.
(** *** What sends a chunk *)

Section Inbox.
Context (a : list (list Z)).
Definition in_box (w : World S) : Prop := inbox (hal w) = a.

Lemma box_hw {A} (f : S -> A * S) : (forall h, inbox (snd (f h)) = inbox h) -> keeps True in_box (hw f).
Proof. intros Hf w Hw. apply wpd_hw. unfold in_box in *. cbn. by rewrite Hf. Qed.
Lemma box_link {A} (f : Link -> Act S A) : (forall l, keeps True in_box (f l)) -> keeps True in_box (bind link f).
Proof. intros Hf w Hw. by apply (Hf (lk w)). Qed.
Lemma box_upd f : keeps True in_box (upd f).
Proof. by intros w Hw. Qed.

Ltac kb_step :=
  lazymatch goal with
  | |- keeps _ _ (bind link _) => apply box_link; intros ?
  | |- keeps _ _ (hw _) => apply box_hw; intros ?; first [apply in_tx | apply in_txAvail | apply in_now]
  | |- keeps _ _ (upd _) => apply box_upd
  | |- keeps _ _ (let _ := _ in _) => cbv zeta
  | |- _ => keeps_step
  end.

Lemma sendCobsFrameAcked_box b bs : keeps True in_box (sendCobsFrameAcked b bs).
Proof.
  unfold sendCobsFrameAcked, sendCobsFrame, buildAndTxCobsFrame, noteTxReject, hw_tx. repeat kb_step.
Qed.
End Inbox.

Lemma called_send b bs cs (w : World S) :
  chunk_ok b -> inflight (lk (ws n)) + lenZ cs < 32 -> called cs w ->
  wpd True (sendCobsFrameAcked b bs) (fun r w' => called (cs ++ if r =? 0xFF then [] else [b]) w') w.
Proof.
  intros Hb Hf Hc. destruct (called_net cs w Hc) as [_ Hi]. destruct Hc as [Hr (e1 & He)].
  unfold wpd. destruct (sendCobsFrameAcked b bs w) as [[r w']|] eqn:E; [|done].
  pose proof (wpd_run _ _ _ _ _ _ (sendCobsFrameAcked_box _ b bs w eq_refl) E) as Ei.
  destruct (wpd_run _ _ _ _ _ _ (sendCobsFrameAcked_writes b bs w (proj2 (proj2 Hb))) E) as (e2 & He2 & _).
  split; [|exists (e1 ++ e2); by rewrite He2, He, app_assoc]. eapply rtc_r; [exact Hr|].
  pose proof (net_send (after n (inbox (hal w)) cs w) b bs r w' Hb) as Hs. unfold after in *.
  cbn [ws wr dch ach sent got] in Hs. rewrite <- !app_assoc, news_app in Hs; [|by exists e1|by exists e2].
  rewrite Ei. apply Hs; [lia|done].
Qed.
(** *** The message *)

Lemma take_chunk_ok b : bytes b -> b <> [] -> chunk_ok (take (Z.to_nat MAX_CHUNK) b).
Proof.
  intros Hb Hne. split; [by apply bytes_take|]. split; [by destruct b|].
  unfold lenZ. rewrite length_take. unfold MAX_CHUNK. lia.
Qed.

(** The chunks [m] sends after [cs], all of those of [b] when it succeeds. *)
Definition sends_rest (cs : list (list Z)) (bs : list (list Z)) (ok : bool) (w : World S) : Prop :=
  exists cs', called (cs ++ cs') w /\ (ok = true -> cs' = bs).

Lemma rest_none cs bs w : called cs w -> sends_rest cs bs false w.
Proof. intros Hw. exists []. by rewrite app_nil_r. Qed.

(** One chunk and what follows it. *)
Lemma chunk_sends base k b cs (w : World S) :
  let rest := drop (Z.to_nat MAX_CHUNK) b in
  bytes b -> b <> [] -> inflight (lk (ws n)) + lenZ cs < 32 -> called cs w ->
  (forall w, called (cs ++ [take (Z.to_nat MAX_CHUNK) b]) w ->
     wpd True (async_chunks yield fuel k rest base)
       (sends_rest (cs ++ [take (Z.to_nat MAX_CHUNK) b]) (split_chunks rest)) w) ->
  wpd True
    (seq <- sendCobsFrameAcked (take (Z.to_nat MAX_CHUNK) b) base;;
     if seq =? 0xFF then refuse_pool;; ret false
     else
       note_tx (lenZ (take (Z.to_nat MAX_CHUNK) b));;
       l <- link;;
       let gap := interChunkGapMs l in
       if (lenZ rest >? 0) && (gap >? 0) then
         hwdo (delayUs (u32 (u32 gap * 1000)));;
         release yield;;
         l <- link;;
         if negb (bool_decide (state l = OK)) then ret false else async_chunks yield fuel k rest base
       else async_chunks yield fuel k rest base) (sends_rest cs (split_chunks b)) w.
Proof.
  cbv zeta. set (chunk := take (Z.to_nat MAX_CHUNK) b). set (rest := drop (Z.to_nat MAX_CHUNK) b).
  intros Hb Hne Hf Hw IH. apply wpd_bind. eapply wpd_mono.
  { apply (called_send chunk base cs w); [by apply take_chunk_ok|lia|done]. }
  intros s w2 Hw2. cbv beta in Hw2. destruct (s =? 0xFF).
  { rewrite app_nil_r in Hw2. stay cs w3 Hw3. by apply wpd_ret, rest_none. }
  stay (cs ++ [chunk]) w3 Hw3.
  assert (Hrest : forall w, called (cs ++ [chunk]) w ->
    wpd True (async_chunks yield fuel k rest base) (sends_rest cs (split_chunks b)) w).
  { intros w' Hw'. eapply wpd_mono; [by apply IH|].
    intros ok w4 (cs' & Hc & Ho). exists (chunk :: cs'). rewrite <- app_assoc in Hc. split; [done|].
    intros E. rewrite (split_chunks_step b Hne). by rewrite (Ho E). }
  apply wpd_bind, wpd_link. destruct (_ && _); [|by apply Hrest].
  stay (cs ++ [chunk]) w4 Hw4. stay (cs ++ [chunk]) w5 Hw5. apply wpd_bind, wpd_link. destruct (negb _); [|by apply Hrest].
  apply wpd_ret. by exists [chunk].
Qed.

Lemma async_chunks_sends base k : forall b cs (w : World S),
  bytes b -> inflight (lk (ws n)) + lenZ cs + nchunks b <= 32 -> called cs w ->
  wpd True (async_chunks yield fuel k b base) (sends_rest cs (split_chunks b)) w.
Proof.
  induction k as [|k IH]; intros [|x b] cs w Hb Hf Hw; cbn [async_chunks];
    [by exists []; rewrite app_nil_r|done|by exists []; rewrite app_nil_r|].
  set (bb := x :: b) in *.
  assert (Hne : bb <> []) by done. pose proof (nchunks_step bb Hne) as [Hst _].
  apply wpd_bind, wpd_link. destruct (negb _); [by apply wpd_ret, rest_none|].
  destruct (negb _); [stay cs w1 Hw1; by apply wpd_ret, rest_none|].
  apply (stays_bind cs); [ks|done|]. intros avail w1 Hw1. destruct (avail <? kWorstCaseCobsFrame).
  - apply (stays_bind cs); [ks|done|]. intros r w2 Hw2. destruct (negb (fst r)); [|by apply IH].
    unfold set_reason. stay cs w3 Hw3. by apply wpd_ret, rest_none.
  - assert (Hnn : 0 <= nchunks (drop (Z.to_nat MAX_CHUNK) bb))
      by (unfold nchunks; pose proof (lenZ_nonneg (drop (Z.to_nat MAX_CHUNK) bb)); mlia).
    apply chunk_sends; [done|done|lia|done|]. intros w2 Hw2. apply IH; [by apply bytes_drop| |done].
    rewrite lenZ_app. change (lenZ [_]) with 1. lia.
Qed.
(** What a send leaves: nothing when refused, otherwise some of the message's
    chunks, all of them if it went well. *)
Definition sent_post (b : list Z) (r : Sent) (w : World S) : Prop :=
  match r with
  | Refused => called [] w
  | Done ok _ _ => sends_rest [] (chunked b) ok w
  end.

Lemma send_async_single_sends b (w : World S) :
  bytes b -> lenZ b + MSG_HDR <= MAX_CHUNK -> inflight (lk (ws n)) < 32 -> called [] w ->
  wpd True (send_async_single b) (sent_post b) w.
Proof.
  intros Hb Hl Hf Hw. unfold send_async_single. apply wpd_bind. eapply wpd_mono.
  { apply (called_send _ NO_BASE [] w); [|unfold lenZ; cbn; lia|done].
    split; [apply bytes_app; split; [apply hdr_of_bytes|done]|]. split; [done|].
    rewrite lenZ_app, lenZ_hdr_of. unfold MSG_HDR in Hl. lia. }
  intros s w1 Hw1. cbv beta in Hw1. destruct (s =? 0xFF); [by stay (@nil (list Z)) w2 Hw2|].
  stay [framed b] w2 Hw2. apply wpd_ret. exists [framed b]. split; [done|]. intros _. unfold chunked.
  by rewrite (proj2 (Z.leb_le _ _) Hl).
Qed.

Lemma send_async_multi_sends b (w : World S) :
  bytes b -> MAX_CHUNK < lenZ b + MSG_HDR -> inflight (lk (ws n)) + 1 + nchunks b <= 32 -> called [] w ->
  wpd True (send_async_multi yield fuel b) (sent_post b) w.
Proof.
  intros Hb Hl Hf Hw. unfold send_async_multi. pose proof (lenZ_nonneg b) as Hlb.
  assert (Hnn : 0 <= nchunks b) by (unfold nchunks; mlia).
  apply (stays_bind []); [ks|done|]. intros avail w1 Hw1. destruct (avail <? kWorstCaseCobsFrame).
  { unfold set_reason. do 3 past (@nil (list Z)). done. }
  apply wpd_bind, wpd_link. destruct (freeRoom _ <? _); [by stay (@nil (list Z)) w2 Hw2|].
  apply wpd_bind. eapply wpd_mono.
  { apply (called_send (hdr_of b) NO_BASE [] w1); [|unfold lenZ at 1; cbn; lia|done].
    split; [apply hdr_of_bytes|]. by split. }
  intros s w2 Hw2. cbv beta in Hw2. destruct (s =? 0xFF).
  { unfold set_reason. do 2 past (@nil (list Z)). done. }
  apply wpd_bind. eapply wpd_mono.
  { apply (async_chunks_sends s fuel b [hdr_of b]); [done|change (lenZ [hdr_of b]) with 1; lia|done]. }
  intros ok w3 (cs & Hc & Ho). apply wpd_ret. exists (hdr_of b :: cs). split; [done|].
  intros E. unfold chunked. rewrite (proj2 (Z.leb_gt _ _) Hl). by rewrite (Ho E).
Qed.

(** The sender's tables of a network state that satisfies the invariant. *)
Lemma net_sender : is_sync (mode (cfg (lk (ws n)))) = false /\ window_ (arqCache_ (txg (lk (ws n)))) <= 32.
Proof.
  destruct Hn as (s0 & B & r & D & A & q & Hi). destruct (inv_flow _ _ _ _ _ _ _ Hi) as [(Hm & _ & Hx) _ _ _ _ _ _].
  split; [done|]. destruct Hx as [[_ [_ Hc] _ _ _ _ _ _ _] _]. unfold window_ok in Hc. lia.
Qed.

Lemma send_body_sends b (w : World S) :
  bytes b -> b <> [] -> is_sync (mode (cfg (lk w))) = false ->
  inflight (lk (ws n)) + chunksForMsgLen (lenZ b) <= 32 -> called [] w ->
  wpd True (send_body yield fuel b) (sent_post b) w.
Proof.
  intros Hb Hne Hm Hf Hw. unfold send_body. apply wpd_bind, wpd_link. rewrite Hm.
  pose proof (lenZ_nonnil b Hne) as Hp. unfold chunksForMsgLen in Hf.
  destruct (Z.leb_spec (lenZ b) 0); [lia|].
  destruct (Z.leb_spec (lenZ b + MSG_HDR) MAX_CHUNK).
  - apply send_async_single_sends; [done|done|lia|done].
  - apply send_async_multi_sends; [done|done| |done]. unfold nchunks. unfold MAX_CHUNK in Hf.
    replace (lenZ b + 249) with (lenZ b + 250 - 1) by lia. lia.
Qed.

(** A call of [sendMsg] is a run of the network: a refused message sends
    nothing, an accepted one exactly its chunks. *)
Lemma sendMsg_sends b :
  bytes b -> b <> [] ->
  wpd True (sendMsg yield fuel b)
    (fun r w' => exists cs, called cs w' /\ (snd r = None -> cs = []) /\
                            (fst (fst r) = true -> cs = chunked b)) (ws n).
Proof.
  intros Hb Hne. pose proof called_start as Hst. pose proof net_sender as [Hm Hwin]. unfold sendMsg, set_reason.
  pose proof (lenZ_nonnil b Hne) as Hp. apply wpd_bind, wpd_link. cbv zeta. replace (lenZ b =? 0) with false by lia.
  destruct (_ <? lenZ b); [stay (@nil (list Z)) w1 Hw1; by exists []|].
  destruct (_ || _); [stay (@nil (list Z)) w1 Hw1; by exists []|].
  apply wpd_bind. eapply wpd_mono; [apply wpd_conj; [by apply (send_admit_ok True)|by apply (admit_stays [])]|].
  intros ok w1 [[Hpin Hok] Hw1]. destruct ok; cbn [negb]; [|by exists []].
  destruct (Hok eq_refl) as [_ Hfit]. clear Hok. apply wpd_bind, wpd_link.
  apply wpd_bind. eapply wpd_mono.
  { apply wpd_conj.
    - apply (frame_wpd True (pinned (lk (ws n)))); [|exact Hpin]. kt.
    - assert (Hk : forall c, stays [] (when c (t <- hw nowMs;; SET tim postLockFirstTxDone_ := t))) by (intros; ks).
      apply Hk, Hw1. }
  intros ? w2 [(_ & E2 & _) Hw2]. apply wpd_bind. eapply wpd_mono.
  { apply send_body_sends; [done|done|by rewrite E2|lia|done]. }
  intros r w3 Hr. destruct r as [|ok brk base]; [by exists []|]. destruct Hr as (cs & Hc & Ho).
  unfold send_finish, set_reason. do 5 past cs. apply wpd_ret. exists cs. by split_and!.
Qed.
End Call.

(** ** A background that takes replies during a call *)

(** Hardware with a mailbox of replies that have arrived. *)
Record Mailed (H : Type) := mkMailed { board : H; mail : list (list Z) }.
#[global] Arguments mkMailed {H} board mail.
#[global] Arguments board {H} m : rename.
#[global] Arguments mail {H} m : rename.

Section Mailed.
Context {H : Type} `{IHal H}.

Definition mask {A} (f : H -> A * H) (h : Mailed H) : A * Mailed H :=
  (fst (f (board h)), mkMailed (snd (f (board h))) (mail h)).
Definition mact (f : H -> H) (h : Mailed H) : Mailed H := mkMailed (f (board h)) (mail h).

#[export] Instance mailed_hal : IHal (Mailed H) := {
  hal_begin := fun c => mact (hal_begin c);
  setSpd := fun s => mact (setSpd s);
  sendBreak := mact sendBreak;
  tx := fun b => mask (tx b);
  txAvail := mask txAvail;
  txRingSize := fun h => txRingSize (board h);
  rxRingSize := fun h => rxRingSize (board h);
  flushTx := mact flushTx;
  discardTx := mact discardTx;
  startTimer := fun ms => mact (startTimer ms);
  delayMs := fun ms => mact (delayMs ms);
  delayUs := fun us => mact (delayUs us);
  nowMs := mask nowMs;
  tryLock := fun n => mask (tryLock n);
  pushAppBuf := fun b => mask (pushAppBuf b);
  popAppBuf := fun n => mask (popAppBuf n);
  peekAppBuf := mask peekAppBuf;
  appBufAvailable := mask appBufAvailable;
  appBufFree := mask appBufFree;
  clearAppBuf := mact clearAppBuf;
  flushRxHw := mact flushRxHw;
  setOkState := fun b => mact (setOkState b);
  semWait := fun ms => mact (semWait ms);
  malloc := fun n => mask (malloc n);
  semCreate := mask semCreate;
}.
Abbreviation S := (Logged (Mailed H)).

Definition set_mail (a : list (list Z)) (w : World S) : World S :=
  mkWorld (lk w) (mkLogged (mkMailed (board (under (hal w))) a) (wlog (hal w))).

(** The oldest reply is taken, if there is one. *)
Definition take_reply (w : World S) : World S :=
  match mail (under (hal w)) with
  | [] => w
  | f :: a => match feed f w with Some (_, w') => set_mail a w' | None => w end
  end.

Context {R : Type} `{HalApp R} `{!HalLog R}.

(** Taking a reply only adds to what was written. *)
Lemma reply_grows (n : Net (S := S) (R := R)) f a k w' :
  net_ok n -> ach n = f :: a -> feed f (ws n) = Some (k, w') ->
  exists es, written (hal w') = written (hal (ws n)) ++ es.
Proof.
  intros (s0 & B & r & D & A & q & Hi) E Ef. pose proof Hi as [Hf Hrs _ _ _ _ _ _ _ Ha _ _].
  rewrite E in Ha. set (Q := fun w1 : World S => exists es, written (hal w1) = written (hal (ws n)) ++ es).
  apply Forall2_cons_inv_r in Ha as (v & A' & [(m & Hm & ->) | ->] & _ & _).
  - apply (feed_post (onAck (seq_at s0 (v - 1)) m) _ Q (ws n) k w' _ (deliver_ack _ Hrs s0 (v - 1) m Hm)); [|done].
    eapply wpd_mono; [by apply (onAck_writes (fun _ => True))|]. intros ? w1 (_ & es & Ew & _). by exists es.
  - apply (feed_post (onNak (seq_at s0 v)) _ Q (ws n) k w' _ (deliver_nak _ Hrs s0 v)); [|done].
    eapply wpd_mono; [apply (flow_writes s0 B (sent n) _ _ Hf); intros; apply onNak_sends|].
    intros ? w1 (es & Ew & _). by exists es.
Qed.

Definition postman : Background (S := S) (R := R).
Proof.
  refine {| inbox := fun h : S => mail (under h); yield := take_reply |}; try done.
  intros n Hn E. unfold take_reply. rewrite <- E. destruct (ach n) as [|f a] eqn:Ea.
  { split; [|exists []; by rewrite app_nil_r]. unfold after, news. rewrite <- E, drop_all, !app_nil_r, <- Ea.
    destruct n. apply rtc_refl. }
  destruct (feed f (ws n)) as [[k w']|] eqn:Ef.
  - split; [|exact (reply_grows n f a k w' Hn Ea Ef)]. eapply rtc_l; [by eapply net_reply|]. apply rtc_once.
    unfold after. cbn [hal set_mail under mail]. rewrite app_nil_r.
    eapply (net_other_s (mkNet w' _ _ _ _ _)). by split.
  - split; [|exists []; by rewrite app_nil_r]. unfold after, news. rewrite <- E, drop_all, !app_nil_r, <- Ea.
    destruct n. apply rtc_refl.
Defined.
End Mailed.
End Dispatch.
