(* ===== verification/Delivery.v ===== *)
(** * Messages from end to end

    The applications of two linked ends: one hands messages to [sendMsg], the
    other takes them from [recvMsg]; in between are the chunks, the frames, the
    lossy wire and the retransmissions of [EndToEnd]. The messages heard are the
    messages said, whole and in order. *)
From stdpp Require Import relations.
From S2P Require Import Prelude Monad Crc MsgCodec FrameRx Config Decision ArqCache Arq Hal.
From S2P Require Import LinkState Timing Tx Core Sweep Gbn Rx Timers Api Recv Frames Sender Send.
From S2P Require Import Receiver Wire Acks Trace Emits Flow EndToEnd Messages Dispatch.
Import MsgCodec FrameRx Config Decision ArqCache Arq Hal LinkState Timing Tx Core Sweep Gbn Rx
  Timers Api Recv Frames Sender Send Receiver Wire Acks Trace Emits Flow EndToEnd Messages Dispatch.

Module Delivery.

Section Delivery.
Context {S R : Type} `{HalLog S} `{HalApp R} `{!HalLog R}.
Context (yieldR : World R -> World R) (fuel : nat) (mx max_len : Z) (Hmx : mx < 2 ^ 31).
Abbreviation Net := (Net (S := S) (R := R)).

(** ** The two applications *)

(** The network, the messages accepted for sending and those received. *)
Record Talk := mkTalk { net : Net; said : list (list Z); heard : list (list Z) }.

(** Where the receiving application is in the stream: its partial message. *)
Definition cursor (w : World R) : LinkMsgCodec * Z := (msgRx_ (rxg (lk w)), maxMsg (cfg (lk w))).

(** What happens on the wire and in the other tasks between the calls. *)
Inductive wire_step : Net -> Net -> Prop :=
  | wire_resend n now w' :
      gbnResendWindow now (ws n) = Some (tt, w') ->
      wire_step n (mkNet w' (wr n) (dch n ++ news (written (hal (ws n))) (written (hal w'))) (ach n)
                     (sent n) (got n))
  | wire_data n f d k w' :
      dch n = f :: d -> feed f (wr n) = Some (k, w') ->
      wire_step n (mkNet (ws n) w' d (ach n ++ news (written (hal (wr n))) (written (hal w')))
                     (sent n) (got n))
  | wire_reply n f a k w' :
      ach n = f :: a -> feed f (ws n) = Some (k, w') ->
      wire_step n (mkNet w' (wr n) (dch n ++ news (written (hal (ws n))) (written (hal w'))) a
                     (sent n) (got n))
  | wire_lose_data n a f b :
      dch n = a ++ f :: b -> wire_step n (mkNet (ws n) (wr n) (a ++ b) (ach n) (sent n) (got n))
  | wire_lose_reply n a f b :
      ach n = a ++ f :: b -> wire_step n (mkNet (ws n) (wr n) (dch n) (a ++ b) (sent n) (got n))
  | wire_other_s n w' : other_s (ws n) w' ->
      wire_step n (mkNet w' (wr n) (dch n) (ach n) (sent n) (got n))
  | wire_other_r n w' : other_r (wr n) w' -> cursor w' = cursor (wr n) ->
      wire_step n (mkNet (ws n) w' (dch n) (ach n) (sent n) (got n)).

(** A message the receiver is configured for. *)
Definition msg_fits (b : list Z) : Prop := bytes b /\ 0 < lenZ b <= mx /\ lenZ b <= max_len.

Definition queue (w : World R) : list Z := appq (hal w).

Inductive talk_step : Talk -> Talk -> Prop :=
  (** [sendMsg] under any background: it accepts the message or refuses it
      before anything is sent *)
  | talk_say t (Bg : Background (S := S) (R := R)) b r w' :
      msg_fits b -> ach (net t) = inbox (hal (ws (net t))) ->
      sendMsg yield fuel b (ws (net t)) = Some (r, w') ->
      fst (fst r) = true \/ snd r = None ->
      talk_step t (mkTalk (after (net t) (inbox (hal w')) (if fst (fst r) then chunked b else []) w')
                     (said t ++ if fst (fst r) then [b] else []) (heard t))
  (** [recvMsg], before a partial message goes stale *)
  | talk_hear t r w' :
      stale_now (wr (net t)) = false -> recvMsg yieldR fuel max_len (wr (net t)) = Some (r, w') ->
      talk_step t
        (mkTalk (mkNet (ws (net t)) w' (dch (net t)) (ach (net t)) (sent (net t))
                   (got (net t) ++ take (length (queue (wr (net t))) - length (queue w')) (queue (wr (net t)))))
           (said t) (heard t ++ match r with Message b => [b] | _ => [] end))
  | talk_wire t n' : wire_step (net t) n' -> talk_step t (mkTalk n' (said t) (heard t)).

Definition talk_start (t : Talk) : Prop :=
  net_start (net t) /\ said t = [] /\ heard t = [] /\
  inMsg (msgRx_ (rxg (lk (wr (net t))))) = false /\ maxMsg (cfg (lk (wr (net t)))) = mx.
(** ** The invariant *)

Definition flat (ms : list (list Z)) : list (list Z) := concat (map chunked ms).

Lemma concat_flat ms : concat (flat ms) = concat (map framed ms).
Proof.
  unfold flat. induction ms as [|b ms IH]; [done|]. cbn [map concat]. by rewrite concat_app, IH, concat_chunked.
Qed.

Lemma flat_app a b : flat (a ++ b) = flat a ++ flat b.
Proof. unfold flat. by rewrite map_app, concat_app. Qed.

(** The cursor of a receiver that is between messages, or inside [b]. *)
Definition cursor_at (m : option (list Z)) (w : World R) : Prop :=
  maxMsg (cfg (lk w)) = mx /\
  match m with
  | None => inMsg (msgRx_ (rxg (lk w))) = false
  | Some b => msgRx_ (rxg (lk w)) = mkLinkMsgCodec (lenZ b) (Crc.crc16 b)
  end.

Lemma cursor_eq m w w' : cursor w' = cursor w -> cursor_at m w -> cursor_at m w'.
Proof. unfold cursor, cursor_at. intros E. injection E as -> ->. done. Qed.

Definition talk_inv (t : Talk) : Prop :=
  net_ok (net t) /\ sent (net t) = flat (said t) /\ Forall msg_fits (said t) /\
  exists m rest, said t = heard t ++ pend m rest /\ cursor_at m (wr (net t)) /\
    got (net t) ++ owed m rest = concat (flat (said t)).

(** What the receiver's session needs, apart from the bytes queued. *)
Definition session_rx (s : Z) (w : World R) : Prop :=
  rxSeq (rxg (lk w)) = s /\ rxSeqSet (rxg (lk w)) = true /\ 0 <= snd (appv (hal w)) /\
  state (lk w) = OK /\ is_sync (mode (cfg (lk w))) = false /\ at_rest (lk w).

#[local] Instance session_unread s : Unread (session_rx s).
Proof.
  split; intros; unfold session_rx in *; cbn; try done.
  - destruct H3 as (? & ? & ? & ? & ? & ?). split_and!; try done. by apply app_pop_cap.
  - by rewrite app_of_avail.
  - by rewrite app_of_now.
Qed.

Lemma waits_session s q w : waits s q w /\ at_rest (lk w) <-> session_rx s w /\ queue w = q.
Proof.
  unfold waits, rcv, onq, rcv_P, session_rx, queue, appq. split.
  - intros [(cap & Hc & E1 & E2 & E3 & E4 & E5) Hr]. rewrite E3. cbn. by split_and!.
  - intros [(E1 & E2 & Hc & E4 & E5 & Hr) <-]. split; [|done]. exists (snd (appv (hal w))).
    split_and!; try done. by destruct (appv (hal w)).
Qed.

(** A data frame leaves the cursor alone. *)
Lemma onPayload_cursor c b x : keeps True (fun w : World R => cursor w = x) (onPayload c b).
Proof.
  apply (keeps_iff _ (on (fun l => (msgRx_ (rxg l), maxMsg (cfg l)) = x))); [done|].
  unfold onPayload, payload_stale, payload_gap_sync, payload_gap_async, payload_forward, payload_hold,
    advance_rxSeq, clear_errs, sendAckFrame, sendNakFrame, sendCtrlCobsFrame, txSmallCobs,
    noteValidFrameOk, hw_tx. kt.
Qed.
(** ** Every step preserves it *)

Lemma wire_net (n n' : Net) : wire_step n n' -> net_step n n'.
Proof. by destruct 1; econstructor. Qed.

Lemma data_cursor (n : Net) f d k w' :
  net_ok n -> dch n = f :: d -> feed f (wr n) = Some (k, w') -> cursor w' = cursor (wr n).
Proof.
  intros (s0 & B & r & D & A & q & [Hf _ _ Hrr _ _ Hd HD _ _ _ _]) E Ef. rewrite E in Hd.
  destruct D as [|x D]; [done|]. cbn [map] in Hd. injection Hd as -> _.
  pose proof (nth_chunk _ _ _ _ x Hf (proj1 (HD x (or_introl eq_refl)))) as Hc.
  apply (feed_post (onPayload (seq_at s0 x) (nthZ (sent n) x)) _ (fun w' => cursor w' = cursor (wr n))
           (wr n) k w' _ (deliver_data _ Hrr s0 x _ Hc)); [|done].
  by apply onPayload_cursor.
Qed.

Lemma wire_same (n n' : Net) : net_ok n -> wire_step n n' ->
  sent n' = sent n /\ got n' = got n /\ cursor (wr n') = cursor (wr n).
Proof.
  intros Hn Hw. destruct Hw as [ |n f d k w' E Ef| | | | |]; try done.
  split_and!; try done. by eapply data_cursor.
Qed.

Lemma inv_wire t n' : wire_step (net t) n' -> talk_inv t -> talk_inv (mkTalk n' (said t) (heard t)).
Proof.
  intros Hw (Hn & Hs & Hf & m & rest & Ha & Hc & Hg). destruct (wire_same _ _ Hn Hw) as (E1 & E2 & E3).
  unfold talk_inv. cbn [net said heard]. rewrite E1, E2. split; [by eapply step_ok; [apply wire_net|]|].
  split_and!; [done|done|]. exists m, rest. split; [done|]. split; [by apply (cursor_eq m (wr (net t)))|done].
Qed.

Lemma pend_app m rest b : pend m rest ++ [b] = pend m (rest ++ [b]).
Proof. by destruct m. Qed.
Lemma owed_app m rest b : owed m rest ++ framed b = owed m (rest ++ [b]).
Proof.
  destruct m; cbn [owed]; rewrite ?map_app, ?concat_app; cbn [map concat]; by rewrite ?app_nil_r, <- ?app_assoc.
Qed.

Lemma inv_say t (Bg : Background (S := S) (R := R)) b r w' :
  msg_fits b -> ach (net t) = inbox (hal (ws (net t))) ->
  sendMsg yield fuel b (ws (net t)) = Some (r, w') -> fst (fst r) = true \/ snd r = None -> talk_inv t ->
  talk_inv (mkTalk (after (net t) (inbox (hal w')) (if fst (fst r) then chunked b else []) w')
              (said t ++ if fst (fst r) then [b] else []) (heard t)).
Proof.
  intros Hb Hi E Ho (Hn & Hs & Hf & m & rest & Ha & Hc & Hg). pose proof Hb as (Hbb & [Hb1 _] & _).
  assert (Hne : b <> []) by (by intros ->).
  destruct (wpd_run _ _ _ _ _ _ (sendMsg_sends (net t) Hn Hi fuel b Hbb Hne) E) as (cs & Hcs & Hnone & Hall).
  destruct (called_net (net t) Hn cs w' Hcs) as [Hn' _].
  assert (Ecs : (if fst (fst r) then chunked b else []) = cs).
  { destruct (fst (fst r)); [by rewrite Hall|]. destruct Ho as [|Ho]; [done|]. by rewrite Hnone. }
  rewrite Ecs. unfold talk_inv. cbn [net said heard]. split; [done|].
  assert (Efl : flat (said t ++ if fst (fst r) then [b] else []) = flat (said t) ++ cs).
  { rewrite flat_app, <- Ecs. destruct (fst (fst r)); [|done]. unfold flat. cbn [map concat]. by rewrite app_nil_r. }
  rewrite Efl. cbn [sent got wr after]. split; [by rewrite Hs|]. split.
  { apply Forall_app. split; [done|]. destruct (fst (fst r)); [by constructor|constructor]. }
  destruct (fst (fst r)).
  - exists m, (rest ++ [b]). split; [by rewrite Ha, <- app_assoc, pend_app|]. split; [done|].
    by rewrite <- owed_app, app_assoc, Hg, concat_app, <- Ecs, concat_chunked.
  - exists m, rest. rewrite <- Ecs, !app_nil_r. done.
Qed.
Lemma take_front (c q : list Z) : take (length (c ++ q) - length q) (c ++ q) = c.
Proof. rewrite length_app. replace (length c + length q - length q)%nat with (length c) by lia. apply take_app_length. Qed.

(** The receiver's part of the network state, for a stream read from [q] on. *)
Lemma net_read_on (n : Net) s0 B r D A q c q' w' :
  net_inv s0 B r D A q n -> q = c ++ q' -> session_rx (seq_at s0 (r - 1)) w' -> queue w' = q' ->
  net_inv s0 B r D A q' (mkNet (ws n) w' (dch n) (ach n) (sent n) (got n ++ c)).
Proof.
  intros [Hf Hrs _ _ Hr Hg Hd HD HnD Ha HA HnA] Eq Hses Eq'.
  destruct (proj2 (waits_session (seq_at s0 (r - 1)) q' w') (conj Hses Eq')) as [Hw Hrest].
  split; try done. cbn [got sent]. by rewrite <- app_assoc, <- Eq.
Qed.

(** What the receiver of a reachable state finds: its session, its cursor, and a
    stream of which [q] is queued and [f] has yet to come. *)
Lemma inv_hears t :
  talk_inv t -> exists s0 B r D A q m rest f,
    net_inv s0 B r D A q (net t) /\ stream mx (session_rx (seq_at s0 (r - 1))) q m (wr (net t)) /\
    q ++ f = owed m rest /\ f = concat (drop (Z.to_nat r) (sent (net t))) /\
    said t = heard t ++ pend m rest /\ got (net t) ++ q ++ f = concat (flat (said t)) /\
    Forall (fun b => 0 < lenZ b <= mx /\ lenZ b <= max_len) (pend m rest).
Proof.
  intros ((s0 & B & r & D & A & q & Hi) & Hs & Hf & m & rest & Ha & [Hm Hc] & Hg).
  pose proof Hi as [_ _ Hw Hrr _ Hq _ _ _ _ _ _].
  destruct (proj1 (waits_session _ _ _) (conj Hw Hrr)) as [Hses Hqq].
  set (f := concat (drop (Z.to_nat r) (sent (net t)))).
  assert (Hgq : got (net t) ++ q ++ f = concat (flat (said t))).
  { rewrite app_assoc, Hq. unfold f. by rewrite <- concat_app, take_drop, Hs. }
  exists s0, B, r, D, A, q, m, rest, f. split_and!; try done.
  - rewrite <- Hg in Hgq. by apply app_inv_head in Hgq.
  - rewrite Ha in Hf. apply Forall_app in Hf as [_ Hf]. eapply List.Forall_impl; [|exact Hf].
    by intros b (_ & ? & ?).
Qed.

Lemma inv_hear t r w' :
  stale_now (wr (net t)) = false -> recvMsg yieldR fuel max_len (wr (net t)) = Some (r, w') -> talk_inv t ->
  talk_inv (mkTalk (mkNet (ws (net t)) w' (dch (net t)) (ach (net t)) (sent (net t))
                      (got (net t) ++ take (length (queue (wr (net t))) - length (queue w')) (queue (wr (net t)))))
              (said t) (heard t ++ match r with Message b => [b] | _ => [] end)).
Proof.
  intros Hst E Ht. pose proof Ht as (_ & Hs & Hf & _).
  destruct (inv_hears t Ht) as (s0 & B & rr & D & A & q & m & rest & f & Hi & Hw & Eq & _ & Ha & Hg & Hp).
  assert (Hqq : queue (wr (net t)) = q) by apply Hw.
  pose proof (wpd_run _ _ _ _ _ _ (recvMsg_ok yieldR fuel mx Hmx _ m rest q f max_len _ Hp Hst Hw Eq) E) as Hn.
  cbv beta in Hn.
  assert (Hr : exists m' rest' c q', pend m rest = match r with Message b => [b] | _ => [] end ++ pend m' rest' /\
    stream mx (session_rx (seq_at s0 (rr - 1))) q' m' w' /\ q = c ++ q' /\ q' ++ f = owed m' rest').
  { destruct (lenZ q <? needed m rest).
    - destruct Hn as (-> & m' & rest' & c & q' & Ep & ? & ? & ?). exists m', rest', c, q'. by rewrite Ep.
    - destruct Hn as (b & rest' & -> & Ep & c & q' & ? & ? & ?). exists None, rest', c, q'. by rewrite Ep. }
  destruct Hr as (m' & rest' & c & q' & Ep & (Hses & Hq' & Hm' & Hc') & Ec & Eo).
  assert (Hq'' : queue w' = q') by exact Hq'.
  rewrite Hqq, Hq'', Ec, take_front. unfold talk_inv. cbn [net said heard sent got wr]. split.
  { do 6 eexists. by apply (net_read_on _ _ _ _ _ _ q c q'). }
  split_and!; [done|done|]. exists m', rest'. split; [by rewrite Ha, Ep, app_assoc|]. split; [done|].
  rewrite <- Eo, <- app_assoc, (app_assoc c), <- Ec. exact Hg.
Qed.

Lemma talk_ok t t' : talk_step t t' -> talk_inv t -> talk_inv t'.
Proof.
  destruct 1 as [t Bg b r w' ? ? ? ?|t r w' ? ?|t n' ?]; [by apply inv_say|by apply inv_hear|by apply inv_wire].
Qed.

Lemma talk_start_ok t : talk_start t -> talk_inv t.
Proof.
  intros (Hn & Hs & Hh & Hc & Hm). split; [by apply start_ok|]. destruct Hn as (_ & _ & _ & _ & _ & _ & Es & Eg).
  rewrite Es, Eg, Hs, Hh. split_and!; [done|constructor|]. by exists None, [].
Qed.

Lemma talk_reach t0 t : talk_start t0 -> rtc talk_step t0 t -> talk_inv t.
Proof.
  intros Hs Hr. apply talk_start_ok in Hs. induction Hr as [|t0 t1 t2 Hst _ IH]; [done|]. by eapply IH, talk_ok.
Qed.

End Delivery.
(** ** A run *)

Abbreviation SH := (Logged (Mailed MockHal)).
Abbreviation RH := (Logged MockHal).

Inductive Turn := Say (b : list Z) | Hear | Arrive | Answer | Lose | LoseAnswer | Retry | Post.

#[local] Instance msg_fits_dec mx max_len b : Decision (msg_fits mx max_len b).
Proof. unfold msg_fits, bytes. apply _. Defined.

Definition wires (n : Net (S := SH) (R := RH)) (w' : World SH) : list (list Z) :=
  news (written (hal (ws n))) (written (hal w')).

(** One turn of the two ends; [Post] puts the replies that have arrived into the
    sender's mailbox. *)
Definition turn (mx max_len : Z) (fuel : nat) (m : Turn) (t : Talk (S := SH) (R := RH)) :
    option (Talk (S := SH) (R := RH)) :=
  let n := net t in
  let on n' := Some (mkTalk n' (said t) (heard t)) in
  match m with
  | Say b =>
      if decide (msg_fits mx max_len b) then
        if decide (ach n = mail (under (hal (ws n)))) then
          match sendMsg take_reply fuel b (ws n) with
          | Some (r, w') =>
              if decide (fst (fst r) = true \/ snd r = None) then
                Some (mkTalk (after n (mail (under (hal w'))) (if fst (fst r) then chunked b else []) w')
                        (said t ++ if fst (fst r) then [b] else []) (heard t))
              else None
          | None => None
          end
        else None
      else None
  | Hear =>
      if stale_now (wr n) then None
      else
        match recvMsg id fuel max_len (wr n) with
        | Some (r, w') =>
            Some (mkTalk (mkNet (ws n) w' (dch n) (ach n) (sent n)
                            (got n ++ take (length (queue (wr n)) - length (queue w')) (queue (wr n))))
                    (said t) (heard t ++ match r with Message b => [b] | _ => [] end))
        | None => None
        end
  | Arrive =>
      match dch n with
      | f :: d =>
          match feed f (wr n) with
          | Some (_, w') =>
              on (mkNet (ws n) w' d (ach n ++ news (written (hal (wr n))) (written (hal w'))) (sent n) (got n))
          | None => None
          end
      | [] => None
      end
  | Answer =>
      match ach n with
      | f :: a =>
          match feed f (ws n) with
          | Some (_, w') => on (mkNet w' (wr n) (dch n ++ wires n w') a (sent n) (got n))
          | None => None
          end
      | [] => None
      end
  | Lose => match dch n with _ :: d => on (mkNet (ws n) (wr n) d (ach n) (sent n) (got n)) | [] => None end
  | LoseAnswer => match ach n with _ :: a => on (mkNet (ws n) (wr n) (dch n) a (sent n) (got n)) | [] => None end
  | Retry =>
      match gbnResendWindow 0 (ws n) with
      | Some (_, w') => on (mkNet w' (wr n) (dch n ++ wires n w') (ach n) (sent n) (got n))
      | None => None
      end
  | Post => on (mkNet (set_mail (ach n) (ws n)) (wr n) (dch n) (ach n) (sent n) (got n))
  end.

Lemma turn_step mx max_len fuel m t t' :
  turn mx max_len fuel m t = Some t' -> talk_step id fuel mx max_len t t'.
Proof.
  destruct m as [b| | | | | | |]; cbn [turn]; intros E.
  - destruct (decide (msg_fits mx max_len b)) as [Hb|]; [|done].
    destruct (decide (ach (net t) = _)) as [Ea|]; [|done].
    destruct (sendMsg _ _ _ _) as [[r w']|] eqn:Es; [|done].
    destruct (decide (fst (fst r) = true \/ snd r = None)) as [Ho|]; [|done]. injection E as <-.
    exact (talk_say id fuel mx max_len t postman b r w' Hb Ea Es Ho).
  - destruct (stale_now _) eqn:Es; [done|]. destruct (recvMsg _ _ _ _) as [[r w']|] eqn:Er; [|done].
    injection E as <-. by apply talk_hear.
  - destruct (dch (net t)) as [|f d] eqn:Ed; [done|]. destruct (feed _ _) as [[k w']|] eqn:Ef; [|done].
    injection E as <-. exact (talk_wire _ _ _ _ t _ (wire_data (net t) f d k w' Ed Ef)).
  - destruct (ach (net t)) as [|f a] eqn:Ed; [done|]. destruct (feed _ _) as [[k w']|] eqn:Ef; [|done].
    injection E as <-. exact (talk_wire _ _ _ _ t _ (wire_reply (net t) f a k w' Ed Ef)).
  - destruct (dch (net t)) as [|f d] eqn:Ed; [done|]. injection E as <-.
    exact (talk_wire _ _ _ _ t _ (wire_lose_data (net t) [] f d Ed)).
  - destruct (ach (net t)) as [|f d] eqn:Ed; [done|]. injection E as <-.
    exact (talk_wire _ _ _ _ t _ (wire_lose_reply (net t) [] f d Ed)).
  - destruct (gbnResendWindow _ _) as [[[] w']|] eqn:Ef; [|done]. injection E as <-.
    exact (talk_wire _ _ _ _ t _ (wire_resend (net t) 0 w' Ef)).
  - injection E as <-. by apply talk_wire, wire_other_s.
Qed.

Fixpoint turns (mx max_len : Z) (fuel : nat) (ms : list Turn) (t : Talk (S := SH) (R := RH)) :
    option (Talk (S := SH) (R := RH)) :=
  match ms with
  | [] => Some t
  | m :: ms => match turn mx max_len fuel m t with Some t' => turns mx max_len fuel ms t' | None => None end
  end.

Lemma turns_steps mx max_len fuel ms t t' :
  turns mx max_len fuel ms t = Some t' -> rtc (talk_step id fuel mx max_len) t t'.
Proof.
  revert t. induction ms as [|m ms IH]; intros t E; cbn [turns] in E.
  { injection E as <-. apply rtc_refl. }
  destruct (turn _ _ _ _ _) as [t1|] eqn:E1; [|done]. eapply rtc_l; [by eapply turn_step|by apply IH].
Qed.

Definition demo_talk : Talk (S := SH) (R := RH) :=
  mkTalk (mkNet (mkWorld ((lk demo_rx) <| txg := demo_idle |>) (mkLogged (mkMailed (hal demo_rx) []) []))
            (mkWorld (lk demo_rx) (mkLogged (hal demo_rx) [])) [] [] [] []) [] [].

Definition demo_mx : Z := maxMsg (cfg (lk demo_rx)).
Definition demo_long : list Z := replicate 300 7.

(** The first frame is lost and sent again; the reply to it arrives during the
    second call, whose message takes three frames; the reply to the second of
    these is lost. *)
Definition demo_turns : list Turn :=
  [Say [1; 2; 3]; Lose; Retry; Arrive; Post; Say demo_long; Arrive; Hear; Arrive; LoseAnswer; Hear; Arrive;
   Answer; Answer].

(** ** A send that is broken off

    A ring of 600 bytes that does not drain takes the header and the first two chunks of a
    message of 700 bytes; then the wait times out. The session stays up, and once the
    ring is empty the next message is accepted. The receiver is given every frame of
    both: it waits for the rest of the first message, and the second one is part of
    it. *)
Definition small_ring : World (Logged MockHal) :=
  mkWorld ((lk demo_rx) <| txg := demo_idle |>) (mkLogged (mock_init 600) []).
Definition drained (w : World (Logged MockHal)) : World (Logged MockHal) :=
  mkWorld (lk w) (mkLogged ((under (hal w)) <| m_txBuf := [] |>) (wlog (hal w))).
Fixpoint feed_frames (fs : list (list Z)) (w : World (Logged MockHal)) : option (World (Logged MockHal)) :=
  match fs with
  | [] => Some w
  | f :: fs => match feed f w with Some (_, w') => feed_frames fs w' | None => None end
  end.

Lemma partial_send_swallows :
  match sendMsg id 5000 (replicate 700 7) small_ring with
  | Some (r, w1) =>
      fst (fst r) = false /\ snd r <> None /\ state (lk w1) = OK /\
      lastSendMsgReason_ (cnt (lk w1)) = TxRingStall /\
      match sendMsg id 5000 [1; 2; 3] (drained w1) with
      | Some (r2, w2) =>
          fst (fst r2) = true /\
          match feed_frames (wlog (hal w2)) (wr demo_net) with
          | Some v =>
              match recvMsg id 5000 1000 v with
              | Some (x, v') => x = Nothing /\ msgRx_ (rxg (lk v')) = mkLinkMsgCodec 700 (Crc.crc16 (replicate 700 7)) /\
                  drop 500 (appq (hal v')) = msgHdrEncode 3 (Crc.crc16 [1; 2; 3]) ++ [1; 2; 3]
              | None => False
              end
          | None => False
          end
      | None => False
      end
  | None => False
  end.
Proof. vm_compute. repeat split; discriminate. Qed.
End Delivery.
