(* ===== verification/Handshake.v ===== *)
(** * The handshake of the baud sweep, from end to end

    Two links that sweep meet at a baud and agree on it. [Radio] is a hardware
    of which one sees the baud it is tuned to and the frames it put on the air,
    each at the baud of that moment; a frame is received by an end tuned to that
    baud and is lost otherwise. [react] is the handshake as an automaton on what
    the peer can observe of an end ([Side]); [onRx_react] shows that the receive
    path implements it, and [handshake_locks] that two ends that have met lock. *)
From S2P Require Import Prelude Monad Crc MsgCodec FrameRx Config Decision BaudSweep ArqCache Arq.
From S2P Require Import Hal LinkState Timing Tx Core Sweep Rx Frames SweepInv.
Import Crc MsgCodec FrameRx Config Decision BaudSweep ArqCache Arq Hal LinkState Timing Tx Core
  Sweep Rx Frames SweepInv.

Module Handshake.

(** ** Hardware with a baud *)

(** A frame in the air, and the baud it was sent at. *)
Abbreviation Frame := (Z * list Z)%type.

Class Radio (H : Type) `{IHal H} := {
  air : H -> Z * list Frame;
  air_tx : forall b h, air (snd (tx b h)) = (fst (air h), snd (air h) ++ [(fst (air h), b)]);
  air_setSpd : forall s h, air (setSpd s h) = (s, snd (air h));
  air_now : forall h, air (snd (nowMs h)) = air h;
  air_timer : forall ms h, air (startTimer ms h) = air h;
  air_clear : forall h, air (clearAppBuf h) = air h;
  air_flushRx : forall h, air (flushRxHw h) = air h;
  air_okState : forall b h, air (setOkState b h) = air h;
  (** what these do to the frames under way is left open *)
  baud_discard : forall h, fst (air (discardTx h)) = fst (air h);
  baud_break : forall h, fst (air (sendBreak h)) = fst (air h);
}.
Create Rewrite HintDb radio.
#[export] Hint Rewrite @air_tx @air_setSpd @air_now @air_timer @air_clear @air_flushRx
  @air_okState : radio.

(** Any hardware, with its baud and its transmissions recorded. *)
Record OnAir (H : Type) := mkOnAir { below : H; waves : Z * list Frame }.
#[global] Arguments mkOnAir {H} below waves.
#[global] Arguments below {H} o : rename.
#[global] Arguments waves {H} o : rename.

Section OnAir.
Context {H : Type} `{IHal H}.

Definition query {A} (f : H -> A * H) (h : OnAir H) : A * OnAir H :=
  (fst (f (below h)), mkOnAir (snd (f (below h))) (waves h)).
Definition command (f : H -> H) (h : OnAir H) : OnAir H := mkOnAir (f (below h)) (waves h).

#[export] Instance onair_hal : IHal (OnAir H) := {
  hal_begin := fun c => command (hal_begin c);
  setSpd := fun s h => mkOnAir (setSpd s (below h)) (s, snd (waves h));
  sendBreak := command sendBreak;
  tx := fun b h => (fst (tx b (below h)),
    mkOnAir (snd (tx b (below h))) (fst (waves h), snd (waves h) ++ [(fst (waves h), b)]));
  txAvail := query txAvail;
  txRingSize := fun h => txRingSize (below h);
  rxRingSize := fun h => rxRingSize (below h);
  flushTx := command flushTx;
  discardTx := command discardTx;
  startTimer := fun ms => command (startTimer ms);
  delayMs := fun ms => command (delayMs ms);
  delayUs := fun us => command (delayUs us);
  nowMs := query nowMs;
  tryLock := fun n => query (tryLock n);
  pushAppBuf := fun b => query (pushAppBuf b);
  popAppBuf := fun n => query (popAppBuf n);
  peekAppBuf := query peekAppBuf;
  appBufAvailable := query appBufAvailable;
  appBufFree := query appBufFree;
  clearAppBuf := command clearAppBuf;
  flushRxHw := command flushRxHw;
  setOkState := fun b => command (setOkState b);
  semWait := fun ms => command (semWait ms);
  malloc := fun n => query (malloc n);
  semCreate := query semCreate;
}.

#[export] Instance onair_radio : Radio (OnAir H).
Proof. by refine {| air := waves |}. Defined.
End OnAir.

(** ** What the peer can observe *)

(** The role, the configuration, the handshake's state, the receiver's position
    in a control frame, the baud and the frames sent. *)
Record Side := mkSide {
  role : bool;
  conf : AutoLinkConfig;
  st : State;
  ph : SweepPhase;
  cand : Z;
  acks : Z;
  at_ : Z;
  epoch : Z;
  rxpos : Z;
  rxlen : nat;
  radio : Z * list Frame;
}.
#[export] Instance eta_Side : Eta Side := fun s =>
  mkSide (role s) (conf s) (st s) (ph s) (cand s) (acks s) (at_ s) (epoch s) (rxpos s) (rxlen s)
    (radio s).

(** A control frame of the sweep. *)
Definition ctrl (e p : Z) : list Z := sealed [0xAA; 0x55; e; p].

Definition on_air (p : Z) (s : Side) : Side :=
  s <| radio ::= fun r => (fst r, snd r ++ [(fst r, ctrl (epoch s) p)]) |>.
Definition tuned (i : Z) (s : Side) : Side :=
  s <| radio ::= fun r => (allowedBaudSafe (conf s) i, snd r) |>.

Definition to_phase2 (s : Side) : Side :=
  let s := tuned 0 (s <| ph := PHASE2 |> <| at_ := 0 |>) in
  if role s then on_air PING_CMD s else s.
Definition to_phase3 (s : Side) : Side :=
  let s := tuned (at_ s) (s <| ph := PHASE3 |> <| cand := at_ s |> <| acks := 0 |>) in
  if role s then on_air PING_CMD s else s.

(** Lock at [i]: the sweep is over. *)
Definition settle (s : Side) : Side := s <| ph := NONE |> <| cand := -1 |> <| acks := 0 |>.
Definition locked_at (i : Z) (s : Side) : Side :=
  tuned i (settle s <| st := OK |> <| at_ := i |>).
Definition announce (s : Side) : Side :=
  let i := cand s in locked_at i (on_air (LOCK_CMD + i) (tuned i s)).

(** One more acknowledged, whatever comes of it. *)
Definition more (s : Side) : Side := s <| acks ::= fun n => n + 1 |>.

(** A valid control frame with payload [p]. *)
Definition react (p : Z) (s : Side) : Side :=
  match isLockPayload p (allowedBaudsCount (conf s)) with
  | Some i => locked_at i s
  | None =>
      if role s && (p =? PONG_CMD) then
        match ph s with
        | PHASE1 => to_phase2 s
        | PHASE2 => to_phase3 s
        | PHASE3 =>
            let s := more s in
            if acks s >=? PHASE3_ACKS_NEEDED then announce s else on_air PING_CMD s
        | NONE => s
        end
      else if negb (role s) && (p =? PING_CMD) then
        match ph s with
        | PHASE1 => to_phase2 (on_air PONG_CMD s)
        | PHASE2 => on_air PONG_CMD (to_phase3 s)
        | PHASE3 =>
            let s := more s in
            if acks s >=? PHASE3_ACKS_NEEDED then announce s else on_air PONG_CMD s
        | NONE => s
        end
      else s
  end.

(** Sweeping, the indices in range; and between two frames. *)
Record sweeping (s : Side) : Prop := mkSweeping {
  sw_st : st s = SWP;
  sw_conf : cfg_ok (conf s);
  sw_at : is_idx (allowedBaudsCount (conf s)) (at_ s);
  sw_cand : ph s = PHASE3 -> is_idx (allowedBaudsCount (conf s)) (cand s);
}.
Definition rested (s : Side) : Prop := rxpos s = 0 /\ rxlen s = 5%nat.

(** ** The receive path implements the automaton *)

Section View.
Context {H : Type} `{Radio H}.

Definition view (w : World H) : Side :=
  let l := lk w in
  mkSide (isMaster l) (cfg l) (state l) (phase_ (sweep_ (swp l))) (phase3Baud_ (sweep_ (swp l)))
    (phase3Acks_ (sweep_ (swp l))) (spdI (swp l)) (sweepEpoch_ (swp l)) (rxIdx (rxg l))
    (length (ctrlBuf (rxg l))) (air (hal w)).

(** [m] returns, and takes the view by [f]. *)
Definition shows {A} (m : Act H A) (f : Side -> Side) (w : World H) : Prop :=
  wp m (fun _ w' => view w' = f (view w)) w.

(** Of what a side shows, [m] changes nothing. *)
Definition unseen {A} (m : Act H A) : Prop := forall v, keeps False (fun w => view w = v) m.

Lemma unseen_hw {A} (f : H -> A * H) : (forall h, air (snd (f h)) = air h) -> unseen (hw f).
Proof. intros Hf v w <-. unfold wpd, hw, view. cbn. by rewrite Hf. Qed.
Lemma unseen_hwdo f : (forall h, air (f h) = air h) -> unseen (hwdo f).
Proof. intros Hf v w <-. unfold wpd, hwdo, modify, view. cbn. by rewrite Hf. Qed.
Lemma unseen_upd f : (forall w, view (mkWorld (f (lk w)) (hal w)) = view w) -> unseen (upd f).
Proof. intros Hf v w <-. apply Hf. Qed.

End View.

Ltac un_step :=
  lazymatch goal with
  | |- keeps _ _ (hw _) => apply unseen_hw; intros; apply air_now
  | |- keeps _ _ (hwdo _) => apply unseen_hwdo; intros; by autorewrite with radio
  | |- keeps _ _ (upd _) => apply unseen_upd; reflexivity
  | |- keeps _ _ link => apply keeps_gets
  | |- _ => keeps_step
  end.
Ltac un := intros v; repeat (un_step; cbv beta).

Section Refine.
Context {H : Type} `{Radio H}.

Lemma then_shows {A} (m : Act H A) f (Q : A -> World H -> Prop) w :
  shows m f w -> (forall a w', view w' = f (view w) -> Q a w') -> wpd False m Q w.
Proof. intros Hm Hk. eapply wpd_mono; [exact Hm|]. intros a w'. apply Hk. Qed.

Lemma then_unseen {A} (m : Act H A) (Q : A -> World H -> Prop) w :
  unseen m -> (forall a w', view w' = view w -> Q a w') -> wpd False m Q w.
Proof. intros Hm. apply (then_shows m (fun s => s)). by apply Hm. Qed.

(** ** The operations of the sweep *)

Lemma sendSweepFrame_shows p w : shows (sendSweepFrame p) (on_air p) w.
Proof.
  unfold shows, sendSweepFrame, hw_tx. ws. unfold view, on_air. cbn.
  autorewrite with radio. done.
Qed.

Lemma setSpdIdx_shows i w : shows (setSpdIdx i) (tuned i) w.
Proof. unfold shows, setSpdIdx. ws. unfold view, tuned. cbn. by autorewrite with radio. Qed.

Lemma updSweep_shows f g w :
  (forall w, view (mkWorld (rset swp (rset sweep_ f) (lk w)) (hal w)) = g (view w)) ->
  shows (updSweep f) g w.
Proof. intros Hf. apply Hf. Qed.

Lemma tune_shows i w : shows (tune i) (fun s => tuned i s <| at_ := i |>) w.
Proof.
  unfold shows, tune. ws. eapply then_shows; [apply setSpdIdx_shows|]. intros _ w1 E. ws.
  change (((view w1) <| at_ := i |>) = (tuned i (view w)) <| at_ := i |>). by rewrite E.
Qed.

Lemma enterPhase2_shows w : shows enterPhase2 to_phase2 w.
Proof.
  unfold shows, enterPhase2, updSweep. ws.
  eapply then_shows; [apply setSpdIdx_shows|]. intros _ w1 E. ws.
  change (isMaster (lk w1)) with (role (view w1)).
  change (view w1 = tuned 0 ((view w) <| ph := PHASE2 |> <| at_ := 0 |>)) in E.
  unfold to_phase2. cbv zeta. rewrite <- E. destruct (role (view w1)).
  - ws. eapply then_shows; [apply sendSweepFrame_shows|]. intros _ w2 <-. ws.
    change (hal (mkWorld ?l ?h)) with h. unfold view. cbn. by autorewrite with radio.
  - ws. unfold view. cbn. by autorewrite with radio.
Qed.

Lemma enterPhase3_shows w : shows (enterPhase3 (at_ (view w))) to_phase3 w.
Proof.
  unfold shows, enterPhase3, updSweep. ws.
  eapply then_shows; [apply setSpdIdx_shows|]. intros _ w1 E. ws.
  change (isMaster (lk w1)) with (role (view w1)).
  change (view w1 = tuned (at_ (view w)) ((view w) <| ph := PHASE3 |> <| cand := at_ (view w) |> <| acks := 0 |>)) in E.
  unfold to_phase3. cbv zeta. rewrite <- E. destruct (role (view w1)).
  - ws. eapply then_shows; [apply sendSweepFrame_shows|]. intros _ w2 <-. ws.
    unfold view. cbn. by autorewrite with radio.
  - ws. unfold view. cbn. by autorewrite with radio.
Qed.

Lemma lock_clocks_unseen : unseen lock_clocks.
Proof. unfold lock_clocks. un. Qed.

(** The baud memory of a lock is not seen; the index is. *)
Lemma lock_baud_shows i w : shows (lock_baud i) (fun s => s <| at_ := i |>) w.
Proof.
  unfold shows, lock_baud. ws.
  destruct (_ || _); ws; destruct (_ && _); ws; try destruct (_ <=? _); ws;
    unfold view; cbn; by autorewrite with radio.
Qed.

Lemma lockOk_shows i w :
  st (view w) = SWP -> cfg_ok (conf (view w)) -> is_idx (allowedBaudsCount (conf (view w))) i ->
  shows (lockOk i) (fun s => tuned i (s <| st := OK |> <| at_ := i |>)) w.
Proof.
  intros Hst Hc Hi. unfold shows, lockOk. ws. change (state (lk w)) with (st (view w)).
  rewrite Hst. destruct (decide (SWP = OK)); [done|]. ws.
  eapply then_shows; [apply lock_baud_shows|]. intros _ w1 E1. ws.
  eapply then_unseen; [apply lock_clocks_unseen|]. intros _ w2 E2. rewrite E1 in E2. ws.
  pose proof (allowedBaudSafe_ok _ _ Hc Hi) as Hb. change (conf (view w)) with (cfg (lk w)) in Hb.
  replace (allowedBaudSafe (cfg (lk w)) i =? 0) with false by lia.
  assert (E : view w2 = tuned i ((view w) <| at_ := i |>)).
  { rewrite E2. unfold view, tuned. cbn. by autorewrite with radio. }
  clear E1 E2. unfold changeState. ws.
  assert (state (lk w2) = SWP) as ->.
  { change (st (view w2) = SWP). rewrite E. exact Hst. }
  destruct (decide (SWP = OK)); [done|]. ws.
  change (tuned i ((view w) <| st := OK |> <| at_ := i |>)) with ((tuned i ((view w) <| at_ := i |>)) <| st := OK |>).
  rewrite <- E. unfold view. cbn. by autorewrite with radio.
Qed.

(** ** The handlers *)

Lemma u8_lock n i : 1 <= n <= 16 -> is_idx n i -> u8 (LOCK_CMD + u8 i) = LOCK_CMD + i.
Proof. unfold LOCK_CMD, is_idx. intros ? ?. mlia. Qed.

(** Both roles announce a lock alike. *)
Lemma lock_shows i w :
  st (view w) = SWP -> cfg_ok (conf (view w)) -> is_idx (allowedBaudsCount (conf (view w))) i ->
  shows (updSweep sweep_reset;; tune i;; sendSweepFrame (u8 (LOCK_CMD + u8 i));; lockOk i;; ret false)
    (fun s => locked_at i (on_air (LOCK_CMD + i) (tuned i s))) w.
Proof.
  intros Hst Hc Hi. rewrite (u8_lock _ _ (cfg_count _ Hc) Hi). unfold shows, updSweep. ws.
  eapply then_shows; [apply tune_shows|]. intros _ w1 E1. ws.
  eapply then_shows; [apply sendSweepFrame_shows|]. intros _ w2 E2. ws. rewrite E1 in E2.
  change (view w2 = on_air (LOCK_CMD + i) (tuned i ((settle (view w)) <| at_ := i |>))) in E2.
  eapply then_shows; [apply lockOk_shows; by rewrite E2|]. intros _ w3 E3. ws.
  rewrite E3, E2. reflexivity.
Qed.

Lemma more_lock w s :
  view w = more s -> sweeping s -> ph s = PHASE3 ->
  st (view w) = SWP /\ cfg_ok (conf (view w)) /\
  is_idx (allowedBaudsCount (conf (view w))) (phase3Baud_ (sweep_ (swp (lk w)))).
Proof.
  intros E [Hst Hc _ Hi] Hp. change (phase3Baud_ (sweep_ (swp (lk w)))) with (cand (view w)).
  rewrite E. split_and!; [done|done|by apply Hi].
Qed.

Lemma incAcks_shows w : shows (updSweep incPhase3Acks) more w.
Proof. reflexivity. Qed.

Lemma react_pong s : role s = true ->
  react PONG_CMD s =
    match ph s with
    | PHASE1 => to_phase2 s
    | PHASE2 => to_phase3 s
    | PHASE3 => if acks (more s) >=? PHASE3_ACKS_NEEDED then announce (more s) else on_air PING_CMD (more s)
    | NONE => s
    end.
Proof. unfold react. by intros ->. Qed.

Lemma react_ping s : role s = false ->
  react PING_CMD s =
    match ph s with
    | PHASE1 => to_phase2 (on_air PONG_CMD s)
    | PHASE2 => on_air PONG_CMD (to_phase3 s)
    | PHASE3 => if acks (more s) >=? PHASE3_ACKS_NEEDED then announce (more s) else on_air PONG_CMD (more s)
    | NONE => s
    end.
Proof. unfold react. by intros ->. Qed.

Lemma view_timer ms w : view (mkWorld (lk w) (startTimer ms (hal w))) = view w.
Proof. unfold view. cbn. by rewrite air_timer. Qed.

Lemma masterPong_shows w :
  sweeping (view w) -> role (view w) = true -> shows masterPong (react PONG_CMD) w.
Proof.
  intros Hs Hm. unfold shows, masterPong. apply wpd_bind.
  apply then_unseen; [intros v; apply unseen_upd; reflexivity|]. intros _ w1 E1.
  rewrite <- E1 in *. clear E1 w. rewrite (react_pong _ Hm). ws.
  change (phase_ (sweep_ (swp (lk w1)))) with (ph (view w1)).
  change (phase3Acks_ (sweep_ (swp (lk w1))) + 1) with (acks (more (view w1))).
  destruct (ph (view w1)) eqn:Hp; unfold applyMasterSwpAction; cbn [decideMasterPhase1Ack decideMasterPhase2Ack];
    ws; [done| | |].
  - eapply then_shows; [apply enterPhase2_shows|]. intros _ w2 E. by ws.
  - eapply then_shows; [apply enterPhase3_shows|]. intros _ w2 E. by ws.
  - eapply then_shows; [apply incAcks_shows|]. intros _ w2 E2. unfold decideMasterPhase3Ack.
    rewrite <- E2. destruct (acks (view w2) >=? PHASE3_ACKS_NEEDED); ws.
    + by apply lock_shows; apply (more_lock w2 (view w1)).
    + eapply then_shows; [apply sendSweepFrame_shows|]. intros _ w3 <-. ws.
      apply view_timer.
Qed.

Lemma slavePing_shows w :
  sweeping (view w) -> role (view w) = false -> shows slavePing (react PING_CMD) w.
Proof.
  intros Hs Hm. unfold shows, slavePing. apply wpd_bind, wpd_link, wpd_bind.
  apply then_unseen; [intros v; apply unseen_upd; reflexivity|]. intros _ w1 E1.
  change (phase_ (sweep_ (swp (lk w)))) with (ph (view w)).
  change (phase3Acks_ (sweep_ (swp (lk w))) + 1) with (acks (more (view w))).
  rewrite <- E1 in *. clear E1 w. rewrite (react_ping _ Hm).
  destruct (ph (view w1)) eqn:Hp; unfold applyPongSwpAction, sendPongAck;
    cbn [decidePongPhase1Ping decidePongPhase2Ping]; ws; [done| | |].
  - eapply then_shows; [apply sendSweepFrame_shows|]. intros _ w2 <-. ws.
    eapply then_shows; [apply enterPhase2_shows|]. intros _ w3 <-. ws.
    apply view_timer.
  - eapply then_shows; [apply enterPhase3_shows|]. intros _ w2 <-. ws.
    eapply then_shows; [apply sendSweepFrame_shows|]. intros _ w3 E. by ws.
  - eapply then_shows; [apply incAcks_shows|]. intros _ w2 E2. unfold decidePongPhase3Ping.
    rewrite <- E2. destruct (acks (view w2) >=? PHASE3_ACKS_NEEDED); ws.
    + by apply lock_shows; apply (more_lock w2 (view w1)).
    + eapply then_shows; [apply sendSweepFrame_shows|]. intros _ w3 E. by ws.
Qed.

Lemma clampBauds_run (w : World H) : cfg_ok (cfg (lk w)) -> clampBauds w = Some (allowedBaudsCount (cfg (lk w)), w).
Proof.
  intros Hc. unfold clampBauds, link, upd, bind, gets, modify, ret. rewrite (clamp_id _ Hc).
  destruct w as [[] h]. reflexivity.
Qed.

Lemma latch_epoch_unseen e : unseen (latch_epoch e).
Proof. unfold latch_epoch. un. Qed.

Lemma handleSwp_shows e p w :
  sweeping (view w) -> p <> REQ_CMD -> shows (handleSwp e p) (react p) w.
Proof.
  intros Hs Hp. unfold shows, handleSwp. ws.
  eapply then_unseen; [apply latch_epoch_unseen|]. intros _ w1 E1. rewrite <- E1 in *. clear E1 w.
  pose proof (sw_conf _ Hs) as Hc. ws. unfold wpd at 1. rewrite clampBauds_run by exact Hc. ws.
  change (allowedBaudsCount (cfg (lk w1))) with (allowedBaudsCount (conf (view w1))).
  destruct (isLockPayload p _) as [i|] eqn:Hl.
  - unfold react. rewrite Hl. apply isLockPayload_spec in Hl as [_ Hi]. ws.
    eapply then_shows; [apply tune_shows|]. intros _ w2 E2. ws.
    eapply then_shows; [by apply (updSweep_shows sweep_reset settle)|]. intros _ w3 E3. ws.
    rewrite E2 in E3.
    eapply then_shows; [apply lockOk_shows; rewrite E3; try done; apply Hs|]. intros _ w4 E4. ws.
    rewrite E4, E3. reflexivity.
  - change (isMaster (lk w1)) with (role (view w1)).
    replace (p =? REQ_CMD) with false by lia. rewrite andb_false_r.
    destruct (role (view w1)) eqn:Hr; cbn [andb negb].
    + destruct (Z.eqb_spec p PONG_CMD) as [->|]; [by apply masterPong_shows|].
      unfold react. rewrite Hl, Hr. by replace (p =? PONG_CMD) with false by lia.
    + destruct (Z.eqb_spec p PING_CMD) as [->|]; [by apply slavePing_shows|].
      unfold react. rewrite Hl, Hr. by replace (p =? PING_CMD) with false by lia.
Qed.

(** No handler of the sweep asks for a BREAK. *)
Lemma handleSwp_false e p (w : World H) : wpd True (handleSwp e p) (fun r _ => r = false) w.
Proof.
  unfold handleSwp, masterPong, slavePing, applyMasterSwpAction, applyPongSwpAction.
  repeat first [ apply wpd_ret; reflexivity | apply wpd_bind, wpd_any; intros ? ? | progress cbv zeta
    | match goal with |- wpd _ (match ?x with _ => _ end) _ _ => destruct x end ].
Qed.

(** ** A control frame, byte by byte *)

(** Byte [b] at position [k] of the frame. *)
Definition byte_in (k b : Z) (w : World H) : World H :=
  mkWorld (rset rxg (rset rxIdx (fun _ => k + 1)) (rset rxg (rset ctrlBuf (fun l => wr l k b)) (lk w)))
    (hal w).

Lemma rx_byte n data i (w : World H) :
  state (lk w) = SWP -> i < lenZ data -> 0 <= rxIdx (rxg (lk w)) < 4 ->
  (rxIdx (rxg (lk w)) = 0 -> rd 0 data i = 0xAA) -> (rxIdx (rxg (lk w)) = 1 -> rd 0 data i = 0x55) ->
  rx_loop (S n) data i false w =
    rx_loop n data (i + 1) false (byte_in (rxIdx (rxg (lk w))) (rd 0 data i) w).
Proof.
  intros Hst Hi Hk H0' H1'. cbn [rx_loop]. replace (i >=? lenZ data) with false by lia.
  unfold bind at 1, link at 1, gets at 1. rewrite Hst. destruct (decide (SWP = OK)); [done|].
  unfold rx_swp_byte. rewrite bind_assoc. unfold link at 1. rewrite bind_gets. cbv zeta.
  set (k := rxIdx (rxg (lk w))) in *.
  replace ((k =? 0) && negb (rd 0 data i =? 0xAA)) with false by lia.
  replace ((k =? 1) && negb (rd 0 data i =? 0x55)) with false by lia.
  unfold upd. run_m. unfold CTRL_FRAME_SIZE. replace (k + 1 =? 5) with false by lia. run_m. reflexivity.
Qed.

Definition framed (b : list Z) (w : World H) : World H :=
  mkWorld (rset rxg (rset ctrlBuf (fun _ => b)) (rset rxg (rset rxIdx (fun _ => 0)) (lk w))) (hal w).

Lemma rx_last data i (w : World H) :
  state (lk w) = SWP -> lenZ data = i + 1 -> rxIdx (rxg (lk w)) = 4 ->
  rx_loop 1 data i false w =
    (r <- processCtrlFrame SWP;; ret r)
      (framed (wr (ctrlBuf (rxg (lk w))) 4 (rd 0 data i)) w).
Proof.
  intros Hst Hi Hk. cbn [rx_loop]. replace (i >=? lenZ data) with false by lia.
  replace (i + 1 <? lenZ data) with false by lia.
  unfold bind at 1, link at 1, gets at 1. rewrite Hst. destruct (decide (SWP = OK)); [done|].
  unfold rx_swp_byte. rewrite bind_assoc. unfold link at 1. rewrite bind_gets. cbv zeta. rewrite Hk.
  replace (4 =? 0) with false by lia. replace (4 =? 1) with false by lia. cbn [andb].
  unfold upd. run_m. replace (4 + 1 =? CTRL_FRAME_SIZE) with true by reflexivity. run_m.
  match goal with |- bind _ _ ?a = bind _ _ ?b => replace a with b by reflexivity end.
  apply bind_eq. by intros [] w' _.
Qed.

Lemma rx_frame e p (w : World H) :
  state (lk w) = SWP -> rested (view w) ->
  rx_loop 5 (ctrl e p) 0 false w = (r <- processCtrlFrame SWP;; ret r) (framed (ctrl e p) w).
Proof.
  intros Hst [Hk Hl]. change (rxIdx (rxg (lk w)) = 0) in Hk.
  change (length (ctrlBuf (rxg (lk w))) = 5%nat) in Hl.
  assert (Hn : lenZ (ctrl e p) = 5) by reflexivity.
  do 4 (rewrite rx_byte;
    [ |exact Hst|rewrite Hn; lia|unfold byte_in; cbn; rewrite ?Hk; lia
    |first [intros _; reflexivity | unfold byte_in; cbn; rewrite ?Hk; lia]
    |first [intros _; reflexivity | unfold byte_in; cbn; rewrite ?Hk; lia] ]).
  rewrite rx_last; [|exact Hst|by rewrite Hn|unfold byte_in; cbn; rewrite Hk; lia].
  f_equal. destruct w as [l h]. unfold byte_in, framed. cbn in *. rewrite Hk.
  destruct (ctrlBuf (rxg l)) as [|b0 [|b1 [|b2 [|b3 [|b4 [|]]]]]]; try discriminate Hl. reflexivity.
Qed.

Lemma ctrl_ok e p : ctrl_crc_ok (ctrl e p) = true.
Proof. unfold ctrl_crc_ok, ctrl, sealed. apply Z.eqb_refl. Qed.

Lemma view_framed b w : rested (view w) -> length b = 5%nat -> view (framed b w) = view w.
Proof.
  intros [Hk Hl] Hb. change (rxIdx (rxg (lk w)) = 0) in Hk.
  change (length (ctrlBuf (rxg (lk w))) = 5%nat) in Hl.
  unfold view, framed. cbn. by rewrite Hk, Hl, Hb.
Qed.

Lemma process_shows e p w :
  sweeping (view w) -> p <> REQ_CMD -> ctrlBuf (rxg (lk w)) = ctrl e p ->
  wpd False (processCtrlFrame SWP) (fun r w' => r = false /\ view w' = react p (view w)) w.
Proof.
  intros Hs Hp Hb. unfold processCtrlFrame. ws. rewrite Hb, ctrl_ok. cbn [negb]. ws.
  set (w1 := mkWorld _ _).
  assert (E1 : view w1 = view w) by (unfold view; cbn; by rewrite air_now).
  rewrite <- E1 in *. clearbody w1.
  change (rd 0 (ctrl e p) 2) with e. change (rd 0 (ctrl e p) 3) with p.
  pose proof (handleSwp_shows e p w1 Hs Hp) as Hh. pose proof (handleSwp_false e p w1) as Hf.
  eapply wpd_mono; [exact (wpd_and _ _ _ _ _ Hh Hf)|]. by intros a w' [? ?].
Qed.

(** A control frame received by a sweeping end: the C++ does what [react] says. *)
Theorem onRx_react e p w :
  sweeping (view w) -> rested (view w) -> p <> REQ_CMD ->
  shows (onRx (ctrl e p)) (react p) w.
Proof.
  intros Hs Hr Hp. unfold shows, onRx. ws.
  set (w1 := mkWorld _ _).
  assert (E1 : view w1 = view w) by (unfold view; cbn; by rewrite air_now).
  rewrite <- E1 in *. clearbody w1. replace (length (ctrl e p)) with 5%nat by reflexivity.
  pose proof (view_framed (ctrl e p) w1 Hr eq_refl) as Ef.
  unfold wpd at 1. rewrite rx_frame; [|apply Hs|exact Hr]. rewrite <- Ef in *.
  change (wpd False (r <- processCtrlFrame SWP;; ret r)
    (fun r => wpd False (when r (hwdo sendBreak)) (fun _ w' => view w' = react p (view (framed (ctrl e p) w1))))
    (framed (ctrl e p) w1)).
  ws. eapply wpd_mono; [by apply (process_shows e)|]. intros a w' [-> E]. ws. exact E.
Qed.

End Refine.
(** ** Where two sweeping ends meet *)

(** The frame [s] would send now. *)
Definition tell (s : Side) (p : Z) : Frame := (fst (radio s), ctrl (epoch s) p).

(** Sweeping at index [i], between two frames, in phase 2 with no candidate or
    in phase 3 with [i] as the candidate and one PONG or PING counted at most. *)
Record waits (i : Z) (s : Side) : Prop := mkWaits {
  wt_sweeping : sweeping s;
  wt_rested : rested s;
  wt_at : at_ s = i;
  wt_baud : fst (radio s) = allowedBaudSafe (conf s) i;
}.
Definition in_phase (i : Z) (s : Side) : Prop :=
  ph s = PHASE2 \/ (ph s = PHASE3 /\ cand s = i /\ (acks s = 0 \/ acks s = 1)).

Definition same_bauds (c d : AutoLinkConfig) : Prop :=
  allowedBaudsCount c = allowedBaudsCount d /\ forall j, allowedBaudSafe c j = allowedBaudSafe d j.

(** In a session at the baud of index [j]. *)
Definition in_session (j : Z) (s : Side) : Prop :=
  st s = OK /\ ph s = NONE /\ at_ s = j /\ fst (radio s) = allowedBaudSafe (conf s) j.
(** What a side has sent since. *)
Definition said (s s' : Side) : list Frame := drop (length (snd (radio s))) (snd (radio s')).

Lemma said_one s s' x : snd (radio s') = snd (radio s) ++ [x] -> said s s' = [x].
Proof. intros E. unfold said. rewrite E. apply drop_app_length. Qed.

(** The last frame before the lock; one before it: into phase 3, or counted there. *)
Definition last (s : Side) : Prop := ph s = PHASE3 /\ acks s = 1.
#[export] Instance last_dec s : Decision (last s).
Proof. unfold last. apply _. Defined.
Definition advance (s : Side) : Side :=
  match ph s with
  | PHASE2 => tuned (at_ s) (s <| ph := PHASE3 |> <| cand := at_ s |> <| acks := 0 |>)
  | _ => more s
  end.

Lemma advance_ping i s :
  role s = false -> in_phase i s -> ~ last s -> react PING_CMD s = on_air PONG_CMD (advance s).
Proof.
  intros Hr Hp Hl. rewrite (react_ping _ Hr). unfold advance.
  destruct Hp as [->|(Ep & _ & [Ha|Ha])]; [unfold to_phase3; cbn; by rewrite Hr| |].
  - rewrite Ep. unfold more at 1. cbn. by rewrite Ha.
  - by destruct Hl.
Qed.

Lemma advance_pong i s :
  role s = true -> in_phase i s -> ~ last s -> react PONG_CMD s = on_air PING_CMD (advance s).
Proof.
  intros Hr Hp Hl. rewrite (react_pong _ Hr). unfold advance.
  destruct Hp as [->|(Ep & _ & [Ha|Ha])]; [unfold to_phase3; cbn; by rewrite Hr| |].
  - rewrite Ep. unfold more at 1. cbn. by rewrite Ha.
  - by destruct Hl.
Qed.

Lemma lock_last s : last s -> (role s = false -> react PING_CMD s = announce (more s)) /\
  (role s = true -> react PONG_CMD s = announce (more s)).
Proof.
  intros [Hp Ha]. split; intros Hr; [rewrite (react_ping _ Hr)|rewrite (react_pong _ Hr)];
    rewrite Hp; unfold more at 1; cbn; by rewrite Ha.
Qed.

(** What advancing and answering leaves. *)
Record advanced (i : Z) (q : Z) (s s' : Side) : Prop := mkAdvanced {
  ad_waits : waits i s';
  ad_role : role s' = role s;
  ad_conf : conf s' = conf s;
  ad_phase : in_phase i s';
  ad_three : ph s' = PHASE3;
  ad_acks : acks s' = if decide (ph s = PHASE2) then 0 else 1;
  ad_said : said s s' = [tell s' q];
}.

Lemma on_air_advance q i s :
  waits i s -> in_phase i s -> ~ last s -> advanced i q s (on_air q (advance s)).
Proof.
  intros [[Hst Hc Hi Hk] Hr Hat Hb] Hp Hl. unfold advance.
  destruct Hp as [Ep|(Ep & Hd & [Ha|Ha])]; [| |by destruct Hl]; rewrite Ep; destruct s; cbn in *; subst;
    (split; [split; [split|..]|..]); try done; cbn; try (by apply said_one); right; cbn; auto.
Qed.

(** The lock of the end that announces it, and of the one that hears it. *)
Lemma announce_locks i s :
  waits i s -> in_phase i s -> last s ->
  in_session i (announce (more s)) /\
  said s (announce (more s)) = [(allowedBaudSafe (conf s) i, ctrl (epoch s) (LOCK_CMD + i))].
Proof.
  intros _ Hp [Ep _]. destruct Hp as [Ep'|(_ & Hd & _)]; [congruence|]. unfold announce.
  replace (cand (more s)) with i by by destruct s. split; [done|]. by apply said_one.
Qed.

Lemma lock_heard i s :
  is_idx (allowedBaudsCount (conf s)) i ->
  in_session i (react (LOCK_CMD + i) s) /\ said s (react (LOCK_CMD + i) s) = [].
Proof.
  intros Hi. unfold react. replace (isLockPayload _ _) with (Some i).
  - split; [done|]. apply drop_all.
  - symmetry. by apply isLockPayload_spec.
Qed.

(** ** Two ends and the air between them *)

Section Pair.
Context {A B : Type} `{Radio A} `{Radio B}.

(** The master, the slave, and the frames under way to each. *)
Record Pair := mkPair { ma : World A; sl : World B; down : list Frame; up : list Frame }.

(** A frame reaches an end that is tuned to its baud. *)
Definition hear {T} `{Radio T} (x : Frame) (w : World T) : option (World T) :=
  if fst x =? fst (air (hal w)) then
    match onRx (snd x) w with Some (_, w') => Some w' | None => None end
  else Some w.

(** What an end has sent since. *)
Definition sends {T} `{Radio T} (w w' : World T) : list Frame :=
  drop (length (snd (air (hal w)))) (snd (air (hal w'))).

Definition round (P : Pair) : option Pair :=
  match down P, up P with
  | x :: d, u =>
      match hear x (sl P) with
      | Some w => Some (mkPair (ma P) w d (u ++ sends (sl P) w))
      | None => None
      end
  | [], x :: u =>
      match hear x (ma P) with
      | Some w => Some (mkPair w (sl P) (sends (ma P) w) u)
      | None => None
      end
  | [], [] => Some P
  end.

Fixpoint rounds (k : nat) (P : Pair) : option Pair :=
  match k with
  | O => Some P
  | S k => match round P with Some P' => rounds k P' | None => None end
  end.

Record pair_at (i : Z) (P : Pair) (m s : Side) : Prop := mkPairAt {
  pa_m : view (ma P) = m;
  pa_s : view (sl P) = s;
  pa_roles : role m = true /\ role s = false;
  pa_bauds : same_bauds (conf m) (conf s);
  pa_waits : waits i m /\ waits i s;
}.

(** A PING on its way down, a PONG on its way up. *)
Definition pinged (i : Z) (P : Pair) (m s : Side) : Prop :=
  pair_at i P m s /\ down P = [tell m PING_CMD] /\ up P = [].
Definition ponged (i : Z) (P : Pair) (m s : Side) : Prop :=
  pair_at i P m s /\ down P = [] /\ up P = [tell s PONG_CMD].

Definition session (j : Z) (P : Pair) : Prop :=
  in_session j (view (ma P)) /\ in_session j (view (sl P)) /\ down P = [] /\ up P = [].

Lemma rounds_add a b P P' : rounds a P = Some P' -> rounds (a + b) P = rounds b P'.
Proof.
  revert P. induction a as [|a IH]; intros P; cbn [rounds Nat.add]; [by intros [= ->]|].
  destruct (round P); [apply IH|done].
Qed.

Lemma session_stays j P k : session j P -> rounds k P = Some P.
Proof.
  intros (_ & _ & Hd & Hu). induction k as [|k IH]; [done|]. cbn [rounds]. unfold round.
  by rewrite Hd, Hu.
Qed.

Lemma hear_react {T} `{Radio T} x e p (w : World T) :
  sweeping (view w) -> rested (view w) -> (p =? REQ_CMD) = false ->
  x = (fst (radio (view w)), ctrl e p) ->
  exists w', hear x w = Some w' /\ view w' = react p (view w).
Proof.
  intros Hs Hr Hp ->. unfold hear. cbn [fst snd]. change (fst (air (hal w))) with (fst (radio (view w))).
  rewrite Z.eqb_refl. destruct (wp_run _ _ _ (onRx_react e p w Hs Hr (proj1 (Z.eqb_neq _ _) Hp))) as ([] & w' & -> & E).
  by exists w'.
Qed.

(** One frame, down or up. *)
Lemma hop_down P e p s :
  view (sl P) = s -> sweeping s -> rested s -> (p =? REQ_CMD) = false ->
  down P = [(fst (radio s), ctrl e p)] -> up P = [] ->
  exists P', round P = Some P' /\ view (ma P') = view (ma P) /\ view (sl P') = react p s /\
             down P' = [] /\ up P' = said s (react p s).
Proof.
  intros <- Hs Hr Hp Hd Hu. destruct (hear_react _ e p (sl P) Hs Hr Hp eq_refl) as (w & Hw & E).
  exists (mkPair (ma P) w [] (sends (sl P) w)). unfold round. rewrite Hd, Hu, Hw. cbn.
  split_and!; [done|done|exact E|done|]. unfold said. by rewrite <- E.
Qed.

Lemma hop_up P e p m :
  view (ma P) = m -> sweeping m -> rested m -> (p =? REQ_CMD) = false ->
  up P = [(fst (radio m), ctrl e p)] -> down P = [] ->
  exists P', round P = Some P' /\ view (ma P') = react p m /\ view (sl P') = view (sl P) /\
             down P' = said m (react p m) /\ up P' = [].
Proof.
  intros <- Hs Hr Hp Hu Hd. destruct (hear_react _ e p (ma P) Hs Hr Hp eq_refl) as (w & Hw & E).
  exists (mkPair w (sl P) (sends (ma P) w) []). unfold round. rewrite Hd, Hu, Hw. cbn.
  split_and!; [done|exact E|done| |done]. unfold said. by rewrite <- E.
Qed.

(** *** The hops of the handshake *)

Lemma lock_not_req i c : cfg_ok c -> is_idx (allowedBaudsCount c) i -> (LOCK_CMD + i =? REQ_CMD) = false.
Proof. unfold LOCK_CMD, REQ_CMD, is_idx. lia. Qed.

Lemma slave_hop i P m s :
  pinged i P m s -> in_phase i s -> ~ last s ->
  exists P' s', round P = Some P' /\ ponged i P' m s' /\ advanced i PONG_CMD s s'.
Proof.
  intros [[Hm Hv [Rm Rs] Hb [Wm Ws]] [Hd Hu]] Hp Hl.
  assert (E : fst (radio m) = fst (radio s)).
  { rewrite (wt_baud _ _ Wm), (wt_baud _ _ Ws). apply Hb. }
  unfold tell in Hd. rewrite E in Hd.
  destruct (hop_down P (epoch m) PING_CMD s Hv (wt_sweeping _ _ Ws) (wt_rested _ _ Ws) eq_refl Hd Hu)
    as (P' & Hr & E1 & E2 & E3 & E4).
  rewrite (advance_ping i s Rs Hp Hl) in *. pose proof (on_air_advance PONG_CMD i s Ws Hp Hl) as Ha.
  exists P', (on_air PONG_CMD (advance s)). split; [done|]. split; [|done]. split; [|split; [done|]].
  - split; [by rewrite E1|done|by rewrite (ad_role _ _ _ _ Ha)|by rewrite (ad_conf _ _ _ _ Ha)|].
    split; [done|apply Ha].
  - by rewrite E4, (ad_said _ _ _ _ Ha).
Qed.

Lemma master_hop i P m s :
  ponged i P m s -> in_phase i m -> ~ last m ->
  exists P' m', round P = Some P' /\ pinged i P' m' s /\ advanced i PING_CMD m m'.
Proof.
  intros [[Hm Hv [Rm Rs] Hb [Wm Ws]] [Hd Hu]] Hp Hl.
  assert (E : fst (radio s) = fst (radio m)).
  { rewrite (wt_baud _ _ Wm), (wt_baud _ _ Ws). symmetry. apply Hb. }
  unfold tell in Hu. rewrite E in Hu.
  destruct (hop_up P (epoch s) PONG_CMD m Hm (wt_sweeping _ _ Wm) (wt_rested _ _ Wm) eq_refl Hu Hd)
    as (P' & Hr & E1 & E2 & E3 & E4).
  rewrite (advance_pong i m Rm Hp Hl) in *. pose proof (on_air_advance PING_CMD i m Wm Hp Hl) as Ha.
  exists P', (on_air PING_CMD (advance m)). split; [done|]. split; [|done]. split; [|split; [|done]].
  - split; [done|by rewrite E2|by rewrite (ad_role _ _ _ _ Ha)|by rewrite (ad_conf _ _ _ _ Ha)|].
    split; [apply Ha|done].
  - by rewrite E3, (ad_said _ _ _ _ Ha).
Qed.

Lemma slave_lock i P m s :
  pinged i P m s -> in_phase i s -> last s -> exists P', rounds 2 P = Some P' /\ session i P'.
Proof.
  intros [[Hm Hv [Rm Rs] Hb [Wm Ws]] [Hd Hu]] Hp Hl.
  assert (E : fst (radio m) = fst (radio s)).
  { rewrite (wt_baud _ _ Wm), (wt_baud _ _ Ws). apply Hb. }
  unfold tell in Hd. rewrite E in Hd.
  destruct (hop_down P (epoch m) PING_CMD s Hv (wt_sweeping _ _ Ws) (wt_rested _ _ Ws) eq_refl Hd Hu)
    as (P1 & Hr & E1 & E2 & E3 & E4).
  rewrite (proj1 (lock_last s Hl) Rs) in *. destruct (announce_locks i s Ws Hp Hl) as [Hs Hsaid].
  rewrite Hsaid in E4. rewrite <- (wt_baud _ _ Ws), <- E in E4.
  pose proof (sw_at _ (wt_sweeping _ _ Wm)) as Hi. rewrite (wt_at _ _ Wm) in Hi.
  destruct (hop_up P1 (epoch s) (LOCK_CMD + i) m) as (P2 & Hr2 & F1 & F2 & F3 & F4);
    [by rewrite E1|apply Wm|apply Wm|eapply lock_not_req; [apply (wt_sweeping _ _ Wm)|done]|done|done|].
  destruct (lock_heard i m Hi) as [Hms Hmsaid].
  exists P2. cbn [rounds]. rewrite Hr, Hr2. split; [done|].
  split; [by rewrite F1|split; [by rewrite F2, E2|split; [by rewrite F3|done]]].
Qed.

Lemma master_lock i P m s :
  ponged i P m s -> in_phase i m -> last m -> exists P', rounds 2 P = Some P' /\ session i P'.
Proof.
  intros [[Hm Hv [Rm Rs] Hb [Wm Ws]] [Hd Hu]] Hp Hl.
  assert (E : fst (radio s) = fst (radio m)).
  { rewrite (wt_baud _ _ Wm), (wt_baud _ _ Ws). symmetry. apply Hb. }
  unfold tell in Hu. rewrite E in Hu.
  destruct (hop_up P (epoch s) PONG_CMD m Hm (wt_sweeping _ _ Wm) (wt_rested _ _ Wm) eq_refl Hu Hd)
    as (P1 & Hr & E1 & E2 & E3 & E4).
  rewrite (proj2 (lock_last m Hl) Rm) in *. destruct (announce_locks i m Wm Hp Hl) as [Hs Hsaid].
  rewrite Hsaid in E3. rewrite <- (wt_baud _ _ Wm), <- E in E3.
  pose proof (sw_at _ (wt_sweeping _ _ Ws)) as Hi. rewrite (wt_at _ _ Ws) in Hi.
  destruct (hop_down P1 (epoch m) (LOCK_CMD + i) s) as (P2 & Hr2 & F1 & F2 & F3 & F4);
    [by rewrite E2|apply Ws|apply Ws|eapply lock_not_req; [apply (wt_sweeping _ _ Ws)|done]|done|done|].
  destruct (lock_heard i s Hi) as [Hss Hssaid].
  exists P2. cbn [rounds]. rewrite Hr, Hr2. split; [done|].
  split; [by rewrite F1, E1|split; [by rewrite F2|split; [done|by rewrite F4]]].
Qed.

(** *** The rendezvous in phase 1 *)

Lemma phase1_ping i s :
  waits i s -> role s = false -> ph s = PHASE1 ->
  let s' := react PING_CMD s in
  waits 0 s' /\ role s' = false /\ conf s' = conf s /\ ph s' = PHASE2 /\ said s s' = [tell s PONG_CMD].
Proof.
  intros [[Hst Hc Hi Hk] Hr Hat Hb] Rs Hp. cbv zeta. rewrite (react_ping _ Rs), Hp.
  pose proof (cfg_count _ Hc) as Hn. unfold to_phase2. destruct s; cbn in *; subst. cbn.
  split_and!; try done; [|by apply said_one].
  split; [split|..]; try done; cbn; unfold is_idx; lia.
Qed.

Lemma phase1_pong i s :
  waits i s -> role s = true -> ph s = PHASE1 ->
  let s' := react PONG_CMD s in
  waits 0 s' /\ role s' = true /\ conf s' = conf s /\ ph s' = PHASE2 /\ said s s' = [tell s' PING_CMD].
Proof.
  intros [[Hst Hc Hi Hk] Hr Hat Hb] Rs Hp. cbv zeta. rewrite (react_pong _ Rs), Hp.
  pose proof (cfg_count _ Hc) as Hn. unfold to_phase2. destruct s; cbn in *; subst. cbn.
  split_and!; try done; [|by apply said_one].
  split; [split|..]; try done; cbn; unfold is_idx; lia.
Qed.

(** From a PING in phase 1 to a PING in phase 2, at the fastest baud. *)
Lemma phase1_meets i P m s :
  pinged i P m s -> ph m = PHASE1 -> ph s = PHASE1 ->
  exists P' m' s', rounds 2 P = Some P' /\ pinged 0 P' m' s' /\ ph m' = PHASE2 /\ ph s' = PHASE2.
Proof.
  intros [[Hm Hv [Rm Rs] Hb [Wm Ws]] [Hd Hu]] Pm Ps.
  assert (E : fst (radio m) = fst (radio s)).
  { rewrite (wt_baud _ _ Wm), (wt_baud _ _ Ws). apply Hb. }
  unfold tell in Hd. rewrite E in Hd.
  destruct (hop_down P (epoch m) PING_CMD s Hv (wt_sweeping _ _ Ws) (wt_rested _ _ Ws) eq_refl Hd Hu)
    as (P1 & Hr & E1 & E2 & E3 & E4).
  destruct (phase1_ping i s Ws Rs Ps) as (Ws' & Rs' & Cs & Ps' & Ss). rewrite Ss in E4.
  unfold tell in E4. rewrite <- E in E4.
  destruct (hop_up P1 (epoch s) PONG_CMD m) as (P2 & Hr2 & F1 & F2 & F3 & F4);
    [by rewrite E1|apply Wm|apply Wm|done|done|done|].
  destruct (phase1_pong i m Wm Rm Pm) as (Wm' & Rm' & Cm & Pm' & Sm). rewrite Sm in F3.
  exists P2, (react PONG_CMD m), (react PING_CMD s). cbn [rounds]. rewrite Hr, Hr2.
  split; [done|]. split; [|done]. split; [|done].
  split; [done|by rewrite F2|done|by rewrite Cm, Cs|done].
Qed.

(** *** The lock *)

(** How many exchanges a side is from its last frame. *)
Definition rank (s : Side) : nat :=
  match ph s with PHASE2 => 2 | _ => if acks s =? 1 then 0 else 1 end.

Lemma advanced_rank i q s s' :
  in_phase i s -> ~ last s -> advanced i q s s' -> (rank s' < rank s)%nat.
Proof.
  intros Hp Hl Ha. unfold rank. rewrite (ad_three _ _ _ _ Ha), (ad_acks _ _ _ _ Ha).
  destruct Hp as [->|(Ep & _ & [Hk|Hk])]; [|rewrite Ep, Hk|by destruct Hl].
  - rewrite decide_True by done. cbn. lia.
  - rewrite decide_False by done. cbn. lia.
Qed.

Lemma exchange_locks i k : forall P m s,
  in_phase i m -> in_phase i s -> (rank m + rank s <= k)%nat -> pinged i P m s \/ ponged i P m s ->
  exists P', rounds (k + 2) P = Some P' /\ session i P'.
Proof.
  assert (Hpad : forall k P P', rounds 2 P = Some P' -> session i P' -> rounds (k + 2) P = Some P').
  { intros j P P' Hr Hs. rewrite Nat.add_comm, (rounds_add _ _ _ _ Hr). by eapply session_stays. }
  induction k as [|k IH]; intros P m s Im Is Hk Hw.
  - assert (Hz : forall x, in_phase i x -> rank x = 0%nat -> last x).
    { intros x [E|(E & _ & [A'|A'])]; unfold rank, last; rewrite E; [done| |done]. by rewrite A'. }
    destruct Hw as [Hw|Hw]; [apply (slave_lock i P m s)|apply (master_lock i P m s)]; try done;
      (apply Hz; [done|lia]).
  - destruct Hw as [Hw|Hw].
    + destruct (decide (last s)) as [Hl|Hl].
      * destruct (slave_lock i P m s Hw Is Hl) as (P' & Hr & Hs). exists P'. eauto.
      * destruct (slave_hop i P m s Hw Is Hl) as (P1 & s1 & Hr & Hw1 & Ha).
        pose proof (advanced_rank _ _ _ _ Is Hl Ha). cbn [rounds Nat.add]. rewrite Hr.
        apply (IH P1 m s1); [done|apply Ha|lia|by right].
    + destruct (decide (last m)) as [Hl|Hl].
      * destruct (master_lock i P m s Hw Im Hl) as (P' & Hr & Hs). exists P'. eauto.
      * destruct (master_hop i P m s Hw Im Hl) as (P1 & m1 & Hr & Hw1 & Ha).
        pose proof (advanced_rank _ _ _ _ Im Hl Ha). cbn [rounds Nat.add]. rewrite Hr.
        apply (IH P1 m1 s); [apply Ha|done|lia|by left].
Qed.

Lemma rank_bound s : (rank s <= 2)%nat.
Proof. unfold rank. destruct (ph s), (acks s =? 1); lia. Qed.

Lemma phase1_locks i P m s :
  pinged i P m s -> ph m = PHASE1 -> ph s = PHASE1 ->
  exists P', rounds 8 P = Some P' /\ session 0 P'.
Proof.
  intros Hw Pm Ps. destruct (phase1_meets i P m s Hw Pm Ps) as (P1 & m1 & s1 & Hr & Hw1 & Pm1 & Ps1).
  change 8%nat with (2 + (4 + 2))%nat. rewrite (rounds_add _ _ _ _ Hr).
  pose proof (rank_bound m1). pose proof (rank_bound s1).
  apply (exchange_locks 0 4 P1 m1 s1); [by left|by left|lia|by left].
Qed.

(** C5: Two ends that meet lock. A master and a slave over the same baud table
    are tuned to the same baud, with a PING of the master under way: both in
    phase 1 (the rendezvous at the slowest baud), or each in phase 2 or phase 3
    with that baud as its candidate, whatever the number of frames either has
    counted. Then within eight frames, each put on the air by the code in answer
    to the one before it, both are in a session at the same baud, with nothing
    left under way: the fastest baud when they met in phase 1, the baud they
    met at otherwise. *)
Theorem handshake_locks i P m s :
  pinged i P m s -> (ph m = PHASE1 /\ ph s = PHASE1) \/ (in_phase i m /\ in_phase i s) ->
  exists P', rounds 8 P = Some P' /\ session (if decide (ph m = PHASE1) then 0 else i) P'.
Proof.
  intros Hw [[Pm Ps]|[Im Is]].
  - rewrite decide_True by done. by apply (phase1_locks i P m s).
  - rewrite decide_False by (destruct Im as [->|(-> & _)]; done).
    pose proof (rank_bound m). pose proof (rank_bound s).
    apply (exchange_locks i 6 P m s Im Is); [lia|by left].
Qed.

End Pair.

(** A device and its peer over the mock, in phase 1 at the slowest baud. *)
Definition demo_end (isMasterNode : bool) : World (OnAir MockHal) :=
  let w := mkWorld (link_init (cache_init 32) isMasterNode default_config)
             (mkOnAir (mock_init 4096) (0, [])) in
  match (changeState SWP;; enterPhase1) w with Some (_, w) => w | None => w end.
Definition demo_pair : Pair (A := OnAir MockHal) (B := OnAir MockHal) :=
  mkPair (demo_end true) (demo_end false) (snd (air (hal (demo_end true)))) [].

Lemma demo_waits b : waits 5 (view (demo_end b)).
Proof. by destruct b; (split; [split; [|apply default_config_ok|..]|..]; vm_compute). Qed.

Lemma handshake_locks_witness :
  exists P', rounds 8 demo_pair = Some P' /\ session 0 P'.
Proof.
  apply (handshake_locks 5 demo_pair (view (demo_end true)) (view (demo_end false)));
    [|left; by vm_compute].
  split; [split; try done; split; apply demo_waits|]. by vm_compute.
Defined.

End Handshake.
