(* ===== verification/PowerOn.v ===== *)
(** * Two devices switched on

    A master and a slave constructed over the same configuration and begun, each
    on its own hardware: [begin] leaves them waiting in phase 1 at the slowest
    baud, the master's next timer expiry sends a PING, and the handshake takes
    both into a session at the fastest baud. *)
From S2P Require Import Prelude Monad MsgCodec FrameRx Config Decision BaudSweep ArqCache Arq.
From S2P Require Import Hal LinkState Timing Tx Core Sweep Gbn Rx Timers Api Recv Frames SweepInv.
From S2P Require Import System Handshake.
Import MsgCodec FrameRx Config Decision BaudSweep ArqCache Arq Hal LinkState Timing Tx Core
  Sweep Gbn Rx Timers Api Recv Frames SweepInv System Handshake.

Module PowerOn.

(** ** From [begin] to phase 1 *)

Section Start.
Context {H : Type} `{Radio H} (yield : World H -> World H) (Hy : forall w, lk (yield w) = lk w).

(** A side but for the frames it sent. *)
Definition still (s : Side) : Side := s <| radio ::= fun r => (fst r, []) |>.

Lemma still_hal l h h' :
  fst (air h') = fst (air h) -> still (view (mkWorld l h')) = still (view (mkWorld l h)).
Proof. intros E. unfold still, view, rset. cbn. by rewrite E. Qed.

Definition to_phase1 (s : Side) : Side :=
  let i := allowedBaudsCount (conf s) - 1 in
  let s := tuned i (s <| ph := PHASE1 |> <| at_ := i |>) in
  if role s then on_air PING_CMD s else s.

Lemma count_in_ctx l : cfg_ok (cfg l) -> ctx_allowedBaudsCount l = allowedBaudsCount (cfg l).
Proof.
  intros Hc. pose proof (cfg_count _ Hc). unfold ctx_allowedBaudsCount, AUTOLINK_MAX_BAUDS in *.
  replace (allowedBaudsCount (cfg l) <? 0) with false by lia.
  by replace (allowedBaudsCount (cfg l) >? 16) with false by lia.
Qed.

Lemma enterPhase1_shows w : cfg_ok (conf (view w)) -> shows enterPhase1 to_phase1 w.
Proof.
  intros Hc. unfold shows, enterPhase1, updSweep. ws.
  rewrite !count_in_ctx by exact Hc.
  eapply then_shows; [apply setSpdIdx_shows|]. intros _ w1 E. ws.
  change (view w1 = tuned (allowedBaudsCount (conf (view w)) - 1)
    ((view w) <| ph := PHASE1 |> <| at_ := allowedBaudsCount (conf (view w)) - 1 |>)) in E.
  unfold to_phase1. cbv zeta. rewrite <- E.
  match goal with |- context [if isMaster ?l then _ else _] => change (isMaster l) with (role (view w)) end.
  replace (role (view w)) with (role (view w1)) by by rewrite E. destruct (role (view w1)).
  - ws. eapply then_shows; [apply sendSweepFrame_shows|]. intros _ w2 <-. ws. apply view_timer.
  - ws. apply view_timer.
Qed.

(** *** The reset at the master's kickoff *)

Lemma reset_pref_unseen p r : unseen (H := H) (reset_pref p r).
Proof. unfold reset_pref. un. Qed.

Lemma reset_common_shows w : shows reset_common (fun s => s <| rxpos := 0 |>) w.
Proof.
  unfold shows, reset_common. do 4 (apply wpd_bind, wpd_upd).
  eapply then_unseen; [un|]. intros _ w1 ->. reflexivity.
Qed.

Lemma reset_sweep_shows w : cfg_ok (conf (view w)) -> shows (reset_sweep false) to_phase1 w.
Proof.
  intros Hc. unfold shows, reset_sweep, reset_relock. cbn [andb]. ws.
  eapply then_shows; [by apply enterPhase1_shows|]. intros _ w1 E. by ws.
Qed.

Lemma changeState_same w : st (view w) = SWP -> shows (changeState SWP) (fun s => s) w.
Proof.
  intros Hst. unfold shows, changeState. ws. change (state (lk w)) with (st (view w)). rewrite Hst.
  by destruct (decide (SWP = SWP)).
Qed.

(** The reset of a link that is sweeping already. *)
Lemma reset_shows w :
  cfg_ok (conf (view w)) -> st (view w) = SWP ->
  wpd False (reset false false Kickoff)
    (fun _ w' => still (view w') = still (to_phase1 ((view w) <| at_ := 0 |> <| rxpos := 0 |>))) w.
Proof.
  intros Hc Hst. unfold reset. apply wpd_bind, wpd_link. cbv zeta.
  change (state (lk w)) with (st (view w)). rewrite Hst. cbn [andb bool_decide].
  do 3 (apply wpd_bind; apply then_unseen; [un|]; intros _ ?w E; rewrite <- E in *; clear E).
  apply wpd_bind, wpd_ret, wpd_bind. eapply then_shows; [by apply changeState_same|].
  intros _ wa Ea. rewrite <- Ea in *. clear Ea.
  apply wpd_bind, wpd_upd. set (wb := mkWorld _ _).
  assert (Eb : view wb = (view wa) <| at_ := 0 |>) by reflexivity. clearbody wb.
  apply wpd_bind. apply then_unseen; [apply reset_pref_unseen|]. intros _ wc Ec.
  apply wpd_bind. eapply then_shows; [apply reset_common_shows|]. intros _ wd Ed.
  apply wpd_bind, wpd_ret.
  do 3 (apply wpd_bind; apply then_unseen; [un|]; intros _ ?w E; rewrite <- E in *; clear E).
  rewrite Ec, Eb in Ed. apply wpd_bind. eapply then_shows; [apply reset_sweep_shows; by rewrite Ed|].
  intros _ we Ee. ws. rewrite <- Ed, <- Ee.
  change (still (view (mkWorld (lk we) (discardTx (hal we)))) = still (view (mkWorld (lk we) (hal we)))).
  apply still_hal, baud_discard.
Qed.

(** *** [begin] *)

(** Waiting in phase 1 at the slowest baud. *)
Definition phase1_wait (r : bool) (c : AutoLinkConfig) (s : Side) : Prop :=
  waits (allowedBaudsCount c - 1) s /\ role s = r /\ conf s = c /\ ph s = PHASE1.

Lemma still_wait r c s s' : still s = still s' -> phase1_wait r c s -> phase1_wait r c s'.
Proof.
  destruct s, s'. unfold still, rset. cbn. intros [=]. subst.
  intros ([[Hst Hc Hi Hd] Hr Hat Hb] & Ro & Co & Hp). cbn in *.
  split; [|done]. split; [by split|done|done|]. cbn. congruence.
Qed.

Lemma to_phase1_wait s :
  cfg_ok (conf s) -> st s = SWP -> rested s -> phase1_wait (role s) (conf s) (to_phase1 s).
Proof.
  intros Hc Hst [Hp Hl]. pose proof (cfg_count _ Hc). unfold to_phase1. cbv zeta.
  destruct s as [r ? ? ? ? ? ? ? ? ? ?]; cbn in *; subst.
  destruct r; (split; [split; [split; cbn; [done|done|red; lia|done]|done..]|done]).
Qed.

(** A side but for its epoch and its radio. *)
Definition bare (s : Side) : Side := s <| epoch := 0 |> <| radio := (0, []) |>.

Lemma yield_bare w : bare (view (yield w)) = bare (view w).
Proof. unfold bare, view, rset. cbn. by rewrite Hy. Qed.

Lemma slave_tuned s s' :
  cfg_ok (conf s) -> st s = SWP -> rxlen s = 5%nat -> role s = false ->
  bare s' = bare (s <| at_ := allowedBaudsCount (conf s) - 1 |> <| rxpos := 0 |> <| ph := PHASE1 |>) ->
  phase1_wait false (conf s) (tuned (at_ s') s').
Proof.
  intros Hc Hst Hl Hr. pose proof (cfg_count _ Hc). destruct s, s'. unfold bare, rset. cbn in *.
  intros [=]. subst. split; [|done].
  split; [split; cbn; [done|done|red; lia|done]|done..].
Qed.

Lemma kickoff_slave_wait w :
  cfg_ok (conf (view w)) -> st (view w) = SWP -> rxlen (view w) = 5%nat -> role (view w) = false ->
  wpd False (kickoff_slave yield) (fun _ w' => phase1_wait false (conf (view w)) (view w')) w.
Proof.
  intros Hc Hst Hl Hr. unfold kickoff_slave.
  apply wpd_bind. eapply then_shows; [by apply changeState_same|].
  intros _ wa Ea. rewrite <- Ea in *. clear Ea w.
  apply wpd_bind. unfold wpd at 1. rewrite clampBauds_run by exact Hc.
  do 2 apply wpd_bind, wpd_upd. set (wb := mkWorld _ _).
  assert (Eb : (view wb) <| epoch := 0 |> =
    (view wa) <| at_ := allowedBaudsCount (conf (view wa)) - 1 |> <| epoch := 0 |>) by reflexivity.
  clearbody wb.
  apply wpd_bind. apply then_unseen; [un|]. intros _ wc Ec. rewrite <- Ec in Eb. clear Ec wb.
  apply wpd_bind, wpd_upd. set (wb := mkWorld _ _).
  assert (Ed : (view wb) <| epoch := 0 |> = ((view wc) <| epoch := 0 |>) <| rxpos := 0 |>) by reflexivity.
  rewrite Eb in Ed. clearbody wb. clear Eb wc.
  do 5 (apply wpd_bind; apply then_unseen; [unfold end_msg; un|]; intros _ ?w E; rewrite <- E in Ed; clear E).
  apply wpd_bind. apply then_unseen; [unfold resetSeq; un|]. intros _ wc Ec. rewrite <- Ec in Ed.
  apply wpd_bind. unfold updSweep at 1. apply wpd_upd. set (wd := mkWorld _ _).
  assert (Ee : (view wd) <| epoch := 0 |> = ((view wc) <| epoch := 0 |>) <| ph := PHASE1 |>) by reflexivity.
  rewrite Ed in Ee. clearbody wd.
  apply wpd_bind, wpd_modify. pose proof (yield_bare wd) as Ef.
  apply wpd_bind. apply then_unseen; [un|]. intros _ wf Eg. rewrite <- Eg in Ef.
  apply wpd_bind, wpd_gets. apply wpd_bind. eapply then_shows; [apply setSpdIdx_shows|].
  intros _ wg Eh. ws. rewrite view_timer, Eh.
  apply (slave_tuned (view wa)); try done. rewrite Ef. unfold bare. by rewrite Ee.
Qed.

Lemma epoch_wait r c s e : phase1_wait r c s -> phase1_wait r c (s <| epoch := e |>).
Proof.
  intros ([[Hst Hc Hi Hd] Hr Hat Hb] & Ro & Co & Hp). split; [|done].
  split; [by split|done|done|exact Hb].
Qed.

Lemma kickoff_wait w :
  cfg_ok (conf (view w)) -> st (view w) = SWP -> rxlen (view w) = 5%nat ->
  linkPaused_ (ses (lk w)) = false ->
  wpd False (kickoff yield) (fun _ w' => phase1_wait (role (view w)) (conf (view w)) (view w')) w.
Proof.
  intros Hc Hst Hl Hp. unfold kickoff. apply wpd_bind, wpd_link.
  change (state (lk w)) with (st (view w)). rewrite Hst, Hp. destruct (decide (SWP = OK)); [done|].
  change (isMaster (lk w)) with (role (view w)).
  do 2 (apply wpd_bind; apply then_unseen; [un|]; intros _ ?w E; rewrite <- E in *; clear E).
  destruct (role (view w1)) eqn:Hr; [|by apply kickoff_slave_wait].
  apply wpd_bind. eapply wpd_mono; [by apply reset_shows|]. intros [] wa Ea.
  assert (Hw : phase1_wait true (conf (view w1)) (view wa)).
  { eapply still_wait; [symmetry; exact Ea|]. rewrite <- Hr. set (s := (view w1) <| at_ := 0 |> <| rxpos := 0 |>).
    assert (Hs : rested s) by (split; [reflexivity|exact Hl]). exact (to_phase1_wait s Hc Hst Hs). }
  ws. eapply still_wait; [symmetry|].
  { match goal with |- still (view ?x) = _ => change x with (mkWorld (lk x) (sendBreak (hal wa))) end.
    apply still_hal, baud_break. }
  exact (epoch_wait _ _ _ (u8 (epoch (view wa) + 1)) Hw).
Qed.

(** A device switched on, with a ring that holds at least a frame. *)
Lemma begin_wait cw r c h :
  cfg_ok c -> ring_window c (txRingSize (hal_begin c h)) (rxRingSize (hal_begin c h)) <> None ->
  wpd False (begin yield) (fun b w' => b = true /\ phase1_wait r c (view w')) (fresh cw r c h).
Proof.
  intros Hc Hw. unfold begin. apply wpd_bind, wpd_link, wpd_bind, wpd_hwdo.
  apply wpd_bind, wpd_gets, wpd_bind, wpd_gets. cbn [lk hal fresh].
  change (cfg (link_init (cache_init cw) r c)) with c. destruct (ring_window _ _ _) as [win|]; [|done].
  unfold computeDwells, updSweep, changeState. ws.
  replace (bool_decide _) with true by reflexivity. ws.
  match goal with |- context [decide ?P] => destruct (decide P) as [E|_]; [discriminate E|] end. ws.
  match goal with |- context [linkPaused_ ?x] => change (linkPaused_ x) with false end. cbv iota. ws.
  eapply wpd_mono; [apply kickoff_wait; [exact Hc|reflexivity..]|]. intros [] w' E. ws. by split.
Qed.

(** No BREAK is pending at the end of [begin]. *)
Definition unbroken (l : Link) : Prop :=
  breakStormPending_ (brk l) = false /\ breakConfirmPending_ (brk l) = false.

Lemma begin_unbroken : keeps True (on unbroken) (begin yield).
Proof.
  unfold begin, computeDwells, updSweep, changeState, kickoff, kickoff_slave, reset, reset_count,
    reset_pref, reset_common, reset_session, reset_sweep, reset_relock, enterPhase1, enterPhase3,
    updSweep, setSpdIdx, sendSweepFrame, hw_tx, clampBauds, resetSeq, end_msg, changeState, release.
  kt. apply keeps_modify. intros w Hw. unfold on. rewrite Hy. exact Hw.
Qed.

(** *** The timer of a master in phase 1 *)

Lemma on_air_waits i q s : waits i s -> waits i (on_air q s).
Proof. intros [[Hst Hc Hi Hd] Hr Hat Hb]. by split; [split|..]. Qed.

Lemma timer_shows w :
  unbroken (lk w) -> st (view w) = SWP -> role (view w) = true -> ph (view w) = PHASE1 ->
  shows onTimer (on_air PING_CMD) w.
Proof.
  intros [Hb1 Hb2] Hst Hr Hp. unfold shows, onTimer. apply wpd_bind, wpd_link. rewrite Hb1, Hb2.
  change (state (lk w)) with (st (view w)). rewrite Hst. destruct (decide (SWP = OK)); [done|].
  unfold onTimerSwp, timer_master_p1, phase1ArmMs. ws.
  change (isMaster (lk w)) with (role (view w)).
  change (phase_ (sweep_ (swp (lk w)))) with (ph (view w)). rewrite Hr, Hp. ws.
  eapply then_shows; [apply sendSweepFrame_shows|]. intros _ w1 <-.
  match goal with |- wpd False ?m _ _ => enough (Hu : unseen m) by by apply Hu end. un.
Qed.

End Start.

(** ** Two devices *)

Section Pair.
Context {A B : Type} `{Radio A} `{Radio B}.

(** C4: Two devices find each other. A master and a slave constructed over the
    same valid configuration, each begun on a hardware whose transmit ring holds
    at least a frame, whatever else the hardware does meanwhile: [begin] succeeds
    on both, and once the master's timer has expired, eight frames take both into
    a session at the fastest baud of the table, with nothing left under way. The
    frames sent before that expiry are taken as lost. *)
Theorem power_on_locks (yA : World A -> World A) (yB : World B -> World B) cwA cwB c hA hB :
  (forall w, lk (yA w) = lk w) -> (forall w, lk (yB w) = lk w) -> cfg_ok c ->
  ring_window c (txRingSize (hal_begin c hA)) (rxRingSize (hal_begin c hA)) <> None ->
  ring_window c (txRingSize (hal_begin c hB)) (rxRingSize (hal_begin c hB)) <> None ->
  exists wm ws wm' P,
    begin yA (fresh cwA true c hA) = Some (true, wm) /\
    begin yB (fresh cwB false c hB) = Some (true, ws) /\
    onTimer wm = Some (tt, wm') /\
    rounds 8 (mkPair wm' ws (sends wm wm') []) = Some P /\ session 0 P.
Proof.
  intros HyA HyB Hc HwA HwB.
  pose proof (begin_wait yA HyA cwA true c hA Hc HwA) as Hm.
  assert (Hu : unbroken (lk (fresh cwA true c hA))) by done.
  apply (begin_unbroken yA HyA) in Hu. pose proof (wpd_and _ _ _ _ _ Hm Hu) as Hmu. clear Hm Hu.
  destruct (wp_run _ _ _ Hmu) as (b & wm & Em & [-> (Wm & Rm & Cm & Pm)] & Hu).
  destruct (wp_run _ _ _ (begin_wait yB HyB cwB false c hB Hc HwB)) as (b & ws & Es & -> & Ws & Rs & Cs & Ps).
  assert (Hst : st (view wm) = SWP) by apply Wm.
  destruct (wp_run _ _ _ (timer_shows wm Hu Hst Rm Pm)) as ([] & wm' & Et & Ev).
  destruct (phase1_locks (allowedBaudsCount c - 1) (mkPair wm' ws (sends wm wm') []) (view wm') (view ws))
    as (P & HP & Hs); [|by rewrite Ev|done|by exists wm, ws, wm', P].
  split; [split; cbn [ma sl]|split; [|done]]; rewrite ?Ev; try done.
  - split; [by rewrite Cs, <- Cm|intros j; by rewrite Cs, <- Cm].
  - split; [by apply on_air_waits|done].
  - cbn [down]. change (sends wm wm') with (said (view wm) (view wm')). rewrite Ev. by apply said_one.
Qed.

End Pair.
Definition demo_hal : OnAir MockHal := mkOnAir (mock_init 4096) (0, []).

Lemma power_on_locks_witness :
  exists wm ws wm' P,
    begin (fun w => w) (fresh 32 true default_config demo_hal) = Some (true, wm) /\
    begin (fun w => w) (fresh 32 false default_config demo_hal) = Some (true, ws) /\
    onTimer wm = Some (tt, wm') /\
    rounds 8 (mkPair wm' ws (sends wm wm') []) = Some P /\ session 0 P.
Proof.
  apply (power_on_locks (fun w => w) (fun w => w) 32 32 default_config demo_hal demo_hal);
    [done|done|apply default_config_ok|by vm_compute..].
Defined.

End PowerOn.
