(* ===== verification/Sync.v ===== *)
(** * SYNC sends

    In SYNC mode [sendMsg] waits for the acknowledgement of every chunk. Nothing
    but an acknowledgement makes it report success: while the other tasks clear
    no pending bit, every SYNC send of a message ends in a failure. *)
From S2P Require Import Prelude Monad MsgCodec FrameRx Config Decision ArqCache Arq Hal.
From S2P Require Import LinkState Timing Tx Core Sweep Gbn Rx Timers Api Frames Sender.
Import MsgCodec FrameRx Config Decision ArqCache Arq Hal LinkState Timing Tx Core Sweep Gbn Rx
  Timers Api Frames Sender.

Module Sync.

(** The pending table has its size; sequence number [s] is unacknowledged in the
    epoch [e] of the tables. *)
Definition sized (l : Link) : Prop := lenZ (ackedPending_ (arq_ (txg l))) = 64.
Definition waits_ack (s e : Z) (l : Link) : Prop :=
  sized l /\ isPending s (arq_ (txg l)) = true /\ clearAllEpoch_ (arq_ (txg l)) = e.

Section Sync.
Context {H : Type} `{IHal H} (yield : World H -> World H) (fuel : nat).

(** Other tasks that acknowledge nothing and end no session. *)
Definition acks_nothing : Prop :=
  (forall w, sized (lk w) -> sized (lk (yield w))) /\
  forall s e w, waits_ack s e (lk w) -> waits_ack s e (lk (yield w)).
Context (Hy : acks_nothing).

Lemma release_sized : keeps True (on sized) (release yield).
Proof. intros w. apply Hy. Qed.
Lemma release_waits s e : keeps True (on (waits_ack s e)) (release yield).
Proof. intros w. apply Hy. Qed.
Hint Resolve release_sized release_waits : keeps.

Lemma sized_upd f : (forall a, lenZ (ackedPending_ (f a)) = lenZ (ackedPending_ a)) ->
  keeps True (on (H := H) sized) (UPD txg arq_ := f).
Proof. intros Hf. apply keeps_upd. intros l Hl. red. cbn. by rewrite Hf. Qed.

(** *** Waiting *)

Lemma expire_false s e g (w : World H) : waits_ack s e (lk w) ->
  wpd True (wait_expire yield s g) (fun r w' => r = false /\ sized (lk w')) w.
Proof.
  intros Hw. unfold wait_expire. apply wpd_bind. eapply wpd_mono; [by apply (release_waits s e)|].
  intros [] w1 (Hl & Hp & _). ws. rewrite Hp. cbn [negb]. ws. split; [done|].
  red. cbn. by rewrite lenZ_wr.
Qed.

Lemma wait_loop_false n : forall s e t (w : World H), waits_ack s e (lk w) ->
  wpd True (wait_loop yield n s e t) (fun r w' => r = false /\ sized (lk w')) w.
Proof.
  induction n as [|n IH]; intros s e t w Hw; cbn [wait_loop]; [done|].
  apply wpd_bind, wpd_link. cbv zeta. pose proof Hw as (Hl & Hp & He). rewrite Hp, He, Z.eqb_refl. cbn [negb].
  destruct (_ && _); [by eapply expire_false|]. apply wpd_bind, wpd_hw.
  destruct (_ >=? _); [by apply (expire_false s e)|]. apply wpd_bind.
  eapply (wpd_mono _ _ (fun _ w' => waits_ack s e (lk w'))); [by destruct (ackSem_ _) as [ []|]|].
  intros [] w1 Hw1. apply wpd_bind. eapply wpd_mono; [by apply (release_waits s e)|].
  intros [] w2 Hw2. by apply IH.
Qed.

Lemma ensure_sem_waits s e : keeps True (on (H := H) (waits_ack s e)) ensure_sem.
Proof.
  intros w Hw. unfold ensure_sem. ws. destruct (ackSem_ _) eqn:E; ws; [done|].
  destruct Hw as (Hl & Hp & He). unfold on, waits_ack, sized, isPending, ensureAckSem in *. cbn in *.
  destruct (ackSem_ _); [done|]. by destruct (fst _).
Qed.

Lemma waitForAck_false s e t (w : World H) : waits_ack s e (lk w) ->
  wpd True (waitForAck yield fuel s t) (fun r w' => r = false /\ sized (lk w')) w.
Proof.
  intros Hw. unfold waitForAck. apply wpd_bind, wpd_gets. pose proof Hw as (_ & _ & ->).
  apply wpd_bind, wpd_upd. apply wpd_bind. eapply wpd_mono; [by apply (release_waits s e)|].
  intros [] w1 Hw1. apply wpd_bind. eapply wpd_mono; [by apply (ensure_sem_waits s e)|].
  intros [] w2 Hw2. ws. by apply wait_loop_false.
Qed.

(** *** Resending *)

Lemma onSent_waits s b t lap l : sized l ->
  waits_ack s (clearAllEpoch_ (arq_ (txg l))) (rset txg (rset arq_ (onSent s b t lap)) l).
Proof.
  intros Hl. split; [red; cbn; by rewrite lenZ_wr|]. split; [|done]. unfold isPending. cbn.
  apply rd_wr_eq. rewrite Hl. apply budgetIdx_range.
Qed.

Lemma drain_sized : keeps True (on (H := H) sized) (drainTxRing yield fuel).
Proof.
  unfold drainTxRing. kt. generalize fuel as k. intros k. induction k as [|k IH]; cbn [drain_loop].
  - by apply keeps_stuck.
  - unfold noteTxReject. kt.
Qed.
Hint Resolve drain_sized : keeps.

Lemma build_sized s b : keeps True (on (H := H) sized) (buildAndTxCobsFrame s b).
Proof. unfold buildAndTxCobsFrame, noteTxReject, hw_tx. kt. Qed.
Hint Resolve build_sized : keeps.

Lemma send_sized b : keeps True (on (H := H) sized) (sendCobsFrame b).
Proof. unfold sendCobsFrame. kt. Qed.
Hint Resolve send_sized : keeps.

Lemma step_waits op (w : World H) : sized (lk w) ->
  wpd True (syncRtoStep yield fuel op)
    (fun r w' => sized (lk w') /\ (fst r = true -> exists e, waits_ack (op_seq (snd r)) e (lk w'))) w.
Proof.
  intros Hl. unfold syncRtoStep. ws.
  destruct (_ >=? _); ws; [by split|]. apply wpd_mono with (Q := fun _ w' => sized (lk w')); [by apply drain_sized|].
  intros r w1 Hl1. destruct (fst r); cbn [negb]; ws; [|by split].
  eapply wpd_mono; [by apply build_sized|]. intros ok w2 Hl2. destruct ok; cbn [negb]; ws; [|by split].
  cbn [snd fst]. match goal with |- context [onSent (op_seq ?o)] => generalize (op_seq o) end. intros q.
  split; [red; cbn; by rewrite lenZ_wr|]. intros _. eexists. exact (onSent_waits q NO_BASE _ _ (lk w2) Hl2).
Qed.

(** *** The ladder of a chunk *)

Lemma await_false n : forall op e (w : World H), waits_ack (op_seq op) e (lk w) ->
  wpd True (await_loop yield fuel n op) (fun r _ => r = false) w.
Proof.
  induction n as [|n IH]; intros op e w Hw; cbn [await_loop]; [done|]. apply wpd_bind, wpd_link, wpd_bind.
  eapply wpd_mono; [by eapply waitForAck_false|]. intros r w1 [-> Hl]. cbv iota. apply wpd_bind, wpd_link.
  destruct (negb _); [done|]. apply wpd_bind. eapply wpd_mono; [by apply step_waits|].
  intros [[] op'] w2 [_ Hw2]; cbn [fst snd negb] in *; [|done]. destruct (Hw2 eq_refl) as [e' He].
  by apply (IH op' e').
Qed.

(** A chunk registered as sent is not acknowledged. *)
Lemma sent_false {A} seq raw (f : bool -> Act H A) Q (w : World H) : sized (lk w) ->
  (forall w', wpd True (f false) Q w') ->
  wpd True (sync_sent seq;; r <- syncAwaitAcked yield fuel (new_op seq raw);; f r) Q w.
Proof.
  intros Hl Hf. unfold sync_sent, syncAwaitAcked. ws. eapply wpd_mono.
  - eapply (await_false fuel (new_op seq raw)). by apply (onSent_waits seq NO_BASE).
  - intros r w1 ->. apply Hf.
Qed.

(** *** The send *)

(** No send ends with success. *)
Definition unsent (r : Sent) : Prop := match r with Done true _ _ => False | _ => True end.

Lemma single_unsent b (w : World H) : sized (lk w) ->
  wpd True (send_sync_single yield fuel b) (fun r _ => unsent r) w.
Proof.
  intros Hl. unfold send_sync_single. ws. eapply wpd_mono; [by apply drain_sized|]. intros r w1 Hl1.
  destruct (fst r); cbn [negb]; ws; [|done]. eapply wpd_mono; [by apply send_sized|]. intros ok w2 Hl2.
  destruct ok; cbn [negb]; ws; [|done]. unfold note_tx. ws. apply sent_false; [exact Hl2|].
  intros w3. cbv iota. apply wpd_bind, wpd_any. by intros brk w4.
Qed.

Lemma multi_unsent b (w : World H) : sized (lk w) ->
  wpd True (send_sync_multi yield fuel b) (fun r _ => unsent r) w.
Proof.
  intros Hl. unfold send_sync_multi. ws. eapply wpd_mono; [by apply drain_sized|]. intros r w1 Hl1.
  apply wpd_bind. eapply (wpd_mono _ _ (fun _ w' => sized (lk w'))); [destruct (fst r); [by apply send_sized|done]|].
  intros ok w2 Hl2. destruct ok; cbn [negb]; ws; [|done]. apply sent_false; [exact Hl2|].
  intros w3. cbv iota. apply wpd_bind, wpd_any. by intros brk w4.
Qed.

Lemma admit_kept (P : TxG -> Mode -> State -> Prop) b : keeps True (on (H := H) (txon P)) (send_admit b).
Proof.
  unfold send_admit, txQuiet, rate_admit, rate_refuse, rate_window, set_reason, noteTxReject. kt.
  by apply keeps_stuck.
Qed.

(** C9: A SYNC send reports success only on an acknowledgement. Whatever the
    message, the hardware and the state of the link, as long as the other tasks
    (which run whenever the call releases the lock) clear no pending bit and end
    no session: a SYNC [sendMsg] of a message that is not empty, if it returns,
    returns [false], after however many resends its budget allowed. *)
Theorem sync_needs_ack b (w : World H) ok base lap w' :
  sized (lk w) -> is_sync (mode (cfg (lk w))) = true -> b <> [] ->
  sendMsg yield fuel b w = Some ((ok, base, lap), w') -> ok = false.
Proof.
  intros Hl Hm Hb Hr. enough (Hw : wpd True (sendMsg yield fuel b) (fun r _ => fst (fst r) = false) w).
  { by pose proof (wpd_run _ _ _ _ _ _ Hw Hr). }
  clear Hr. unfold sendMsg. ws. replace (lenZ b =? 0) with false 
    by (symmetry; apply Z.eqb_neq; unfold lenZ; destruct b; [done|cbn [length]; lia]).
  destruct (_ >? _); ws; [done|]. destruct (_ || _); ws; [done|].
  pose (P := fun (t : TxG) (m : Mode) (_ : State) => lenZ (ackedPending_ (arq_ t)) = 64 /\ is_sync m = true).
  eapply wpd_mono; [by apply (admit_kept P)|]. intros adm w1 [Hl1 Hm1]. destruct adm; cbn [negb]; ws; [|done].
  eapply (wpd_mono _ _ (fun _ w' => txon P (lk w'))); [by destruct (_ && _)|].
  intros [] w2 [Hl2 Hm2]. ws. eapply (wpd_mono _ _ (fun r _ => unsent r)).
  { unfold send_body. ws. rewrite Hm2. destruct (_ <=? _); [by apply single_unsent|by apply multi_unsent]. }
  intros [|[] brk base'] w3 Hu; [done|done|]. unfold send_finish, set_reason. ws.
  by destruct (_ || _), brk; ws.
Qed.

End Sync.

(** A link in a SYNC session over the mock. *)
Definition demo_sync : World MockHal :=
  mkWorld (link_init (cache_init 32) true (default_config <| mode := SYNC |>)) (mock_init 4096).
(** Nobody answers; and a peer that acknowledges the first chunk. *)
Definition silent (w : World MockHal) : World MockHal := w.
Definition answering (w : World MockHal) : World MockHal :=
  match onAck 0 3 w with Some (_, w') => w' | None => w end.
Definition report (yield : World MockHal -> World MockHal) (b : list Z) : option bool :=
  match sendMsg yield 100 b demo_sync with Some (r, _) => Some (fst (fst r)) | None => None end.

Example sync_acked : report answering [1; 2; 3] = Some true.
Proof. vm_compute. reflexivity. Qed.

Lemma sync_needs_ack_witness : exists r, report silent [1; 2; 3] = Some r /\ r = false.
Proof.
  unfold report. destruct (sendMsg silent 100 [1; 2; 3] demo_sync) as [[[[ok base] lap] w']|] eqn:E.
  - exists ok. split; [done|].
    assert (Hy : acks_nothing silent) by by split.
    by apply (sync_needs_ack silent 100 Hy [1; 2; 3] demo_sync ok base lap w').
  - exfalso. vm_compute in E. discriminate E.
Defined.

End Sync.
