(* ===== verification/WebCore.v ===== *)
(** * The web monitor's texts ([src/al/web/AutoLinkWebCore.h], [AutoLinkWebCore.cpp])

    The JSON documents of the dashboard, as the bytes [snprintf] and the copying
    loops put into a buffer, and the parsers of the query values. The pages
    themselves are generated data and left out. *)
From Stdlib Require Import Strings.String Strings.Ascii.
From S2P Require Import Prelude.

Module WebCore.

(** ** C text *)

Definition str (s : string) : list Z := map (fun c => Z.of_nat (nat_of_ascii c)) (list_ascii_of_string s).
(** JSON, written with single quotes here. *)
Definition json (s : string) : list Z := map (fun c => if c =? 39 then 34 else c) (str s).
#[global] Arguments str s%_string. #[global] Arguments json s%_string.

(** [%lu], [%llu], [%u]: at most 20 digits. *)
Fixpoint dec_loop (k : nat) (n : Z) : list Z :=
  match k with
  | O => []
  | S k => if n <? 10 then [48 + n] else dec_loop k (n / 10) ++ [48 + n mod 10]
  end.
Definition dec (n : Z) : list Z := dec_loop 20 n.
(** [%d] *)
Definition sdec (n : Z) : list Z := if n <? 0 then 45 :: dec (- n) else dec n.
(** [%02lu], [%03lu] *)
Definition pad (w : Z) (n : Z) : list Z := let d := dec n in replicate (Z.to_nat (w - lenZ d)) 48 ++ d.

(** [snprintf(out, n, ...)] of the text [s]: the string it leaves; it returns the
    length of [s]. *)
Definition snprintf (n : Z) (s : list Z) : list Z := take (Z.to_nat (n - 1)) s.

(** Bytes stored from [out[i]] on. *)
Fixpoint put (out : list Z) (i : Z) (s : list Z) : list Z :=
  match s with [] => out | c :: s => put (wr out i c) (i + 1) s end.
(** [snprintf(out + i, n, ...)] *)
Definition snprintf_at (out : list Z) (i n : Z) (s : list Z) : list Z :=
  if n >? 0 then put out i (snprintf n s ++ [0]) else out.

(** ** The query values *)

Definition is_space (c : Z) : bool := (c =? 32) || ((9 <=? c) && (c <=? 13)).
Definition is_digit (c : Z) : bool := (48 <=? c) && (c <=? 57).
Fixpoint skip_space (s : list Z) : list Z :=
  match s with c :: s' => if is_space c then skip_space s' else s | [] => [] end.
Fixpoint digits (s : list Z) (n : Z) : Z :=
  match s with c :: s => if is_digit c then digits s (10 * n + (c - 48)) else n | [] => n end.
(** The sign and the digits a [strtol] reads. *)
Definition number (s : list Z) : bool * Z :=
  match skip_space s with
  | c :: s => if c =? 45 then (true, digits s 0) else if c =? 43 then (false, digits s 0) else (false, digits (c :: s) 0)
  | [] => (false, 0)
  end.
(** [strtol] and [strtoul] of the 32-bit target, which saturate; [atoi] is the former. *)
Definition atoi (s : list Z) : Z :=
  let '(neg, n) := number s in
  if (neg : bool) then - Z.min n 2147483648 else Z.min n 2147483647.
Definition strtoul (s : list Z) : Z :=
  let '(neg, n) := number s in
  if n >? 4294967295 then 4294967295 else if (neg : bool) then u32 (- n) else n.

Definition NONE : Z := 0.
Definition VERBOSE : Z := 5.

(** A null pointer is [None]. *)
Definition parseLevelQuery (val : option (list Z)) : Z :=
  match val with
  | None | Some [] => -1
  | Some v =>
      let lv := atoi v in
      if lv =? NONE then -2 else if (lv <? 0) || (lv >? VERBOSE) then -3 else lv
  end.

Definition parseModeQuery (val : option (list Z)) : Z :=
  match val with
  | None => -1
  | Some v => if bool_decide (v = str "seq") then 0 else if bool_decide (v = str "rand") then 1 else -1
  end.

Definition validRoleString (role : option (list Z)) : bool :=
  match role with None => false | Some r => (lenZ r >? 0) && (lenZ r <? 8) end.

(** The level the logger gets, if it gets one, and the answer. *)
Definition applyLogLevel (lv : Z) : option Z * Z :=
  if lv =? NONE then (None, -1)
  else if (lv <? 0) || (lv >? VERBOSE) then (None, -2)
  else (Some lv, lv).

(** ** The statistics *)

Record WebSnapshot := mkSnapshot {
  state : list Z; errCount : Z; txBps : Z; rxBps : Z; txTotal : Z; rxTotal : Z; errTotal : Z; lostMsgs : Z;
  postLockQuietDrops : Z; rateLimitedDrops : Z; txRingStallDrops : Z; logDrops : Z; rssi : Z; freeHeap : Z;
  uptimeS : Z; baudRate : Z; fillMode : Z; msgPaused : Z; linkMode : Z; linkModeLabel : list Z; txDelayMs : Z;
  role : list Z; webLogDropped : Z;
}.
#[export] Instance eta_WebSnapshot : Eta WebSnapshot := fun r =>
  mkSnapshot (state r) (errCount r) (txBps r) (rxBps r) (txTotal r) (rxTotal r) (errTotal r) (lostMsgs r)
    (postLockQuietDrops r) (rateLimitedDrops r) (txRingStallDrops r) (logDrops r) (rssi r) (freeHeap r) (uptimeS r)
    (baudRate r) (fillMode r) (msgPaused r) (linkMode r) (linkModeLabel r) (txDelayMs r) (role r) (webLogDropped r).
Definition snapshot_init : WebSnapshot := mkSnapshot [] 0 0 0 0 0 0 0 0 0 0 0 0 0 0 0 0 0 0 [] 0 [] 0.

Definition stats_text (s : WebSnapshot) (logLevel : Z) (version : list Z) : list Z :=
  json "{'state':'" ++ state s ++ json "','errCount':" ++ dec (errCount s) ++
  json ", 'errTotal':" ++ dec (errTotal s) ++ json ", 'lostMsgs':" ++ dec (lostMsgs s) ++
  json ", 'quietDrops':" ++ dec (postLockQuietDrops s) ++ json ", 'rateDrops':" ++ dec (rateLimitedDrops s) ++
  json ", 'ringStallDrops':" ++ dec (txRingStallDrops s) ++ json ", 'logDrops':" ++ dec (logDrops s) ++
  json ", 'txBps':" ++ dec (txBps s) ++ json ",'rxBps':" ++ dec (rxBps s) ++
  json ", 'txTotal':" ++ dec (txTotal s) ++ json ",'rxTotal':" ++ dec (rxTotal s) ++
  json ", 'rssi':" ++ sdec (rssi s) ++ json ",'freeHeap':" ++ dec (freeHeap s) ++
  json ",'uptimeS':" ++ dec (uptimeS s) ++ json ", 'baudRate':" ++ dec (baudRate s) ++
  json ",'lvl':" ++ sdec logLevel ++ json ",'mode':" ++ dec (fillMode s) ++
  json ", 'msgPaused':" ++ dec (msgPaused s) ++ json ", 'linkMode':" ++ dec (linkMode s) ++
  json ", 'linkModeLabel':'" ++ linkModeLabel s ++ json "', 'txDelayMs':" ++ sdec (txDelayMs s) ++
  json ", 'role':'" ++ role s ++ json "', 'webLogDropped':" ++ dec (webLogDropped s) ++
  json ", 'version':'" ++ version ++ json "'}".

(** The length returned, and [out]. *)
Definition formatStatsJson (s : WebSnapshot) (logLevel : Z) (version out : list Z) (outLen : Z) : Z * list Z :=
  if outLen <=? 0 then (0, out)
  else let t := stats_text s logLevel version in (lenZ t, snprintf_at out 0 outLen t).

(** ** The log lines *)

Definition WEB_RING_CAP : Z := 200.
Definition WEB_LINE_CAP : Z := 180.

(** [line]: the C string the array holds. *)
Record WebLogEntry := mkWebLogEntry { seq : Z; sev : Z; line : list Z }.
Definition no_entry : WebLogEntry := mkWebLogEntry 0 0 [].

Definition escape (c : Z) : list Z :=
  if c =? 34 then [92; 34]
  else if c =? 92 then [92; 92]
  else if c =? 10 then [92; 110]
  else if c =? 13 then [92; 114]
  else [c].

(** [for (p = e.line; *p && len < limit; p++)] *)
Fixpoint esc_loop (line : list Z) (limit : Z) (out : list Z) (len : Z) : list Z * Z :=
  match line with
  | [] => (out, len)
  | c :: line =>
      if len <? limit then let e := escape c in esc_loop line limit (put out len e) (len + lenZ e)
      else (out, len)
  end.

Definition logs_head (head dropped : Z) : list Z :=
  json "{'head':" ++ dec head ++ json ",'dropped':" ++ dec dropped ++ json ",'lines':[".
Definition entry_head (sep : list Z) (i sev : Z) : list Z :=
  json "{'seq':" ++ dec i ++ json ",'sev':'" ++ [sev] ++ json "'," ++ sep ++ json "'text':'".

(** One entry (lines 87-120); whether the loop goes on. *)
Definition put_entry (e : WebLogEntry) (i outLen : Z) (out : list Z) (len : Z) : bool * list Z * Z :=
  let h := entry_head [] i (sev e) in
  let out := snprintf_at out len (outLen - len) h in
  if lenZ h >=? outLen - len then (false, out, len)
  else
    let '(out, len) := esc_loop (line e) (outLen - 4) out (len + lenZ h) in
    if len <? outLen - 2 then (true, put out len (json "'}"), len + 2) else (true, out, len).

(** [for (i = start; i < head; i++)], [k] rounds left. *)
Fixpoint lines_loop (k : nat) (ring : list WebLogEntry) (i outLen : Z) (first : bool) (out : list Z) (len : Z)
    : list Z * Z :=
  match k with
  | O => (out, len)
  | S k =>
      let e := rd no_entry ring (i mod WEB_RING_CAP) in
      if seq e <>? i then lines_loop k ring (i + 1) outLen first out len
      else
        let '(go, out, len) :=
          if first then (true, out, len)
          else
            let out := snprintf_at out len (outLen - len) (str ",") in
            if 1 >=? outLen - len then (false, out, len) else (true, out, len + 1) in
        if negb go then (out, len)
        else
          let '(go, out, len) := put_entry e i outLen out len in
          if negb go then (out, len) else lines_loop k ring (i + 1) outLen false out len
  end.

Definition ring_start (head : Z) : Z := if head >? WEB_RING_CAP then head - WEB_RING_CAP else 0.
Definition dropped_before (head since : Z) : Z := if since <? ring_start head then ring_start head - since else 0.
Definition first_line (head since : Z) : Z := if since >? ring_start head then since else ring_start head.

Definition formatLogsJson (ring : list WebLogEntry) (head since : Z) (out : list Z) (outLen : Z) : Z * list Z :=
  if outLen <=? 0 then (0, out)
  else
    let h := logs_head head (dropped_before head since) in
    let out := snprintf_at out 0 outLen h in
    let len := lenZ h in
    if len >=? outLen then (len, out)
    else
      let start := first_line head since in
      let '(out, len) := lines_loop (Z.to_nat (head - start)) ring start outLen true out len in
      let out := snprintf_at out len (outLen - len) (str "]}") in
      (if 2 <? outLen - len then len + 2 else len, out).


(** ** What the formatter writes *)

Definition escaped (l : list Z) : list Z := flat_map escape l.
Definition entry_text (sep : list Z) (i : Z) (e : WebLogEntry) : list Z :=
  entry_head sep i (sev e) ++ escaped (line e) ++ json "'}".

(** The entries of the range that are in the ring. *)
Fixpoint visible (k : nat) (ring : list WebLogEntry) (i : Z) : list (Z * WebLogEntry) :=
  match k with
  | O => []
  | S k =>
      let e := rd no_entry ring (i mod WEB_RING_CAP) in
      if seq e =? i then (i, e) :: visible k ring (i + 1) else visible k ring (i + 1)
  end.

Fixpoint lines_text (first : bool) (es : list (Z * WebLogEntry)) : list Z :=
  match es with
  | [] => []
  | (i, e) :: es => (if first then [] else str ",") ++ entry_text [] i e ++ lines_text false es
  end.

Definition logs_text (ring : list WebLogEntry) (head since : Z) : list Z :=
  let start := first_line head since in
  logs_head head (dropped_before head since) ++
  lines_text true (visible (Z.to_nat (head - start)) ring start) ++ str "]}".

Lemma written_app s : forall p r g, (length s <= length r)%nat ->
  put (p ++ r ++ g) (lenZ p) s = p ++ s ++ drop (length s) r ++ g.
Proof.
  induction s as [|c s IH]; intros p r g Hl; cbn [put length]; [by rewrite drop_0|].
  destruct r as [|x r]; cbn [length] in Hl; [lia|]. cbn [app drop]. rewrite wr_middle by done.
  replace (lenZ p + 1) with (lenZ (p ++ [c])) by (rewrite lenZ_app; done).
  replace (p ++ c :: r ++ g) with ((p ++ [c]) ++ r ++ g) by (by rewrite <- app_assoc).
  rewrite IH by lia. by rewrite <- app_assoc.
Qed.

(** [f] adds [s] to what is written, in the room there is, and moves the position. *)
Definition adds (p r s r' : list Z) (res : list Z -> list Z * Z) : Prop :=
  lenZ s + lenZ r' = lenZ r /\ forall g, res (p ++ r ++ g) = (p ++ s ++ r' ++ g, lenZ p + lenZ s).

Lemma adds_none p r : adds p r [] r (fun out => (out, lenZ p)).
Proof. split; [done|]. intros g. by rewrite lenZ_nil, Z.add_0_r. Qed.

Lemma put_adds p r s : lenZ s <= lenZ r ->
  adds p r s (drop (length s) r) (fun out => (put out (lenZ p) s, lenZ p + lenZ s)).
Proof.
  intros Hl. split; [unfold lenZ in *; rewrite length_drop; lia|]. intros g. f_equal. apply written_app. unfold lenZ in *. lia.
Qed.

(** A [snprintf] stays in the room; its text is there when it fits. *)
Lemma snprintf_room p r s : 0 < lenZ r -> exists r', lenZ r' = lenZ r /\
  (forall g, snprintf_at (p ++ r ++ g) (lenZ p) (lenZ r) s = p ++ r' ++ g) /\
  (lenZ s < lenZ r -> exists r2, r' = s ++ r2).
Proof.
  intros Hr. set (w := snprintf (lenZ r) s ++ [0]).
  assert (Hw : (length w <= length r)%nat).
  { unfold w, snprintf, lenZ in *. rewrite length_app, length_take. cbn. lia. }
  exists (w ++ drop (length w) r). split_and!.
  - rewrite lenZ_app. unfold lenZ. rewrite length_drop. lia.
  - intros g. unfold snprintf_at. replace (0 <? lenZ r) with true by lia. fold w. rewrite written_app by done.
    by rewrite <- app_assoc.
  - intros Hs. unfold w, snprintf. rewrite take_ge by (unfold lenZ in *; lia). rewrite <- app_assoc. by eexists.
Qed.

Lemma escape_len c : 1 <= lenZ (escape c) <= 2.
Proof. unfold escape, lenZ. repeat case_match; cbn; lia. Qed.

Lemma esc_loop_adds n l : forall p r, lenZ p + lenZ r = n ->
  exists s r', adds p r s r' (fun out => esc_loop l (n - 4) out (lenZ p)) /\
    (lenZ s = 0 \/ lenZ p + lenZ s <= n - 3) /\
    (lenZ p + lenZ (escaped l) <= n - 4 -> s = escaped l).
Proof.
  induction l as [|c l IH]; intros p r Hn; cbn [esc_loop].
  { exists [], r. split; [apply adds_none|]. split; [by left|done]. }
  destruct (Z.ltb_spec (lenZ p) (n - 4)) as [Hp|Hp].
  - pose proof (escape_len c) as He. destruct (put_adds p r (escape c)) as [Hl Hput]; [lia|].
    destruct (IH (p ++ escape c) (drop (length (escape c)) r)) as (s & r' & [Hl' Hs] & Hb & Hf).
    { rewrite lenZ_app. lia. }
    rewrite lenZ_app in Hs, Hb, Hf.
    exists (escape c ++ s), r'. split; [split; [rewrite lenZ_app; lia|]|]; rewrite ?lenZ_app.
    + intros g. pose proof (f_equal fst (Hput g)) as E. cbn [fst] in E. rewrite E. specialize (Hs g).
      rewrite <- app_assoc in Hs. rewrite Hs, <- !app_assoc. f_equal. lia.
    + split; [right; destruct Hb; lia|]. intros Hfit. unfold escaped in *. cbn [flat_map] in *.
      rewrite lenZ_app in Hfit. rewrite Hf by lia. done.
  - exists [], r. split; [apply adds_none|]. split; [by left|]. intros Hfit. exfalso. unfold escaped in Hfit.
    cbn [flat_map] in Hfit. rewrite lenZ_app in Hfit. pose proof (escape_len c). pose proof (lenZ_nonneg (flat_map escape l)). lia.
Qed.

(** The same for a step that also says whether to go on. *)
Definition steps (p r : list Z) (go : bool) (s r' : list Z) (res : list Z -> bool * list Z * Z) : Prop :=
  lenZ s + lenZ r' = lenZ r /\ 0 < lenZ r' /\ forall g, res (p ++ r ++ g) = (go, p ++ s ++ r' ++ g, lenZ p + lenZ s).

Lemma put_entry_steps n e i p r : lenZ p + lenZ r = n -> 0 < lenZ r ->
  exists go s r', steps p r go s r' (fun out => put_entry e i n out (lenZ p)) /\
    (lenZ p + lenZ (entry_text [] i e) + 2 < n -> go = true /\ s = entry_text [] i e).
Proof.
  intros Hn Hr. unfold put_entry, entry_text. set (h := entry_head [] i (sev e)).
  destruct (snprintf_room p r h Hr) as (r1 & Hr1 & Hs & Hfit). replace (n - lenZ p) with (lenZ r) by lia.
  destruct (Z.leb_spec (lenZ r) (lenZ h)) as [Hh|Hh].
  { exists false, [], r1. split; [split; [done|]; split; [lia|]|].
    - intros g. rewrite Hs, lenZ_nil, Z.add_0_r. done.
    - rewrite !lenZ_app. pose proof (lenZ_nonneg (escaped (line e))). pose proof (lenZ_nonneg (json "'}")).
      intros Hft. exfalso. lia. }
  destruct (Hfit Hh) as [r2 ->]. rewrite lenZ_app in Hr1.
  destruct (esc_loop_adds n (line e) (p ++ h) r2) as (s2 & r3 & [Hl3 Hs3] & Hb & Hf3); [rewrite lenZ_app; lia|].
  rewrite lenZ_app in Hb, Hf3.
  assert (E : forall g, esc_loop (line e) (n - 4) (p ++ (h ++ r2) ++ g) (lenZ p + lenZ h) =
    (p ++ h ++ s2 ++ r3 ++ g, lenZ p + lenZ h + lenZ s2)).
  { intros g. specialize (Hs3 g). rewrite lenZ_app, <- !app_assoc in Hs3. by rewrite <- app_assoc. }
  destruct (Z.ltb_spec (lenZ p + lenZ h + lenZ s2) (n - 2)) as [Hc|Hc].
  - destruct (put_adds (p ++ h ++ s2) r3 (json "'}")) as [Hl4 Hs4]; [cbn; unfold lenZ in *; cbn; lia|].
    exists true, (h ++ s2 ++ json "'}"), (drop (length (json "'}")) r3). change (lenZ (json "'}")) with 2 in Hl4.
    rewrite !lenZ_app. change (lenZ (json "'}")) with 2. split; [split; [|split; [lia|]]|].
    + rewrite !lenZ_app. change (lenZ (json "'}")) with 2. lia.
    + intros g. rewrite Hs, E. replace (_ <? n - 2) with true by lia. pose proof (f_equal fst (Hs4 g)) as E4.
      cbn [fst] in E4. rewrite !lenZ_app, Z.add_assoc, <- !app_assoc in E4. rewrite E4, <- !app_assoc.
      f_equal. rewrite !lenZ_app. change (lenZ (json "'}")) with 2. lia.
    + intros Hft. split; [done|]. by rewrite Hf3 by lia.
  - exists true, (h ++ s2), r3. rewrite !lenZ_app. split; [split; [|split]|].
    + rewrite lenZ_app. lia.
    + lia.
    + intros g. rewrite Hs, E. replace (_ <? n - 2) with false by lia. rewrite <- !app_assoc, lenZ_app. f_equal. lia.
    + change (lenZ (json "'}")) with 2. intros Hft. exfalso. rewrite Hf3 in Hc by lia. lia.
Qed.

Definition comma (first : bool) : list Z := if first then [] else str ",".

Lemma comma_steps (first : bool) n p r : lenZ p + lenZ r = n -> 0 < lenZ r ->
  exists go s r', steps p r go s r' (fun out =>
      if first then (true, out, lenZ p)
      else
        let out := snprintf_at out (lenZ p) (n - lenZ p) (str ",") in
        if 1 >=? n - lenZ p then (false, out, lenZ p) else (true, out, lenZ p + 1)) /\
    (lenZ p + lenZ (comma first) < n -> go = true /\ s = comma first).
Proof.
  intros Hn Hr. destruct first.
  { exists true, [], r. split; [split; [done|]; split; [done|]|done]. intros g. by rewrite lenZ_nil, Z.add_0_r. }
  destruct (snprintf_room p r (str ",") Hr) as (r1 & Hr1 & Hs & Hfit). replace (n - lenZ p) with (lenZ r) by lia.
  change (lenZ (str ",")) with 1 in Hfit. change (lenZ (comma false)) with 1. destruct (Z.leb_spec (lenZ r) 1).
  - exists false, [], r1. split; [split; [done|]; split; [lia|]|intros; exfalso; lia].
    intros g. by rewrite Hs, lenZ_nil, Z.add_0_r.
  - destruct Hfit as [r2 ->]; [lia|]. exists true, (str ","), r2. rewrite lenZ_app in Hr1.
    change (lenZ (str ",")) with 1 in *. split; [split; [done|]; split; [lia|]|done].
    intros g. by rewrite Hs, <- app_assoc.
Qed.

Lemma lines_loop_adds ring n k : forall i first p r, lenZ p + lenZ r = n -> 0 < lenZ r ->
  exists s r', 0 < lenZ r' /\ adds p r s r' (fun out => lines_loop k ring i n first out (lenZ p)) /\
    (lenZ p + lenZ (lines_text first (visible k ring i)) + 2 < n -> s = lines_text first (visible k ring i)).
Proof.
  induction k as [|k IH]; intros i first p r Hn Hr; cbn [lines_loop visible].
  { exists [], r. split; [done|]. split; [apply adds_none|done]. }
  set (e := rd no_entry ring _). destruct (Z.eqb_spec (seq e) i) as [Ei|Ei]; cbn [negb]; [|by apply IH].
  destruct (comma_steps first n p r Hn Hr) as (go & s1 & r1 & (Hl1 & Hp1 & Hs1) & Hf1).
  destruct go.
  2: { exists s1, r1. split; [done|]. split; [split; [done|]; intros g; by rewrite Hs1|].
    cbn [lines_text]. fold (comma first). rewrite !lenZ_app. intros Hft. exfalso.
    pose proof (lenZ_nonneg (entry_text [] i e)). pose proof (lenZ_nonneg (lines_text false (visible k ring (i + 1)))).
    destruct Hf1; [lia|done]. }
  destruct (put_entry_steps n e i (p ++ s1) r1) as (go & s2 & r2 & (Hl2 & Hp2 & Hs2) & Hf2); [rewrite lenZ_app; lia|done|].
  rewrite lenZ_app in Hs2, Hf2.
  assert (E1 : forall g, put_entry e i n (p ++ s1 ++ r1 ++ g) (lenZ p + lenZ s1) =
    (go, p ++ s1 ++ s2 ++ r2 ++ g, lenZ p + lenZ s1 + lenZ s2)) by (intros g; specialize (Hs2 g); by rewrite <- !app_assoc in Hs2).
  destruct go.
  2: { exists (s1 ++ s2), r2. split; [done|]. split; [split; [rewrite lenZ_app; lia|]|].
    - intros g. rewrite Hs1, E1, lenZ_app, <- app_assoc. f_equal. lia.
    - cbn [lines_text]. fold (comma first). rewrite !lenZ_app. intros Hft. exfalso.
      pose proof (lenZ_nonneg (lines_text false (visible k ring (i + 1)))).
      destruct Hf1 as [_ ->]; [pose proof (lenZ_nonneg (entry_text [] i e)); lia|]. destruct Hf2; [lia|done]. }
  destruct (IH (i + 1) false ((p ++ s1) ++ s2) r2) as (s3 & r3 & Hp3 & (Hl3 & Hs3) & Hf3); [rewrite !lenZ_app; lia|done|].
  rewrite !lenZ_app in Hs3, Hf3.
  exists (s1 ++ s2 ++ s3), r3. split; [done|]. split; [split; [rewrite !lenZ_app; lia|]|].
  - intros g. rewrite Hs1, E1. specialize (Hs3 g). rewrite <- !app_assoc in Hs3. rewrite Hs3, <- !app_assoc, !lenZ_app.
    f_equal. lia.
  - cbn [lines_text]. fold (comma first). rewrite !lenZ_app. intros Hft.
    pose proof (lenZ_nonneg (entry_text [] i e)). pose proof (lenZ_nonneg (lines_text false (visible k ring (i + 1)))).
    destruct Hf1 as [_ ->]; [lia|]. destruct Hf2 as [_ ->]; [lia|]. rewrite Hf3 by lia. done.
Qed.

(** C37: [formatLogsJson] never writes outside its buffer: whatever lies behind the
    [outLen] bytes stays as it was, for any ring, range and size. It returns the
    length written, below [outLen] unless the opening alone does not fit, and when
    the document fits it is exactly the JSON of the entries of the range that are
    still in the ring, in order, their text escaped. *)
Theorem logs_json_exact ring head since out outLen : lenZ out = outLen -> 0 < outLen ->
  let '(len, o) := formatLogsJson ring head since out outLen in
  lenZ o = outLen /\
  (forall behind, formatLogsJson ring head since (out ++ behind) outLen = (len, o ++ behind)) /\
  (lenZ (logs_head head (dropped_before head since)) < outLen -> 0 <= len < outLen) /\
  (lenZ (logs_text ring head since) < outLen ->
   len = lenZ (logs_text ring head since) /\ take (Z.to_nat len) o = logs_text ring head since).
Proof.
  intros Ho Hn. unfold formatLogsJson, logs_text. replace (outLen <=? 0) with false by lia.
  set (h := logs_head _ _). set (t := lines_text _ _).
  destruct (snprintf_room [] out h) as (r1 & Hr1 & Hs & Hfit); [lia|]. cbn [app] in Hs. rewrite lenZ_nil, Ho in *.
  pose proof (Hs []) as Hs0. rewrite !app_nil_r in Hs0. rewrite Hs0.
  destruct (Z.leb_spec outLen (lenZ h)) as [Hh|Hh].
  { split; [lia|]. split; [intros g; by rewrite Hs|]. split; [intros; lia|].
    rewrite !lenZ_app. pose proof (lenZ_nonneg t). intros. unfold lenZ in *. cbn in *. lia. }
  destruct (Hfit Hh) as [r2 ->]. rewrite lenZ_app in Hr1.
  destruct (lines_loop_adds ring outLen (Z.to_nat (head - first_line head since)) (first_line head since) true h r2)
    as (s & r3 & Hp3 & (Hl3 & Hs3) & Hf3); [lia|lia|]. fold t in Hf3.
  destruct (snprintf_room (h ++ s) r3 (str "]}") Hp3) as (r4 & Hr4 & Hs4 & Hfit4).
  rewrite lenZ_app in Hs4. change (lenZ (str "]}")) with 2 in Hfit4.
  pose proof (Hs3 []) as Hs30. rewrite !app_nil_r in Hs30. rewrite Hs30.
  replace (outLen - (lenZ h + lenZ s)) with (lenZ r3) by lia.
  pose proof (Hs4 []) as Hs40. rewrite !app_nil_r, <- app_assoc in Hs40. rewrite Hs40, <- app_assoc.
  pose proof (lenZ_nonneg h). pose proof (lenZ_nonneg s).
  split; [rewrite !lenZ_app; lia|]. split; [|split].
  - intros g. rewrite Hs, <- app_assoc, Hs3. replace (outLen - (lenZ h + lenZ s)) with (lenZ r3) by lia.
    specialize (Hs4 g). rewrite <- !app_assoc in Hs4. rewrite Hs4, <- !app_assoc. done.
  - intros _. destruct (Z.ltb_spec 2 (lenZ r3)); lia.
  - rewrite !lenZ_app. change (lenZ (str "]}")) with 2. intros Hft. rewrite Hf3 in * by lia.
    destruct Hfit4 as [r5 ->]; [lia|]. replace (2 <? lenZ r3) with true by lia. split; [lia|].
    rewrite (app_assoc t), (app_assoc h), (app_assoc h). apply take_app_length'. rewrite !length_app.
    unfold lenZ. cbn. lia.
Qed.

(** Two lines, the second with a quotation mark: the document, and a buffer too
    small for the second. *)
Definition two_lines : list WebLogEntry :=
  wr (wr (replicate 200 no_entry) 0 (mkWebLogEntry 0 73 (str "up"))) 1 (mkWebLogEntry 1 87 [97; 34; 98]).

Lemma logs_json_exact_witness :
  let out := replicate 128 7 in
  lenZ out = 128 /\ logs_text two_lines 2 0 =
    json "{'head':2,'dropped':0,'lines':[{'seq':0,'sev':'I','text':'up'},{'seq':1,'sev':'W','text':'a" ++ [92; 34] ++ json "b'}]}" /\
  let '(len, o) := formatLogsJson two_lines 2 0 out 128 in
  lenZ o = 128 /\
  (forall behind, formatLogsJson two_lines 2 0 (out ++ behind) 128 = (len, o ++ behind)) /\
  (lenZ (logs_head 2 (dropped_before 2 0)) < 128 -> 0 <= len < 128) /\
  (lenZ (logs_text two_lines 2 0) < 128 ->
   len = lenZ (logs_text two_lines 2 0) /\ take (Z.to_nat len) o = logs_text two_lines 2 0).
Proof. split; [done|]. split; [vm_compute; reflexivity|]. by apply (logs_json_exact two_lines 2 0 (replicate 128 7) 128). Defined.

(** A comma is left behind by a line that no longer fits. *)
Lemma logs_json_comma :
  let '(len, o) := formatLogsJson two_lines 2 0 (replicate 80 7) 80 in
  take (Z.to_nat len) o = json "{'head':2,'dropped':0,'lines':[{'seq':0,'sev':'I','text':'up'},]}".
Proof. vm_compute. reflexivity. Qed.

(** ** The parsers' ranges *)

Lemma digits_nonneg l : forall n, 0 <= n -> 0 <= digits l n.
Proof.
  induction l as [|c l IH]; intros n Hn; cbn [digits]; [done|]. destruct (is_digit c) eqn:E; [|done].
  unfold is_digit in E. bool_prop. apply IH. lia.
Qed.

Lemma number_nonneg l : 0 <= snd (number l).
Proof. unfold number. repeat case_match; cbn [snd]; try (apply digits_nonneg; lia); lia. Qed.

Lemma strtoul_range l : 0 <= strtoul l < 2 ^ 32.
Proof.
  unfold strtoul. pose proof (number_nonneg l) as Hn. destruct (number l) as [neg n]. cbn [snd] in Hn.
  destruct (Z.ltb_spec 4294967295 n); [done|]. destruct neg; [apply u32_range|lia].
Qed.

Lemma atoi_range l : - 2 ^ 31 <= atoi l < 2 ^ 31.
Proof. unfold atoi. pose proof (number_nonneg l) as Hn. destruct (number l) as [neg n]. cbn [snd] in Hn. destruct neg; lia. Qed.

(** ** The size of the statistics *)

Lemma dec_loop_len k : forall j n, 0 <= n < 10 ^ Z.of_nat j -> (1 <= j)%nat -> (j <= k)%nat -> 0 <= lenZ (dec_loop k n) <= Z.of_nat j.
Proof.
  induction k as [|k IH]; intros j n Hn Hj Hk; [lia|]. cbn [dec_loop]. destruct (Z.ltb_spec n 10) as [H|H].
  - change (lenZ [48 + n]) with 1. lia.
  - destruct j as [|j]; [lia|]. rewrite lenZ_app. change (lenZ [48 + n mod 10]) with 1.
    destruct j as [|j]; [change (10 ^ Z.of_nat 1) with 10 in Hn; lia|].
    replace (Z.of_nat (S (S j))) with (Z.of_nat (S j) + 1) in * by lia. rewrite Z.pow_add_r in Hn by lia.
    specialize (IH (S j) (n / 10)). change (10 ^ 1) with 10 in Hn.
    assert (0 <= n / 10 < 10 ^ Z.of_nat (S j)); [|lia].
    split; [apply Z.div_pos; lia|apply Z.div_lt_upper_bound; lia].
Qed.

Lemma dec_len j n : 0 <= n < 10 ^ Z.of_nat j -> (1 <= j)%nat -> (j <= 20)%nat -> 0 <= lenZ (dec n) <= Z.of_nat j.
Proof. apply dec_loop_len. Qed.

Lemma sdec_len j n : - 10 ^ Z.of_nat j < n < 10 ^ Z.of_nat j -> (1 <= j)%nat -> (j <= 20)%nat -> 0 <= lenZ (sdec n) <= Z.of_nat j + 1.
Proof.
  intros. unfold sdec. destruct (Z.ltb_spec n 0); [rewrite lenZ_cons|]; pose proof (dec_len j (- n)); pose proof (dec_len j n); lia.
Qed.

(** The ranges of the fields. *)
Definition snap_ok (s : WebSnapshot) : Prop :=
  Forall is_u32 [errCount s; txBps s; rxBps s; freeHeap s; uptimeS s; baudRate s; webLogDropped s] /\
  Forall (fun n => 0 <= n < 2 ^ 64) [txTotal s; rxTotal s; errTotal s; lostMsgs s; postLockQuietDrops s;
    rateLimitedDrops s; txRingStallDrops s; logDrops s] /\
  Forall (fun n => - 2 ^ 31 <= n < 2 ^ 31) [rssi s; txDelayMs s] /\
  Forall is_byte [fillMode s; msgPaused s; linkMode s] /\
  lenZ (state s) <= 3 /\ lenZ (linkModeLabel s) <= 7 /\ lenZ (role s) <= 7.

(** Eight counters below [10 ^ 8]. *)
Definition counters_small (s : WebSnapshot) : Prop :=
  Forall (fun n => n < 10 ^ 8) [txTotal s; rxTotal s; errTotal s; lostMsgs s; postLockQuietDrops s;
    rateLimitedDrops s; txRingStallDrops s; logDrops s].

Ltac json_lens :=
  repeat match goal with
  | |- context [lenZ (json ?s)] => let v := eval vm_compute in (lenZ (json s)) in change (lenZ (json s)) with v
  end.

Lemma stats_len s lv v : snap_ok s -> counters_small s -> 0 <= lv <= 5 -> lenZ v <= 6 ->
  lenZ (stats_text s lv v) < 512.
Proof.
  intros (H32 & H64 & Hi & Hb & Hs & Hm & Hr) Hc Hl Hv. unfold counters_small in Hc.
  repeat match goal with
  | X : Forall _ (_ :: _) |- _ => apply Forall_cons_1 in X; destruct X
  | X : Forall _ [] |- _ => clear X
  end.
  unfold stats_text. rewrite !lenZ_app. json_lens. unfold is_u32, is_byte in *.
  assert (D10 : forall n, 0 <= n < 4294967296 -> lenZ (dec n) <= 10) by (intros; apply (dec_len 10); lia).
  assert (D8 : forall n, 0 <= n < 2 ^ 64 -> n < 10 ^ 8 -> lenZ (dec n) <= 8) by (intros; apply (dec_len 8); lia).
  assert (D3 : forall n, 0 <= n < 256 -> lenZ (dec n) <= 3) by (intros; apply (dec_len 3); lia).
  assert (S11 : forall n, - 2 ^ 31 <= n < 2 ^ 31 -> lenZ (sdec n) <= 11) by (intros; apply (sdec_len 10); lia).
  assert (S1 : lenZ (sdec lv) <= 1).
  { unfold sdec. replace (lv <? 0) with false by lia. apply (dec_len 1); lia. }
  repeat match goal with
  | X : 0 <= ?n < 4294967296 |- _ => apply D10 in X
  | X : 0 <= ?n < 2 ^ 64, Y : ?n < 10 ^ 8 |- _ => apply (D8 n X) in Y; clear X
  | X : 0 <= ?n < 256 |- _ => apply D3 in X
  | X : - 2 ^ 31 <= ?n < 2 ^ 31 |- _ => apply S11 in X
  end.
  clear D10 D8 D3 S11.
  repeat match goal with |- context [lenZ ?l] => generalize dependent (lenZ l); intros end.
  lia.
Qed.

(** A device that moved 2^64 bytes each way and met every error as often. *)
Definition worn : WebSnapshot :=
  mkSnapshot (str "SWP") 4294967295 4294967295 4294967295 (2 ^ 64 - 1) (2 ^ 64 - 1) (2 ^ 64 - 1) (2 ^ 64 - 1)
    (2 ^ 64 - 1) (2 ^ 64 - 1) (2 ^ 64 - 1) (2 ^ 64 - 1) (-100) 250000 4294967 115200 1 0 1 (str "ASYNC") 100 (str "Ping") 0.

Lemma worn_ok : snap_ok worn.
Proof. unfold snap_ok, is_u32, is_byte. cbn. split_and!; repeat constructor; cbn; try lia; done. Qed.

(** C38: The statistics document against the 512 bytes [handleStats] has for it: with
    every 64-bit counter below 10^8 it fits, at every level and for every version
    of up to six characters; and there are counter values for which the length
    answered, which is sent from that buffer, is beyond its end. *)
Theorem stats_body_bound (lv : Z) (version : list Z) : 0 <= lv <= 5 -> lenZ version <= 6 ->
  (forall s out, snap_ok s -> counters_small s -> lenZ out = 512 ->
     let '(len, o) := formatStatsJson s lv version out 512 in
     0 <= len < lenZ o /\ take (Z.to_nat len) o = stats_text s lv version) /\
  (exists s, snap_ok s /\ forall out, 512 < fst (formatStatsJson s lv version out 512)).
Proof.
  intros Hl Hv. split.
  - intros s out Hs Hc Ho. unfold formatStatsJson. cbn [Z.leb Z.compare].
    pose proof (stats_len s lv version Hs Hc Hl Hv) as Ht. set (t := stats_text s lv version) in *.
    destruct (snprintf_room [] out t) as (r1 & Hr1 & Hg & Hfit); [lia|]. destruct Hfit as [r2 ->]; [lia|].
    specialize (Hg []). cbn [app] in Hg. rewrite !app_nil_r, lenZ_nil, Ho in Hg. rewrite Hg. pose proof (lenZ_nonneg t).
    split; [lia|]. unfold lenZ. rewrite Nat2Z.id. by apply take_app_length.
  - exists worn. split; [apply worn_ok|]. intros out. cbn [formatStatsJson Z.leb Z.compare fst]. unfold stats_text. rewrite !lenZ_app.
    pose proof (lenZ_nonneg version). pose proof (lenZ_nonneg (sdec lv)).
    repeat match goal with
    | |- context [lenZ ?l] =>
        lazymatch l with
        | version => fail
        | sdec lv => fail
        | _ => let v := eval vm_compute in (lenZ l) in change (lenZ l) with v
        end
    end.
    lia.
Qed.

Lemma stats_body_bound_witness :
  let s := worn <| txTotal := 51234567 |> <| rxTotal := 50000000 |> <| errTotal := 2 |> <| lostMsgs := 0 |>
    <| postLockQuietDrops := 3 |> <| rateLimitedDrops := 0 |> <| txRingStallDrops := 1 |> <| logDrops := 0 |> in
  snap_ok s /\ counters_small s /\
  let '(len, o) := formatStatsJson s 3 (str "6.1.98") (replicate 512 7) 512 in
  0 <= len < lenZ o /\ take (Z.to_nat len) o = stats_text s 3 (str "6.1.98").
Proof.
  assert (Hs : snap_ok (worn <| txTotal := 51234567 |> <| rxTotal := 50000000 |> <| errTotal := 2 |> <| lostMsgs := 0 |>
    <| postLockQuietDrops := 3 |> <| rateLimitedDrops := 0 |> <| txRingStallDrops := 1 |> <| logDrops := 0 |>)).
  { unfold snap_ok, is_u32, is_byte. cbn. split_and!; repeat constructor; cbn; try lia; done. }
  split; [exact Hs|]. split; [by repeat constructor|].
  apply (stats_body_bound 3 (str "6.1.98")); [lia|done|exact Hs|by repeat constructor|done].
Defined.
End WebCore.
