(* ===== verification/WebLog.v ===== *)
(** * The web monitor's log feed ([AutoLinkWebHttpd.cpp], [AutoLinkWebHandlersData.cpp])

    [logSinkCb] puts the log lines into a ring of 200, [handleLogs] sends the ones
    a client has not seen yet. The two run in different tasks: each reading of the
    ring by the handler comes after any calls of the sink. The locks may time out,
    the socket may fail. *)
From Stdlib Require Import Strings.String.
From S2P Require Import Prelude WebCore.
Import WebCore.

Module WebLog.

(** ** The sink *)

(** The members of [AutoLinkWeb] the feed uses. *)
Record WebLog := mkWebLog {
  logRing_ : option (list WebLogEntry); logHead_ : Z; logDropped_ : Z; logDropWarned_ : bool; ntpSynced_ : bool;
}.
#[export] Instance eta_WebLog : Eta WebLog := fun r =>
  mkWebLog (logRing_ r) (logHead_ r) (logDropped_ r) (logDropWarned_ r) (ntpSynced_ r).

(** A call of the sink: whether the lock was taken within 5 ms, the clocks and the line. *)
Record SinkCall := mkSink {
  got : bool; tod : option (Z * Z * Z * Z); ms_total : Z; s_sev : Z; s_tag : list Z; s_msg : list Z;
}.

Definition uptime_stamp (ms : Z) : list Z :=
  let s := ms / 1000 in
  pad 2 (s / 3600) ++ str ":" ++ pad 2 (s mod 3600 / 60) ++ str ":" ++ pad 2 (s mod 60) ++ str "." ++
  pad 3 (ms mod 1000) ++ str "*".

Definition stamp (synced : bool) (c : SinkCall) : list Z :=
  snprintf 16
    (match synced, tod c with
     | true, Some (h, m, s, ms) => pad 2 h ++ str ":" ++ pad 2 m ++ str ":" ++ pad 2 s ++ str "." ++ pad 3 ms
     | _, _ => uptime_stamp (ms_total c)
     end).

Definition sink_line (synced : bool) (c : SinkCall) : list Z :=
  cstr (snprintf WEB_LINE_CAP
    (stamp synced c ++ str " " ++ [s_sev c] ++ str " " ++ cstr (s_tag c) ++ str " " ++ cstr (s_msg c))).

Definition logSinkCb (c : SinkCall) (w : WebLog) : WebLog :=
  match logRing_ w with
  | None => w
  | Some ring =>
      if negb (got c) then
        let w := w <| logDropped_ := u32 (logDropped_ w + 1) |> in
        if negb (logDropWarned_ w) then w <| logDropWarned_ := true |> else w
      else
        let w := w <| logDropWarned_ := false |> in
        let idx := logHead_ w mod WEB_RING_CAP in
        let e := mkWebLogEntry (logHead_ w) (s_sev c) (sink_line (ntpSynced_ w) c) in
        w <| logRing_ := Some (wr ring idx e) |> <| logHead_ := u32 (logHead_ w + 1) |>
  end.

Definition sinks (cs : list SinkCall) (w : WebLog) : WebLog := foldl (fun w c => logSinkCb c w) w cs.

(** What [begin] leaves: the ring zeroed. *)
Definition feed_init : WebLog := mkWebLog (Some (replicate 200 no_entry)) 0 0 false false.

(** ** The handler *)

(** What happens before the ring is read: calls of the sink, and whether the lock
    is taken within 50 ms. *)
Record Slice := mkSlice { before : list SinkCall; taken : bool }.

(** [strtoul] of the value of [since], if there is one. *)
Definition since_of (val : option (list Z)) : Z := match val with Some v => strtoul v | None => 0 end.

Definition CHUNK : Z := WEB_LINE_CAP * 2 + 64.

(** The chunk of one entry (lines 149-178), as the bytes sent. *)
Definition entry_chunk (i : Z) (e : WebLogEntry) : list Z :=
  let h := entry_head (str " ") i (sev e) in
  let chunk := snprintf_at (replicate (Z.to_nat CHUNK) 0) 0 CHUNK h in
  let '(chunk, pos) := esc_loop (line e) (CHUNK - 4) chunk (lenZ h) in
  take (Z.to_nat (pos + 2)) (put chunk pos (json "'}")).

(** [for (i = start; i < total; i++)], [k] rounds left: the chunks sent and whether
    all of them were; [send_ok i]: whether the socket takes entry [i]. The server
    starts after the ring is allocated, so the handler always finds one. *)
Fixpoint send_lines (k : nat) (i : Z) (first : bool) (slice : Z -> Slice) (send_ok : Z -> bool) (w : WebLog)
    : list (list Z) * bool * WebLog :=
  match k with
  | O => ([], true, w)
  | S k =>
      let w := sinks (before (slice i)) w in
      let e := match logRing_ w with Some ring => rd no_entry ring (i mod WEB_RING_CAP) | None => no_entry end in
      if negb (taken (slice i) && (seq e =? i)) then send_lines k (i + 1) first slice send_ok w
      else
        let sep := if first then [] else [str ","] in
        if negb (send_ok i) then (sep ++ [entry_chunk i e], false, w)
        else
          let '(cs, ok, w) := send_lines k (i + 1) false slice send_ok w in
          (sep ++ entry_chunk i e :: cs, ok, w)
  end.

(** The chunks given to the socket, whether the answer is [ESP_OK], and the feed after. *)
Definition handleLogs (val : option (list Z)) (lock : Slice) (slice : Z -> Slice) (send_ok : Z -> bool) (w : WebLog)
    : list (list Z) * bool * WebLog :=
  let since := since_of val in
  let w := sinks (before lock) w in
  let total := if taken lock then logHead_ w else 0 in
  let start := first_line total since in
  let head := snprintf 48 (logs_head total (dropped_before total since)) in
  let '(cs, ok, w) := send_lines (Z.to_nat (total - start)) start true slice send_ok w in
  (head :: cs ++ (if ok then [str "]}"] else []), ok, w).


(** ** The history *)

(** A line taken: its severity and text. *)
Definition Line : Type := Z * list Z.
Definition stored (synced : bool) (cs : list SinkCall) : list Line :=
  map (fun c => (s_sev c, sink_line synced c)) (List.filter got cs).

Definition nth_line (h : list Line) (i : Z) : Line := rd (0, []) h i.
Definition entry_of (h : list Line) (i : Z) : WebLogEntry := mkWebLogEntry i (fst (nth_line h i)) (snd (nth_line h i)).

(** The ring holds the last 200 lines of the history. *)
Definition feed_ok (h : list Line) (w : WebLog) : Prop :=
  exists ring, logRing_ w = Some ring /\ lenZ ring = WEB_RING_CAP /\ logHead_ w = lenZ h /\
    Forall (fun l => lenZ (snd l) < WEB_LINE_CAP) h /\
    forall i, ring_start (lenZ h) <= i < lenZ h -> rd no_entry ring (i mod WEB_RING_CAP) = entry_of h i.

Lemma feed_init_ok : feed_ok [] feed_init.
Proof. eexists. split; [reflexivity|]. split_and!; try done.
  intros i [H1 H2]. change (0 <= i) in H1. change (i < 0) in H2. lia.
Qed.

Lemma sink_line_short synced c : lenZ (sink_line synced c) < WEB_LINE_CAP.
Proof.
  assert (K : forall l, (length (cstr l) <= length l)%nat).
  { induction l as [|x l IH]; cbn [cstr]; [done|]. destruct (x =? 0); cbn; lia. }
  unfold sink_line, snprintf. set (t := take _ _). assert ((length t <= 179)%nat) by (unfold t; rewrite length_take; unfold WEB_LINE_CAP; lia).
  specialize (K t). unfold lenZ, WEB_LINE_CAP. lia.
Qed.

Lemma ring_start_range n : 0 <= n -> 0 <= ring_start n <= n /\ n - WEB_RING_CAP <= ring_start n.
Proof. unfold ring_start, WEB_RING_CAP. intros. destruct (Z.ltb_spec 200 n); lia. Qed.

Lemma nth_line_app h k i : 0 <= i < lenZ h -> nth_line (h ++ k) i = nth_line h i.
Proof. unfold nth_line, rd, lenZ. intros. rewrite app_nth1 by lia. done. Qed.

Lemma entry_of_app h k i : 0 <= i < lenZ h -> entry_of (h ++ k) i = entry_of h i.
Proof. intros. unfold entry_of. by rewrite nth_line_app. Qed.

Lemma mod_cap_ne i j : j - WEB_RING_CAP < i < j -> i mod WEB_RING_CAP <> j mod WEB_RING_CAP.
Proof. unfold WEB_RING_CAP. intros Hi E. Z.div_mod_to_equations. lia. Qed.

Lemma sink_ok h c w : feed_ok h w -> lenZ (h ++ stored (ntpSynced_ w) [c]) < 2 ^ 32 ->
  feed_ok (h ++ stored (ntpSynced_ w) [c]) (logSinkCb c w) /\ ntpSynced_ (logSinkCb c w) = ntpSynced_ w.
Proof.
  intros (ring & Er & Hl & Hh & Hs & Hr) Hn. unfold logSinkCb, stored in *. rewrite Er. cbn [List.filter map] in *.
  destruct (got c); cbn [negb map] in *.
  2: { rewrite app_nil_r. destruct (logDropWarned_ _); (split; [by exists ring|done]). }
  split; [|done]. eexists. split; [reflexivity|]. cbn [logHead_ logRing_ ntpSynced_ rset].
  pose proof (lenZ_nonneg h) as Hp. rewrite lenZ_app in *. change (lenZ [_]) with 1 in *. rewrite Hh.
  pose proof (Z.mod_pos_bound (lenZ h) WEB_RING_CAP eq_refl) as Hm. rewrite lenZ_wr. split; [done|].
  split; [by rewrite u32_small by (unfold is_u32; lia)|].
  split; [apply Forall_app; split; [done|]; repeat constructor; apply sink_line_short|].
  intros i Hi. destruct (Z.eqb_spec i (lenZ h)) as [->|Hne].
  - rewrite rd_wr_eq by lia. unfold entry_of, nth_line, rd. rewrite app_nth2 by (unfold lenZ; lia).
    unfold lenZ. by rewrite Nat2Z.id, Nat.sub_diag.
  - pose proof (ring_start_range (lenZ h) Hp). pose proof (ring_start_range (lenZ h + 1) ltac:(lia)).
    assert (Hi' : ring_start (lenZ h) <= i < lenZ h) by (unfold ring_start, WEB_RING_CAP in *; destruct (Z.ltb_spec 200 (lenZ h)), (Z.ltb_spec 200 (lenZ h + 1)); lia).
    rewrite rd_wr_ne; [rewrite Hr by done; symmetry; apply entry_of_app; lia| lia | apply Z.mod_pos_bound; done|].
    apply not_eq_sym, mod_cap_ne. lia.
Qed.

Lemma stored_cons synced c cs : stored synced (c :: cs) = stored synced [c] ++ stored synced cs.
Proof. unfold stored. cbn [List.filter]. by destruct (got c). Qed.

Lemma sinks_ok cs : forall h w, feed_ok h w -> lenZ (h ++ stored (ntpSynced_ w) cs) < 2 ^ 32 ->
  feed_ok (h ++ stored (ntpSynced_ w) cs) (sinks cs w) /\ ntpSynced_ (sinks cs w) = ntpSynced_ w.
Proof.
  induction cs as [|c cs IH]; intros h w Hw Hn; cbn [sinks foldl]; [by rewrite app_nil_r|].
  rewrite stored_cons, app_assoc in *. destruct (sink_ok h c w Hw) as [Hw' Es].
  { rewrite lenZ_app in Hn. pose proof (lenZ_nonneg (stored (ntpSynced_ w) cs)). lia. }
  destruct (IH _ _ Hw') as [Hw2 Es2]; rewrite Es in *; [done|]. split; [exact Hw2|exact Es2].
Qed.

(** ** An entry's chunk is its text *)

Lemma escaped_len l : lenZ (escaped l) <= 2 * lenZ l.
Proof.
  induction l as [|c l IH]; [done|]. unfold escaped in *. cbn [flat_map]. rewrite lenZ_app, lenZ_cons.
  pose proof (escape_len c). lia.
Qed.

Lemma entry_head_len sep i s : 0 <= i < 2 ^ 32 -> lenZ sep <= 1 -> 1 <= lenZ (entry_head sep i s) <= 38.
Proof.
  intros Hi Hs. unfold entry_head. rewrite !lenZ_app. json_lens. change (lenZ [s]) with 1.
  pose proof (dec_len 10 i ltac:(lia) ltac:(lia) ltac:(lia)). pose proof (lenZ_nonneg sep). lia.
Qed.

Lemma entry_chunk_text i e : 0 <= i < 2 ^ 32 -> lenZ (line e) < WEB_LINE_CAP ->
  entry_chunk i e = entry_text (str " ") i e.
Proof.
  intros Hi Hl. unfold entry_chunk, entry_text. set (h := entry_head _ _ _).
  assert (Hh : 1 <= lenZ h <= 38) by by apply entry_head_len.
  pose proof (escaped_len (line e)) as He. unfold WEB_LINE_CAP in *. change CHUNK with 424.
  set (r := replicate _ 0). assert (Hr : lenZ r = 424) by reflexivity.
  destruct (snprintf_room [] r h) as (r1 & Hr1 & Hs & Hfit); [lia|]. destruct Hfit as [r2 ->]; [lia|].
  specialize (Hs []). cbn [app] in Hs. rewrite !app_nil_r, Hr in Hs. change (lenZ []) with 0 in Hs. rewrite Hs.
  rewrite lenZ_app in Hr1.
  destruct (esc_loop_adds 424 (line e) h r2) as (s & r3 & [Hl3 Hs3] & _ & Hf); [lia|].
  specialize (Hs3 []). rewrite !app_nil_r in Hs3. rewrite Hs3, Hf in * by lia.
  pose proof (put_adds (h ++ escaped (line e)) r3 (json "'}")) as [_ Hp]; [change (lenZ (json "'}")) with 2; lia|].
  pose proof (f_equal fst (Hp [])) as Ep. cbn [fst] in Ep. rewrite lenZ_app, !app_nil_r, <- !app_assoc in Ep. rewrite Ep.
  rewrite (app_assoc h), (app_assoc (h ++ _)), (app_assoc h). apply take_app_length'. rewrite !length_app. unfold lenZ. cbn. lia.
Qed.

(** ** What a reply carries *)

(** The entries sent, [k] rounds from [i] on, and the history after them: an entry
    is left out when the lock timed out or 200 newer lines have replaced it. *)
Fixpoint sent (synced : bool) (k : nat) (i : Z) (slice : Z -> Slice) (h : list Line) : list Z * list Line :=
  match k with
  | O => ([], h)
  | S k =>
      let h := h ++ stored synced (before (slice i)) in
      let '(ids, h') := sent synced k (i + 1) slice h in
      (if taken (slice i) && (lenZ h <=? i + WEB_RING_CAP) then i :: ids else ids, h')
  end.

Fixpoint feed_text (first : bool) (h : list Line) (ids : list Z) : list Z :=
  match ids with
  | [] => []
  | i :: ids => comma first ++ entry_text (str " ") i (entry_of h i) ++ feed_text false h ids
  end.

Lemma sent_grows synced k : forall i slice h, lenZ h <= lenZ (snd (sent synced k i slice h)).
Proof.
  induction k as [|k IH]; intros i slice h; cbn [sent snd]; [lia|].
  specialize (IH (i + 1) slice (h ++ stored synced (before (slice i)))). destruct (sent _ _ _ _ _) as [ids h'].
  cbn [snd] in *. rewrite lenZ_app in IH. pose proof (lenZ_nonneg (stored synced (before (slice i)))). lia.
Qed.

(** The slot of line [i] holds it until line [i + 200] is stored. *)
Lemma ring_seq h w ring i : feed_ok h w -> logRing_ w = Some ring -> 0 <= i < lenZ h ->
  let e := rd no_entry ring (i mod WEB_RING_CAP) in
  (seq e =? i) = (lenZ h <=? i + WEB_RING_CAP) /\ (lenZ h <= i + WEB_RING_CAP -> e = entry_of h i).
Proof.
  intros (ring' & Er & Hl & Hh & Hs & Hr) E Hi. rewrite Er in E. injection E as ->. cbv zeta.
  assert (K : lenZ h <= i + WEB_RING_CAP -> rd no_entry ring (i mod WEB_RING_CAP) = entry_of h i).
  { intros Hle. apply Hr. unfold ring_start, WEB_RING_CAP in *. destruct (Z.ltb_spec 200 (lenZ h)); lia. }
  split; [|exact K]. destruct (Z.leb_spec (lenZ h) (i + WEB_RING_CAP)) as [Hle|Hgt].
  - rewrite K by done. cbn. apply Z.eqb_refl.
  - set (r := (lenZ h - 1 - i) mod WEB_RING_CAP). set (j := lenZ h - 1 - r).
    pose proof (Z.mod_pos_bound (lenZ h - 1 - i) WEB_RING_CAP eq_refl) as Hb. fold r in Hb.
    assert (Ej : j = i + (lenZ h - 1 - i) / WEB_RING_CAP * WEB_RING_CAP).
    { pose proof (Z.div_mod (lenZ h - 1 - i) WEB_RING_CAP ltac:(done)) as D. fold r in D. unfold j. lia. }
    assert (Em : i mod WEB_RING_CAP = j mod WEB_RING_CAP) by (rewrite Ej, Z.mod_add by done; done).
    rewrite Em, Hr. { cbn. apply Z.eqb_neq. unfold j, WEB_RING_CAP in *. lia. }
    unfold j, ring_start, WEB_RING_CAP in *. destruct (Z.ltb_spec 200 (lenZ h)); lia.
Qed.

Lemma entry_of_prefix h0 h i : h0 `prefix_of` h -> 0 <= i < lenZ h0 -> entry_of h i = entry_of h0 i.
Proof. intros [k ->] Hi. by apply entry_of_app. Qed.

Lemma entry_of_line h w i : feed_ok h w -> 0 <= i < lenZ h -> lenZ (line (entry_of h i)) < WEB_LINE_CAP.
Proof.
  intros (_ & _ & _ & _ & Hs & _) Hi. cbn. apply (proj1 (List.Forall_forall _ h) Hs). apply nth_In. unfold lenZ, Line in *. lia.
Qed.

Lemma send_lines_ok slice send_ok h0 k : forall i first h w,
  h0 `prefix_of` h -> feed_ok h w -> 0 <= i -> ((0 < k)%nat -> i + Z.of_nat k <= lenZ h0) ->
  let '(ids, h') := sent (ntpSynced_ w) k i slice h in
  lenZ h' < 2 ^ 32 ->
  let '(cs, ok, w') := send_lines k i first slice send_ok w in
  ok = forallb send_ok ids /\ (ok = true -> concat cs = feed_text first h0 ids /\ feed_ok h' w').
Proof.
  induction k as [|k IH]; intros i first h w Hpre Hw Hi Hk; cbn [sent send_lines].
  { intros _. done. }
  set (h1 := h ++ stored _ _). pose proof (sent_grows (ntpSynced_ w) k (i + 1) slice h1) as Hg.
  pose proof (sinks_ok (before (slice i)) h w Hw) as Hs. fold h1 in Hs.
  assert (Hpre1 : h0 `prefix_of` h1) by by apply prefix_app_r.
  destruct (sent _ k (i + 1) slice h1) as [ids h'] eqn:Es. cbn [snd] in Hg. intros Hn.
  destruct Hs as [Hw1 Esy]; [lia|]. set (w1 := sinks _ w) in *. rewrite <- Esy in Es.
  assert (Hlen : lenZ h0 <= lenZ h1) by by apply Nat2Z.inj_le, prefix_length.
  pose proof Hw1 as (ring & Er & _). rewrite Er.
  destruct (ring_seq h1 w1 ring i Hw1 Er) as [Eseq He]; [lia|]. rewrite Eseq.
  pose proof (IH (i + 1) first h1 w1 Hpre1 Hw1 ltac:(lia) ltac:(lia)) as IH1.
  pose proof (IH (i + 1) false h1 w1 Hpre1 Hw1 ltac:(lia) ltac:(lia)) as IH2. rewrite Es in IH1, IH2.
  specialize (IH1 Hn). specialize (IH2 Hn).
  destruct (taken (slice i)), (Z.leb_spec (lenZ h1) (i + WEB_RING_CAP)) as [Hle|_]; cbn [andb negb]; try exact IH1.
  rewrite (He Hle). assert (Hc : entry_chunk i (entry_of h1 i) = entry_text (str " ") i (entry_of h0 i)).
  { rewrite entry_chunk_text; [by rewrite (entry_of_prefix h0) by (done || lia)|lia|by apply (entry_of_line h1 w1); [|lia]]. }
  rewrite Hc. cbn [forallb]. destruct (send_ok i); cbn [negb andb]; [|done].
  destruct (send_lines k (i + 1) false slice send_ok w1) as [[cs ok] w']. destruct IH2 as [Eok Hcs].
  split; [done|]. intros Ht. destruct (Hcs Ht) as [Ecs Hw']. split; [|done]. cbn [feed_text]. rewrite <- Ecs.
  destruct first; [done|]. cbn [concat app comma]. done.
Qed.

(** Undoing the escapes, as the dashboard's [JSON.parse] does. *)
Fixpoint unescape (l : list Z) : list Z :=
  match l with
  | 92 :: c :: l => (if c =? 110 then 10 else if c =? 114 then 13 else c) :: unescape l
  | c :: l => c :: unescape l
  | [] => []
  end.

Lemma unescape_escaped l : unescape (escaped l) = l.
Proof.
  induction l as [|c l IH]; [done|]. change (escaped (c :: l)) with (escape c ++ escaped l). unfold escape.
  destruct (Z.eqb_spec c 34) as [->|]; [by cbn; rewrite IH|]. destruct (Z.eqb_spec c 92) as [->|]; [by cbn; rewrite IH|].
  destruct (Z.eqb_spec c 10) as [->|]; [by cbn; rewrite IH|]. destruct (Z.eqb_spec c 13) as [->|]; [by cbn; rewrite IH|].
  cbn [app]. transitivity (c :: unescape (escaped l)); [|by rewrite IH].
  destruct c as [|p|p]; try done. repeat (destruct p as [p|p|]; try done).
Qed.

(** With nothing in between every line of the range is sent. *)
Lemma sent_quiet synced k : forall i slice h, (forall i, slice i = mkSlice [] true) -> lenZ h <= i + WEB_RING_CAP ->
  sent synced k i slice h = (seqZ i (Z.of_nat k), h).
Proof.
  induction k as [|k IH]; intros i slice h Hq Hi; cbn [sent]; [done|]. rewrite Hq. cbn [before taken stored List.filter map].
  rewrite app_nil_r, IH by (done || lia). cbn [andb]. replace (lenZ h <=? i + WEB_RING_CAP) with true by lia.
  rewrite (seqZ_cons i) by lia. do 3 f_equal; lia.
Qed.

Lemma logs_head_len h d : 0 <= h < 10 ^ 9 -> 0 <= d < 10 ^ 9 -> lenZ (logs_head h d) <= 47.
Proof.
  intros Hh Hd. unfold logs_head. rewrite !lenZ_app. json_lens.
  pose proof (dec_len 9 h ltac:(lia) ltac:(lia) ltac:(lia)). pose proof (dec_len 9 d ltac:(lia) ltac:(lia) ltac:(lia)). lia.
Qed.

(** C36: The log feed is exact whatever the log does meanwhile. Let the ring hold the
    last 200 lines of a history of fewer than a billion, and let any lines be logged
    and any locks time out while [handleLogs] runs. A reply the socket takes is the
    JSON document of the lines from [since], or from the oldest one left, up to the
    head read first: each with its own number and text, in order, none torn or
    replaced by a newer one, and leaving out exactly those whose lock timed out or
    that 200 newer lines have replaced. With nothing in between none is left out,
    so a client that asks again from [head] misses only what [dropped] counts. The
    escaped texts decode to the lines. *)
Theorem log_feed_exact hist w val lock slice send_ok :
  feed_ok hist w ->
  let h0 := hist ++ stored (ntpSynced_ w) (before lock) in
  let since := since_of val in
  let total := if taken lock then lenZ h0 else 0 in
  let start := first_line total since in
  let '(ids, h') := sent (ntpSynced_ w) (Z.to_nat (total - start)) start slice h0 in
  lenZ h0 < 10 ^ 9 -> lenZ h' < 2 ^ 32 ->
  let '(cs, ok, w') := handleLogs val lock slice send_ok w in
  ok = forallb send_ok ids /\
  (ok = true ->
     concat cs = logs_head total (dropped_before total since) ++ feed_text true h0 ids ++ str "]}" /\ feed_ok h' w') /\
  (taken lock = true -> (forall i, slice i = mkSlice [] true) ->
     ids = seqZ start (total - start) /\ (since <= total -> start = since + dropped_before total since)) /\
  (forall l, unescape (escaped l) = l).
Proof.
  intros Hw h0 since total start.
  destruct (sent _ _ start slice h0) as [ids h'] eqn:Es. intros Hn Hn'. unfold handleLogs. fold since.
  pose proof (sinks_ok (before lock) hist w Hw) as Hs. fold h0 in Hs. destruct Hs as [Hw1 Esy]; [lia|].
  set (w1 := sinks _ w) in *. pose proof Hw1 as (_ & _ & _ & Ehd & _). rewrite Ehd.
  fold total. fold start. rewrite <- Esy in Es.
  pose proof (lenZ_nonneg h0). assert (Ht : 0 <= total <= lenZ h0) by (unfold total; destruct (taken lock); lia).
  pose proof (ring_start_range total ltac:(lia)) as Hr.
  assert (Hsince : 0 <= since) by (unfold since, since_of; destruct val; [apply strtoul_range|done]).
  assert (Hst : 0 <= start) by (unfold start, first_line; destruct (Z.ltb_spec (ring_start total) since); lia).
  pose proof (send_lines_ok slice send_ok h0 (Z.to_nat (total - start)) start true h0 w1) as Hl.
  rewrite Es in Hl.
  assert (Hdr : 0 <= dropped_before total since < 10 ^ 9) by (unfold dropped_before; destruct (Z.ltb_spec since (ring_start total)); lia).
  pose proof (logs_head_len total (dropped_before total since) ltac:(lia) Hdr) as Hhl.
  unfold snprintf. rewrite take_ge by (unfold lenZ in Hhl; lia).
  specialize (Hl ltac:(done) Hw1 Hst ltac:(lia) Hn').
  destruct (send_lines _ start true slice send_ok w1) as [[cs ok] w']. destruct Hl as [Eok Hcs].
  split; [done|]. split; [|split; [|apply unescape_escaped]].
  - intros ->. destruct (Hcs eq_refl) as [Ecs Hw']. split; [|done]. cbn [concat]. by rewrite concat_app, Ecs.
  - intros El Hq. unfold total in *. rewrite El in *. split.
    + rewrite sent_quiet in Es; [injection Es as <- _; unfold seqZ; by rewrite Nat2Z.id|done|].
      unfold start, first_line. rewrite El. destruct (Z.ltb_spec (ring_start (lenZ h0)) since); lia.
    + intros Hle. unfold start, first_line, dropped_before. rewrite El.
      destruct (Z.ltb_spec (ring_start (lenZ h0)) since), (Z.ltb_spec since (ring_start (lenZ h0))); lia.
Qed.

(** Three lines are logged, the lock misses the second; a client asks for all while
    a fourth comes in. *)
Definition a_call (g : bool) (ms : Z) (m : list Z) : SinkCall := mkSink g None ms 73 (str "Link") m.
Definition calls3 : list SinkCall := [a_call true 3661005 (str "up"); a_call false 3661006 (str "x"); a_call true 3661007 [34]].

Lemma log_feed_exact_witness :
  let slice := fun i => mkSlice (if i =? 0 then [a_call true 3661009 (str "more")] else []) true in
  let r := handleLogs None (mkSlice calls3 true) slice (fun _ => true) feed_init in
  feed_ok [] feed_init /\
  concat (fst (fst r)) = json "{'head':2,'dropped':0,'lines':[{'seq':0,'sev':'I', 'text':'01:01:01.005* I Link up'},{'seq':1,'sev':'I', 'text':'01:01:01.007* I Link " ++
    [92; 34] ++ json "'}]}" /\
  logHead_ (snd r) = 3 /\ snd (fst r) = true.
Proof.
  pose proof (log_feed_exact [] feed_init None (mkSlice calls3 true)
    (fun i => mkSlice (if i =? 0 then [a_call true 3661009 (str "more")] else []) true) (fun _ => true) feed_init_ok) as T.
  cbv zeta in T. split; [apply feed_init_ok|]. split; [vm_compute; reflexivity|]. split; [vm_compute; reflexivity|].
  revert T. destruct (sent _ _ _ _ _) as [ids h'] eqn:E. vm_compute in E. injection E as <- <-. intros T.
  destruct (handleLogs _ _ _ _ _) as [[cs ok] w']. destruct (T eq_refl eq_refl) as [-> _]. done.
Defined.
End WebLog.
