(* ===== verification/WebHandlers.v ===== *)
(** * The web monitor's request handlers ([AutoLinkWebHandlersData.cpp], [statTimerCb])

    Each handler as a function from the query value and what the device's services
    answer to the reply and the changes it makes, in order. The archive and
    firmware uploads are in [OtaHandlers], the log feed in [WebLog]. *)
From Stdlib Require Import Strings.String.
From S2P Require Import Prelude Config LinkState WebCore.
Import Config WebCore.

Module WebHandlers.

(** [httpd_resp_send(req, text, len)]. *)
Record Reply := mkReply { status : Z; text : list Z; len : Z }.

(** What a handler changes. *)
Inductive Effect :=
  | SetLogLevel (lv : Z) | PersistLogLevel (lv : Z) | PersistMode (m : Config.Mode)
  | WriteFillMode (m : Z) | WriteMsgPaused (p : bool) | WriteTxDelay (ms : Z)
  | ResetStats | ResetErrors | ResetDiag | ResetRates | Restart.

(** [httpd_query_key_value]: a value that does not fit the buffer is an error. *)
Definition query_value (size : Z) (v : option (list Z)) : option (list Z) :=
  match v with Some v => if lenZ v <? size then Some v else None | None => None end.

Definition ok_reply : Reply := mkReply 200 (str "ok") 2.

Definition handleReset (locked : bool) : Reply * list Effect :=
  (ok_reply, [ResetStats; ResetErrors; ResetDiag] ++ if locked then [ResetRates] else []).

(** [nvs]: whether the name space opens. *)
Definition handleLevel (v : option (list Z)) (nvs : bool) : Reply * list Effect :=
  match query_value 8 v with
  | None => (mkReply 400 (str "missing ?lv=") 13, [])
  | Some val =>
      let '(set, rc) := applyLogLevel (parseLevelQuery (Some val)) in
      if rc <? 0 then
        if rc =? -2 then
          (mkReply 400 (str "lv=0 (NONE) is rejected: silences all logs and is unrecoverable without reflash") 79, [])
        else (mkReply 400 (str "lv must be 1..5 (ERROR..VERBOSE)") 33, [])
      else
        (ok_reply, match set with Some lv => [SetLogLevel lv] | None => [] end ++
                   if nvs then [PersistLogLevel (u8 rc)] else [])
  end.

Definition handleMode (v : option (list Z)) (nvs : bool) : Reply * list Effect :=
  match query_value 12 v with
  | None => (mkReply 400 (str "missing ?m=") 12, [])
  | Some val =>
      let set m := (ok_reply, if nvs then [PersistMode m] else []) in
      if bool_decide (val = str "SYNC") then set SYNC
      else if bool_decide (val = str "ASYNC") then set ASYNC
      else (mkReply 400 (str "m must be SYNC or ASYNC") 24, [])
  end.

(** [hook]: whether the application installed one. *)
Definition handleFillMode (v : option (list Z)) (hook : bool) : Reply * list Effect :=
  match query_value 8 v with
  | None => (mkReply 400 (str "missing ?m=") 12, [])
  | Some val =>
      if negb hook then (mkReply 404 (str "no fill mode (Pong?)") 22, [])
      else
        let mode := if bool_decide (val = str "seq") then 0 else if bool_decide (val = str "rand") then 1 else 99 in
        if mode >? 1 then (mkReply 400 (str "m must be 'seq' or 'rand'") 25, [])
        else (ok_reply, [WriteFillMode mode])
  end.

Definition handleMsgPause (v : option (list Z)) (hook : bool) : Reply * list Effect :=
  match query_value 8 v with
  | None => (mkReply 400 (str "missing ?p=") 12, [])
  | Some val =>
      if negb hook then (mkReply 404 (str "no msg pause (Pong?)") 22, [])
      else if bool_decide (val = str "1") || bool_decide (val = str "true") then
        (mkReply 200 (str "paused") 6, [WriteMsgPaused true])
      else if bool_decide (val = str "0") || bool_decide (val = str "false") then
        (mkReply 200 (str "resumed") 7, [WriteMsgPaused false])
      else (mkReply 400 (str "p must be '1', '0', 'true', or 'false'") 38, [])
  end.

Definition handleDelay (v : option (list Z)) (hook : bool) : Reply * list Effect :=
  match query_value 12 v with
  | None => (mkReply 400 (str "missing ?ms=") 12, [])
  | Some val =>
      if negb hook then (mkReply 404 (str "no tx delay (Pong?)") 20, [])
      else
        let ms := atoi val in
        if ms <? 0 then (mkReply 400 (str "ms must be >= 0") 15, [])
        else (mkReply 200 (snprintf 16 (dec ms)) (lenZ (dec ms)), [WriteTxDelay ms])
  end.

Definition handleReboot : Reply * list Effect := (mkReply 200 (str "rebooting") 9, [Restart]).

(** The statistics: the bytes of the 512-byte buffer and the length sent. *)
Definition handleStats (snap : WebSnapshot) (level : Z) (version buf : list Z) : Z * list Z :=
  formatStatsJson snap level version buf 512.

(** ** The page *)

(** Sent in pieces of at most [size] until the socket fails: the pieces given to
    it and whether all were taken; [n]: the pieces before. *)
Fixpoint send_pieces (k : nat) (size : Z) (send_ok : Z -> bool) (n : Z) (l : list Z) : list (list Z) * bool :=
  match k, l with
  | S k, _ :: _ =>
      let piece := take (Z.to_nat size) l in
      if negb (send_ok n) then ([piece], false)
      else
        let '(ps, ok) := send_pieces k size send_ok (n + 1) (drop (Z.to_nat size) l) in
        (piece :: ps, ok)
  | _, _ => ([], true)
  end.

(** [parts]: the generated page; [file]: [/web/index.html], when the file system
    is mounted and it opens. *)
Fixpoint send_parts (parts : list (list Z)) (send_ok : Z -> bool) (n : Z) : list (list Z) * bool :=
  match parts with
  | [] => ([], true)
  | p :: parts =>
      let '(ps, ok) := send_pieces (length p) 4096 send_ok n p in
      if negb ok then (ps, false)
      else let '(qs, ok) := send_parts parts send_ok (n + lenZ ps) in (ps ++ qs, ok)
  end.

Definition handleRoot (file : option (list Z)) (parts : list (list Z)) (send_ok : Z -> bool) : list (list Z) * bool :=
  match file with
  | Some f => send_pieces (length f) 1024 send_ok 0 f
  | None => send_parts parts send_ok 0
  end.

(** ** The snapshot *)

(** What the timer reads: [Stats], [Diag] and the rest. *)
Record Readings := mkReadings {
  s_tx : Z; s_rx : Z; s_discCount : Z; s_frameErrs : Z; s_postLockQuietDrops : Z; s_rateLimitedDrops : Z;
  s_txRingStallDrops : Z; s_logDrops : Z; d_lostMsgs : Z; r_state : list Z; r_rssi : Z; r_heap : Z; r_millis : Z;
  r_baud : Z; r_mode : Config.Mode; r_fillMode : option Z; r_paused : option bool; r_txDelay : option Z;
}.

Record Rates := mkRates { prevTx_ : Z; prevRx_ : Z }.

Definition statTimerCb (r : Readings) (p : Rates) (s : WebSnapshot) : WebSnapshot * Rates :=
  let rate := fun cur prev => if cur >=? prev then u32 (cur - prev) else 0 in
  (s <| txBps := rate (s_tx r) (prevTx_ p) |> <| rxBps := rate (s_rx r) (prevRx_ p) |>
     <| txTotal := s_tx r |> <| rxTotal := s_rx r |> <| errTotal := s_discCount r |>
     <| errCount := u32 (s_frameErrs r) |> <| lostMsgs := d_lostMsgs r |>
     <| postLockQuietDrops := s_postLockQuietDrops r |> <| rateLimitedDrops := s_rateLimitedDrops r |>
     <| txRingStallDrops := s_txRingStallDrops r |> <| logDrops := s_logDrops r |>
     <| state := snprintf 4 (r_state r) |> <| rssi := i32 (r_rssi r) |> <| freeHeap := u32 (r_heap r) |>
     <| uptimeS := r_millis r / 1000 |> <| baudRate := r_baud r |>
     <| fillMode := match r_fillMode r with Some m => m | None => 0 end |>
     <| linkMode := if Config.is_sync (r_mode r) then 0 else 1 |>
     <| linkModeLabel := snprintf 8 (str (if Config.is_sync (r_mode r) then "SYNC" else "ASYNC")) |>
     <| msgPaused := match r_paused r with Some true => 1 | _ => 0 end |>
     <| txDelayMs := match r_txDelay r with Some d => i32 d | None => 0 end |>,
   mkRates (s_tx r) (s_rx r)).

Definition setRole (role : option (list Z)) (s : WebSnapshot) : WebSnapshot :=
  s <| WebCore.role := snprintf 8 (match role with Some r => r | None => [] end) |>.


(** ** The routes *)

(** [v]: the parameter's value; the flags are what the services answer. *)
Inductive Request :=
  | Reset (locked : bool) | Level (v : option (list Z)) (nvs : bool) | SetModeReq (v : option (list Z)) (nvs : bool)
  | FillModeReq (v : option (list Z)) (hook : bool) | MsgPause (v : option (list Z)) (hook : bool)
  | Delay (v : option (list Z)) (hook : bool) | Reboot.

Definition handle (r : Request) : Reply * list Effect :=
  match r with
  | Reset l => handleReset l
  | Level v nvs => handleLevel v nvs
  | SetModeReq v nvs => handleMode v nvs
  | FillModeReq v h => handleFillMode v h
  | MsgPause v h => handleMsgPause v h
  | Delay v h => handleDelay v h
  | Reboot => handleReboot
  end.

(** What may be changed, and to what. *)
Definition effect_ok (e : Effect) : Prop :=
  match e with
  | SetLogLevel lv | PersistLogLevel lv => 1 <= lv <= VERBOSE
  | WriteFillMode m => m = 0 \/ m = 1
  | WriteTxDelay ms => 0 <= ms < 2 ^ 31
  | _ => True
  end.

Lemma parseLevelQuery_range v : parseLevelQuery v < 0 \/ 1 <= parseLevelQuery v <= VERBOSE.
Proof.
  unfold parseLevelQuery, NONE, VERBOSE. destruct v as [[|c v]|]; [by left| |by left].
  destruct (Z.eqb_spec (atoi (c :: v)) 0); [by left|]. destruct (Z.ltb_spec (atoi (c :: v)) 0); [by left|].
  destruct (Z.ltb_spec 5 (atoi (c :: v))); [by left|]. right. cbn [orb]. lia.
Qed.

(** [applyLogLevel] of a parsed level: the level, or [-2]; never [-1]. *)
Lemma applyLogLevel_parsed v :
  applyLogLevel (parseLevelQuery v) =
    if parseLevelQuery v <? 0 then (None, -2) else (Some (parseLevelQuery v), parseLevelQuery v).
Proof.
  unfold applyLogLevel, NONE. destruct (parseLevelQuery_range v) as [H|H].
  - replace (parseLevelQuery v =? 0) with false by lia. by replace (parseLevelQuery v <? 0) with true by lia.
  - unfold VERBOSE in *. replace (parseLevelQuery v =? 0) with false by lia. replace (parseLevelQuery v <? 0) with false by lia.
    by replace (5 <? parseLevelQuery v) with false by lia.
Qed.

(** So a level above [VERBOSE] is answered like level 0. *)
Lemma level_range_message v nvs :
  text (fst (handleLevel v nvs)) <> str "lv must be 1..5 (ERROR..VERBOSE)" /\
  text (fst (handleLevel (Some (str "9")) nvs)) =
    str "lv=0 (NONE) is rejected: silences all logs and is unrecoverable without reflash".
Proof.
  split; [|done]. unfold handleLevel. destruct (query_value 8 v) as [val|]; [|done].
  rewrite applyLogLevel_parsed. destruct (Z.ltb_spec (parseLevelQuery (Some val)) 0) as [E|E]; [done|].
  replace (parseLevelQuery (Some val) <? 0) with false by lia. done.
Qed.

Lemma digits_app l : forall k n, Forall (fun c => is_digit c = true) l -> digits (l ++ k) n = digits k (digits l n).
Proof.
  induction l as [|c l IH]; intros k n Hl; [done|]. apply Forall_cons_1 in Hl as [Hc Hl]. cbn [app digits]. rewrite Hc. by apply IH.
Qed.

Lemma is_digit_range d : 0 <= d < 10 -> is_digit (48 + d) = true.
Proof. unfold is_digit. intros. replace (48 <=? 48 + d) with true by lia. by replace (48 + d <=? 57) with true by lia. Qed.

Lemma dec_loop_digits k : forall n, 0 <= n < 10 ^ Z.of_nat k ->
  Forall (fun c => is_digit c = true) (dec_loop k n) /\ digits (dec_loop k n) 0 = n.
Proof.
  induction k as [|k IH]; intros n Hn; cbn [dec_loop].
  { change (10 ^ Z.of_nat 0) with 1 in Hn. split; [done|]. cbn. lia. }
  destruct (Z.ltb_spec n 10) as [H|H].
  - split; [repeat constructor; apply is_digit_range; lia|]. cbn [digits]. rewrite is_digit_range by lia. lia.
  - replace (Z.of_nat (S k)) with (Z.of_nat k + 1) in Hn by lia. rewrite Z.pow_add_r in Hn by lia. change (10 ^ 1) with 10 in Hn.
    destruct (IH (n / 10)) as [Hf Hd]; [split; [apply Z.div_pos; lia|apply Z.div_lt_upper_bound; lia]|].
    pose proof (Z.mod_pos_bound n 10 eq_refl) as Hm. split.
    + apply Forall_app. split; [done|]. repeat constructor. by apply is_digit_range.
    + rewrite digits_app, Hd by done. cbn [digits]. rewrite is_digit_range by done. pose proof (Z.div_mod n 10 ltac:(done)). lia.
Qed.

(** What is printed is read back. *)
Lemma number_dec n : 0 <= n < 10 ^ 20 -> number (dec n) = (false, n).
Proof.
  intros Hn. destruct (dec_loop_digits 20 n) as [Hf Hd]; [done|]. unfold number. fold (dec n) in *.
  destruct (dec n) as [|c l] eqn:E; [cbn in Hd; by subst|]. pose proof Hf as Hc. apply Forall_cons_1 in Hc as [Hc _].
  unfold is_digit in Hc. bool_prop. cbn [skip_space]. unfold is_space.
  replace (c =? 32) with false by lia. replace (c <=? 13) with false by lia. rewrite andb_false_r. cbn [orb].
  replace (c =? 45) with false by lia. replace (c =? 43) with false by lia. by rewrite Hd.
Qed.

Lemma atoi_dec n : 0 <= n < 2 ^ 31 -> atoi (dec n) = n.
Proof. intros. unfold atoi. rewrite number_dec by lia. lia. Qed.

Lemma strtoul_dec n : 0 <= n < 2 ^ 32 -> strtoul (dec n) = n.
Proof. intros. unfold strtoul. rewrite number_dec by lia. by replace (4294967295 <? n) with false by lia. Qed.

Lemma handle_effects r :
  Forall effect_ok (snd (handle r)) /\ (status (fst (handle r)) <> 200 -> snd (handle r) = []) /\
  (status (fst (handle r)) = 200 \/ status (fst (handle r)) = 400 \/ status (fst (handle r)) = 404).
Proof.
  destruct r as [l|v nvs|v nvs|v h|v h|v h|]; cbn [handle].
  - destruct l; cbn; split_and!; try done; try (by repeat constructor); auto.
  - unfold handleLevel. destruct (query_value 8 v) as [val|]; [|cbn; split_and!; try done; auto].
    rewrite applyLogLevel_parsed. pose proof (parseLevelQuery_range (Some val)) as H.
    set (lv := parseLevelQuery (Some val)) in *. clearbody lv. destruct H as [H|H].
    + replace (_ <? 0) with true by lia. cbn. split_and!; try done; auto.
    + replace (lv <? 0) with false by lia. replace (lv <? 0) with false by lia.
      assert (E : u8 lv = lv) by (apply u8_small; unfold is_byte, VERBOSE in *; lia).
      destruct nvs; cbn; rewrite ?E; split_and!; auto; repeat constructor; cbn; lia.
  - unfold handleMode. destruct (query_value 12 v) as [val|]; [|cbn; split_and!; try done; auto].
    repeat case_bool_decide; destruct nvs; cbn; split_and!; try done; try (by repeat constructor); auto.
  - unfold handleFillMode. destruct (query_value 8 v) as [val|]; [|cbn; split_and!; try done; auto].
    destruct h; cbn [negb]; [|cbn; split_and!; try done; auto].
    repeat case_bool_decide; cbn; split_and!; try done; try (by repeat constructor; auto); auto.
  - unfold handleMsgPause. destruct (query_value 8 v) as [val|]; [|cbn; split_and!; try done; auto].
    destruct h; cbn [negb]; [|cbn; split_and!; try done; auto].
    repeat case_bool_decide; cbn; split_and!; try done; try (by repeat constructor); auto.
  - unfold handleDelay. destruct (query_value 12 v) as [val|]; [|cbn; split_and!; try done; auto].
    destruct h; cbn [negb]; [|cbn; split_and!; try done; auto]. pose proof (atoi_range val) as Ha.
    destruct (Z.ltb_spec (atoi val) 0) as [Hm|Hm]; cbn [fst snd status].
    + split; [constructor|]. split; [done|auto].
    + split; [repeat constructor; cbn; lia|]. split; [done|auto].
  - cbn. split_and!; try done; try (by repeat constructor); auto.
Qed.

(** What a request asks for: the changes each route stands for, by the text of its
    parameter ([nvs] and [hook]: the setting can be stored, the application has the
    feature). *)
Inductive asks : Request -> list Effect -> Prop :=
  | asks_reset locked :
      asks (Reset locked) ([ResetStats; ResetErrors; ResetDiag] ++ if locked then [ResetRates] else [])
  | asks_level val nvs : lenZ val < 8 -> 1 <= atoi val <= VERBOSE ->
      asks (Level (Some val) nvs) (SetLogLevel (atoi val) :: if nvs then [PersistLogLevel (atoi val)] else [])
  | asks_sync nvs : asks (SetModeReq (Some (str "SYNC")) nvs) (if nvs then [PersistMode SYNC] else [])
  | asks_async nvs : asks (SetModeReq (Some (str "ASYNC")) nvs) (if nvs then [PersistMode ASYNC] else [])
  | asks_seq : asks (FillModeReq (Some (str "seq")) true) [WriteFillMode 0]
  | asks_rand : asks (FillModeReq (Some (str "rand")) true) [WriteFillMode 1]
  | asks_pause val : val = str "1" \/ val = str "true" -> asks (MsgPause (Some val) true) [WriteMsgPaused true]
  | asks_resume val : val = str "0" \/ val = str "false" -> asks (MsgPause (Some val) true) [WriteMsgPaused false]
  | asks_delay val : lenZ val < 12 -> 0 <= atoi val -> asks (Delay (Some val) true) [WriteTxDelay (atoi val)]
  | asks_reboot : asks Reboot [Restart].

(** What is asked for is done, exactly; what asks for nothing is refused. *)
Definition answered (r : Request) : Prop :=
  (asks r (snd (handle r)) /\ status (fst (handle r)) = 200) \/
  ((forall es, ~ asks r es) /\ snd (handle r) = [] /\
   (status (fst (handle r)) = 400 \/ status (fst (handle r)) = 404)).

Ltac refused := right; split; [intros ? A; inversion A; subst; try done; try (by intuition subst); try lia|cbn; auto].

Lemma level_answered v nvs : answered (Level v nvs).
Proof.
  unfold answered; cbn [handle]; unfold handleLevel, query_value.
  destruct v as [val|]; [|refused]. destruct (Z.ltb_spec (lenZ val) 8) as [Hl|Hl]; [|refused].
  rewrite applyLogLevel_parsed. pose proof (parseLevelQuery_range (Some val)) as Hr.
  assert (E : 1 <= atoi val <= VERBOSE -> parseLevelQuery (Some val) = atoi val).
  { unfold parseLevelQuery, NONE, VERBOSE. destruct val as [|c val]; [cbn; lia|]. intros.
    replace (atoi (c :: val) =? 0) with false by lia. replace (atoi (c :: val) <? 0) with false by lia.
    by replace (5 <? atoi (c :: val)) with false by lia. }
  assert (E' : 1 <= parseLevelQuery (Some val) -> parseLevelQuery (Some val) = atoi val).
  { unfold parseLevelQuery, NONE. destruct val as [|c val]; [lia|].
    destruct (_ =? 0); [lia|]. destruct (_ || _); [lia|done]. }
  destruct (Z.ltb_spec (parseLevelQuery (Some val)) 0) as [Hn|Hn].
  - replace (parseLevelQuery (Some val) <? 0) with true by lia. cbn [Z.ltb Z.eqb]. refused.
  - replace (parseLevelQuery (Some val) <? 0) with false by lia. left. cbn [fst snd status]. split; [|done].
    assert (Hq : parseLevelQuery (Some val) = atoi val) by (apply E'; lia). rewrite Hq in Hr, Hn |- *.
    rewrite (u8_small (atoi val)) by (unfold is_byte, VERBOSE in *; lia).
    constructor; [done|lia].
Qed.

Lemma request_answered r : answered r.
Proof.
  destruct r as [l|v nvs|v nvs|v h|v h|v h|]; [| apply level_answered|unfold answered; cbn [handle]..].
  - left. split; [constructor|done].
  - unfold handleMode, query_value. destruct v as [val|]; [|refused]. destruct (Z.ltb_spec (lenZ val) 12); [|refused].
    case_bool_decide; [subst; left; split; [constructor|done]|].
    case_bool_decide; [subst; left; split; [constructor|done]|refused].
  - unfold handleFillMode, query_value. destruct v as [val|]; [|refused]. destruct (Z.ltb_spec (lenZ val) 8); [|refused].
    destruct h; [|refused]. cbn [negb]. case_bool_decide; [subst; left; split; [constructor|done]|].
    case_bool_decide; [subst; left; split; [constructor|done]|refused].
  - unfold handleMsgPause, query_value. destruct v as [val|]; [|refused]. destruct (Z.ltb_spec (lenZ val) 8); [|refused].
    destruct h; [|refused]. cbn [negb].
    repeat case_bool_decide; cbn [orb]; try (left; split; [constructor; by auto|done]); refused.
  - unfold handleDelay, query_value. destruct v as [val|]; [|refused]. destruct (Z.ltb_spec (lenZ val) 12); [|refused].
    destruct h; [|refused]. cbn [negb]. destruct (Z.ltb_spec (atoi val) 0); [refused|left; split; [by constructor|done]].
  - left. split; [constructor|done].
Qed.

(** A request asks for one thing. *)
Lemma asks_unique r es es' : asks r es -> asks r es' -> es = es'.
Proof. intros A. destruct A; intros B; inversion B; subst; try done; by intuition subst. Qed.

Lemma asked_done r es : asks r es -> snd (handle r) = es /\ status (fst (handle r)) = 200.
Proof.
  intros A. destruct (request_answered r) as [[A' Hs]|(N & _)]; [|by destruct (N es)].
  split; [by apply (asks_unique r)|done].
Qed.

Lemma not_asked_refused r : (forall es, ~ asks r es) ->
  snd (handle r) = [] /\ (status (fst (handle r)) = 400 \/ status (fst (handle r)) = 404).
Proof. intros N. destruct (request_answered r) as [[A _]|(_ & Hr)]; [by destruct (N _ A)|done]. Qed.

(** C39: Every web request changes exactly what it asks for, and one that asks for
    nothing is refused and changes nothing: [/reset] the three counters (and the
    rates, when the lock was had), [/level] the log level 1 to 5 it names, in use and
    in the store, [/mode] the stored mode, the one named, [/fillmode], [/pausemsg]
    and [/delay] the application's setting, to the value named, [/reboot] the
    device. So every value set is in range and no request silences the log. A value
    written as the device writes it is taken as it is: [/delay] and [/level] set
    exactly the number asked for and [/delay] echoes it. *)
Theorem requests_change_safely r :
  (forall es, asks r es -> snd (handle r) = es /\ status (fst (handle r)) = 200) /\
  ((forall es, ~ asks r es) ->
     snd (handle r) = [] /\ (status (fst (handle r)) = 400 \/ status (fst (handle r)) = 404)) /\
  Forall effect_ok (snd (handle r)) /\
  (status (fst (handle r)) <> 200 -> snd (handle r) = []) /\
  (forall lv, r = Level (Some (dec lv)) true -> 0 <= lv < 10 ^ 6 ->
     snd (handle r) = if (1 <=? lv) && (lv <=? VERBOSE) then [SetLogLevel lv; PersistLogLevel lv] else []) /\
  (forall ms, r = Delay (Some (dec ms)) true -> 0 <= ms < 2 ^ 31 ->
     handle r = (mkReply 200 (dec ms) (lenZ (dec ms)), [WriteTxDelay ms])).
Proof.
  destruct (handle_effects r) as (He & Hs & _). split; [apply asked_done|]. split; [apply not_asked_refused|].
  split; [exact He|]. split; [exact Hs|]. split.
  - intros lv -> Hl. cbn [handle]. unfold handleLevel, query_value. pose proof (dec_len 6 lv ltac:(lia) ltac:(lia) ltac:(lia)).
    replace (lenZ (dec lv) <? 8) with true by lia. rewrite applyLogLevel_parsed.
    assert (E : parseLevelQuery (Some (dec lv)) = if lv =? 0 then -2 else if lv >? VERBOSE then -3 else lv).
    { unfold parseLevelQuery. rewrite atoi_dec by lia. destruct (dec lv) eqn:Ed.
      - exfalso. revert Ed. unfold dec. cbn [dec_loop]. destruct (lv <? 10); [done|]. by intros [_ [=]]%app_eq_nil.
      - unfold NONE. replace (lv <? 0) with false by lia. done. }
    rewrite E. unfold VERBOSE. destruct (Z.eqb_spec lv 0) as [->|]; [done|]. destruct (Z.ltb_spec 5 lv).
    { replace (1 <=? lv) with true by lia. by replace (lv <=? 5) with false by lia. }
    replace (lv <? 0) with false by lia. replace (lv <? 0) with false by lia. replace (1 <=? lv) with true by lia.
    replace (lv <=? 5) with true by lia. cbn. by rewrite u8_small by (unfold is_byte; lia).
  - intros ms -> Hm. cbn [handle]. unfold handleDelay, query_value. pose proof (dec_len 10 ms ltac:(lia) ltac:(lia) ltac:(lia)).
    replace (lenZ (dec ms) <? 12) with true by lia. cbn [negb]. rewrite atoi_dec by lia.
    replace (ms <? 0) with false by lia. unfold snprintf. rewrite take_ge by (unfold lenZ in *; lia). done.
Qed.

(** The page arrives whole when the socket takes every piece. *)
Lemma send_pieces_whole send_ok size k : forall n l, 0 < size -> (length l <= k)%nat ->
  let '(ps, ok) := send_pieces k size send_ok n l in
  ok = true -> concat ps = l /\ Forall (fun p => 0 < lenZ p <= size) ps.
Proof.
  induction k as [|k IH]; intros n l Hs Hk; [destruct l; [done|cbn in Hk; lia]|].
  destruct l as [|x l]; [done|]. cbn [send_pieces]. destruct (negb (send_ok n)); [done|].
  assert (Hd : (length (drop (Z.to_nat size) (x :: l)) <= k)%nat) by (rewrite length_drop; cbn in *; lia).
  specialize (IH (n + 1) _ Hs Hd). destruct (send_pieces k size send_ok (n + 1) _) as [ps ok]. intros Ho.
  destruct (IH Ho) as [Hc Hf]. split; [cbn [concat]; by rewrite Hc, take_drop|]. constructor; [|done].
  unfold lenZ. rewrite length_take. cbn [length] in *. lia.
Qed.

Lemma send_parts_whole send_ok parts : forall n,
  let '(ps, ok) := send_parts parts send_ok n in
  ok = true -> concat ps = concat parts /\ Forall (fun p => 0 < lenZ p <= 4096) ps.
Proof.
  induction parts as [|p parts IH]; intros n; cbn [send_parts]; [done|].
  pose proof (send_pieces_whole send_ok 4096 (length p) n p eq_refl (Nat.le_refl _)) as Hp.
  destruct (send_pieces _ _ _ _ p) as [ps ok]. destruct ok; cbn [negb]; [|done].
  specialize (IH (n + lenZ ps)). destruct (send_parts parts send_ok _) as [qs ok]. intros Ho.
  destruct (Hp eq_refl) as [Hc Hf], (IH Ho) as [Hc' Hf']. split; [by rewrite concat_app, Hc, Hc'|by apply Forall_app].
Qed.

Lemma page_whole file parts send_ok :
  let '(ps, ok) := handleRoot file parts send_ok in
  ok = true -> concat ps = match file with Some f => f | None => concat parts end.
Proof.
  unfold handleRoot. destruct file as [f|].
  - pose proof (send_pieces_whole send_ok 1024 (length f) 0 f eq_refl (Nat.le_refl _)) as Hp.
    destruct (send_pieces _ _ _ _ f) as [ps ok]. intros Ho. by destruct (Hp Ho).
  - pose proof (send_parts_whole send_ok parts 0) as Hp. destruct (send_parts parts send_ok 0) as [ps ok]. intros Ho.
    by destruct (Hp Ho).
Qed.

(** The fields of a snapshot are in range when the readings are. *)
Definition readings_ok (r : Readings) : Prop :=
  Forall (fun n => 0 <= n < 2 ^ 64) [s_tx r; s_rx r; s_discCount r; s_postLockQuietDrops r; s_rateLimitedDrops r;
    s_txRingStallDrops r; s_logDrops r; d_lostMsgs r] /\
  is_u32 (r_millis r) /\ is_u32 (r_baud r) /\ match r_fillMode r with Some m => is_byte m | None => True end.

Lemma i32_range x : - 2 ^ 31 <= i32 x < 2 ^ 31.
Proof. unfold i32. pose proof (Z.mod_pos_bound (x + 2147483648) 4294967296 eq_refl). lia. Qed.

Lemma snprintf_len n s : 1 <= n -> lenZ (snprintf n s) <= n - 1.
Proof. unfold snprintf, lenZ. rewrite length_take. lia. Qed.

Ltac each tac := repeat (apply Forall_cons_2; [tac|]); apply Forall_nil_2.

Lemma statTimerCb_ok r p s : readings_ok r -> snap_ok s -> snap_ok (fst (statTimerCb r p s)).
Proof.
  intros (H64 & Hm & Hb & Hf) (H32 & _ & _ & _ & _ & _ & Hr). unfold statTimerCb. cbn [fst].
  repeat match goal with X : Forall _ (_ :: _) |- _ => apply Forall_cons_1 in X; destruct X | X : Forall _ [] |- _ => clear X end.
  assert (R : forall a b, is_u32 (if a >=? b then u32 (a - b) else 0)) by (intros a b; destruct (_ <=? _); [apply u32_range|done]).
  unfold snap_ok. cbn. split_and!.
  - each ltac:(first [apply R | apply u32_range | done | unfold is_u32 in *; Z.div_mod_to_equations; lia]).
  - each done.
  - each ltac:(destruct (r_txDelay r); first [apply i32_range | lia]).
  - each ltac:(unfold is_byte in *; destruct (r_fillMode r), (r_paused r) as [ []|], (is_sync (r_mode r)); lia).
  - apply snprintf_len. lia.
  - by destruct (is_sync (r_mode r)).
  - exact Hr.
Qed.

Lemma requests_change_safely_witness :
  snd (handle (Level (Some (str "3")) true)) = [SetLogLevel 3; PersistLogLevel 3] /\
  snd (handle (Level (Some (str "0")) true)) = [] /\
  handle (Delay (Some (str "250")) true) = (mkReply 200 (str "250") 3, [WriteTxDelay 250]) /\
  snd (handle (SetModeReq (Some (str "SYNC")) true)) = [PersistMode SYNC] /\
  snd (handle (SetModeReq (Some (str "sync")) true)) = [].
Proof.
  split_and!.
  - destruct (requests_change_safely (Level (Some (dec 3)) true)) as (_ & _ & _ & _ & K & _). by apply (K 3).
  - destruct (requests_change_safely (Level (Some (dec 0)) true)) as (_ & _ & _ & _ & K & _). by apply (K 0).
  - destruct (requests_change_safely (Delay (Some (dec 250)) true)) as (_ & _ & _ & _ & _ & K). by apply (K 250).
  - destruct (requests_change_safely (SetModeReq (Some (str "SYNC")) true)) as (K & _). apply K. constructor.
  - destruct (requests_change_safely (SetModeReq (Some (str "sync")) true)) as (_ & K & _). apply K. intros ? A. inversion A.
Defined.
End WebHandlers.
