(* ===== verification/WebLife.v ===== *)
(** * The web monitor's life cycle ([AutoLinkWebLifecycle.cpp], [AutoLinkWebHttpd.cpp])

    What the monitor owns (the log ring, the mutexes, the statistics timer, the
    HTTP server, the background WiFi task) and the operations that take and give
    it back. What the system answers is an argument of the operations; the
    counters of [Live] say how many of each object exist, and how many outlive
    their handle because a stop was refused, so that a lost handle shows. Log lines, the waiting for WiFi and NTP and the route table are left out. *)
From S2P Require Import Prelude.

Module WebLife.

Definition WIFI_RETRY_BACKOFF_MS_MIN : Z := 1000.
Definition WIFI_RETRY_BACKOFF_MS_MAX : Z := 30000.
Definition HTTPD_RETRY_MAX : nat := 14.
Definition NONE : Z := 0.
Definition INFO : Z := 3.
Definition VERBOSE : Z := 5.

(** The objects that exist, and how many of them the system refused to take back. *)
Record Live := mkLive {
  rings : Z; mutexes : Z; timers : Z; servers : Z; tasks : Z; lost_timers : Z; lost_servers : Z;
}.
#[export] Instance eta_Live : Eta Live := fun r =>
  mkLive (rings r) (mutexes r) (timers r) (servers r) (tasks r) (lost_timers r) (lost_servers r).

(** The members; [sink]: whether the log calls back; [level], [nvs_level]: the
    logger's level and the persisted one (255 when there is none). *)
Record Web := mkWeb {
  enabled_ : bool; ntpSynced_ : bool; fsOk_ : bool;
  logRing_ : bool; snapMtx_ : bool; logMtx_ : bool; statTimer_ : bool; server_ : bool; wifiTask_ : bool;
  sink : bool; level : Z; nvs_level : Z; webMaxMsgCap_ : Z; link_maxMsg : Z; backoffMs : Z; live : Live;
}.
#[export] Instance eta_Web : Eta Web := fun r =>
  mkWeb (enabled_ r) (ntpSynced_ r) (fsOk_ r) (logRing_ r) (snapMtx_ r) (logMtx_ r) (statTimer_ r) (server_ r)
    (wifiTask_ r) (sink r) (level r) (nvs_level r) (webMaxMsgCap_ r) (link_maxMsg r) (backoffMs r) (live r).

Definition kDefaultWebMaxMsgCap : Z := 2048.

(** [if (link_.maxMsg() > webMaxMsgCap_) link_.setMaxMsg(webMaxMsgCap_);] *)
Definition cap_link (w : Web) : Web :=
  if link_maxMsg w >? webMaxMsgCap_ w then w <| link_maxMsg := webMaxMsgCap_ w |> else w.

(** The constructor, on a link with [maxMsg]. *)
Definition web_init (maxMsg level nvs : Z) : Web :=
  cap_link (mkWeb false false false false false false false false false false level nvs kDefaultWebMaxMsgCap maxMsg
    WIFI_RETRY_BACKOFF_MS_MIN (mkLive 0 0 0 0 0 0 0)).

Definition setLinkMaxMsg (cap : Z) (w : Web) : Web := cap_link (w <| webMaxMsgCap_ := cap |>).

Definition mountFs_ (ok : bool) (w : Web) : Web := if fsOk_ w then w else w <| fsOk_ := ok |>.

(** What [esp_timer_delete] and [httpd_stop] answer ([esp_timer_stop]'s answer is only
    logged). *)
Record Stops := mkStops { timer_delete : bool; http_stop : bool }.

(** Give the statistics timer and the server back, if there are any: the handle is
    dropped whatever the answer, the object only goes when it was given back. *)
Definition stop_timer (a : Stops) (w : Web) : Web :=
  if statTimer_ w then
    let w := if timer_delete a then w <| live; timers ::= Z.pred |> else w <| live; lost_timers ::= Z.succ |> in
    w <| statTimer_ := false |>
  else w.
Definition stop_server (a : Stops) (w : Web) : Web :=
  if server_ w then
    let w := if http_stop a then w <| live; servers ::= Z.pred |> else w <| live; lost_servers ::= Z.succ |> in
    w <| server_ := false |>
  else w.

(** [httpd_start] until it succeeds, [k] attempts left: [start_ok i] is the [i]-th. *)
Fixpoint start_server (k : nat) (i : nat) (start_ok : nat -> bool) : bool :=
  match k with
  | O => false
  | S k => if start_ok i then true else start_server k (S i) start_ok
  end.

(** What the system answers to [setupHttpAndLogging_]. *)
Record SetupEnv := mkSetupEnv {
  mount : bool; ntp : bool; timer_create : bool; timer_start : bool; http_start : nat -> bool;
  stops : Stops }.

Definition setupHttpAndLogging_ (e : SetupEnv) (w : Web) : bool * Web :=
  if enabled_ w then (true, w)
  else if negb (logRing_ w) || negb (snapMtx_ w) || negb (logMtx_ w) then (false, w)
  else
    let w := mountFs_ (mount e) w in
    let w := if ntp e then w <| ntpSynced_ := true |> else w in
    let w := if timer_create e then w <| statTimer_ := true |> <| live; timers ::= Z.succ |> else w in
    let fail w := (false, stop_server (stops e) (stop_timer (stops e) w)) in
    if negb (timer_create e && timer_start e) then fail w
    else
      if negb (start_server HTTPD_RETRY_MAX 1 (http_start e)) then fail w
      else
        let w := w <| server_ := true |> <| live; servers ::= Z.succ |> in
        (true, w <| enabled_ := true |>).

(** The level restored from flash (lines 131-164); [nvs], [nvs_rw]: whether the name
    space opens for reading, for writing. *)
Definition restore_level (nvs nvs_rw : bool) (w : Web) : Web :=
  if nvs && (nvs_level w <>? 255) then
    if nvs_level w =? NONE then
      let w := w <| level := INFO |> in
      if nvs_rw then w <| nvs_level := INFO |> else w
    else if nvs_level w <=? VERBOSE then w <| level := nvs_level w |>
    else w
  else w.

Record BeginEnv := mkBeginEnv {
  ring_ok : bool; snap_ok : bool; log_ok : bool; nvs : bool; nvs_rw : bool; task_ok : bool;
}.

Definition begin (e : BeginEnv) (w : Web) : bool * Web :=
  if enabled_ w then (true, w)
  else
    let b := fun x : bool => if x then 1 else 0 in
    let w := w <| logRing_ := ring_ok e |> <| snapMtx_ := snap_ok e |> <| logMtx_ := log_ok e |>
      <| live; rings ::= Z.add (b (ring_ok e)) |> <| live; mutexes ::= Z.add (b (snap_ok e) + b (log_ok e)) |> in
    if negb (ring_ok e) || negb (snap_ok e) || negb (log_ok e) then
      (false, w <| live; rings ::= Z.add (- b (ring_ok e)) |> <| live; mutexes ::= Z.add (- (b (snap_ok e) + b (log_ok e))) |>
                <| logRing_ := false |> <| snapMtx_ := false |> <| logMtx_ := false |>)
    else
      let w := restore_level (nvs e) (nvs_rw e) (w <| sink := true |>) in
      (true, if wifiTask_ w then w
             else if task_ok e then w <| wifiTask_ := true |> <| live; tasks ::= Z.succ |> else w).

(** The destructor. *)
Definition destroy (a : Stops) (w : Web) : Web :=
  let w := stop_server a (stop_timer a w) in
  let w := w <| sink := false |> in
  let w := if snapMtx_ w then w <| live; mutexes ::= Z.pred |> <| snapMtx_ := false |> else w in
  let w := if logMtx_ w then w <| live; mutexes ::= Z.pred |> <| logMtx_ := false |> else w in
  let w := if logRing_ w then w <| live; rings ::= Z.pred |> else w in
  w <| logRing_ := false |>.

(** ** The background task ([wifiTaskThunk_]) *)

(** Without credentials: it connects in time and sets up, or gives up; then it ends. *)
Definition wifi_offline (connects : bool) (e : SetupEnv) (w : Web) : Web :=
  let w := if connects then snd (setupHttpAndLogging_ e w) else w in
  w <| wifiTask_ := false |> <| live; tasks ::= Z.pred |>.

(** A connection attempt that times out (lines 301-303). *)
Definition wifi_timeout (w : Web) : Web :=
  let b := u32 (backoffMs w * 2) in
  w <| backoffMs := if b >? WIFI_RETRY_BACKOFF_MS_MAX then WIFI_RETRY_BACKOFF_MS_MAX else b |>.

(** One that succeeds, and one pass of the set-up loop (lines 298, 307-321); the
    other task's [isUp] is the member. *)
Definition wifi_connected (w : Web) : Web := w <| backoffMs := WIFI_RETRY_BACKOFF_MS_MIN |>.
Definition wifi_setup (e : SetupEnv) (w : Web) : Web := if enabled_ w then w else snd (setupHttpAndLogging_ e w).

(** The connection is lost while the monitor is up (lines 325-352). *)
Definition wifi_drop (a : Stops) (w : Web) : Web :=
  let w := if enabled_ w then stop_timer a (stop_server a (w <| enabled_ := false |>)) else w in
  w <| backoffMs := WIFI_RETRY_BACKOFF_MS_MIN |>.

(** ** What holds throughout *)

Inductive LifeOp :=
  | Begin (e : BeginEnv) | SetLinkMaxMsg (cap : Z)
  | WifiOffline (connects : bool) (e : SetupEnv) | WifiTimeout | WifiConnected | WifiSetup (e : SetupEnv)
  | WifiDrop (a : Stops).

(** The task's steps are taken by the task. *)
Definition life_op (o : LifeOp) (w : Web) : Web :=
  match o with
  | Begin e => snd (begin e w)
  | SetLinkMaxMsg c => setLinkMaxMsg c w
  | _ =>
      if negb (wifiTask_ w) then w
      else
        match o with
        | WifiOffline c e => wifi_offline c e w
        | WifiTimeout => wifi_timeout w
        | WifiConnected => wifi_connected w
        | WifiSetup e => wifi_setup e w
        | WifiDrop a => wifi_drop a w
        | _ => w
        end
  end.

Definition b2z (b : bool) : Z := if b then 1 else 0.

Record life_ok (w : Web) : Prop := {
  up_server : enabled_ w = server_ w;
  up_timer : enabled_ w = statTimer_ w;
  up_ring : enabled_ w = true -> logRing_ w = true;
  all_ring : snapMtx_ w = logRing_ w /\ logMtx_ w = logRing_ w;
  all_timers : timers (live w) = b2z (statTimer_ w) + lost_timers (live w);
  all_servers : servers (live w) = b2z (server_ w) + lost_servers (live w);
  one_task : tasks (live w) = b2z (wifiTask_ w);
  backoff_range : WIFI_RETRY_BACKOFF_MS_MIN <= backoffMs w <= WIFI_RETRY_BACKOFF_MS_MAX;
  levels_ok : 1 <= level w <= VERBOSE /\ is_byte (nvs_level w);
}.


Ltac w_cbn := cbn [rset enabled_ ntpSynced_ fsOk_ logRing_ snapMtx_ logMtx_ statTimer_ server_ wifiTask_ sink level
  nvs_level webMaxMsgCap_ link_maxMsg backoffMs live rings mutexes timers servers tasks lost_timers lost_servers
  timer_delete http_stop] in *.

Lemma setup_ok e w : life_ok w ->
  let '(up, w') := setupHttpAndLogging_ e w in
  life_ok w' /\ up = enabled_ w' /\ wifiTask_ w' = wifiTask_ w /\ rings (live w') = rings (live w) /\
  logRing_ w' = logRing_ w /\ mutexes (live w') = mutexes (live w).
Proof.
  intros Hok. unfold setupHttpAndLogging_. destruct (enabled_ w) eqn:Een; [by split_and!|].
  destruct (negb _ || negb _ || negb _) eqn:Er; [by split_and!|]. destruct Hok as [E1 E2 E3 [E4 E5] E6 E7 E8 E9 E10].
  bool_prop. assert (Hr : logRing_ w = true) by done.
  unfold mountFs_, stop_server, stop_timer. destruct w as [en nt fs lr sm lm st sv wt sk lv nl mc mm bo [ri mu ti se ta lt ls]]. w_cbn.
  subst en st sv sm lm lr. unfold b2z in *.
  destruct fs, (ntp e), (timer_create e), (timer_start e), (start_server HTTPD_RETRY_MAX 1 (http_start e)),
    (stops e) as [ [] []]; w_cbn;
    (split; [split; w_cbn; unfold b2z; try done; lia|split_and!; done || lia]).
Qed.

(** Its locals taken apart, an operation is a case analysis. *)
Ltac life_cases w :=
  destruct w as [en nt fs lr sm lm st sv wt sk lv nl mc mm bo [ri mu ti se ta lt ls]]; w_cbn;
  repeat match goal with X : life_ok _ |- _ => destruct X as [? ? ? [? ?] ? ? ? ? [? ?] ]; w_cbn end; subst; unfold b2z in *.

Lemma restore_level_ok n rw w : 1 <= level w <= VERBOSE /\ is_byte (nvs_level w) ->
  1 <= level (restore_level n rw w) <= VERBOSE /\ is_byte (nvs_level (restore_level n rw w)) /\
  restore_level n rw w = w <| level := level (restore_level n rw w) |> <| nvs_level := nvs_level (restore_level n rw w) |>.
Proof.
  intros [Hl Hn]. unfold restore_level, NONE, INFO, VERBOSE, is_byte in *.
  destruct (n && _); [|destruct w; w_cbn; split_and!; done || lia].
  destruct (Z.eqb_spec (nvs_level w) 0); [destruct rw, w; w_cbn; split_and!; done || lia|].
  destruct (Z.leb_spec (nvs_level w) 5); destruct w; w_cbn; split_and!; done || lia.
Qed.

Lemma begin_ok e w : life_ok w -> life_ok (snd (begin e w)).
Proof.
  intros Hok. unfold begin. destruct (enabled_ w) eqn:Een; [done|].
  destruct (ring_ok e) eqn:Er, (snap_ok e) eqn:Es, (log_ok e) eqn:El; cbn [negb orb snd].
  2-8: life_cases w; split; w_cbn; unfold b2z; done || lia.
  set (w1 := rset sink _ _). pose proof (restore_level_ok (nvs e) (nvs_rw e) w1) as (Hl & Hn & ->).
  { destruct Hok as [? ? ? ? ? ? ? ? ?]. by destruct w. }
  set (l := level _) in *. set (v := nvs_level _) in *. clearbody l v. subst w1.
  life_cases w. destruct wt, (task_ok e); w_cbn; split; w_cbn; unfold b2z; done || lia.
Qed.

Lemma life_op_ok o w : life_ok w -> life_ok (life_op o w).
Proof.
  intros Hok. destruct o as [e|cap|c e| | |e|a]; cbn [life_op]; [by apply begin_ok| |destruct (wifiTask_ w) eqn:Et; cbn [negb]; [|exact Hok]..].
  - unfold setLinkMaxMsg, cap_link. life_cases w. destruct (_ <? _); by split; w_cbn.
  - unfold wifi_offline. pose proof (setup_ok e w Hok) as Hs. destruct (setupHttpAndLogging_ e w) as [up w'].
    destruct Hs as (Hok' & _ & Ew & _). cbn [snd]. rewrite <- Ew in Et. destruct c.
    + life_cases w'. split; w_cbn; unfold b2z; done || lia.
    + rewrite Ew in Et. life_cases w. split; w_cbn; unfold b2z; done || lia.
  - unfold wifi_timeout. life_cases w. unfold WIFI_RETRY_BACKOFF_MS_MIN, WIFI_RETRY_BACKOFF_MS_MAX in *.
    rewrite (u32_small (bo * 2)) by (unfold is_u32; lia). split; w_cbn; unfold b2z, WIFI_RETRY_BACKOFF_MS_MIN, WIFI_RETRY_BACKOFF_MS_MAX; try done.
    destruct (Z.ltb_spec 30000 (bo * 2)); lia.
  - unfold wifi_connected. life_cases w. split; w_cbn; unfold b2z; done || lia.
  - unfold wifi_setup. destruct (enabled_ w); [done|]. pose proof (setup_ok e w Hok) as Hs.
    destruct (setupHttpAndLogging_ e w). apply Hs.
  - unfold wifi_drop, stop_timer, stop_server. life_cases w. destruct st, a as [ [] []]; w_cbn; split; w_cbn; unfold b2z; done || lia.
Qed.

(** [begin] called again before the monitor is up: the first ring and both mutexes
    stay allocated and unreachable. *)
Definition given_back : Stops := mkStops true true.
Definition all_fine : BeginEnv := mkBeginEnv true true true false false true.
Lemma begin_twice_leaks :
  let w := snd (begin all_fine (snd (begin all_fine (web_init 5120 3 255)))) in
  rings (live w) = 2 /\ mutexes (live w) = 4 /\ rings (live (destroy given_back w)) = 1 /\ mutexes (live (destroy given_back w)) = 2.
Proof. done. Qed.

(** The destructor leaves the task running. *)
Lemma destroy_keeps_task :
  let w := destroy given_back (snd (begin all_fine (web_init 5120 3 255))) in tasks (live w) = 1 /\ logRing_ w = false.
Proof. done. Qed.

(** How often the ring is allocated. *)
Definition is_begin (o : LifeOp) : bool := match o with Begin _ => true | _ => false end.

(** The system takes back what it is given. *)
Definition stops_ok (a : Stops) : Prop := timer_delete a = true /\ http_stop a = true.
Definition op_ok (o : LifeOp) : Prop :=
  match o with WifiOffline _ e | WifiSetup e => stops_ok (stops e) | WifiDrop a => stops_ok a | _ => True end.

(** Nothing refused yet. *)
Definition none_lost (w : Web) : Prop := lost_timers (live w) = 0 /\ lost_servers (live w) = 0.

Lemma stop_lost a w : stops_ok a -> none_lost w -> none_lost (stop_timer a w) /\ none_lost (stop_server a w).
Proof. intros [E1 E2]. unfold none_lost, stop_timer, stop_server. rewrite E1, E2. destruct (statTimer_ w), (server_ w); auto. Qed.

Lemma setup_lost e w : stops_ok (stops e) -> none_lost w -> none_lost (snd (setupHttpAndLogging_ e w)).
Proof.
  intros Hs Hw. unfold setupHttpAndLogging_, mountFs_. destruct (enabled_ w); [done|]. destruct (_ || _); [done|].
  set (w1 := if fsOk_ w then _ else _). assert (H1 : none_lost w1) by (unfold w1; by destruct (fsOk_ w)). clearbody w1.
  set (w2 := if ntp e then _ else _). assert (H2 : none_lost w2) by (unfold w2; by destruct (ntp e)). clearbody w2.
  set (w3 := if timer_create e then _ else _). assert (H3 : none_lost w3) by (unfold w3; by destruct (timer_create e)).
  clearbody w3. destruct (negb _); [|destruct (negb _); [|done]]; cbn [snd]; apply stop_lost; try done; by apply stop_lost.
Qed.

Lemma life_op_lost o w : op_ok o -> none_lost w -> none_lost (life_op o w).
Proof.
  intros Ho Hw. destruct o as [e|cap|c e| | |e|a]; cbn [life_op].
  - unfold begin. destruct (enabled_ w); [done|]. destruct (ring_ok e), (snap_ok e), (log_ok e); try done. cbn [negb orb snd].
    unfold restore_level. destruct (_ && _); [destruct (_ =? _); [destruct (nvs_rw e)|destruct (_ <=? _)]|];
      w_cbn; destruct (wifiTask_ w), (task_ok e); done.
  - unfold setLinkMaxMsg, cap_link. by destruct (_ <? _).
  - destruct (negb _); [done|]. unfold wifi_offline. destruct c; [|done]. exact (setup_lost e w Ho Hw).
  - by destruct (negb _).
  - by destruct (negb _).
  - destruct (negb _); [done|]. unfold wifi_setup. destruct (enabled_ w); [done|]. by apply setup_lost.
  - destruct (negb _); [done|]. unfold wifi_drop. destruct (enabled_ w); [|done].
    change (none_lost (stop_timer a (stop_server a (w <| enabled_ := false |>)))). apply stop_lost; [done|]. by apply stop_lost.
Qed.

Lemma destroy_ok a w : life_ok w ->
  timers (live (destroy a w)) = lost_timers (live (destroy a w)) /\
  servers (live (destroy a w)) = lost_servers (live (destroy a w)).
Proof.
  intros Hok. unfold destroy, stop_server, stop_timer. life_cases w. destruct st, lr, a as [ [] []]; w_cbn; lia.
Qed.

Lemma destroy_lost a w : stops_ok a -> none_lost w -> none_lost (destroy a w).
Proof.
  intros Ha Hw. unfold destroy. assert (Hs : none_lost (stop_server a (stop_timer a w))) by (apply stop_lost; [done|by apply stop_lost]).
  revert Hs. generalize (stop_server a (stop_timer a w)). intros v Hv. destruct v as [en nt fs lr sm lm st sv wt sk lv nl mc mm bo [ri mu ti se ta lt ls]].
  unfold none_lost in *. w_cbn. by destruct sm, lm, lr.
Qed.

Lemma life_ops_ok ops : forall w, life_ok w -> life_ok (foldl (fun w o => life_op o w) w ops).
Proof. induction ops as [|o ops IH]; intros w Hw; [exact Hw|]. cbn [foldl]. by apply IH, life_op_ok. Qed.

Lemma life_ops_lost ops : Forall op_ok ops -> forall w, none_lost w -> none_lost (foldl (fun w o => life_op o w) w ops).
Proof. induction 1 as [|o ops Ho _ IH]; intros w Hw; [exact Hw|]. cbn [foldl]. by apply IH, life_op_lost. Qed.

(** C40: The web monitor never loses what it owns, as long as the system takes back
    what it is given. In every life (begun, its WiFi task connecting, timing out,
    setting up, losing the connection, in any order and whatever the system answers)
    the monitor is up exactly while it holds its server and its statistics timer and
    its log ring exists, a set-up that fails on the way gives back what it took,
    there is no timer and no server without its handle but those whose
    [esp_timer_delete] or [httpd_stop] failed (the handle is dropped then, too), the
    retry delay stays between one and thirty seconds, and the log is never silenced.
    Destroyed, it leaves only those behind: none, when every such call succeeded. *)
Theorem web_life maxMsg level nvs ops a : 1 <= level <= VERBOSE -> is_byte nvs ->
  let w := foldl (fun w o => life_op o w) (web_init maxMsg level nvs) ops in
  life_ok w /\
  timers (live (destroy a w)) = lost_timers (live (destroy a w)) /\
  servers (live (destroy a w)) = lost_servers (live (destroy a w)) /\
  (Forall op_ok ops ->
     timers (live w) = b2z (statTimer_ w) /\ servers (live w) = b2z (server_ w) /\
     (stops_ok a -> timers (live (destroy a w)) = 0 /\ servers (live (destroy a w)) = 0)).
Proof.
  intros Hl Hn w. assert (Hi : life_ok (web_init maxMsg level nvs) /\ none_lost (web_init maxMsg level nvs))
    by (unfold web_init, cap_link; destruct (_ <? _); split; done).
  destruct Hi as [Hi Hz]. assert (Hok : life_ok w) by by apply life_ops_ok. split; [exact Hok|].
  destruct (destroy_ok a w Hok) as [Ht Hs]. split; [exact Ht|]. split; [exact Hs|]. intros Ho.
  assert (Hw : none_lost w) by by apply life_ops_lost. pose proof Hw as [Z1 Z2].
  split; [rewrite (all_timers _ Hok), Z1; lia|]. split; [rewrite (all_servers _ Hok), Z2; lia|].
  intros Ha. rewrite Ht, Hs. by apply destroy_lost.
Qed.

Lemma web_life_witness :
  let up := mkSetupEnv true true true true (fun i => Nat.eqb i 3) given_back in
  let down := mkSetupEnv true false true true (fun _ => false) given_back in
  let ops := [Begin all_fine; WifiTimeout; WifiConnected; WifiSetup down; WifiSetup up; WifiDrop given_back; WifiConnected; WifiSetup up] in
  let w := foldl (fun w o => life_op o w) (web_init 5120 3 255) ops in
  enabled_ w = true /\ link_maxMsg w = 2048 /\
  life_ok w /\ timers (live (destroy given_back w)) = 0 /\ servers (live (destroy given_back w)) = 0.
Proof.
  intros up down ops w. split; [done|]. split; [done|].
  destruct (web_life 5120 3 255 ops given_back) as (Hok & _ & _ & Hb); [done..|]. split; [exact Hok|].
  apply Hb; [|done]. by repeat constructor.
Defined.

(** A refused [httpd_stop]: the monitor has lost a server that runs. *)
Example refused_stop :
  let up := mkSetupEnv true true true true (fun _ => true) given_back in
  let w := foldl (fun w o => life_op o w) (web_init 5120 3 255)
    [Begin all_fine; WifiSetup up; WifiDrop (mkStops true false)] in
  server_ w = false /\ servers (live w) = 1.
Proof. done. Qed.
End WebLife.
