(* ===== verification/AutoLink.v ===== *)
(** * The library's class ([include/AutoLink.h], [src/AutoLink.cpp])

    [AutoLink] holds a link, its hardware layer, the retransmit cache and the LED
    blinker, and forwards to them. [autolink_comm] is the link as the applications
    of [Comm] see it: the demo applications run over it unchanged. Between two
    calls the other tasks run ([yield]). *)
From S2P Require Import Prelude Monad Config ArqCache Arq Hal EspHal LinkState Tx Api Recv Comm Blink.
Import Comm Config ArqCache Arq Hal LinkState Tx Api Recv Blink.

Module AutoLink.

(** ** Statistics ([src/al/link/stats/LinkStats.h], [Link::getStats], [Link::getDiag]) *)

Record Stats := mkFullStats {
  st_tx : Z; st_rx : Z; st_discCount : Z; st_frameErrs : Z; st_badHeaderErrs : Z; st_overLenErrs : Z; st_crcFailErrs : Z;
  st_droppedChunksOnReset : Z; st_postLockQuietDrops : Z; st_rateLimitedDrops : Z; st_gbnWindowFullDrops : Z;
  st_poolExhaustDrops : Z; st_txRingStallDrops : Z; st_settleDrops : Z; st_acksSent : Z; st_naksSent : Z;
  st_holdNaksLiveness : Z; st_resyncDroppedBytes : Z; st_staleAmbiguous : Z; st_txBlockedMs : Z;
  st_rxOverflows : Z; st_rxFrameErrs : Z; st_logDrops : Z;
}.

(** [ovf], [ferr]: the hardware layer's counters; [dropped]: the log's. *)
Definition stats_of (ovf ferr dropped : Z) (l : Link) : Stats :=
  let c := cnt l in
  mkFullStats (txBytes c) (rxBytes c) (discCount c) (frameErrs c) (badHeaderErrs_ c) (overLenErrs_ c) (crcFailErrs_ c)
    (LinkState.droppedChunksOnReset c) (postLockQuietDrops_ c) (rateLimitedCount_ c) (gbnWindowFullDrops_ c) (poolExhaustDrops_ c)
    (txRingStallDrops_ c) (settleDrops_ c) (acksSent_ c) (naksSent_ c) (holdNaksLiveness_ c) (resyncDroppedBytes_ c)
    (staleAmbiguous_ c) (txBlockedMs_ c) ovf ferr dropped.

Record Diag := mkDiag {
  dg_txSeq : Z; dg_rxSeqSet : bool; dg_rxSeq : Z; dg_gaps : Z; dg_stale : Z; dg_lostMsgs : Z; dg_baudRetries : Z;
  dg_preferredBaud : Z; dg_resetReasons : list Z; dg_resetCount : Z; dg_breaksSuppressed : Z;
}.

Definition getDiag (l : Link) : Diag :=
  mkDiag (txSeq (txg l)) (rxSeqSet (rxg l)) (rxSeq (rxg l)) (gaps (cnt l)) (stale (cnt l)) (lostMsgs (cnt l))
    (u64 (baudRetries_ (swp l))) (preferredBaud_ (swp l)) (resetReasonCounts_ (cnt l)) (resetCount_ (cnt l))
    (breaksSuppressed_ (cnt l)).

(** ** The hardware layer's part the facade uses itself *)

Class HalMode (H : Type) := {
  hal_setMode : Mode -> H -> H;
  hal_getMode : H -> Mode;
  hal_healthy : H -> bool;
  hal_rxOverflowCount : H -> Z;
  hal_rxFrameErrCount : H -> Z;
}.

#[export] Instance esp_mode {D} `{EspHal.IdfLaws D} : HalMode (EspHal.EspDev (D := D)) := {
  hal_setMode := fun m => EspHal.does (EspHal.setMode m) (EspHal.setMode_inv m);
  hal_getMode := fun x => EspHal.getMode (`x);
  hal_healthy := fun x => EspHal.healthy (`x);
  hal_rxOverflowCount := fun x => EspHal.rxOverflows_ (`x);
  hal_rxFrameErrCount := fun x => EspHal.rxFrameErrs_ (`x);
}.

(** The desktop mock keeps the interface's defaults. *)
#[export] Instance mock_mode : HalMode MockHal := {
  hal_setMode := fun _ h => h;
  hal_getMode := fun _ => SYNC;
  hal_healthy := fun _ => true;
  hal_rxOverflowCount := fun _ => 0;
  hal_rxFrameErrCount := fun _ => 0;
}.

(** ** The class *)

Record AutoLink {H : Type} := mkAutoLink {
  isMasterNode_ : bool; cfg_ : AutoLinkConfig; blinker : UtilBlink; led : list BlinkCmd; net : World H;
}.
#[global] Arguments AutoLink H : clear implicits.
#[export] Instance eta_AutoLink {H} : Eta (AutoLink H) := fun r =>
  mkAutoLink H (isMasterNode_ r) (cfg_ r) (blinker r) (led r) (net r).

(** The constructor, over a hardware layer just constructed. *)
Definition autolink_init {H} (isMasterNode : bool) (c : AutoLinkConfig) (h : H) : AutoLink H :=
  let c := snd (clampToMaxBauds c) in
  mkAutoLink H isMasterNode c blink_init [] (mkWorld (link_init (cache_init AUTOLINK_ARQ_PIPELINE_WINDOW) isMasterNode c) h).

Section AutoLink.
Context {H : Type} `{IHal H} `{HalMode H} (yield : World H -> World H) (fuel : nat).
Implicit Types (a : AutoLink H).

(** A call of the link, and a look at it. *)
Definition via {A} (m : Act H A) (a : AutoLink H) : option (A * AutoLink H) :=
  match m (yield (net a)) with
  | Some (x, w) => Some (x, a <| net := w |>)
  | None => None
  end.
Definition see {A} (f : World H -> A) (a : AutoLink H) : A * AutoLink H :=
  let w := yield (net a) in (f w, a <| net := w |>).
Definition see_link {A} (f : Link -> A) : AutoLink H -> A * AutoLink H := see (fun w => f (lk w)).
(** A change of the link's own fields. *)
Definition poke (f : World H -> World H) (a : AutoLink H) : AutoLink H := a <| net := f (yield (net a)) |>.
Definition poke_link (f : Link -> Link) : AutoLink H -> AutoLink H := poke (fun w => mkWorld (f (lk w)) (hal w)).

Definition begin (a : AutoLink H) : option (bool * AutoLink H) := via (Recv.begin yield) a.

(** The error [begin] logs. *)
Definition mode_mismatch (a : AutoLink H) : bool :=
  negb (bool_decide (hal_getMode (hal (net a)) = mode (cfg (lk (net a))))).

(** The blinker's waits pass time. *)
Definition wait_cmd (h : H) (c : BlinkCmd) : H := match c with DelayMs ms => Hal.delayMs ms h | _ => h end.

Definition blinkWait (n onMs offMs delayMs : Z) (a : AutoLink H) : AutoLink H :=
  if n <=? 0 then a
  else
    let '(c, b) := if delayMs >? 0 then flashBlocking n onMs offMs delayMs (blinker a) else start n onMs offMs (blinker a) in
    a <| blinker := b |> <| led ::= (fun l => l ++ c) |>
      <| net ::= (fun w => mkWorld (lk w) (fold_left wait_cmd c (hal w))) |>.

(** [sendMsg(b, len, &seq)]: the base sequence number, a [uint8_t], is 0 when
    nothing was sent. *)
Definition sendMsg (b : list Z) (a : AutoLink H) : option (bool * Z * AutoLink H) :=
  match via (Api.sendMsg yield fuel b) a with
  | Some ((ok, base, _), a) => Some (ok, u8 base, a)
  | None => None
  end.

Definition send (b : list Z) (a : AutoLink H) : option (Z * AutoLink H) :=
  if lenZ b =? 0 then Some (0, a)
  else match sendMsg b a with Some (ok, _, a) => Some (if (ok : bool) then lenZ b else 0, a) | None => None end.

Definition length_of (r : Received) : Z := match r with Nothing => 0 | Failed => -1 | Message m => lenZ m end.

(** What [recv] hands over, and its result. *)
Definition recvMsg (max_len : Z) (a : AutoLink H) : option (Received * AutoLink H) := via (Recv.recvMsg yield fuel max_len) a.
Definition recv (max_len : Z) (a : AutoLink H) : option (Z * AutoLink H) :=
  match recvMsg max_len a with Some (r, a) => Some (length_of r, a) | None => None end.

Definition unit_of (r : option (unit * AutoLink H)) : option (AutoLink H) := option_map snd r.

Definition ready : AutoLink H -> bool * AutoLink H := see_link (fun l => bool_decide (state l = OK)).
Definition dropLink (a : AutoLink H) : option (AutoLink H) := unit_of (via Recv.dropLink a).
Definition flushRx (a : AutoLink H) : option (AutoLink H) := unit_of (via Recv.flushRx a).
Definition kickoff (a : AutoLink H) : option (AutoLink H) := unit_of (via (Recv.kickoff yield) a).
Definition setLinkPaused (p : bool) : AutoLink H -> AutoLink H := poke_link (rset ses (rset linkPaused_ (fun _ => p))).

Definition setMode (m : Mode) (a : AutoLink H) : AutoLink H :=
  poke (fun w => mkWorld ((lk w) <| cfg; mode := m |>) (hal_setMode m (hal w))) (a <| cfg_; mode := m |>).
Definition mode : AutoLink H -> Mode * AutoLink H := see_link (fun l => Config.mode (cfg l)).
Definition maxMsg : AutoLink H -> Z * AutoLink H := see_link (fun l => Config.maxMsg (cfg l)).
Definition setMaxMsg (m : Z) (a : AutoLink H) : AutoLink H :=
  poke_link (rset cfg (rset Config.maxMsg (fun _ => m))) (a <| cfg_; Config.maxMsg := m |>).
Definition setTxDelayMs (ms : Z) : AutoLink H -> AutoLink H :=
  poke_link (rset cfg (rset txDelayMs (fun _ => if ms <? 0 then 0 else ms))).
Definition getTxDelayMs : AutoLink H -> Z * AutoLink H := see_link (fun l => txDelayMs (cfg l)).

(** The sequence numbers are [uint8_t] results. *)
Definition lastAckSeq : AutoLink H -> Z * AutoLink H := see_link (fun l => u8 (lastAckSeq_ (gbn l))).
Definition lastNakSeq : AutoLink H -> Z * AutoLink H := see_link (fun l => u8 (lastNakSeq_ (gbn l))).
Definition lastRxSeq : AutoLink H -> Z * AutoLink H := see_link (fun l => u8 (lastRxSeq_ (rxg l))).
Definition bytesRecvdFor (seq : Z) : AutoLink H -> Z * AutoLink H := see_link (fun l => bytesFor seq (arq_ (txg l))).
Definition bytesRecvdForMessage (base lap : Z) : AutoLink H -> Z * AutoLink H :=
  see_link (fun l => bytesForMessage base lap (arq_ (txg l))).
Definition arqPendingCount : AutoLink H -> Z * AutoLink H := see_link (fun l => pendingCount (arq_ (txg l))).
Definition arqWindow : AutoLink H -> Z * AutoLink H := see_link (fun l => window_ (arqCache_ (txg l))).
Definition isAcked (seq : Z) : AutoLink H -> bool * AutoLink H := see_link (link_isAcked seq).
Definition lastSendMsgReason : AutoLink H -> SendMsgReason * AutoLink H := see_link (fun l => lastSendMsgReason_ (cnt l)).
Definition pendingAcks : AutoLink H -> Z * AutoLink H := see_link Recv.pendingAcks.
Definition getErrCount : AutoLink H -> Z * AutoLink H := see_link (fun l => errs (ses l)).
Definition getState : AutoLink H -> State * AutoLink H := see_link state.
Definition getCurrentBaud : AutoLink H -> Z * AutoLink H := see_link Recv.getCurrentBaud.
Definition diag : AutoLink H -> Diag * AutoLink H := see_link getDiag.
Definition isHealthy : AutoLink H -> bool * AutoLink H := see (fun w => hal_healthy (hal w)).
(** [dropped]: the log's dropped lines. *)
Definition getStats (dropped : Z) : AutoLink H -> Stats * AutoLink H :=
  see (fun w => stats_of (hal_rxOverflowCount (hal w)) (hal_rxFrameErrCount (hal w)) dropped (lk w)).

Definition resetStats (a : AutoLink H) : option (AutoLink H) := unit_of (via Recv.resetStats a).
Definition resetErrors (a : AutoLink H) : option (AutoLink H) := unit_of (via Recv.resetErrors a).
Definition resetDiag (a : AutoLink H) : option (AutoLink H) := unit_of (via Recv.resetDiag a).
Definition err (a : AutoLink H) : option (AutoLink H) := unit_of (via (Api.err CrcFail) a).
Definition clearErr (a : AutoLink H) : option (AutoLink H) := unit_of (via Api.clearErr a).
Definition available : AutoLink H -> option (Z * AutoLink H) := via Recv.available.
Definition peek : AutoLink H -> option (Z * AutoLink H) := via Recv.peek.
Definition read : AutoLink H -> option (Z * AutoLink H) := via Recv.read.
Definition write (b : list Z) : AutoLink H -> option (Z * AutoLink H) := via (Recv.write b).

(** ** The link the applications see *)

(** Arduino's clock and delay are the hardware layer's; its [random] is a parameter. *)
Context (arduino_random : Z -> H -> Z * H).

#[export] Instance autolink_comm : Comm (AutoLink H) := {
  Comm.begin := begin;
  Comm.isHealthy := isHealthy;
  Comm.ready := ready;
  Comm.sendMsg := sendMsg;
  Comm.recv := recv;
  Comm.flushRx := flushRx;
  Comm.kickoff := kickoff;
  Comm.setLinkPaused := setLinkPaused;
  Comm.setMode := setMode;
  Comm.mode := mode;
  Comm.maxMsg := maxMsg;
  Comm.txDelayMs := getTxDelayMs;
  Comm.lastNakSeq := lastNakSeq;
  Comm.isAcked := isAcked;
  Comm.arqPendingCount := arqPendingCount;
  Comm.arqWindow := arqWindow;
  Comm.lastSendMsgReason := lastSendMsgReason;
  Comm.getStats a :=
    let '(s, a) := getStats 0 a in (mkStats (st_tx s) (st_rx s) (st_droppedChunksOnReset s), a);
  Comm.blinkWait := blinkWait;
  Comm.millis a := let w := yield (net a) in let '(t, h) := nowMs (hal w) in (t, a <| net := mkWorld (lk w) h |>);
  Comm.delay ms := poke (fun w => mkWorld (lk w) (delayMs ms (hal w)));
  Comm.random n a := let w := yield (net a) in let '(r, h) := arduino_random n (hal w) in (r, a <| net := mkWorld (lk w) h |>);
}.
End AutoLink.
End AutoLink.
