(* ===== verification/AutoLinkLaws.v ===== *)
(** * The demo applications over the library's link

    [AutoLink.autolink_comm] has the laws of [Comm.CommLaws] where a call may fail
    to return (the wait of a send is bounded by the fuel of the model): on every
    object whose link is in the invariant of the baud sweep, under any background
    of events, and whose largest message fits the applications' buffers. So what
    [PingInv] and [PingSends] prove over the interface holds of the Ping
    application on the modelled link and device. *)
From stdpp Require Import relations.
From S2P Require Import Prelude Monad Comm Config ArqCache Arq Hal LinkState Tx Api Recv SweepInv System PingPong Ping.
From S2P Require Import PingInv PingSends Frames AutoLink.
Import Comm Config ArqCache Arq Hal LinkState Tx Api Recv Frames SweepInv System PingPong Ping PingInv PingSends AutoLink.

Module AutoLinkLaws.

(** The applications' buffers hold the largest message. *)
Definition small_msgs (c : AutoLinkConfig) : Prop := 1 <= Config.maxMsg c <= AUTOLINK_DEFAULT_MAX_MSG.

Section Laws.
Context {H : Type} `{HalApp H} `{!IHalLaws H} `{!HalMode H} (yield : World H -> World H) (fuel : nat) (n : Z).
Context (Hb : background yield) (arduino_random : Z -> H -> Z * H).
Context (Hr : forall k h, 0 < k -> 0 <= fst (arduino_random k h) < k).

Definition fits (a : AutoLink H) : Prop := sweep_ok n (partial small_msgs) (lk (net a)).
Definition Linked : Type := { a : AutoLink H | fits a }.

(** ** Every call keeps the invariant *)

Lemma yield_fits w : sweep_ok n (partial small_msgs) (lk w) -> sweep_ok n (partial small_msgs) (lk (yield w)).
Proof. apply background_sweep, Hb. Qed.

Lemma via_fits {A} (m : Act H A) a x a' :
  keeps True (on (sweep_ok n (partial small_msgs))) m -> fits a -> via yield m a = Some (x, a') -> fits a'.
Proof.
  intros Hm Ha E. specialize (Hm (yield (net a)) (yield_fits _ Ha)). unfold via, wpd in *.
  destruct (m (yield (net a))) as [[y w]|]; [|done]. injection E as _ <-. exact Hm.
Qed.

Lemma see_fits {A} (f : World H -> A) a : fits a -> fits (snd (see yield f a)).
Proof. apply yield_fits. Qed.

Lemma poke_fits f a :
  (forall l, sweep_ok n (partial small_msgs) l -> sweep_ok n (partial small_msgs) (f l)) ->
  fits a -> fits (poke_link yield f a).
Proof. intros Hf Ha. by apply Hf, yield_fits. Qed.

Lemma sendMsg_fits b a x a' : fits a -> AutoLink.sendMsg yield fuel b a = Some (x, a') -> fits a'.
Proof.
  intros Ha. unfold AutoLink.sendMsg. destruct (via _ _ _) as [[[[ok base] lap] a1]|] eqn:E; [|done].
  intros [= _ <-]. eapply via_fits; [|exact Ha|exact E]. by apply sendMsg_sweep; [|apply yield_fits].
Qed.

Lemma recv_fits k a x a' : fits a -> AutoLink.recv yield fuel k a = Some (x, a') -> fits a'.
Proof.
  intros Ha. unfold AutoLink.recv, AutoLink.recvMsg. destruct (via _ _ _) as [[r a1]|] eqn:E; [|done].
  intros [= _ <-]. eapply via_fits; [|exact Ha|exact E]. by apply recvMsg_sweep; [|apply yield_fits].
Qed.

Lemma run_fits (m : Act H unit) a a' :
  keeps True (on (sweep_ok n (partial small_msgs))) m -> fits a -> unit_of (via yield m a) = Some a' -> fits a'.
Proof.
  intros Hm Ha. unfold unit_of. destruct (via _ _ _) as [[[] a1]|] eqn:E; [|done]. intros [= <-].
  by eapply via_fits.
Qed.

Lemma flushRx_sweep : keeps True (on (H := H) (sweep_ok n (partial small_msgs))) Recv.flushRx.
Proof. exact (handle_sweep True n small_msgs EvFlushRx). Qed.

Lemma setMode_fits m a : fits a -> fits (AutoLink.setMode yield m a).
Proof.
  intros Ha. apply yield_fits in Ha. unfold fits, AutoLink.setMode, poke. cbn.
  destruct Ha as [[([? ? ? ? ? ?] & Hx & Hy & Hz & Hs & Hk) Hp] Hi].
  by split; [split; [split_and!|exact Hp]|exact Hi].
Qed.

Lemma blinkWait_fits k x y z a : fits a -> fits (AutoLink.blinkWait k x y z a).
Proof.
  intros Ha. unfold AutoLink.blinkWait. destruct (k <=? 0); [done|].
  by destruct (if z >? 0 then _ else _) as [c bl].
Qed.

(** ** The calls on objects in the invariant *)

Definition look {A} (f : AutoLink H -> A * AutoLink H) (Hf : forall a, fits a -> fits (snd (f a))) (x : Linked)
    : A * Linked :=
  (fst (f (`x)), exist _ (snd (f (`x))) (Hf (`x) (proj2_sig x))).

Definition change (f : AutoLink H -> AutoLink H) (Hf : forall a, fits a -> fits (f a)) (x : Linked) : Linked :=
  exist _ (f (`x)) (Hf (`x) (proj2_sig x)).

Definition attempt {A} (f : AutoLink H -> option (A * AutoLink H))
    (Hf : forall a r a', fits a -> f a = Some (r, a') -> fits a') (x : Linked) : option (A * Linked) :=
  match f (`x) as o return f (`x) = o -> option (A * Linked) with
  | Some (r, a') => fun E => Some (r, exist _ a' (Hf (`x) r a' (proj2_sig x) E))
  | None => fun _ => None
  end eq_refl.

Definition command (f : AutoLink H -> option (AutoLink H)) (Hf : forall a a', fits a -> f a = Some a' -> fits a')
    (x : Linked) : option Linked :=
  match f (`x) as o return f (`x) = o -> option Linked with
  | Some a' => fun E => Some (exist _ a' (Hf (`x) a' (proj2_sig x) E))
  | None => fun _ => None
  end eq_refl.


Lemma begin_fits a r a' : fits a -> AutoLink.begin yield a = Some (r, a') -> fits a'.
Proof.
  intros Ha. apply via_fits; [|exact Ha]. by apply begin_sweep, yield_fits.
Qed.

Lemma kickoff_fits a a' : fits a -> AutoLink.kickoff yield a = Some a' -> fits a'.
Proof. apply run_fits. by apply kickoff_sweep, yield_fits. Qed.

Lemma flushRx_fits a a' : fits a -> AutoLink.flushRx yield a = Some a' -> fits a'.
Proof. apply run_fits, flushRx_sweep. Qed.

Lemma setLinkPaused_fits p a : fits a -> fits (AutoLink.setLinkPaused yield p a).
Proof. by apply poke_fits. Qed.

Lemma getStats_fits a : fits a -> fits (snd (Comm.getStats (Comm := autolink_comm yield fuel arduino_random) a)).
Proof. apply yield_fits. Qed.

Lemma millis_fits a : fits a -> fits (snd (Comm.millis (Comm := autolink_comm yield fuel arduino_random) a)).
Proof. intros Ha. apply yield_fits in Ha. unfold fits. cbn. by destruct (nowMs _) as [t h]. Qed.

Lemma delay_fits ms a : fits a -> fits (Comm.delay (Comm := autolink_comm yield fuel arduino_random) ms a).
Proof. apply yield_fits. Qed.

Lemma random_fits k a : fits a -> fits (snd (Comm.random (Comm := autolink_comm yield fuel arduino_random) k a)).
Proof. intros Ha. apply yield_fits in Ha. unfold fits. cbn. by destruct (arduino_random _ _) as [t h]. Qed.

#[export] Instance linked_comm : Comm Linked := {
  Comm.begin := attempt (AutoLink.begin yield) begin_fits;
  Comm.isHealthy := look (AutoLink.isHealthy yield) (see_fits _);
  Comm.ready := look (AutoLink.ready yield) (see_fits _);
  Comm.sendMsg b x :=
    match attempt (fun a => AutoLink.sendMsg yield fuel b a) (sendMsg_fits b) x with
    | Some (ok, seq, x) => Some (ok, seq, x)
    | None => None
    end;
  Comm.recv k := attempt (AutoLink.recv yield fuel k) (recv_fits k);
  Comm.flushRx := command (AutoLink.flushRx yield) flushRx_fits;
  Comm.kickoff := command (AutoLink.kickoff yield) kickoff_fits;
  Comm.setLinkPaused p := change (AutoLink.setLinkPaused yield p) (setLinkPaused_fits p);
  Comm.setMode m := change (AutoLink.setMode yield m) (setMode_fits m);
  Comm.mode := look (AutoLink.mode yield) (see_fits _);
  Comm.maxMsg := look (AutoLink.maxMsg yield) (see_fits _);
  Comm.txDelayMs := look (AutoLink.getTxDelayMs yield) (see_fits _);
  Comm.lastNakSeq := look (AutoLink.lastNakSeq yield) (see_fits _);
  Comm.isAcked s := look (AutoLink.isAcked yield s) (see_fits _);
  Comm.arqPendingCount := look (AutoLink.arqPendingCount yield) (see_fits _);
  Comm.arqWindow := look (AutoLink.arqWindow yield) (see_fits _);
  Comm.lastSendMsgReason := look (AutoLink.lastSendMsgReason yield) (see_fits _);
  Comm.getStats := look _ getStats_fits;
  Comm.blinkWait k x y z := change (AutoLink.blinkWait k x y z) (blinkWait_fits k x y z);
  Comm.millis := look _ millis_fits;
  Comm.delay ms := change _ (delay_fits ms);
  Comm.random k := look _ (random_fits k);
}.

(** A message takes a byte of the application buffer at least. *)
#[export] Instance linked_backlog : Backlog Linked := fun x => length (appq (hal (net (`x)))).

#[export] Instance linked_laws : CommLaws True Linked.
Proof.
  split; try done.
  - intros b x. cbn. destruct (attempt _ _ x) as [[[ok seq] x']|] eqn:E; [|done].
    revert E. unfold attempt. generalize (sendMsg_fits b (`x)). unfold AutoLink.sendMsg.
    destruct (via _ _ _) as [[[[ok1 base] lap] a1]|]; [|done]. intros Hf [= _ <- _]. apply u8_byte.
  - intros k x. destruct (Comm.recv k x) as [[r x']|]; [|done]. by left.
  - intros x. apply u8_byte.
  - intros x. apply (yield_fits _ (proj2_sig x)).
  - intros x. cbn. pose proof (nowMs_u32 (hal (yield (net (`x))))) as L. by destruct (nowMs _).
  - intros k x Hk. cbn. specialize (Hr k (hal (yield (net (`x)))) Hk). by destruct (arduino_random _ _).
Qed.

(** ** From the constructor on *)

Lemma init_fits m c h : cfg_ok c -> allowedBaudsCount c = n -> small_msgs c -> fits (autolink_init m c h).
Proof.
  intros Hc Hn Hs. unfold fits, autolink_init. rewrite clamp_id, <- Hn by done.
  exact (fresh_sweep small_msgs AUTOLINK_ARQ_PIPELINE_WINDOW m c h Hc Hs).
Qed.

(** The link behind the object. *)
Definition link_of (x : Linked) : Link := lk (net (proj1_sig x)).

Definition linked_init m c h (Hc : cfg_ok c) (Hn : allowedBaudsCount c = n) (Hs : small_msgs c) : Linked :=
  exist _ (autolink_init m c h) (init_fits m c h Hc Hn Hs).

(** C35: The Ping application over the library: constructed with an [AutoLink] object
    of any valid configuration whose largest message fits 5120 bytes, over any
    hardware layer and with any events and timers running between its calls,
    whatever methods of it are called in whatever order. In every state it is
    well typed and the link's baud indices are in range, and the messages the
    next [loop] hands to the link are one burst of the specification [sends], bounded
    by the mode it reads from the link. *)
Theorem ping_over_autolink m c h Hc Hn Hs ops :
  match ping_run ops (mkNode ping_init (linked_init m c h Hc Hn Hs, [] : list Event)) with
  | Some x =>
      ping_ok (app x) /\ sweep_ok n (partial small_msgs) (link_of (fst (io x))) /\
      match loop x with Some (_, x') => loop_sent x x' | None => True end
  | None => True
  end.
Proof.
  pose proof (ping_run_ok (W := T Linked) ops (mkNode ping_init (linked_init m c h Hc Hn Hs, [])) ping_init_ok) as L.
  destruct (ping_run _ _) as [x|]; [|done]. split; [exact L|]. split; [exact (proj2_sig (fst (io x)))|].
  exact (loop_sent_wpd x L).
Qed.
End Laws.

(** Over the desktop mock. A peer that answers the sweep with a LOCK frame; a
    call takes a millisecond. *)
Definition peer_yield (w : World MockHal) : World MockHal :=
  let w := mkWorld (lk w) (mock_advance 1 (hal w)) in
  if bool_decide (state (lk w) = SWP) then
    match handle (EvRx (sealed [0xAA; 0x55; 1; LOCK_CMD])) w with Some (_, w) => w | None => w end
  else w.

Lemma peer_background : background peer_yield.
Proof.
  intros w. unfold peer_yield. set (w1 := mkWorld _ _). assert (T1 : rtc tick w w1) by apply rtc_once, tick_hal.
  clearbody w1. destruct (bool_decide _); [|done]. destruct (handle _ w1) as [[[] w2]|] eqn:E; [|done].
  eapply rtc_r; [exact T1|]. by eapply tick_event.
Qed.

Lemma zero_random (k : Z) (h : MockHal) : 0 < k -> 0 <= fst (0, h) < k.
Proof. cbn. lia. Qed.

Lemma demo_small : small_msgs demo_cfg.
Proof. split; by vm_compute. Qed.

Definition demo_linked : Linked 6 :=
  linked_init 6 false demo_cfg (mock_init 4096) demo_cfg_ok eq_refl demo_small.
#[local] Instance demo_comm : Comm (Linked 6) := linked_comm peer_yield 10 6 peer_background (fun _ h => (0, h)) .
#[local] Instance demo_backlog : Backlog (Linked 6) := linked_backlog 6.

(** The link locks, the settle time passes, and a burst of sixteen goes out. *)
Lemma ping_over_autolink_witness :
  let x := ping_run (Setup None false :: replicate 800 Loop) (mkNode ping_init (demo_linked, [] : list Event)) in
  option_map (fun x => (state (link_of 6 (fst (io x))), omap (fun e => match e with Gave s => Some (lenZ (fst s), snd s) | Asked _ => None end) (snd (io x)))) x =
    Some (OK, map (fun k => (k, true)) (seqZ 1 16)) /\
  match x with
  | Some x =>
      ping_ok (app x) /\ sweep_ok 6 (partial small_msgs) (link_of 6 (fst (io x))) /\
      match loop x with Some (_, x') => loop_sent x x' | None => True end
  | None => True
  end.
Proof.
  split; [vm_compute; reflexivity|].
  apply (ping_over_autolink peer_yield 10 6 peer_background (fun _ h => (0, h)) zero_random).
Defined.
End AutoLinkLaws.
