(* ===== verification/PingPongMain.v ===== *)
(** * The demo's entry point ([src/al/pingpong/PingPongMain.h]) and its web hooks

    [PingPong] is a [Ping] or a [Pong], chosen when it is constructed; [setup] and
    [loop] go to the one there is. The web monitor reaches [Ping] through the hooks
    of [installWebHooks]. [ping_starts] runs the whole stack: the application over
    the facade over the link. *)
From S2P Require Import Prelude Monad Config Hal LinkState Comm PingPong Ping Pong WebHandlers AutoLink.
Import AutoLink WebHandlers Comm Config Hal LinkState PingPong Ping Pong.

Module PingPongMain.

Inductive Role := PING | PONG.

(** [role_id_] and [active_]. *)
Inductive Active := IsPing (p : Ping.Ping) | IsPong (p : Pong.Pong).
Record PingPongApp := mkPingPong { role_id_ : Role; active_ : Active }.
#[export] Instance eta_PingPongApp : Eta PingPongApp := fun r => mkPingPong (role_id_ r) (active_ r).

Definition pingpong_init (r : Role) : PingPongApp :=
  mkPingPong r (match r with PING => IsPing ping_init | PONG => IsPong pong_init end).

Section Main.
Context {W : Type} `{CW : Comm.Comm W} `{BW : Backlog W}.

(** [std::visit] *)
Definition visit (f : App Ping.Ping W unit) (g : App Pong.Pong W unit) : App PingPongApp W unit := fun n =>
  match active_ (app n) with
  | IsPing p =>
      match f (mkNode p (io n)) with
      | Some (_, n') => Some (tt, mkNode ((app n) <| active_ := IsPing (app n') |>) (io n'))
      | None => None
      end
  | IsPong p =>
      match g (mkNode p (io n)) with
      | Some (_, n') => Some (tt, mkNode ((app n) <| active_ := IsPong (app n') |>) (io n'))
      | None => None
      end
  end.

Definition setup (saved : option Z) (up : bool) : App PingPongApp W unit := visit (Ping.setup saved up) (Pong.setup saved).
Definition loop : App PingPongApp W unit := visit Ping.loop Pong.loop.
Definition setFillMode (m : FillMode) : App PingPongApp W unit := visit (Ping.setFillMode m) (ret tt).
Definition fillMode (a : PingPongApp) : FillMode :=
  match active_ a with IsPing p => fillMode_ p | IsPong _ => SEQUENTIAL end.

(** [installWebHooks]: what a request of the web monitor does to [Ping]; the delay
    goes to the link. *)
Definition web_hook (setTxDelayMs : Z -> W -> W) (e : WebHandlers.Effect) : App Ping.Ping W unit :=
  match e with
  | WebHandlers.WriteFillMode m => Ping.setFillMode (if m =? 0 then SEQUENTIAL else RANDOM)
  | WebHandlers.WriteMsgPaused p => setPaused p
  | WebHandlers.WriteTxDelay ms => act (setTxDelayMs ms)
  | _ => ret tt
  end.
End Main.

(** ** The stack at work *)

(** Over the desktop mock: a call takes a millisecond, the random numbers are zero. *)
Definition mock_yield (w : World MockHal) : World MockHal := mkWorld (lk w) (mock_advance 1 (hal w)).
#[local] Instance stack_comm : Comm.Comm (AutoLink MockHal) :=
  autolink_comm mock_yield 1000 (fun _ h => (0, h)).
#[local] Instance stack_backlog : Backlog (AutoLink MockHal) :=
  fun a => length (m_appBuf (hal (net a))).

(** Set up with the monitor down: the link is resumed and started, the master has
    sent its BREAK and waits for the peer with its timer armed. *)
Lemma ping_starts :
  let n := mkNode (pingpong_init PING) (autolink_init true default_config (Hal.mock_init 4096)) in
  match (setup None false;; loop;; loop) n with
  | Some (_, n) =>
      let w := net (io n) in
      match active_ (app n) with IsPing p => Ping.paused_ p = false /\ Ping.wasReady_ p = false | IsPong _ => False end /\
      state (lk w) = SWP /\ linkPaused_ (ses (lk w)) = false /\ kickedOff_ (ses (lk w)) = true /\
      0 < m_breaks (hal w) /\ 0 < m_timer (hal w)
  | None => False
  end.
Proof. vm_compute. repeat split. Qed.

End PingPongMain.
